(** * Snabbdom reconciliation engine ([src/init.ts]): a shallow embedding

    The engine is imperative JavaScript: vnodes and child arrays are heap
    objects that are mutated in place ([vnode.elm = ...],
    [oldCh[idxInOld] = undefined]), the host document is mutated through an
    adapter ([api]), and user code is called back through hooks.  The
    embedding keeps this shape:

    - a store of vnode objects and a store of child arrays, addressed by
      references, so that [oldVnode === vnode] and [oldCh !== ch] are
      comparisons of references;
    - a host tree (kinds, attributes, ordered child lists, parent
      pointers) together with an allocation counter;
    - a trace of every adapter call and every hook invocation, in order;
    - a small state-and-exception monad [M]; recursion through the vnode
      tree and the [while] loop of [updateChildren] are driven by fuel.

    Hooks are opaque callbacks.  A hook invocation is recorded in the trace;
    the only effect of a hook on the engine that is modelled is a [remove]
    hook calling its completion callback [rm] a number of times before it
    returns (later, deferred calls are further [rmCb] steps on the final
    state).  Child arrays hold vnodes or null/undefined, as the casts
    [as VNode[]] of the source assume.  Objects used as string-keyed maps
    are finite maps; names inherited from [Object.prototype] are not
    modelled. *)

From Stdlib Require Import ZArith Lia Ascii String.
From stdpp Require Import gmap strings list fin_maps pretty.

Open Scope Z_scope.
Open Scope nat_scope.

(** ** Data model *)

(** References to host nodes, vnode objects, child arrays and [rm]
    closures. *)
Abbreviation node := nat (only parsing).
Abbreviation vref := nat (only parsing).
Abbreviation aref := nat (only parsing).
Abbreviation cref := nat (only parsing).

(** [Key = string | number]; integers stand for the numbers. *)
Inductive Key :=
| KeyStr (s : string)
| KeyNum (z : Z).

Global Instance Key_eq_dec : EqDecision Key.
Proof. solve_decision. Defined.

(** [map[key as string]]: a key used as a property name is converted to a
    string; [undefined] becomes the name "undefined". *)
Definition key_name (k : Key) : string :=
  match k with
  | KeyStr s => s
  | KeyNum z => pretty z
  end.

Definition prop_name (k : option Key) : string :=
  match k with
  | Some k => key_name k
  | None => "undefined"
  end.

(** [data.hook]: which per-node hooks are supplied.  A [remove] hook is
    described by the number of times it calls [rm] before returning. *)
Record Hooks := {
  h_init : bool;
  h_create : bool;
  h_insert : bool;
  h_prepatch : bool;
  h_update : bool;
  h_postpatch : bool;
  h_destroy : bool;
  h_remove : option nat
}.

Record VNodeData := {
  d_hook : option Hooks;
  d_ns : option string;
  d_is : option string
}.

(** [{}] *)
Definition empty_data : VNodeData :=
  {| d_hook := None; d_ns := None; d_is := None |}.

Record VNode := {
  sel : option string;
  key : option Key;
  data : option VNodeData;
  children : option aref;
  text : option string;
  elm : option node
}.

Global Instance Hooks_eq_dec : EqDecision Hooks.
Proof. solve_decision. Defined.
Global Instance VNodeData_eq_dec : EqDecision VNodeData.
Proof. solve_decision. Defined.
Global Instance VNode_eq_dec : EqDecision VNode.
Proof. solve_decision. Defined.

Definition set_elm (e : option node) (v : VNode) : VNode :=
  {| sel := sel v; key := key v; data := data v; children := children v;
     text := text v; elm := e |}.
Definition set_text (t : option string) (v : VNode) : VNode :=
  {| sel := sel v; key := key v; data := data v; children := children v;
     text := t; elm := elm v |}.
Definition set_data (d : option VNodeData) (v : VNode) : VNode :=
  {| sel := sel v; key := key v; data := d; children := children v;
     text := text v; elm := elm v |}.

(** Host nodes. *)
Inductive Kind :=
| KElement (tag : string) (ns : option string)
| KText (s : string)
| KComment (s : string)
| KFragment.

(** Adapter calls and hook invocations, as they appear in the trace. *)
Inductive ApiCall :=
| CreateElement (tag : string) (res : node)
| CreateElementNS (ns tag : string) (res : node)
| CreateTextNode (s : string) (res : node)
| CreateComment (s : string) (res : node)
| CreateDocumentFragment (res : node)
| SetAttribute (e : node) (name value : string)
| InsertBefore (parent child : node) (ref : option node)
| AppendChild (parent child : node)
| RemoveChild (parent child : node)
| SetTextContent (e : node) (s : string).

Inductive HookCall :=
| ModPre (m : nat)
| ModPost (m : nat)
| ModCreate (m : nat) (v : vref)
| ModUpdate (m : nat) (o n : vref)
| ModDestroy (m : nat) (v : vref)
| ModRemove (m : nat) (v : vref) (rm : cref)
| HookInit (v : vref)
| HookCreate (v : vref)
| HookInsert (v : vref)
| HookPrepatch (o n : vref)
| HookUpdate (o n : vref)
| HookPostpatch (o n : vref)
| HookDestroy (v : vref)
| HookRemove (v : vref) (rm : cref).

Inductive Event :=
| EApi (c : ApiCall)
| EHook (h : HookCall).

Global Instance ApiCall_eq_dec : EqDecision ApiCall.
Proof. solve_decision. Defined.
Global Instance HookCall_eq_dec : EqDecision HookCall.
Proof. solve_decision. Defined.
Global Instance Event_eq_dec : EqDecision Event.
Proof. solve_decision. Defined.

(** The whole mutable world. *)
Record State := {
  vnodes : gmap nat VNode;
  arrays : gmap nat (list (option nat));
  kind : gmap nat Kind;
  attr : gmap (nat * string) string;
  kids : gmap nat (list nat);
  parent : gmap nat nat;
  next_node : nat;
  rmcbs : list (option nat * Z);
  queue : list nat;
  trace : list Event
}.

Definition with_vnodes (f : gmap nat VNode → gmap nat VNode) (st : State) : State :=
  {| vnodes := f (vnodes st); arrays := arrays st; kind := kind st;
     attr := attr st; kids := kids st; parent := parent st;
     next_node := next_node st; rmcbs := rmcbs st; queue := queue st;
     trace := trace st |}.
Definition with_arrays (f : gmap nat (list (option nat)) → gmap nat (list (option nat)))
    (st : State) : State :=
  {| vnodes := vnodes st; arrays := f (arrays st); kind := kind st;
     attr := attr st; kids := kids st; parent := parent st;
     next_node := next_node st; rmcbs := rmcbs st; queue := queue st;
     trace := trace st |}.
Definition with_kind (f : gmap nat Kind → gmap nat Kind) (st : State) : State :=
  {| vnodes := vnodes st; arrays := arrays st; kind := f (kind st);
     attr := attr st; kids := kids st; parent := parent st;
     next_node := next_node st; rmcbs := rmcbs st; queue := queue st;
     trace := trace st |}.
Definition with_attr (f : gmap (nat * string) string → gmap (nat * string) string)
    (st : State) : State :=
  {| vnodes := vnodes st; arrays := arrays st; kind := kind st;
     attr := f (attr st); kids := kids st; parent := parent st;
     next_node := next_node st; rmcbs := rmcbs st; queue := queue st;
     trace := trace st |}.
Definition with_kids (f : gmap nat (list nat) → gmap nat (list nat)) (st : State) : State :=
  {| vnodes := vnodes st; arrays := arrays st; kind := kind st;
     attr := attr st; kids := f (kids st); parent := parent st;
     next_node := next_node st; rmcbs := rmcbs st; queue := queue st;
     trace := trace st |}.
Definition with_parent (f : gmap nat nat → gmap nat nat) (st : State) : State :=
  {| vnodes := vnodes st; arrays := arrays st; kind := kind st;
     attr := attr st; kids := kids st; parent := f (parent st);
     next_node := next_node st; rmcbs := rmcbs st; queue := queue st;
     trace := trace st |}.
Definition with_next_node (n : nat) (st : State) : State :=
  {| vnodes := vnodes st; arrays := arrays st; kind := kind st;
     attr := attr st; kids := kids st; parent := parent st;
     next_node := n; rmcbs := rmcbs st; queue := queue st;
     trace := trace st |}.
Definition with_rmcbs (f : list (option nat * Z) → list (option nat * Z)) (st : State) : State :=
  {| vnodes := vnodes st; arrays := arrays st; kind := kind st;
     attr := attr st; kids := kids st; parent := parent st;
     next_node := next_node st; rmcbs := f (rmcbs st); queue := queue st;
     trace := trace st |}.
Definition with_queue (f : list nat → list nat) (st : State) : State :=
  {| vnodes := vnodes st; arrays := arrays st; kind := kind st;
     attr := attr st; kids := kids st; parent := parent st;
     next_node := next_node st; rmcbs := rmcbs st; queue := f (queue st);
     trace := trace st |}.
Definition with_trace (f : list Event → list Event) (st : State) : State :=
  {| vnodes := vnodes st; arrays := arrays st; kind := kind st;
     attr := attr st; kids := kids st; parent := parent st;
     next_node := next_node st; rmcbs := rmcbs st; queue := queue st;
     trace := f (trace st) |}.

(** ** The monad: state, exceptions, fuel *)

Inductive Error :=
| TypeError            (* property access on undefined/null, call of a non-function *)
| NotFoundError        (* DOMException of insertBefore / removeChild *)
| FragmentNotSupported (* thrown by [documentFragmentIsNotSupported] *).

Global Instance Error_eq_dec : EqDecision Error.
Proof. solve_decision. Defined.

Inductive Res (A : Type) :=
| Ok (a : A) (st : State)
| Throw (e : Error) (st : State)
| OutOfFuel.
Arguments Ok {A} a st.
Arguments Throw {A} e st.
Arguments OutOfFuel {A}.

Definition M (A : Type) : Type := State → Res A.

Definition ret {A} (a : A) : M A := fun st => Ok a st.
Definition bind {A B} (m : M A) (k : A → M B) : M B :=
  fun st =>
    match m st with
    | Ok a st' => k a st'
    | Throw e st' => Throw e st'
    | OutOfFuel => OutOfFuel
    end.
Definition throw {A} (e : Error) : M A := fun st => Throw e st.
Definition out_of_fuel {A} : M A := fun _ => OutOfFuel.
Definition get : M State := fun st => Ok st st.
Definition modify (f : State → State) : M unit := fun st => Ok tt (f st).

Notation "'let*' x ':=' m 'in' k" := (bind m (fun x => k))
  (at level 10, x pattern, m at level 100, k at level 200).
Notation "m ';;' k" := (bind m (fun _ => k))
  (at level 100, k at level 200, right associativity).

Definition when (b : bool) (m : M unit) : M unit := if b then m else ret tt.

(** [for (i = 0; i < xs.length; ++i) f(xs[i])] over a list that the body
    does not change. *)
Fixpoint for_each {A} (xs : list A) (f : A → M unit) : M unit :=
  match xs with
  | [] => ret tt
  | x :: xs' => f x ;; for_each xs' f
  end.

Definition emit (e : Event) : M unit := modify (with_trace (fun t => t ++ [e])).
Definition hook (h : HookCall) : M unit := emit (EHook h).
Definition api_call (c : ApiCall) : M unit := emit (EApi c).

(** Reading and writing vnode objects.  A reference that names no object
    cannot arise in JavaScript; the model answers it like an access through
    [undefined]. *)
Definition read (r : vref) : M VNode :=
  fun st => match vnodes st !! r with
            | Some v => Ok v st
            | None => Throw TypeError st
            end.
Definition update_vnode (r : vref) (f : VNode → VNode) : M unit :=
  let* v := read r in
  modify (with_vnodes (fun m => <[r := f v]> m)).
Definition read_array (a : aref) : M (list (option vref)) :=
  fun st => match arrays st !! a with
            | Some l => Ok l st
            | None => Throw TypeError st
            end.
(** [x!] where the engine hands [x] to code that dereferences it. *)
Definition defined {A} (o : option A) : M A :=
  match o with
  | Some a => ret a
  | None => throw TypeError
  end.

(** ** String primitives of the selector parser *)

Fixpoint str_drop (n : nat) (s : string) : string :=
  match n, s with
  | S n', String _ s' => str_drop n' s'
  | _, _ => s
  end.
Fixpoint str_take (n : nat) (s : string) : string :=
  match n, s with
  | S n', String a s' => String a (str_take n' s')
  | _, _ => EmptyString
  end.
Fixpoint find_char (c : ascii) (s : string) (pos : nat) : Z :=
  match s with
  | EmptyString => (-1)%Z
  | String a s' => if decide (a = c) then Z.of_nat pos else find_char c s' (S pos)
  end.
Definition str_len (s : string) : Z := Z.of_nat (String.length s).

(** [s.indexOf(c, from)] for a one-character pattern. *)
Definition indexOf (s : string) (c : ascii) (from : Z) : Z :=
  let k := Z.to_nat (Z.min (Z.max from 0) (str_len s)) in
  find_char c (str_drop k s) k.

(** [s.slice(a, b)] *)
Definition slice (s : string) (a b : Z) : string :=
  let len := str_len s in
  let lo := if (a <? 0)%Z then Z.max (len + a) 0 else Z.min a len in
  let hi := if (b <? 0)%Z then Z.max (len + b) 0 else Z.min b len in
  str_take (Z.to_nat (hi - lo)) (str_drop (Z.to_nat lo) s).

(** [s.replace(/c/g, d)] and [s.split(c).join(d)] for single characters. *)
Fixpoint replace_char (c d : ascii) (s : string) : string :=
  match s with
  | EmptyString => EmptyString
  | String a s' => String (if decide (a = c) then d else a) (replace_char c d s')
  end.

Definition lower_ascii (a : ascii) : ascii :=
  let n := nat_of_ascii a in
  if decide (65 ≤ n ∧ n ≤ 90) then ascii_of_nat (n + 32) else a.
Fixpoint toLowerCase (s : string) : string :=
  match s with
  | EmptyString => EmptyString
  | String a s' => String (lower_ascii a) (toLowerCase s')
  end.

(** ** The host tree adapter *)

(** Modelled from the spec: the host tree adapter ([DOMAPI], by default
    [htmlDomApi]) is a parameter of [init] and its code is not part of the
    engine; section 6 of the specification lists its capabilities.  The
    model is the document tree those capabilities name: [insertBefore]
    and [appendChild] first take the node out of its current parent;
    [insertBefore] and [removeChild] raise [NotFoundError] when the
    reference (resp. the child) is not a child of the given parent; a
    reference that is the moved node itself stands for its next sibling;
    [setTextContent] on an element replaces its children by one text node
    (none for the empty string).  Every call is recorded in the trace
    before it takes effect. *)

Definition kids_of (st : State) (p : node) : list node :=
  default [] (kids st !! p).

Fixpoint next_in (x : node) (l : list node) : option node :=
  match l with
  | [] => None
  | y :: l' => if decide (y = x) then head l' else next_in x l'
  end.

Definition parent_of (st : State) (x : node) : option node := parent st !! x.
Definition sibling_of (st : State) (x : node) : option node :=
  match parent st !! x with
  | Some p => next_in x (kids_of st p)
  | None => None
  end.

Definition parentNode (x : node) : M (option node) :=
  fun st => Ok (parent_of st x) st.
Definition nextSibling (x : node) : M (option node) :=
  fun st => Ok (sibling_of st x) st.

Definition remove_node (x : node) (l : list node) : list node :=
  filter (fun y => y ≠ x) l.

Fixpoint insert_before (r x : node) (l : list node) : list node :=
  match l with
  | [] => [x]
  | y :: l' => if decide (y = r) then x :: y :: l' else y :: insert_before r x l'
  end.
Definition place (ref : option node) (x : node) (l : list node) : list node :=
  match ref with
  | Some r => insert_before r x l
  | None => l ++ [x]
  end.

Definition detach (x : node) (st : State) : State :=
  match parent st !! x with
  | Some p =>
      with_parent (delete x)
        (with_kids (fun m => <[p := remove_node x (kids_of st p)]> m) st)
  | None => st
  end.
Definition attach (p x : node) (ref : option node) (st : State) : State :=
  with_parent (fun m => <[x := p]> m)
    (with_kids (fun m => <[p := place ref x (kids_of st p)]> m) st).

Definition alloc (k : Kind) : M node :=
  fun st =>
    let n := next_node st in
    Ok n (with_next_node (S n) (with_kind (fun m => <[n := k]> m) st)).

Definition createElement (tag : string) : M node :=
  let* n := alloc (KElement tag None) in
  api_call (CreateElement tag n) ;; ret n.
Definition createElementNS (ns tag : string) : M node :=
  let* n := alloc (KElement tag (Some ns)) in
  api_call (CreateElementNS ns tag n) ;; ret n.
Definition createTextNode (s : string) : M node :=
  let* n := alloc (KText s) in
  api_call (CreateTextNode s n) ;; ret n.
Definition createComment (s : string) : M node :=
  let* n := alloc (KComment s) in
  api_call (CreateComment s n) ;; ret n.
Definition createDocumentFragment : M node :=
  let* n := alloc KFragment in
  api_call (CreateDocumentFragment n) ;; ret n.

Definition setAttribute (e : node) (name value : string) : M unit :=
  api_call (SetAttribute e name value) ;;
  modify (with_attr (fun m => <[(e, name) := value]> m)).

Definition insertBefore (p x : node) (ref : option node) : M unit :=
  api_call (InsertBefore p x ref) ;;
  let* st := get in
  match ref with
  | Some r =>
      if decide (parent_of st r = Some p)
      then
        let ref' := if decide (r = x) then sibling_of st x else Some r in
        modify (fun st => attach p x ref' (detach x st))
      else throw NotFoundError
  | None => modify (fun st => attach p x None (detach x st))
  end.

Definition appendChild (p x : node) : M unit :=
  api_call (AppendChild p x) ;;
  modify (fun st => attach p x None (detach x st)).

Definition removeChild (p x : node) : M unit :=
  api_call (RemoveChild p x) ;;
  let* st := get in
  if decide (parent_of st x = Some p)
  then modify (detach x)
  else throw NotFoundError.

Definition clear_kids (e : node) (st : State) : State :=
  with_kids (fun m => <[e := []]> m)
    (with_parent (fun m => foldr delete m (kids_of st e)) st).

Definition setTextContent (e : node) (s : string) : M unit :=
  api_call (SetTextContent e s) ;;
  let* st := get in
  match kind st !! e with
  | Some (KText _) => modify (with_kind (fun m => <[e := KText s]> m))
  | Some (KComment _) => modify (with_kind (fun m => <[e := KComment s]> m))
  | _ =>
      modify (clear_kids e) ;;
      if decide (s = EmptyString) then ret tt
      else
        let* t := alloc (KText s) in
        modify (attach e t None)
  end.

Definition tagName (e : node) : M string :=
  fun st => match kind st !! e with
            | Some (KElement tag _) => Ok tag st
            | _ => Throw TypeError st
            end.
Definition is_element (st : State) (e : node) : bool :=
  match kind st !! e with Some (KElement _ _) => true | _ => false end.
Definition is_fragment (st : State) (e : node) : bool :=
  match kind st !! e with Some KFragment => true | _ => false end.

(** ** Construction-time configuration ([init]) *)

(** An extension module: which hooks it implements.  A module [remove]
    hook is described by the number of times it calls [rm] before
    returning, for each node. *)
Record Module := {
  m_pre : bool;
  m_create : bool;
  m_update : bool;
  m_destroy : bool;
  m_remove : option (vref → nat);
  m_post : bool
}.

(** The optional capabilities of the adapter. *)
Record DOMAPI := {
  has_createDocumentFragment : bool;
  has_isDocumentFragment : bool
}.

(** [options?.experimental?.fragments] *)
Record Options := { fragments : bool }.

(** [cbs]: for every hook name, the modules that implement it, in
    registration order.  A module hook is named by its module's index. *)
Definition collect {A} (f : Module → option A) (modules : list Module) : list (nat * A) :=
  omap (fun p => (fun h => (p.1, h)) <$> f p.2) (imap pair modules).
Definition flag (b : bool) : option unit := if b then Some tt else None.

Record ModuleHooks := {
  cb_create : list nat;
  cb_update : list nat;
  cb_remove : list (nat * (vref → nat));
  cb_destroy : list nat;
  cb_pre : list nat;
  cb_post : list nat
}.

Definition init_cbs (modules : list Module) : ModuleHooks :=
  {| cb_create := fst <$> collect (fun m => flag (m_create m)) modules;
     cb_update := fst <$> collect (fun m => flag (m_update m)) modules;
     cb_remove := collect m_remove modules;
     cb_destroy := fst <$> collect (fun m => flag (m_destroy m)) modules;
     cb_pre := fst <$> collect (fun m => flag (m_pre m)) modules;
     cb_post := fst <$> collect (fun m => flag (m_post m)) modules |}.

(** ** Pure helpers of [init.ts] *)

(** [vnode.data?.is] *)
Definition is_of (v : VNode) : option string :=
  match data v with Some d => d_is d | None => None end.

Definition sameVnode (vnode1 vnode2 : VNode) : bool :=
  let isSameKey := bool_decide (key vnode1 = key vnode2) in
  let isSameIs := bool_decide (is_of vnode1 = is_of vnode2) in
  let isSameSel := bool_decide (sel vnode1 = sel vnode2) in
  isSameSel && isSameKey && isSameIs.

(** [a[i]] for a JavaScript index: [undefined] outside the array; null and
    undefined slots are not told apart. *)
Definition aget (a : list (option vref)) (i : Z) : option vref :=
  if (i <? 0)%Z then None else mjoin (a !! Z.to_nat i).

(** [children[i]?.key] *)
Definition key_at (vs : gmap nat VNode) (children : list (option vref)) (i : Z) : option Key :=
  match aget children i with
  | Some r => match vs !! r with Some v => key v | None => None end
  | None => None
  end.

Definition createKeyToOldIdx (vs : gmap nat VNode) (children : list (option vref))
    (beginIdx endIdx : Z) : gmap string Z :=
  foldl (fun map i =>
           match key_at vs children i with
           | Some k => <[key_name k := i]> map
           | None => map
           end)
        ∅ (seqZ beginIdx (endIdx - beginIdx + 1)).

(** [vnode.data?.hook] *)
Definition hook_of (v : VNode) : option Hooks :=
  match data v with Some d => d_hook d | None => None end.
Definition has_hook (f : Hooks → bool) (v : VNode) : bool :=
  match hook_of v with Some h => f h | None => false end.

Record Selector := { s_tag : string; s_id : option string; s_class : option string }.

(** The selector parser at the head of the element branch of [createElm]. *)
Definition parse_sel (sel : string) : Selector :=
  let hashIdx := indexOf sel "#" 0 in
  let dotIdx := indexOf sel "." hashIdx in
  let hash := if (hashIdx >? 0)%Z then hashIdx else str_len sel in
  let dot := if (dotIdx >? 0)%Z then dotIdx else str_len sel in
  let tag :=
    if negb (hashIdx =? -1)%Z || negb (dotIdx =? -1)%Z
    then slice sel 0 (Z.min hash dot)
    else sel in
  {| s_tag := tag;
     s_id := if (hash <? dot)%Z then Some (slice sel (hash + 1) dot) else None;
     s_class := if (dotIdx >? 0)%Z
                then Some (replace_char "." " " (slice sel (dot + 1) (str_len sel)))
                else None |}.

Fixpoint repeat_m (n : nat) (m : M unit) : M unit :=
  match n with
  | 0 => ret tt
  | S n' => m ;; repeat_m n' m
  end.

(** The old root handed to [patch]: a vnode, or a host element or fragment. *)
Inductive Root :=
| RootVNode (v : vref)
| RootNode (e : node).

(** The local variables of the [while] loop of [updateChildren]. *)
Record Loop := {
  oldStartIdx : Z;
  newStartIdx : Z;
  oldEndIdx : Z;
  newEndIdx : Z;
  oldStartVnode : option vref;
  oldEndVnode : option vref;
  newStartVnode : option vref;
  newEndVnode : option vref;
  oldKeyToIdx : option (gmap string Z)
}.

(** ** The engine: the functions closed over by [init] *)

Section Init.
Variable modules : list Module.
Variable api : DOMAPI.
Variable options : Options.

Definition cbs : ModuleHooks := init_cbs modules.

(** Allocation of a vnode object and of a children array. *)
Definition new_vnode (v : VNode) : M vref :=
  fun st =>
    let r := fresh (dom (vnodes st)) in
    Ok r (with_vnodes (fun m => <[r := v]> m) st).
Definition new_array (l : list (option vref)) : M aref :=
  fun st =>
    let a := fresh (dom (arrays st)) in
    Ok a (with_arrays (fun m => <[a := l]> m) st).

(** [emptyNodeAt]: the vnode [vnode(sel, {}, [], undefined, elm)] that
    stands for a host element, its selector read off the element. *)
Definition emptyNodeAt (elm : node) : M vref :=
  let* st := get in
  let id := match attr st !! (elm, "id") with
            | Some i => if decide (i = EmptyString) then EmptyString else "#" +:+ i
            | None => EmptyString
            end in
  let c := match attr st !! (elm, "class") with
           | Some classes =>
               if decide (classes = EmptyString) then EmptyString
               else "." +:+ replace_char " " "." classes
           | None => EmptyString
           end in
  let* tag := tagName elm in
  let* a := new_array [] in
  new_vnode {| sel := Some (toLowerCase tag +:+ id +:+ c); key := None;
               data := Some empty_data; children := Some a; text := None;
               elm := Some elm |}.

Definition emptyDocumentFragmentAt (frag : node) : M vref :=
  let* a := new_array [] in
  new_vnode {| sel := None; key := None; data := Some empty_data;
               children := Some a; text := None; elm := Some frag |}.

(** [createRmCb]: the closure owns the mutable counter [listeners]. *)
Definition createRmCb (childElm : option node) (listeners : Z) : M cref :=
  fun st => Ok (length (rmcbs st))
               (with_rmcbs (fun l => l ++ [(childElm, listeners)]) st).

Definition rmCb (c : cref) : M unit :=
  let* st := get in
  match rmcbs st !! c with
  | None => throw TypeError
  | Some (childElm, listeners) =>
      let listeners := (listeners - 1)%Z in
      modify (with_rmcbs (fun l => <[c := (childElm, listeners)]> l)) ;;
      if decide (listeners = 0%Z)
      then
        let* childElm := defined childElm in
        let* parent := parentNode childElm in
        let* parent := defined parent in
        removeChild parent childElm
      else ret tt
  end.

Definition push_inserted (r : vref) : M unit :=
  modify (with_queue (fun q => q ++ [r])).

(** The blocks of the element branch of [createElm]; the recursive call
    is a parameter.  [build_element] makes the element, its attributes
    and its children; [finish_element] reads [vnode.data!.hook]. *)
Definition build_element (createElm : vref → M node) (r : vref) (sel : string)
    (vnode : VNode) : M unit :=
  let p := parse_sel sel in
  let* elm :=
    match data vnode with
    | Some d =>
        match d_ns d with
        | Some ns => createElementNS ns (s_tag p)
        | None => createElement (s_tag p)
        end
    | None => createElement (s_tag p)
    end in
  update_vnode r (set_elm (Some elm)) ;;
  match s_id p with
  | Some i => setAttribute elm "id" i
  | None => ret tt
  end ;;
  match s_class p with
  | Some c => setAttribute elm "class" c
  | None => ret tt
  end ;;
  for_each (cb_create cbs) (fun m => hook (ModCreate m r)) ;;
  match children vnode with
  | Some a =>
      let* chs := read_array a in
      for_each chs (fun ch =>
        match ch with
        | Some ch =>
            let* e := createElm ch in
            appendChild elm e
        | None => ret tt
        end)
  | None =>
      let* vnode := read r in
      match text vnode with
      | Some t =>
          let* e := createTextNode t in
          appendChild elm e
      | None => ret tt
      end
  end.

Definition finish_element (r : vref) : M unit :=
  let* vnode := read r in
  let* d := defined (data vnode) in
  match d_hook d with
  | Some h =>
      when (h_create h) (hook (HookCreate r)) ;;
      when (h_insert h) (push_inserted r)
  | None => ret tt
  end.

Definition build_fragment (createElm : vref → M node) (r : vref) (a : aref) : M unit :=
  let* e := if has_createDocumentFragment api
            then createDocumentFragment
            else throw FragmentNotSupported in
  update_vnode r (set_elm (Some e)) ;;
  for_each (cb_create cbs) (fun m => hook (ModCreate m r)) ;;
  let* chs := read_array a in
  for_each chs (fun ch =>
    match ch with
    | Some ch =>
        let* vnode := read r in
        let* e := createElm ch in
        let* p := defined (elm vnode) in
        appendChild p e
    | None => ret tt
    end).

Fixpoint createElm (fuel : nat) (r : vref) : M node :=
  match fuel with
  | 0 => out_of_fuel
  | S fuel =>
      let* vnode := read r in
      when (has_hook h_init vnode) (hook (HookInit r)) ;;
      let* vnode := read r in
      match sel vnode with
      | Some sel =>
          if decide (sel = "!")
          then
            when (bool_decide (text vnode = None))
                 (update_vnode r (set_text (Some EmptyString))) ;;
            let* vnode := read r in
            let* e := createComment (default "undefined" (text vnode)) in
            update_vnode r (set_elm (Some e))
          else
            build_element (createElm fuel) r sel vnode ;;
            finish_element r
      | None =>
          match (if fragments options then children vnode else None) with
          | Some a => build_fragment (createElm fuel) r a
          | None =>
              let* e := createTextNode (default "undefined" (text vnode)) in
              update_vnode r (set_elm (Some e))
          end
      end ;;
      let* vnode := read r in
      defined (elm vnode)
  end.

(** [for (; startIdx <= endIdx; ++startIdx)] *)
Definition for_range (startIdx endIdx : Z) (f : Z → M unit) : M unit :=
  for_each (seqZ startIdx (endIdx - startIdx + 1)) f.

Definition addVnodes (fuel : nat) (parentElm : option node) (before : option node)
    (vnodes : aref) (startIdx endIdx : Z) : M unit :=
  for_range startIdx endIdx (fun i =>
    let* a := read_array vnodes in
    match aget a i with
    | Some ch =>
        let* e := createElm fuel ch in
        let* p := defined parentElm in
        insertBefore p e before
    | None => ret tt
    end).

Fixpoint invokeDestroyHook (fuel : nat) (r : vref) : M unit :=
  match fuel with
  | 0 => out_of_fuel
  | S fuel =>
      let* vnode := read r in
      match data vnode with
      | Some _ =>
          when (has_hook h_destroy vnode) (hook (HookDestroy r)) ;;
          for_each (cb_destroy cbs) (fun m => hook (ModDestroy m r)) ;;
          let* vnode := read r in
          match children vnode with
          | Some a =>
              let* chs := read_array a in
              for_each chs (fun child =>
                match child with
                | Some child => invokeDestroyHook fuel child
                | None => ret tt
                end)
          | None => ret tt
          end
      | None => ret tt
      end
  end.

(** The body of the loop of [removeVnodes], for [ch != null]. *)
Definition removeVnode (fuel : nat) (parentElm : option node) (ch : vref) : M unit :=
  let* v := read ch in
  if bool_decide (sel v ≠ None)
  then
    invokeDestroyHook fuel ch ;;
    let listeners := (Z.of_nat (length (cb_remove cbs)) + 1)%Z in
    let* v := read ch in
    let* rm := createRmCb (elm v) listeners in
    for_each (cb_remove cbs) (fun mh =>
      hook (ModRemove mh.1 ch rm) ;; repeat_m (mh.2 ch) (rmCb rm)) ;;
    let* v := read ch in
    match hook_of v ≫= h_remove with
    | Some calls => hook (HookRemove ch rm) ;; repeat_m calls (rmCb rm)
    | None => rmCb rm
    end
  else
    let* p := defined parentElm in
    let* e := defined (elm v) in
    removeChild p e.

Definition removeVnodes (fuel : nat) (parentElm : option node)
    (vnodes : list (option vref)) (startIdx endIdx : Z) : M unit :=
  for_range startIdx endIdx (fun i =>
    match aget vnodes i with
    | Some ch => removeVnode fuel parentElm ch
    | None => ret tt
    end).

(** [updateChildren], with the recursive call to [patchVnode] as a
    parameter: [patchVnode] and [updateChildren] call each other. *)
Section UpdateChildren.
Variable patchVnode : vref → vref → M unit.
Variable fuel : nat.
Variable parentElm : option node.
Variables oldCh newCh : aref.

Definition same (o n : vref) : M bool :=
  let* ov := read o in
  let* nv := read n in
  ret (sameVnode ov nv).

Definition elm_of (r : vref) : M (option node) :=
  let* v := read r in ret (elm v).

Definition old_at (i : Z) : M (option vref) :=
  let* a := read_array oldCh in ret (aget a i).
Definition new_at (i : Z) : M (option vref) :=
  let* a := read_array newCh in ret (aget a i).

(** The final [else] of the loop body: the lookup by key. *)
Definition keyed (l : Loop) (oldStart newStart : vref) : M Loop :=
  let* st := get in
  let* oldArr := read_array oldCh in
  let map := match oldKeyToIdx l with
             | Some map => map
             | None => createKeyToOldIdx (vnodes st) oldArr (oldStartIdx l) (oldEndIdx l)
             end in
  let* nv := read newStart in
  match map !! prop_name (key nv) with
  | None =>
      let* e := createElm fuel newStart in
      let* ref := elm_of oldStart in
      let* p := defined parentElm in
      insertBefore p e ref
  | Some idxInOld =>
      let* elmToMove := defined (aget oldArr idxInOld) in
      let* mv := read elmToMove in
      let* nv := read newStart in
      if bool_decide (sel mv ≠ sel nv)
      then
        let* e := createElm fuel newStart in
        let* ref := elm_of oldStart in
        let* p := defined parentElm in
        insertBefore p e ref
      else
        patchVnode elmToMove newStart ;;
        let* arr := read_array oldCh in
        modify (with_arrays (fun m =>
          <[oldCh := <[Z.to_nat idxInOld := None]> arr]> m)) ;;
        let* x := elm_of elmToMove in
        let* ref := elm_of oldStart in
        let* p := defined parentElm in
        let* x := defined x in
        insertBefore p x ref
  end ;;
  let* ns := new_at (newStartIdx l + 1) in
  ret {| oldStartIdx := oldStartIdx l; newStartIdx := newStartIdx l + 1;
         oldEndIdx := oldEndIdx l; newEndIdx := newEndIdx l;
         oldStartVnode := oldStartVnode l; oldEndVnode := oldEndVnode l;
         newStartVnode := ns; newEndVnode := newEndVnode l;
         oldKeyToIdx := Some map |}.

(** One iteration of the [while] loop. *)
Definition step (l : Loop) : M Loop :=
  match oldStartVnode l, oldEndVnode l, newStartVnode l, newEndVnode l with
  | None, _, _, _ =>
      let* v := old_at (oldStartIdx l + 1) in
      ret {| oldStartIdx := oldStartIdx l + 1; newStartIdx := newStartIdx l;
             oldEndIdx := oldEndIdx l; newEndIdx := newEndIdx l;
             oldStartVnode := v; oldEndVnode := oldEndVnode l;
             newStartVnode := newStartVnode l; newEndVnode := newEndVnode l;
             oldKeyToIdx := oldKeyToIdx l |}
  | Some _, None, _, _ =>
      let* v := old_at (oldEndIdx l - 1) in
      ret {| oldStartIdx := oldStartIdx l; newStartIdx := newStartIdx l;
             oldEndIdx := oldEndIdx l - 1; newEndIdx := newEndIdx l;
             oldStartVnode := oldStartVnode l; oldEndVnode := v;
             newStartVnode := newStartVnode l; newEndVnode := newEndVnode l;
             oldKeyToIdx := oldKeyToIdx l |}
  | Some _, Some _, None, _ =>
      let* v := new_at (newStartIdx l + 1) in
      ret {| oldStartIdx := oldStartIdx l; newStartIdx := newStartIdx l + 1;
             oldEndIdx := oldEndIdx l; newEndIdx := newEndIdx l;
             oldStartVnode := oldStartVnode l; oldEndVnode := oldEndVnode l;
             newStartVnode := v; newEndVnode := newEndVnode l;
             oldKeyToIdx := oldKeyToIdx l |}
  | Some _, Some _, Some _, None =>
      let* v := new_at (newEndIdx l - 1) in
      ret {| oldStartIdx := oldStartIdx l; newStartIdx := newStartIdx l;
             oldEndIdx := oldEndIdx l; newEndIdx := newEndIdx l - 1;
             oldStartVnode := oldStartVnode l; oldEndVnode := oldEndVnode l;
             newStartVnode := newStartVnode l; newEndVnode := v;
             oldKeyToIdx := oldKeyToIdx l |}
  | Some oldStart, Some oldEnd, Some newStart, Some newEnd =>
      let* b := same oldStart newStart in
      if b then
        patchVnode oldStart newStart ;;
        let* o := old_at (oldStartIdx l + 1) in
        let* n := new_at (newStartIdx l + 1) in
        ret {| oldStartIdx := oldStartIdx l + 1; newStartIdx := newStartIdx l + 1;
               oldEndIdx := oldEndIdx l; newEndIdx := newEndIdx l;
               oldStartVnode := o; oldEndVnode := oldEndVnode l;
               newStartVnode := n; newEndVnode := newEndVnode l;
               oldKeyToIdx := oldKeyToIdx l |}
      else
      let* b := same oldEnd newEnd in
      if b then
        patchVnode oldEnd newEnd ;;
        let* o := old_at (oldEndIdx l - 1) in
        let* n := new_at (newEndIdx l - 1) in
        ret {| oldStartIdx := oldStartIdx l; newStartIdx := newStartIdx l;
               oldEndIdx := oldEndIdx l - 1; newEndIdx := newEndIdx l - 1;
               oldStartVnode := oldStartVnode l; oldEndVnode := o;
               newStartVnode := newStartVnode l; newEndVnode := n;
               oldKeyToIdx := oldKeyToIdx l |}
      else
      let* b := same oldStart newEnd in
      if b then
        (* Vnode moved right *)
        patchVnode oldStart newEnd ;;
        let* x := elm_of oldStart in
        let* y := elm_of oldEnd in
        let* y := defined y in
        let* ref := nextSibling y in
        let* p := defined parentElm in
        let* x := defined x in
        insertBefore p x ref ;;
        let* o := old_at (oldStartIdx l + 1) in
        let* n := new_at (newEndIdx l - 1) in
        ret {| oldStartIdx := oldStartIdx l + 1; newStartIdx := newStartIdx l;
               oldEndIdx := oldEndIdx l; newEndIdx := newEndIdx l - 1;
               oldStartVnode := o; oldEndVnode := oldEndVnode l;
               newStartVnode := newStartVnode l; newEndVnode := n;
               oldKeyToIdx := oldKeyToIdx l |}
      else
      let* b := same oldEnd newStart in
      if b then
        (* Vnode moved left *)
        patchVnode oldEnd newStart ;;
        let* x := elm_of oldEnd in
        let* ref := elm_of oldStart in
        let* p := defined parentElm in
        let* x := defined x in
        insertBefore p x ref ;;
        let* o := old_at (oldEndIdx l - 1) in
        let* n := new_at (newStartIdx l + 1) in
        ret {| oldStartIdx := oldStartIdx l; newStartIdx := newStartIdx l + 1;
               oldEndIdx := oldEndIdx l - 1; newEndIdx := newEndIdx l;
               oldStartVnode := oldStartVnode l; oldEndVnode := o;
               newStartVnode := n; newEndVnode := newEndVnode l;
               oldKeyToIdx := oldKeyToIdx l |}
      else keyed l oldStart newStart
  end.

(** [while (oldStartIdx <= oldEndIdx && newStartIdx <= newEndIdx)] *)
Definition running (l : Loop) : bool :=
  bool_decide (oldStartIdx l ≤ oldEndIdx l)%Z
  && bool_decide (newStartIdx l ≤ newEndIdx l)%Z.

Fixpoint loop (n : nat) (l : Loop) : M Loop :=
  if running l then
    match n with
    | 0 => out_of_fuel
    | S n => let* l := step l in loop n l
    end
  else ret l.

Definition updateChildren_ : M unit :=
  let* oldArr := read_array oldCh in
  let* newArr := read_array newCh in
  let oldEnd := (Z.of_nat (length oldArr) - 1)%Z in
  let newEnd := (Z.of_nat (length newArr) - 1)%Z in
  let* l := loop fuel
              {| oldStartIdx := 0; newStartIdx := 0;
                 oldEndIdx := oldEnd; newEndIdx := newEnd;
                 oldStartVnode := aget oldArr 0; oldEndVnode := aget oldArr oldEnd;
                 newStartVnode := aget newArr 0; newEndVnode := aget newArr newEnd;
                 oldKeyToIdx := None |} in
  when (bool_decide (newStartIdx l ≤ newEndIdx l)%Z)
    (let* r := new_at (newEndIdx l + 1) in
     let* before := match r with
                    | Some r => elm_of r
                    | None => ret None
                    end in
     addVnodes fuel parentElm before newCh
               (newStartIdx l) (newEndIdx l)) ;;
  when (bool_decide (oldStartIdx l ≤ oldEndIdx l)%Z)
    (let* oldArr := read_array oldCh in
     removeVnodes fuel parentElm oldArr (oldStartIdx l) (oldEndIdx l)).
End UpdateChildren.

(** The two middle blocks of [patchVnode]: the [update] hooks, and the
    reconciliation of children and text. *)
Definition update_hooks (oldVnode vnode : vref) : M unit :=
  let* ov := read oldVnode in
  let* nv := read vnode in
  when (bool_decide (data nv ≠ None)
        || bool_decide (text nv ≠ None) && bool_decide (text nv ≠ text ov))
    (when (bool_decide (data nv = None))
          (update_vnode vnode (set_data (Some empty_data))) ;;
     let* ov := read oldVnode in
     when (bool_decide (data ov = None))
          (update_vnode oldVnode (set_data (Some empty_data))) ;;
     for_each (cb_update cbs) (fun m => hook (ModUpdate m oldVnode vnode)) ;;
     let* nv := read vnode in
     when (has_hook h_update nv) (hook (HookUpdate oldVnode vnode))).

Definition reconcile (patchVnode : vref → vref → M unit) (fuel : nat)
    (elm : option node) (oldCh ch : option aref) (oldVnode vnode : vref) : M unit :=
  let* ov := read oldVnode in
  let* nv := read vnode in
  match text nv with
  | None =>
      match oldCh, ch with
      | Some oldCh, Some ch =>
          if decide (oldCh = ch) then ret tt
          else updateChildren_ patchVnode fuel elm oldCh ch
      | None, Some ch =>
          when (bool_decide (text ov ≠ None))
               (let* e := defined elm in setTextContent e EmptyString) ;;
          let* a := read_array ch in
          addVnodes fuel elm None ch 0 (Z.of_nat (length a) - 1)
      | Some oldCh, None =>
          let* a := read_array oldCh in
          removeVnodes fuel elm a 0 (Z.of_nat (length a) - 1)
      | None, None =>
          when (bool_decide (text ov ≠ None))
               (let* e := defined elm in setTextContent e EmptyString)
      end
  | Some t =>
      when (bool_decide (text ov ≠ text nv))
        (match oldCh with
         | Some oldCh =>
             let* a := read_array oldCh in
             removeVnodes fuel elm a 0 (Z.of_nat (length a) - 1)
         | None => ret tt
         end ;;
         let* e := defined elm in
         setTextContent e t)
  end.

Fixpoint patchVnode (fuel : nat) (oldVnode vnode : vref) : M unit :=
  match fuel with
  | 0 => out_of_fuel
  | S fuel =>
      let* nv := read vnode in
      let hooks := hook_of nv in
      when (match hooks with Some h => h_prepatch h | None => false end)
           (hook (HookPrepatch oldVnode vnode)) ;;
      let* ov := read oldVnode in
      let elm := elm ov in
      update_vnode vnode (set_elm elm) ;;
      let* ov := read oldVnode in
      let* nv := read vnode in
      let oldCh := children ov in
      let ch := children nv in
      if decide (oldVnode = vnode) then ret tt
      else
        update_hooks oldVnode vnode ;;
        reconcile (patchVnode fuel) fuel elm oldCh ch oldVnode vnode ;;
        when (match hooks with Some h => h_postpatch h | None => false end)
             (hook (HookPostpatch oldVnode vnode))
  end.

Definition updateChildren (fuel : nat) (parentElm : option node)
    (oldCh newCh : aref) : M unit :=
  updateChildren_ (patchVnode fuel) fuel parentElm oldCh newCh.

(** The head of [patch]: a host element or fragment given as old root is
    wrapped in an empty vnode. *)
Definition root_vnode (oldVnode : Root) : M vref :=
  let* st := get in
  match oldVnode with
  | RootNode e =>
      if is_element st e then emptyNodeAt e
      else if has_isDocumentFragment api
           then if is_fragment st e then emptyDocumentFragmentAt e
                else throw TypeError
           else throw TypeError
  | RootVNode v =>
      if has_isDocumentFragment api then ret v else throw TypeError
  end.

Definition patch (fuel : nat) (oldVnode : Root) (vnode : vref) : M vref :=
  modify (with_queue (fun _ => [])) ;;
  for_each (cb_pre cbs) (fun m => hook (ModPre m)) ;;
  let* oldVnode := root_vnode oldVnode in
  let* b := same oldVnode vnode in
  (if b then patchVnode fuel oldVnode vnode
   else
     let* elm := elm_of oldVnode in
     let* elm := defined elm in
     let* parent := parentNode elm in
     createElm fuel vnode ;;
     match parent with
     | Some parent =>
         let* e := elm_of vnode in
         let* ref := nextSibling elm in
         let* e := defined e in
         insertBefore parent e ref ;;
         removeVnodes fuel (Some parent) [Some oldVnode] 0 0
     | None => ret tt
     end) ;;
  let* st := get in
  for_each (queue st) (fun r =>
    let* v := read r in
    let* d := defined (data v) in
    let* h := defined (d_hook d) in
    if h_insert h then hook (HookInsert r) else throw TypeError) ;;
  for_each (cb_post cbs) (fun m => hook (ModPost m)) ;;
  ret vnode.
End Init.

(** ** Vocabulary of the specifications *)

(** Weakest preconditions for [M]: [Φ] for a normal return, [Ψ] for an
    exception, [Ω] for running out of fuel. *)
Definition wp {A} (m : M A) (Φ : A → State → Prop) (Ψ : Error → State → Prop)
    (Ω : Prop) (st : State) : Prop :=
  match m st with
  | Ok a st' => Φ a st'
  | Throw e st' => Ψ e st'
  | OutOfFuel => Ω
  end.

(** Appending events to the trace. *)
Definition add_events (evs : list Event) (st : State) : State :=
  with_trace (fun t => t ++ evs) st.

(** The fields of a vnode that the engine never changes, up to the
    defaulting [data ??= {}]. *)
Definition struct_eq (v v' : VNode) : Prop :=
  sel v' = sel v ∧ key v' = key v ∧ children v' = children v
  ∧ hook_of v' = hook_of v ∧ is_of v' = is_of v.

(** Events added since [st0] all satisfy [P]. *)
Definition ext (P : Event → Prop) (st0 st : State) : Prop :=
  ∃ evs, trace st = trace st0 ++ evs ∧ Forall P evs.

Definition struct_ext (st0 st : State) : Prop :=
  ∀ r v0, vnodes st0 !! r = Some v0 → ∃ v, vnodes st !! r = Some v ∧ struct_eq v0 v.

(** Every queued vnode supplies an [insert] hook. *)
Definition queue_ok (st : State) : Prop :=
  ∀ r, r ∈ queue st → ∃ v, vnodes st !! r = Some v ∧ has_hook h_insert v = true.

Record keeps (P : Event → Prop) (st0 st : State) : Prop := {
  k_ext : ext P st0 st;
  k_struct : struct_ext st0 st;
  k_queue : queue_ok st
}.

(** A change of the host tree only. *)
Definition host_only (st st' : State) : Prop :=
  vnodes st' = vnodes st ∧ queue st' = queue st ∧ arrays st' = arrays st ∧ rmcbs st' = rmcbs st.

Definition host_post (c : ApiCall) (st : State) (X : State → Prop) : Prop :=
  ∀ st', host_only st st' → trace st' = trace st ++ [EApi c] → X st'.

(** Same host tree, same arrays, same closures and queue. *)
Definition same_host (st st' : State) : Prop :=
  arrays st' = arrays st ∧ kind st' = kind st ∧ attr st' = attr st
  ∧ kids st' = kids st ∧ parent st' = parent st
  ∧ next_node st' = next_node st ∧ rmcbs st' = rmcbs st ∧ queue st' = queue st.

(** Classes of events. *)
Definition build_event (e : Event) : Prop :=
  match e with
  | EApi (CreateElement _ _) | EApi (CreateElementNS _ _ _) | EApi (CreateTextNode _ _)
  | EApi (CreateComment _ _) | EApi (CreateDocumentFragment _)
  | EApi (SetAttribute _ _ _) | EApi (AppendChild _ _)
  | EHook (HookInit _) | EHook (ModCreate _ _) | EHook (HookCreate _) => True
  | _ => False
  end.
Definition destroy_event (e : Event) : Prop :=
  match e with
  | EHook (HookDestroy _) | EHook (ModDestroy _ _) => True
  | _ => False
  end.
Definition remove_event (e : Event) : Prop :=
  match e with
  | EHook (ModRemove _ _ _) | EHook (HookRemove _ _) | EApi (RemoveChild _ _) => True
  | _ => False
  end.
Definition update_event (e : Event) : Prop :=
  match e with
  | EHook (HookPrepatch _ _) | EHook (ModUpdate _ _ _) | EHook (HookUpdate _ _)
  | EHook (HookPostpatch _ _) | EApi (InsertBefore _ _ _) | EApi (SetTextContent _ _) => True
  | _ => False
  end.
(** Everything [patchVnode] and [updateChildren] can emit. *)
Definition patch_event (e : Event) : Prop :=
  build_event e ∨ destroy_event e ∨ remove_event e ∨ update_event e.

Definition is_insertBefore (e : Event) : Prop :=
  match e with EApi (InsertBefore _ _ _) => True | _ => False end.
Definition is_removeChild (e : Event) : Prop :=
  match e with EApi (RemoveChild _ _) => True | _ => False end.

(** One step of the loop of [createKeyToOldIdx]. *)
Definition record (vs : gmap nat VNode) (children : list (option nat))
    (map : gmap string Z) (i : Z) : gmap string Z :=
  match key_at vs children i with
  | Some k => <[key_name k := i]> map
  | None => map
  end.

(** The guard of the [update] block of [patchVnode], and the hook events
    of its first two blocks. *)
Definition update_cond (ov nv : VNode) : bool :=
  bool_decide (data nv ≠ None)
  || bool_decide (text nv ≠ None) && bool_decide (text nv ≠ text ov).

Definition prepatch_events (o n : nat) (nv : VNode) : list Event :=
  if has_hook h_prepatch nv then [EHook (HookPrepatch o n)] else [].

Definition update_events (modules : list Module) (o n : nat) (ov nv : VNode) : list Event :=
  if update_cond ov nv
  then ((fun m => EHook (ModUpdate m o n)) <$> cb_update (cbs modules))
       ++ (if has_hook h_update nv then [EHook (HookUpdate o n)] else [])
  else [].

(** The tail of [patch]: the queued [insert] hooks, then the [post] hooks. *)
Definition fire_insert (r : nat) : M unit :=
  let* v := read r in
  let* d := defined (data v) in
  let* h := defined (d_hook d) in
  if h_insert h then hook (HookInsert r) else throw TypeError.

Definition insert_events (q : list nat) : list Event :=
  (fun r => EHook (HookInsert r)) <$> q.
Definition pre_events (modules : list Module) : list Event :=
  (fun m => EHook (ModPre m)) <$> cb_pre (cbs modules).
Definition post_events (modules : list Module) : list Event :=
  (fun m => EHook (ModPost m)) <$> cb_post (cbs modules).

(** The state in which [patch] resolves its old root: empty queue, [pre]
    hooks fired. *)
Definition entered (modules : list Module) (st : State) : State :=
  add_events (pre_events modules) (with_queue (fun _ => []) st).

(** ** Deferred removal *)

(** The state a call leaves behind, whether it returns or throws, and the
    events it added to the trace. *)
Definition after {A} (r : Res A) (st : State) : State :=
  match r with
  | Ok _ st' => st'
  | Throw _ st' => st'
  | OutOfFuel => st
  end.
Definition emitted_by {A} (m : M A) (st : State) : list Event :=
  drop (length (trace st)) (trace (after (m st) st)).

(** What happens to a completion callback [c] over time: invocations of
    [rm], by hooks before they return or by anyone later, interleaved with
    any other activity that leaves the counter of [c] alone.  The indices
    count the invocations and collect the events they emitted. *)
Inductive history (c : nat) : State → nat → list Event → State → Prop :=
| history_start st : history c st 0 [] st
| history_rm st n evs st1 :
    history c st n evs st1 →
    history c st (S n) (evs ++ emitted_by (rmCb c) st1) (after (rmCb c st1) st1)
| history_other st n evs st1 st2 :
    history c st n evs st1 →
    rmcbs st2 !! c = rmcbs st1 !! c →
    history c st n evs st2.

(** The tail of [removeVnode] once [rm] has been created: the module
    [remove] hooks, then the node's own hook or [rm()]. *)
Definition remove_hooks (modules : list Module) (ch : nat) (rm : nat) : M unit :=
  for_each (cb_remove (cbs modules)) (fun mh =>
    hook (ModRemove mh.1 ch rm) ;; repeat_m (mh.2 ch) (rmCb rm)) ;;
  let* v := read ch in
  match hook_of v ≫= h_remove with
  | Some calls => hook (HookRemove ch rm) ;; repeat_m calls (rmCb rm)
  | None => rmCb rm
  end.

(** The modules that register a [remove] hook. *)
Definition with_remove (modules : list Module) : list Module :=
  filter (fun m => is_Some (m_remove m)) modules.

(** ** Element building *)

(** What [createElm] never changes in a vnode: everything but [elm] and
    [text]. *)
Definition blank (v : VNode) : VNode := set_elm None (set_text None v).
Definition skeleton (st : State) : gmap nat VNode := blank <$> vnodes st.

(** The vnodes that building [r] queues for their [insert] hook: the
    element vnodes (selector defined, not "!") of the subtree that supply
    the hook, each after the nodes below it. *)
Fixpoint inserted (frag : bool) (fuel : nat) (sk : gmap nat VNode)
    (arrs : gmap nat (list (option nat))) (r : nat) : list nat :=
  match fuel with
  | 0 => []
  | S fuel =>
      match sk !! r with
      | None => []
      | Some v =>
          let below :=
            match children v with
            | Some a =>
                flat_map (fun c => match c with
                                   | Some c => inserted frag fuel sk arrs c
                                   | None => []
                                   end) (default [] (arrs !! a))
            | None => []
            end in
          match sel v with
          | Some s =>
              if decide (s = "!") then []
              else below ++ (if has_hook h_insert v then [r] else [])
          | None => if frag then below else []
          end
      end
  end.

Definition queued_below (frag : bool) (fuel : nat) (sk : gmap nat VNode)
    (arrs : gmap nat (list (option nat))) (chs : list (option nat)) : list nat :=
  flat_map (fun c => match c with
                     | Some c => inserted frag fuel sk arrs c
                     | None => []
                     end) chs.

(** From [st] to [st']: same skeleton, same arrays, [acc] queued. *)
Definition built (st : State) (acc : list nat) (st' : State) : Prop :=
  skeleton st' = skeleton st ∧ arrays st' = arrays st ∧ queue st' = queue st ++ acc.

(** ** Destruction *)

(** The [destroy] hooks of one node: its own, then the modules'. *)
Definition destroy_calls (modules : list Module) (vs : gmap nat VNode) (r : nat) : list Event :=
  match vs !! r with
  | Some v => if has_hook h_destroy v then [EHook (HookDestroy r)] else []
  | None => []
  end ++ ((fun m => EHook (ModDestroy m r)) <$> cb_destroy (cbs modules)).

(** The nodes whose [destroy] hooks run when [r] is destroyed, in order:
    [r] itself if its data is defined, then those of its non-null children;
    nothing at and below a node whose data is undefined.  [None] when the
    fuel does not reach the leaves or a reference names no object. *)
Fixpoint visit_all (f : nat → option (list nat)) (chs : list (option nat))
    : option (list nat) :=
  match chs with
  | [] => Some []
  | c :: chs' =>
      match (match c with Some c => f c | None => Some [] end), visit_all f chs' with
      | Some l, Some ls => Some (l ++ ls)
      | _, _ => None
      end
  end.

Fixpoint destroy_order (fuel : nat) (vs : gmap nat VNode)
    (arrs : gmap nat (list (option nat))) (r : nat) : option (list nat) :=
  match fuel with
  | 0 => None
  | S fuel =>
      match vs !! r with
      | None => None
      | Some v =>
          match data v with
          | None => Some []
          | Some _ =>
              match children v with
              | None => Some [r]
              | Some a =>
                  match arrs !! a with
                  | None => None
                  | Some chs =>
                      match visit_all (destroy_order fuel vs arrs) chs with
                      | Some ls => Some (r :: ls)
                      | None => None
                      end
                  end
              end
          end
      end
  end.

(** ** One pass of [patch] *)

(** The structural part of [patch], between the resolution of the old root
    and the [insert] hooks. *)
Definition structural (modules : list Module) (api : DOMAPI) (options : Options)
    (fuel : nat) (oldVnode vnode : nat) (b : bool) : M unit :=
  if b then patchVnode modules api options fuel oldVnode vnode
  else
    let* elm := elm_of oldVnode in
    let* elm := defined elm in
    let* parent := parentNode elm in
    createElm modules api options fuel vnode ;;
    match parent with
    | Some parent =>
        let* e := elm_of vnode in
        let* ref := nextSibling elm in
        let* e := defined e in
        insertBefore parent e ref ;;
        removeVnodes modules fuel (Some parent) [Some oldVnode] 0 0
    | None => ret tt
    end.

(** ** Reordering of keyed children *)

(** The host node a vnode is bound to, and the fields of a vnode that
    [sameVnode] and [patchVnode] consult. *)
Definition host_of (st : State) (r : nat) : option nat :=
  match vnodes st !! r with
  | Some v => elm v
  | None => None
  end.
Definition ident (v : VNode)
  : option Key * option string * option string * option nat * option string :=
  (key v, sel v, is_of v, children v, text v).
Definition ident_of (st : State) (r : nat)
  : option (option Key * option string * option string * option nat * option string) :=
  ident <$> vnodes st !! r.
(** The property name under which the key of [r] is recorded. *)
Definition kname (st : State) (r : nat) : string :=
  match vnodes st !! r with
  | Some v => prop_name (key v)
  | None => "undefined"
  end.

(** [o] and [n] are vnodes that [sameVnode] identifies. *)
Definition equivalent (st : State) (o n : nat) : Prop :=
  ∃ ov nv, vnodes st !! o = Some ov ∧ vnodes st !! n = Some nv ∧ sameVnode ov nv = true.

(** Every vnode of the list carries a key, and no two keys are recorded
    under the same name. *)
Definition keyed_distinct (st : State) (l : list nat) : Prop :=
  (∀ r, r ∈ l → ∃ v k, vnodes st !! r = Some v ∧ key v = Some k)
  ∧ NoDup (kname st <$> l).

(** The children of [p] in the host tree are the nodes the vnodes of [l]
    are bound to, in that order; they are distinct existing nodes with [p]
    as parent and are children of no other node. *)
Record bound (st : State) (p : nat) (l : list nat) (xs : list nat) : Prop := {
  b_kids : kids_of st p = xs;
  b_host : Forall2 (fun o x => host_of st o = Some x) l xs;
  b_nodup : NoDup xs;
  b_self : p ∉ xs;
  b_parent : ∀ x, x ∈ xs → parent_of st x = Some p;
  b_others : ∀ e x, e ≠ p → x ∈ kids_of st e → x ∉ xs;
  b_alloc : ∀ x, x = p ∨ x ∈ xs → x < next_node st
}.

(** Patching [o] into [n] does not descend: the children are absent or the
    very same array, and a vnode with children has no text. *)
Definition inert (st : State) (o n : nat) : Prop :=
  ∃ ov nv, vnodes st !! o = Some ov ∧ vnodes st !! n = Some nv
           ∧ children ov = children nv
           ∧ (children nv = None ∨ text nv = None)
           ∧ (children nv = None ∨ text ov = None).

Section Reorder.
Variable X : State → Prop.
Variable P : nat.
Variables oa na : nat.
Variables olds news : list nat.
Variable E : nat → nat.
Variable st0 : State.

(** What stays true of the state all along [updateChildren]; [X] is what
    the patches of the children need besides. *)
Record world (st : State) : Prop := {
  w_new : arrays st !! na = Some (Some <$> news);
  w_ident : ∀ r, r ∈ olds ++ news → ident_of st r = ident_of st0 r;
  w_host : ∀ o, o ∈ olds → host_of st o = Some (E o);
  w_parent : ∀ o, o ∈ olds → parent_of st (E o) = Some P;
  w_kids : kids_of st P ≡ₚ E <$> olds;
  w_others : ∀ e x, e ≠ P → x ∈ kids_of st e → x ∉ E <$> olds;
  w_alloc : ∀ x, x = P ∨ x ∈ E <$> olds → x < next_node st;
  w_extra : X st
}.

(** What one call [patchVnode o n] does, seen from the parent. *)
Record patched (o n : nat) (st st1 : State) : Prop := {
  p_world : world st1;
  p_old : arrays st1 !! oa = arrays st !! oa;
  p_kids : kids_of st1 P = kids_of st P;
  p_host : host_of st1 n = Some (E o);
  p_rest : ∀ r, r ∈ news → r ≠ n → host_of st1 r = host_of st r
}.

(** What holds between the steps of [patchVnode o n] called on [st],
    before and after [vnode.elm] is set. *)
Definition stepping (n : nat) (st s : State) : Prop :=
  world s ∧ arrays s !! oa = arrays st !! oa ∧ kids_of s P = kids_of st P
  ∧ ∀ r, r ∈ olds ++ news → r ≠ n → host_of s r = host_of st r.
Definition patching (o n : nat) (st s : State) : Prop :=
  stepping n st s ∧ host_of s n = Some (E o).

(** The two windows of the loop: the old array and the list of pairs
    (old vnode, new vnode), each split in done / open / done. *)
Record Windows := {
  Opre : list (option nat);
  Owin : list (option nat);
  Opost : list (option nat);
  Ppre : list (nat * nat);
  Pwin : list (nat * nat);
  Ppost : list (nat * nat)
}.

Definition live (g : Windows) : list nat := omap id (Owin g).

(** The old window: indices, cached end vnodes and the key map agree
    with the split of the old array. *)
Record old_side (g : Windows) (s e : Z) (sv ev : option nat)
    (m : option (gmap string Z)) : Prop := {
  o_slots : Forall2 (fun o x => x = Some o ∨ x = None) olds (Opre g ++ Owin g ++ Opost g);
  o_s : s = Z.of_nat (length (Opre g));
  o_e : e = (Z.of_nat (length (Opre g) + length (Owin g)) - 1)%Z;
  o_sv : Owin g ≠ [] → sv = mjoin (head (Owin g));
  o_ev : Owin g ≠ [] → ev = mjoin (last (Owin g));
  o_map : ∀ map i o, m = Some map → Owin g !! i = Some (Some o) →
            map !! kname st0 o = Some (Z.of_nat (length (Opre g) + i))
}.

(** The new window, likewise. *)
Record new_side (pairs : list (nat * nat)) (g : Windows) (s e : Z)
    (sv ev : option nat) : Prop := {
  n_pairs : pairs = Ppre g ++ Pwin g ++ Ppost g;
  n_s : s = Z.of_nat (length (Ppre g));
  n_e : e = (Z.of_nat (length (Ppre g) + length (Pwin g)) - 1)%Z;
  n_sv : Pwin g ≠ [] → sv = snd <$> head (Pwin g);
  n_ev : Pwin g ≠ [] → ev = snd <$> last (Pwin g)
}.

(** The invariant of the [while] loop. *)
Record inv (pairs : list (nat * nat)) (g : Windows) (l : Loop) (st : State) : Prop := {
  i_world : world st;
  i_arr : arrays st !! oa = Some (Opre g ++ Owin g ++ Opost g);
  i_old : old_side g (oldStartIdx l) (oldEndIdx l) (oldStartVnode l) (oldEndVnode l)
                   (oldKeyToIdx l);
  i_new : new_side pairs g (newStartIdx l) (newEndIdx l) (newStartVnode l) (newEndVnode l);
  i_perm : (Pwin g).*1 ≡ₚ live g;
  i_kids : kids_of st P = E <$> ((Ppre g).*1 ++ live g ++ (Ppost g).*1);
  i_done : ∀ o n, (o, n) ∈ Ppre g ++ Ppost g → host_of st n = Some (E o)
}.
End Reorder.

(** ** The subtrees below a list of children *)

(** What patching the children of a list may touch: the vnodes [V] and the
    arrays [A] below them, the host nodes [H] below their host nodes and
    those made since the allocation counter was [b]; of the host nodes
    [Top] of the children themselves only the child lists. *)
Section Footprint.
Variables V A H Top : gset nat.
Variable b : nat.

Definition hp (x : nat) : Prop := x ∈ H ∨ b ≤ x.
Definition hm (p : nat) : Prop := hp p ∨ p ∈ Top.

(** The footprint is closed under the links of the state. *)
Record closed (s : State) : Prop := {
  c_children : ∀ r v a, r ∈ V → vnodes s !! r = Some v → children v = Some a → a ∈ A;
  c_entries : ∀ a l c, a ∈ A → arrays s !! a = Some l → Some c ∈ l → c ∈ V;
  c_elm : ∀ r v x, r ∈ V → vnodes s !! r = Some v → elm v = Some x → hp x;
  c_parent : ∀ x p, hp x → parent s !! x = Some p → hm p;
  c_kids : ∀ p x, hm p → x ∈ kids_of s p → hp x;
  c_next : b ≤ next_node s
}.

(** From [s] to [s'] nothing changed outside of the footprint. *)
Record frame (s s' : State) : Prop := {
  f_vnodes : ∀ r, r ∉ V → vnodes s' !! r = vnodes s !! r;
  f_arrays : ∀ a, a ∉ A → arrays s' !! a = arrays s !! a;
  f_kids : ∀ p, ¬ hm p → kids s' !! p = kids s !! p;
  f_parent : ∀ x, ¬ hp x → parent s' !! x = parent s !! x;
  f_next : next_node s ≤ next_node s'
}.
End Footprint.

(** The subtrees below the children [olds] and [news] of [P] are
    separated from the level of the children: there is a footprint that
    holds the children arrays of the children and everything below their
    host nodes, and none of the children, of their two arrays and of the
    host nodes of that level. *)
Definition separated (st : State) (P oa na : nat) (olds news xs : list nat) : Prop :=
  ∃ V A H : gset nat,
    closed V A H (list_to_set xs) (next_node st) st
    ∧ (∀ r v a, r ∈ olds ++ news → vnodes st !! r = Some v → children v = Some a → a ∈ A)
    ∧ (∀ r, r ∈ olds ++ news → r ∉ V)
    ∧ (oa ∉ A) ∧ (na ∉ A) ∧ (P ∉ H)
    ∧ (∀ x, x ∈ xs → x ∉ H).

(** The outcome of a reordering: the children of [P] are the host nodes
    the vnodes of [matched] were bound to, in that order; every new vnode
    is bound to the host node of its partner; [P] has kept its children. *)
Definition reordered (st st' : State) (P : nat) (matched news : list nat) : Prop :=
  Forall2 (fun o x => host_of st o = Some x) matched (kids_of st' P)
  ∧ Forall2 (fun o n => host_of st' n = host_of st o) matched news
  ∧ kids_of st' P ≡ₚ kids_of st P.

(** ** Example states *)

Definition ex_hooks : Hooks :=
  {| h_init := false; h_create := false; h_insert := false; h_prepatch := false;
     h_update := false; h_postpatch := false; h_destroy := false; h_remove := None |}.
Definition ex_data (h : option Hooks) (is_ : option string) : option VNodeData :=
  Some {| d_hook := h; d_ns := None; d_is := is_ |}.
Definition ex_vnode (s : option string) (k : option Key) (d : option VNodeData)
    (c : option nat) (t : option string) (e : option nat) : VNode :=
  {| sel := s; key := k; data := d; children := c; text := t; elm := e |}.
(** A keyed [li] without children. *)
Definition ex_leaf (k : Z) (is_ : option string) (e : option nat) : VNode :=
  ex_vnode (Some "li"%string) (Some (KeyNum k)) (ex_data None is_) None None e.

(** A state from its vnodes, arrays and host tree ([ks]: the children of
    each host node; every node is an element). *)
Definition ex_state (vs : list (nat * VNode)) (arrs : list (nat * list (option nat)))
    (ks : list (nat * list nat)) (next : nat) : State :=
  {| vnodes := list_to_map vs;
     arrays := list_to_map arrs;
     kind := list_to_map ((fun x => (x, KElement "div" None)) <$> seq 0 next);
     attr := ∅;
     kids := list_to_map ks;
     parent := list_to_map (flat_map (fun pl => (fun x => (x, pl.1)) <$> pl.2) ks);
     next_node := next; rmcbs := []; queue := []; trace := [] |}.

Definition ex_api : DOMAPI :=
  {| has_createDocumentFragment := true; has_isDocumentFragment := true |}.
Definition ex_no_fragment_api : DOMAPI :=
  {| has_createDocumentFragment := false; has_isDocumentFragment := true |}.
Definition ex_options : Options := {| fragments := false |}.
Definition ex_fragment_options : Options := {| fragments := true |}.
Definition ex_module : Module :=
  {| m_pre := true; m_create := true; m_update := true; m_destroy := true;
     m_remove := Some (fun _ => 0); m_post := true |}.

(** Four keyed children 1 2 3 4 of the host node 10, to become 4 1 2 3. *)
Definition ex_rotate : State :=
  ex_state
    [(1, ex_leaf 1 None (Some 11)); (2, ex_leaf 2 None (Some 12));
     (3, ex_leaf 3 None (Some 13)); (4, ex_leaf 4 None (Some 14));
     (5, ex_leaf 4 None None); (6, ex_leaf 1 None None);
     (7, ex_leaf 2 None None); (8, ex_leaf 3 None None)]
    [(100, [Some 1; Some 2; Some 3; Some 4]); (101, [Some 5; Some 6; Some 7; Some 8])]
    [(10, [11; 12; 13; 14])] 20.

(** Three keyed children 1 2 3 to become 1 3 2, the new first child with a
    [data.is] that the old one lacks. *)
Definition ex_is : State :=
  ex_state
    [(1, ex_leaf 1 None (Some 11)); (2, ex_leaf 2 None (Some 12));
     (3, ex_leaf 3 None (Some 13));
     (5, ex_leaf 1 (Some "x"%string) None); (6, ex_leaf 3 None None);
     (7, ex_leaf 2 None None)]
    [(100, [Some 1; Some 2; Some 3]); (101, [Some 5; Some 6; Some 7])]
    [(10, [11; 12; 13])] 20.

(** Two keyed children 1 2 of the host node 10, to become 2 1; each has
    one child with a text of its own, and the child of 2 changes its text. *)
Definition ex_nested : State :=
  ex_state
    [(1, ex_vnode (Some "li"%string) (Some (KeyNum 1)) (ex_data None None)
           (Some 102) None (Some 11));
     (2, ex_vnode (Some "li"%string) (Some (KeyNum 2)) (ex_data None None)
           (Some 103) None (Some 12));
     (5, ex_vnode (Some "li"%string) (Some (KeyNum 2)) (ex_data None None)
           (Some 104) None None);
     (6, ex_vnode (Some "li"%string) (Some (KeyNum 1)) (ex_data None None)
           (Some 105) None None);
     (21, ex_vnode (Some "span"%string) None (ex_data None None) None
            (Some "a"%string) (Some 13));
     (22, ex_vnode (Some "span"%string) None (ex_data None None) None
            (Some "b"%string) (Some 14));
     (23, ex_vnode (Some "span"%string) None (ex_data None None) None
            (Some "c"%string) None);
     (24, ex_vnode (Some "span"%string) None (ex_data None None) None
            (Some "a"%string) None)]
    [(100, [Some 1; Some 2]); (101, [Some 5; Some 6]);
     (102, [Some 21]); (103, [Some 22]); (104, [Some 23]); (105, [Some 24])]
    [(10, [11; 12]); (11, [13]); (12, [14])] 20.

Definition ex_destroy_hooks (rem : option nat) : Hooks :=
  {| h_init := false; h_create := false; h_insert := false; h_prepatch := false;
     h_update := false; h_postpatch := false; h_destroy := true; h_remove := rem |}.
Definition ex_insert_hooks : Hooks :=
  {| h_init := false; h_create := false; h_insert := true; h_prepatch := true;
     h_update := true; h_postpatch := false; h_destroy := false; h_remove := None |}.
(** A module with every hook; its [remove] hook calls [rm] before it
    returns. *)
Definition ex_removing_module : Module :=
  {| m_pre := true; m_create := true; m_update := true; m_destroy := true;
     m_remove := Some (fun _ => 1); m_post := true |}.

(** A [div] bound to the host node 11 with one child, both with a
    [destroy] hook, the [div] with a [remove] hook that calls [rm] once. *)
Definition ex_tree : State :=
  ex_state
    [(1, ex_vnode (Some "div"%string) None (ex_data (Some (ex_destroy_hooks (Some 1))) None)
           (Some 100) None (Some 11));
     (2, ex_vnode (Some "span"%string) None (ex_data (Some (ex_destroy_hooks None)) None)
           None None (Some 12))]
    [(100, [Some 2])]
    [(10, [11]); (11, [12])] 20.

(** The same tree, the [div] without a data object. *)
Definition ex_nodata : State :=
  ex_state
    [(1, ex_vnode (Some "div"%string) None None (Some 100) None (Some 11));
     (2, ex_vnode (Some "span"%string) None (ex_data (Some (ex_destroy_hooks None)) None)
           None None (Some 12))]
    [(100, [Some 2])]
    [(10, [11]); (11, [12])] 20.

(** An old root [div] at the host node 11, child of 10, and a new tree
    [p > span] to build, both new vnodes with an [insert] hook. *)
Definition ex_build : State :=
  ex_state
    [(1, ex_vnode (Some "div"%string) None (ex_data None None) None None (Some 11));
     (2, ex_vnode (Some "p"%string) None (ex_data (Some ex_insert_hooks) None)
           (Some 100) None None);
     (3, ex_vnode (Some "span"%string) None (ex_data (Some ex_insert_hooks) None)
           None None None)]
    [(100, [Some 3])]
    [(10, [11])] 20.

(** The same vnodes, the host node 11 of the old root without a parent. *)
Definition ex_unattached : State :=
  ex_state
    [(1, ex_vnode (Some "div"%string) None (ex_data None None) None None (Some 11));
     (2, ex_vnode (Some "p"%string) None (ex_data (Some ex_insert_hooks) None)
           (Some 100) None None);
     (3, ex_vnode (Some "span"%string) None (ex_data (Some ex_insert_hooks) None)
           None None None)]
    [(100, [Some 3])]
    [] 20.

(** A vnode without selector, with children. *)
Definition ex_fragment : State :=
  ex_state
    [(1, ex_vnode None None (ex_data None None) (Some 100) None None);
     (2, ex_vnode (Some "span"%string) None (ex_data None None) None None None)]
    [(100, [Some 2])]
    [] 20.

(** Old children with the keys 7, 8, 7 and a new vnode with the key 7. *)
Definition ex_duplicate : State :=
  ex_state
    [(1, ex_leaf 7 None (Some 11)); (2, ex_leaf 8 None (Some 12));
     (3, ex_leaf 7 None (Some 13)); (5, ex_leaf 7 None None)]
    [(100, [Some 1; Some 2; Some 3]); (101, [Some 5])]
    [(10, [11; 12; 13])] 20.
Definition ex_loop : Loop :=
  {| oldStartIdx := 0; newStartIdx := 0; oldEndIdx := 2; newEndIdx := 0;
     oldStartVnode := Some 1; oldEndVnode := Some 3;
     newStartVnode := Some 5; newEndVnode := Some 5; oldKeyToIdx := None |}.

(** A [div] to build, without a data object. *)
Definition ex_bare : State :=
  ex_state
    [(1, ex_vnode (Some "div"%string) None None None None None)]
    [] [] 20.

(** ** Vocabulary of the further properties *)

(** [ids] lists, in registration order and without repetition, the modules
    of [modules] that satisfy [has]. *)
Definition registered (modules : list Module) (has : Module → Prop) (ids : list nat) : Prop :=
  (∀ i, i ∈ ids ↔ ∃ m, modules !! i = Some m ∧ has m)
  ∧ ids `sublist_of` seq 0 (length modules).

(** The character [c] occurs in [s]. *)
Fixpoint occurs (c : ascii) (s : string) : bool :=
  match s with
  | EmptyString => false
  | String a s' => bool_decide (a = c) || occurs c s'
  end.

(** [st'] is [st] after one host node of kind [k] was made for the vnode
    [r], which became [v'], with the events [evs]; nothing else changed. *)
Record made_node (st st' : State) (r : nat) (v' : VNode) (k : Kind) (evs : list Event)
    : Prop := {
  mn_vnodes : vnodes st' = <[r := v']> (vnodes st);
  mn_kind : kind st' = <[next_node st := k]> (kind st);
  mn_next : next_node st' = S (next_node st);
  mn_trace : trace st' = trace st ++ evs;
  mn_rest : arrays st' = arrays st ∧ attr st' = attr st ∧ kids st' = kids st
            ∧ parent st' = parent st ∧ rmcbs st' = rmcbs st ∧ queue st' = queue st
}.

(** The [init] hook of a vnode, if it supplies one. *)
Definition init_events (r : nat) (v : VNode) : list Event :=
  if has_hook h_init v then [EHook (HookInit r)] else [].

(** The events of building, as the host node [n], an element vnode [r]
    without children array: the element, its id and class, the [create]
    hooks of the modules, the text child, the [create] hook of the vnode. *)
Definition leaf_events (modules : list Module) (r n : nat) (v : VNode) (d : VNodeData)
    (s : string) : list Event :=
  init_events r v
  ++ [EApi (match d_ns d with
            | Some ns => CreateElementNS ns (s_tag (parse_sel s)) n
            | None => CreateElement (s_tag (parse_sel s)) n
            end)]
  ++ match s_id (parse_sel s) with
     | Some i => [EApi (SetAttribute n "id" i)]
     | None => []
     end
  ++ match s_class (parse_sel s) with
     | Some c => [EApi (SetAttribute n "class" c)]
     | None => []
     end
  ++ ((fun m => EHook (ModCreate m r)) <$> cb_create (cbs modules))
  ++ match text v with
     | Some t => [EApi (CreateTextNode t (S n)); EApi (AppendChild n (S n))]
     | None => []
     end
  ++ (if has_hook h_create v then [EHook (HookCreate r)] else []).

(** [v.data ??= {}] *)
Definition with_data (v : VNode) : VNode :=
  match data v with
  | Some _ => v
  | None => set_data (Some empty_data) v
  end.

Definition postpatch_events (o n : nat) (nv : VNode) : list Event :=
  if has_hook h_postpatch nv then [EHook (HookPostpatch o n)] else [].

(** The selector that [emptyNodeAt] gives the vnode of the host element
    [e] with the tag name [tag]. *)
Definition selector_of (st : State) (e : nat) (tag : string) : string :=
  toLowerCase tag
  +:+ match attr st !! (e, "id") with
      | Some i => if decide (i = EmptyString) then EmptyString else "#" +:+ i
      | None => EmptyString
      end
  +:+ match attr st !! (e, "class") with
      | Some classes =>
          if decide (classes = EmptyString) then EmptyString
          else "." +:+ replace_char " " "." classes
      | None => EmptyString
      end.

(** ** Example states of the further properties *)

(** An adapter without the two fragment functions. *)
Definition ex_plain_api : DOMAPI :=
  {| has_createDocumentFragment := false; has_isDocumentFragment := false |}.

(** Text vnodes without data object, the first bound to the host node 11,
    a comment vnode without text and a vnode without anything. *)
Definition ex_texts : State :=
  ex_state
    [(1, ex_vnode None None None None (Some "a"%string) (Some 11));
     (2, ex_vnode None None None None (Some "b"%string) None);
     (3, ex_vnode None None None None (Some "a"%string) None);
     (4, ex_vnode (Some "!"%string) None None None None None);
     (5, ex_vnode None None None None None None)]
    [] [(10, [11])] 20.

(** [ex_build] with the host node 11 as [<DIV id="main" class="a b">]. *)
Definition ex_attrs : State :=
  with_attr (fun _ => list_to_map [((11, "id"%string), "main"%string);
                                   ((11, "class"%string), "a b"%string)])
    (with_kind (fun k => <[11 := KElement "DIV" None]> k) ex_build).

(** Two keyed children of the host node 10, and an empty new child list. *)
Definition ex_clear : State :=
  ex_state
    [(1, ex_leaf 1 None (Some 11)); (2, ex_leaf 2 None (Some 12))]
    [(100, [Some 1; Some 2]); (101, [])]
    [(10, [11; 12])] 20.

(** ** Rules of the weakest-precondition calculus *)

Lemma wp_bind {A B} (m : M A) (k : A → M B) Φ Ψ Ω st :
  wp m (fun a st' => wp (k a) Φ Ψ Ω st') Ψ Ω st → wp (bind m k) Φ Ψ Ω st.
Proof. unfold wp, bind. by destruct (m st). Qed.

Lemma wp_bind_inv {A B} (m : M A) (k : A → M B) Φ Ψ Ω st :
  wp (bind m k) Φ Ψ Ω st → wp m (fun a st' => wp (k a) Φ Ψ Ω st') Ψ Ω st.
Proof. unfold wp, bind. by destruct (m st). Qed.

Lemma wp_mono {A} (m : M A) (Φ Φ' : A → State → Prop) (Ψ Ψ' : Error → State → Prop)
    (Ω Ω' : Prop) st :
  wp m Φ Ψ Ω st →
  (∀ a st', Φ a st' → Φ' a st') →
  (∀ e st', Ψ e st' → Ψ' e st') →
  (Ω → Ω') →
  wp m Φ' Ψ' Ω' st.
Proof. unfold wp. destruct (m st); eauto. Qed.

Lemma wp_ok {A} (m : M A) Φ Ψ Ω st a st' :
  m st = Ok a st' → Φ a st' → wp m Φ Ψ Ω st.
Proof. unfold wp. by intros ->. Qed.

Lemma wp_for_each {A} (xs : list A) (f : A → M unit) (I : State → Prop) Ψ Ω st :
  I st →
  (∀ x st, x ∈ xs → I st → wp (f x) (fun _ => I) Ψ Ω st) →
  wp (for_each xs f) (fun _ => I) Ψ Ω st.
Proof.
  revert st. induction xs as [|x xs IH]; intros st HI Hf; [done|].
  simpl. apply wp_bind. eapply wp_mono; [apply Hf; [left|done] | | done | done].
  intros [] st' HI'. apply IH; [done|]. intros y st'' Hy. apply Hf. by right.
Qed.

Lemma wp_repeat_m (n : nat) (m : M unit) (I : State → Prop) Ψ Ω st :
  I st →
  (∀ st, I st → wp m (fun _ => I) Ψ Ω st) →
  wp (repeat_m n m) (fun _ => I) Ψ Ω st.
Proof.
  revert st. induction n as [|n IH]; intros st HI Hm; [done|].
  simpl. apply wp_bind. eapply wp_mono; [by apply Hm | | done | done].
  intros [] st' HI'. by apply IH.
Qed.

Lemma wp_eq {A} (m : M A) st a st' :
  wp m (fun a' s' => a' = a ∧ s' = st') (fun _ _ => False) False st → m st = Ok a st'.
Proof. unfold wp. destruct (m st); [by intros [-> ->] | done | done]. Qed.

Section Primitives.
Context {B : Type} (Φ : B → State → Prop) (Ψ : Error → State → Prop) (Ω : Prop).

Lemma wp_ret (b : B) st : Φ b st → wp (ret b) Φ Ψ Ω st.
Proof. done. Qed.
Lemma wp_throw e st : Ψ e st → wp (throw e) Φ Ψ Ω st.
Proof. done. Qed.
Lemma wp_out_of_fuel st : Ω → wp out_of_fuel Φ Ψ Ω st.
Proof. done. Qed.
Lemma wp_defined (o : option B) st :
  match o with Some b => Φ b st | None => Ψ TypeError st end →
  wp (defined o) Φ Ψ Ω st.
Proof. by destruct o. Qed.
End Primitives.

Section PrimitivesUnit.
Context (Φ : unit → State → Prop) (Ψ : Error → State → Prop) (Ω : Prop).

Lemma wp_modify f st : Φ tt (f st) → wp (modify f) Φ Ψ Ω st.
Proof. done. Qed.
Lemma wp_emit e st :
  Φ tt (with_trace (fun t => t ++ [e]) st) → wp (emit e) Φ Ψ Ω st.
Proof. done. Qed.
Lemma wp_hook h st :
  Φ tt (with_trace (fun t => t ++ [EHook h]) st) → wp (hook h) Φ Ψ Ω st.
Proof. done. Qed.
Lemma wp_api_call c st :
  Φ tt (with_trace (fun t => t ++ [EApi c]) st) → wp (api_call c) Φ Ψ Ω st.
Proof. done. Qed.
Lemma wp_when (b : bool) (m : M unit) st :
  (if b then wp m Φ Ψ Ω st else Φ tt st) → wp (when b m) Φ Ψ Ω st.
Proof. by destruct b. Qed.
Lemma wp_update_vnode r f st :
  match vnodes st !! r with
  | Some v => Φ tt (with_vnodes (fun m => <[r := f v]> m) st)
  | None => Ψ TypeError st
  end → wp (update_vnode r f) Φ Ψ Ω st.
Proof. unfold wp, update_vnode, bind, read, modify. by destruct (vnodes st !! r). Qed.
End PrimitivesUnit.

Lemma wp_get (Φ : State → State → Prop) Ψ Ω st : Φ st st → wp get Φ Ψ Ω st.
Proof. done. Qed.
Lemma wp_read (Φ : VNode → State → Prop) Ψ Ω r st :
  match vnodes st !! r with Some v => Φ v st | None => Ψ TypeError st end →
  wp (read r) Φ Ψ Ω st.
Proof. unfold wp, read. by destruct (vnodes st !! r). Qed.
Lemma wp_read_array (Φ : list (option nat) → State → Prop) Ψ Ω a st :
  match arrays st !! a with Some l => Φ l st | None => Ψ TypeError st end →
  wp (read_array a) Φ Ψ Ω st.
Proof. unfold wp, read_array. by destruct (arrays st !! a). Qed.

Ltac wp_prim :=
  lazymatch goal with
  | |- wp (bind _ _) _ _ _ _ => apply wp_bind
  | |- wp (ret _) _ _ _ _ => apply wp_ret
  | |- wp (throw _) _ _ _ _ => apply wp_throw
  | |- wp out_of_fuel _ _ _ _ => apply wp_out_of_fuel
  | |- wp (defined _) _ _ _ _ => apply wp_defined
  | |- wp (modify _) _ _ _ _ => apply wp_modify
  | |- wp (emit _) _ _ _ _ => apply wp_emit
  | |- wp (hook _) _ _ _ _ => apply wp_hook
  | |- wp (api_call _) _ _ _ _ => apply wp_api_call
  | |- wp (when _ _) _ _ _ _ => apply wp_when
  | |- wp (update_vnode _ _) _ _ _ _ => apply wp_update_vnode
  | |- wp get _ _ _ _ => apply wp_get
  | |- wp (read _) _ _ _ _ => apply wp_read
  | |- wp (read_array _) _ _ _ _ => apply wp_read_array
  end.

Lemma add_events_nil st : add_events [] st = st.
Proof. destruct st; unfold add_events, with_trace; simpl. by rewrite app_nil_r. Qed.
Lemma add_events_app evs1 evs2 st :
  add_events evs2 (add_events evs1 st) = add_events (evs1 ++ evs2) st.
Proof. destruct st; unfold add_events, with_trace; simpl. by rewrite app_assoc. Qed.
Lemma hook_eq h st : hook h st = Ok tt (add_events [EHook h] st).
Proof. done. Qed.

Lemma for_each_hook {A} (xs : list A) (f : A → HookCall) st :
  for_each xs (fun x => hook (f x)) st = Ok tt (add_events ((fun x => EHook (f x)) <$> xs) st).
Proof.
  revert st. induction xs as [|x xs IH]; intros st; simpl.
  - by rewrite add_events_nil.
  - unfold bind. rewrite hook_eq, IH. by rewrite add_events_app.
Qed.

Lemma wp_for_each_hook {A} (xs : list A) (f : A → HookCall) Φ Ψ Ω st :
  Φ tt (add_events ((fun x => EHook (f x)) <$> xs) st) →
  wp (for_each xs (fun x => hook (f x))) Φ Ψ Ω st.
Proof. unfold wp. by rewrite for_each_hook. Qed.

Ltac wp_step :=
  first
    [ wp_prim
    | progress simpl
    | match goal with
      | H : ?x = _ |- context [match ?x with _ => _ end] => rewrite H
      end ].
Ltac wp_run := repeat wp_step.

Lemma wp_total {A} (m : M A) Φ st :
  wp m Φ (fun _ _ => False) False st → ∃ a st', m st = Ok a st' ∧ Φ a st'.
Proof. unfold wp. destruct (m st); [eauto | done | done]. Qed.

Lemma bind_ok {A B} (m : M A) (k : A → M B) st a st' :
  m st = Ok a st' → bind m k st = k a st'.
Proof. unfold bind. by intros ->. Qed.

Lemma wp_post {A} (Φ' : A → State → Prop) (m : M A) Φ Ψ Ω st :
  wp m Φ' Ψ Ω st → (∀ a st', Φ' a st' → Φ a st') → wp m Φ Ψ Ω st.
Proof. intros H HΦ. eapply wp_mono; eauto. Qed.

Lemma bind_inv {A B} (m : M A) (k : A → M B) st b st'' :
  bind m k st = Ok b st'' → ∃ a st', m st = Ok a st' ∧ k a st' = Ok b st''.
Proof. unfold bind. destruct (m st) as [a st'| |]; [eauto|done|done]. Qed.

Lemma bind_assoc {A B C} (m : M A) (f : A → M B) (g : B → M C) st :
  bind (bind m f) g st = bind m (fun x => bind (f x) g) st.
Proof. unfold bind. by destruct (m st). Qed.

(** ** Invariants that every engine function keeps *)

Global Instance struct_eq_refl : Reflexive struct_eq.
Proof. by intros v. Qed.
Global Instance struct_eq_trans : Transitive struct_eq.
Proof. intros v1 v2 v3 (?&?&?&?&?) (?&?&?&?&?). repeat split; congruence. Qed.

Lemma struct_eq_set_elm e v : struct_eq v (set_elm e v).
Proof. done. Qed.
Lemma struct_eq_set_text t v : struct_eq v (set_text t v).
Proof. done. Qed.
Lemma struct_eq_default v : data v = None → struct_eq v (set_data (Some empty_data) v).
Proof. intros H. unfold struct_eq, hook_of, is_of. simpl. by rewrite H. Qed.

Section Keeps.
Variable P : Event → Prop.
Variable st0 : State.

Lemma keeps_init : queue_ok st0 → keeps P st0 st0.
Proof.
  intros Hq. split; [| |done].
  - exists []. by rewrite app_nil_r.
  - intros r v0 Hr. by exists v0.
Qed.

Lemma keeps_emit e st : P e → keeps P st0 st → keeps P st0 (with_trace (fun t => t ++ [e]) st).
Proof.
  intros He [(evs & Ht & Hp) Hs Hq]. split; [|done|done].
  exists (evs ++ [e]). simpl. rewrite Ht, app_assoc. split; [done|].
  apply Forall_app. by split; [|constructor].
Qed.

Lemma keeps_add_events evs st :
  Forall P evs → keeps P st0 st → keeps P st0 (add_events evs st).
Proof.
  intros He [(evs' & Ht & Hp) Hs Hq]. split; [|done|done].
  exists (evs' ++ evs). simpl. rewrite Ht, app_assoc. split; [done|].
  by apply Forall_app.
Qed.

Lemma keeps_hooks {A} (f : A → HookCall) (xs : list A) st :
  (∀ x, P (EHook (f x))) → keeps P st0 st →
  keeps P st0 (add_events ((fun x => EHook (f x)) <$> xs) st).
Proof.
  intros Hf HK. apply keeps_add_events; [|done]. apply Forall_fmap, Forall_forall.
  intros x _. apply Hf.
Qed.

Lemma keeps_host e st st' :
  P e → host_only st st' → trace st' = trace st ++ [e] →
  keeps P st0 st → keeps P st0 st'.
Proof.
  intros He (Hv & Hq' & _) Ht' [(evs & Ht & Hp) Hs Hq]. split.
  - exists (evs ++ [e]). rewrite Ht', Ht, app_assoc. split; [done|].
    apply Forall_app. by split; [|constructor].
  - intros r v0 Hr. rewrite Hv. by apply Hs.
  - intros r. rewrite Hq', Hv. apply Hq.
Qed.

Lemma keeps_host_silent st st' :
  host_only st st' → trace st' = trace st →
  keeps P st0 st → keeps P st0 st'.
Proof.
  intros (Hv & Hq' & _) Ht' [(evs & Ht & Hp) Hs Hq]. split.
  - exists evs. by rewrite Ht', Ht.
  - intros r v0 Hr. rewrite Hv. by apply Hs.
  - intros r. rewrite Hq', Hv. apply Hq.
Qed.

Lemma keeps_update r v v' st :
  vnodes st !! r = Some v → struct_eq v v' →
  keeps P st0 st → keeps P st0 (with_vnodes (fun m => <[r := v']> m) st).
Proof.
  intros Hr Hse [He Hs Hq]. split; [done| |].
  - intros r' v0 Hr'. destruct (Hs r' v0 Hr') as (v1 & Hv1 & Hse1). simpl.
    destruct (decide (r = r')) as [->|Hne].
    + rewrite lookup_insert_eq. exists v'. split; [done|].
      rewrite Hr in Hv1. injection Hv1 as <-. by etrans.
    + rewrite lookup_insert_ne by done. eauto.
  - intros r' Hin. destruct (Hq r' Hin) as (v1 & Hv1 & Hh). simpl.
    destruct (decide (r = r')) as [->|Hne].
    + rewrite lookup_insert_eq. exists v'. split; [done|].
      rewrite Hr in Hv1. injection Hv1 as <-.
      unfold has_hook in *. destruct Hse as (_&_&_&->&_). done.
    + rewrite lookup_insert_ne by done. eauto.
Qed.

Lemma keeps_push r v st :
  vnodes st !! r = Some v → has_hook h_insert v = true →
  keeps P st0 st → keeps P st0 (with_queue (fun q => q ++ [r]) st).
Proof.
  intros Hr Hh [He Hs Hq]. split; [done|done|].
  intros r' Hin. simpl in *. apply elem_of_app in Hin as [Hin|Hin]; [by apply Hq|].
  apply list_elem_of_singleton in Hin as ->. eauto.
Qed.

Lemma keeps_rmcbs f st : keeps P st0 st → keeps P st0 (with_rmcbs f st).
Proof. by intros [He Hs Hq]. Qed.
Lemma keeps_arrays f st : keeps P st0 st → keeps P st0 (with_arrays f st).
Proof. by intros [He Hs Hq]. Qed.
End Keeps.

(** Summaries of the adapter calls for properties that do not look at the
    host tree. *)
Lemma detach_host_only x st : host_only st (detach x st) ∧ trace (detach x st) = trace st.
Proof. unfold detach. by destruct (parent st !! x). Qed.

Lemma wp_alloc k (Φ : nat → State → Prop) Ψ Ω st :
  (∀ st', host_only st st' → trace st' = trace st → Φ (next_node st) st') →
  wp (alloc k) Φ Ψ Ω st.
Proof. intros H. unfold wp, alloc. by apply H. Qed.

Ltac host_create :=
  intros H; unfold createElement, createElementNS, createTextNode, createComment,
    createDocumentFragment;
  apply wp_bind, wp_alloc; intros st' Hh Ht;
  apply wp_bind, wp_api_call, wp_ret; apply H;
  [ destruct Hh as (?&?&?&?); by repeat split | simpl; by rewrite Ht ].

Lemma wp_createElement tag (Φ : nat → State → Prop) Ψ Ω st :
  host_post (CreateElement tag (next_node st)) st (Φ (next_node st)) →
  wp (createElement tag) Φ Ψ Ω st.
Proof. host_create. Qed.
Lemma wp_createElementNS ns tag (Φ : nat → State → Prop) Ψ Ω st :
  host_post (CreateElementNS ns tag (next_node st)) st (Φ (next_node st)) →
  wp (createElementNS ns tag) Φ Ψ Ω st.
Proof. host_create. Qed.
Lemma wp_createTextNode s (Φ : nat → State → Prop) Ψ Ω st :
  host_post (CreateTextNode s (next_node st)) st (Φ (next_node st)) →
  wp (createTextNode s) Φ Ψ Ω st.
Proof. host_create. Qed.
Lemma wp_createComment s (Φ : nat → State → Prop) Ψ Ω st :
  host_post (CreateComment s (next_node st)) st (Φ (next_node st)) →
  wp (createComment s) Φ Ψ Ω st.
Proof. host_create. Qed.
Lemma wp_createDocumentFragment (Φ : nat → State → Prop) Ψ Ω st :
  host_post (CreateDocumentFragment (next_node st)) st (Φ (next_node st)) →
  wp createDocumentFragment Φ Ψ Ω st.
Proof. host_create. Qed.

Lemma wp_setAttribute e name value (Φ : unit → State → Prop) Ψ Ω st :
  host_post (SetAttribute e name value) st (Φ tt) →
  wp (setAttribute e name value) Φ Ψ Ω st.
Proof.
  intros H. unfold setAttribute. apply wp_bind, wp_api_call, wp_modify. by apply H.
Qed.

Lemma wp_insertBefore p x ref (Φ : unit → State → Prop) Ψ Ω st :
  host_post (InsertBefore p x ref) st (fun st' => Φ tt st' ∧ Ψ NotFoundError st') →
  wp (insertBefore p x ref) Φ Ψ Ω st.
Proof.
  intros H. unfold insertBefore. apply wp_bind, wp_api_call, wp_bind, wp_get.
  set (st1 := with_trace _ st).
  destruct ref as [r|].
  - case_decide.
    + apply wp_modify. apply H.
      * unfold attach. simpl. destruct (detach_host_only x st1) as ((?&?&?&?)&_). done.
      * unfold attach. simpl. by rewrite (proj2 (detach_host_only x st1)).
    + apply wp_throw. by apply H.
  - apply wp_modify. apply H.
    * unfold attach. simpl. destruct (detach_host_only x st1) as ((?&?&?&?)&_). done.
    * unfold attach. simpl. by rewrite (proj2 (detach_host_only x st1)).
Qed.

Lemma wp_appendChild p x (Φ : unit → State → Prop) Ψ Ω st :
  host_post (AppendChild p x) st (Φ tt) →
  wp (appendChild p x) Φ Ψ Ω st.
Proof.
  intros H. unfold appendChild. apply wp_bind, wp_api_call, wp_modify.
  set (st1 := with_trace _ st). apply H.
  * unfold attach. simpl. destruct (detach_host_only x st1) as ((?&?&?&?)&_). done.
  * unfold attach. simpl. by rewrite (proj2 (detach_host_only x st1)).
Qed.

Lemma wp_removeChild p x (Φ : unit → State → Prop) Ψ Ω st :
  host_post (RemoveChild p x) st (fun st' => Φ tt st' ∧ Ψ NotFoundError st') →
  wp (removeChild p x) Φ Ψ Ω st.
Proof.
  intros H. unfold removeChild. apply wp_bind, wp_api_call, wp_bind, wp_get.
  set (st1 := with_trace _ st).
  case_decide.
  - apply wp_modify. apply H.
    + destruct (detach_host_only x st1) as ((?&?&?&?)&_). done.
    + by rewrite (proj2 (detach_host_only x st1)).
  - apply wp_throw. by apply H.
Qed.

Lemma wp_setTextContent e s (Φ : unit → State → Prop) Ψ Ω st :
  host_post (SetTextContent e s) st (Φ tt) →
  wp (setTextContent e s) Φ Ψ Ω st.
Proof.
  intros H. unfold setTextContent. apply wp_bind, wp_api_call, wp_bind, wp_get.
  set (st1 := with_trace _ st).
  assert (∀ k, Φ tt (with_kind (fun m => <[e := k]> m) st1)) as Hk.
  { intros k. by apply H. }
  assert (wp (modify (clear_kids e);;
              if decide (s = EmptyString) then ret tt
              else let* t := alloc (KText s) in modify (attach e t None)) Φ Ψ Ω st1) as Hc.
  { apply wp_bind, wp_modify. case_decide.
    - apply wp_ret. by apply H.
    - apply wp_bind, wp_alloc. intros st' Hh Ht. apply wp_modify. apply H.
      + destruct Hh as (?&?&?&?). done.
      + simpl. by rewrite Ht. }
  destruct (kind st1 !! e) as [[]|]; try done; by apply wp_modify.
Qed.

Ltac event_solve :=
  first
    [ match goal with
      | H : ∀ e, _ → ?P e |- ?P _ =>
          apply H; unfold patch_event, build_event, destroy_event, remove_event, update_event;
          tauto
      end
    | solve [ auto ]
    | solve [ unfold patch_event, build_event, destroy_event, remove_event, update_event;
              tauto ] ].

Ltac st_simpl :=
  cbn [vnodes arrays kind attr kids parent next_node rmcbs queue trace
       with_vnodes with_arrays with_kind with_attr with_kids with_parent
       with_next_node with_rmcbs with_queue with_trace add_events].
Tactic Notation "st_simpl" "in" hyp(H) :=
  cbn [vnodes arrays kind attr kids parent next_node rmcbs queue trace
       with_vnodes with_arrays with_kind with_attr with_kids with_parent
       with_next_node with_rmcbs with_queue with_trace add_events] in H.

Ltac lookup_simpl :=
  st_simpl;
  repeat match goal with
         | H : vnodes ?st = _ |- context [vnodes ?st] => rewrite H
         | H : arrays ?st = _ |- context [arrays ?st] => rewrite H
         end;
  try rewrite lookup_insert_eq;
  try match goal with
      | H : vnodes ?st !! ?r = Some _ |- context [vnodes ?st !! ?r] => rewrite H
      | H : arrays ?st !! ?r = Some _ |- context [arrays ?st !! ?r] => rewrite H
      end.
Ltac lookup_solve := lookup_simpl; first [ eassumption | reflexivity ].

Ltac keeps_solve :=
  first
    [ assumption
    | apply keeps_rmcbs; keeps_solve
    | apply keeps_arrays; keeps_solve
    | apply keeps_emit; [ event_solve | keeps_solve ]
    | apply keeps_hooks; [ intros; event_solve | keeps_solve ]
    | eapply keeps_update; [ lookup_solve | first [ apply struct_eq_set_elm | apply struct_eq_set_text | apply struct_eq_default; assumption ] | keeps_solve ]
    | eapply keeps_push; [ lookup_solve | eassumption | keeps_solve ] ].

Ltac host_step :=
  let Kc := fresh "Kc" in
  cbn beta in *;
  lazymatch goal with
  | |- wp _ _ _ _ ?s =>
      lazymatch goal with
      | Hk : keeps ?P ?st0 _ |- _ => assert (keeps P st0 s) as Kc by keeps_solve
      end
  end;
  lazymatch goal with
  | |- wp (createElement _) _ _ _ _ => apply wp_createElement
  | |- wp (createElementNS _ _) _ _ _ _ => apply wp_createElementNS
  | |- wp (createTextNode _) _ _ _ _ => apply wp_createTextNode
  | |- wp (createComment _) _ _ _ _ => apply wp_createComment
  | |- wp createDocumentFragment _ _ _ _ => apply wp_createDocumentFragment
  | |- wp (setAttribute _ _ _) _ _ _ _ => apply wp_setAttribute
  | |- wp (insertBefore _ _ _) _ _ _ _ => apply wp_insertBefore
  | |- wp (appendChild _ _) _ _ _ _ => apply wp_appendChild
  | |- wp (removeChild _ _) _ _ _ _ => apply wp_removeChild
  | |- wp (setTextContent _ _) _ _ _ _ => apply wp_setTextContent
  end;
  let st' := fresh "st" in
  let Hh := fresh "Hh" in
  let Ht := fresh "Ht" in
  intros st' Hh Ht;
  let K := fresh "K" in
  lazymatch type of Kc with
  | keeps ?P ?st0 _ =>
      assert (keeps P st0 st') as K
        by (eapply keeps_host; [ | exact Hh | exact Ht | exact Kc ]; event_solve);
      clear Kc;
      destruct Hh as (Hh & _ & ? & _); st_simpl in Hh
  end;
  cbn beta.

Ltac wp_read_step :=
  lazymatch goal with
  | |- wp (read _) _ _ _ _ => apply wp_read
  | |- wp (read_array _) _ _ _ _ => apply wp_read_array
  | |- wp (update_vnode _ _) _ _ _ _ => apply wp_update_vnode
  end;
  lookup_simpl;
  try lazymatch goal with
  | |- match vnodes ?st !! ?r with _ => _ end =>
      let v := fresh "v" in let Hr := fresh "Hr" in
      destruct (vnodes st !! r) as [v|] eqn:Hr; [| keeps_solve]
  | |- match arrays ?st !! ?r with _ => _ end =>
      let v := fresh "chs" in let Hr := fresh "Ha" in
      destruct (arrays st !! r) as [v|] eqn:Hr; [| keeps_solve]
  | |- match <[?k := ?x]> ?m !! ?r with _ => _ end =>
      let v := fresh "v" in let Hr := fresh "Hr" in
      destruct (<[k := x]> m !! r) as [v|] eqn:Hr; [| keeps_solve]
  end.

Ltac wp_defined_step :=
  lazymatch goal with
  | |- wp (defined ?o) _ _ _ _ =>
      apply wp_defined;
      let x := fresh "x" in let Hx := fresh "Hx" in
      destruct o as [x|] eqn:Hx; [| keeps_solve]
  end.

Ltac wp_head :=
  first
    [ wp_read_step
    | wp_defined_step
    | host_step
    | lazymatch goal with
      | |- wp (ret _) _ _ _ _ => apply wp_ret
      | |- wp (throw _) _ _ _ _ => apply wp_throw
      | |- wp (modify _) _ _ _ _ => apply wp_modify
      | |- wp (hook _) _ _ _ _ => apply wp_hook
      | |- wp get _ _ _ _ => apply wp_get
      | |- wp (for_each _ (fun _ => hook _)) _ _ _ _ => apply wp_for_each_hook
      end ].
Ltac wp_go1 :=
  lazymatch goal with
  | |- wp (bind (bind _ _) _) _ _ _ _ => apply wp_bind
  | |- wp (bind _ _) _ _ _ _ => apply wp_bind; wp_head
  | |- wp _ _ _ _ _ => wp_head
  end.
Ltac wp_go := repeat wp_go1.
Ltac case_if := match goal with |- if ?b then _ else _ => destruct b eqn:? end.

(** Join points: [when] and [match] in the middle of a sequence. *)
Ltac wp_join Q := apply wp_bind; apply (wp_post Q).

Section Light.
Variable modules : list Module.
Variable api : DOMAPI.
Variable options : Options.
Variable P : Event → Prop.
Variable st0 : State.

Local Abbreviation K := (keeps P st0).
Local Abbreviation KΨ := (fun (_ : Error) st => keeps P st0 st).

Lemma build_element_keeps (build : nat → M nat) (r : nat) (s : string) (v : VNode) st :
  (∀ e, build_event e → P e) →
  (∀ c st, K st → wp (build c) (fun _ => K) KΨ True st) →
  vnodes st !! r = Some v →
  K st → wp (build_element modules build r s v) (fun _ => K) KΨ True st.
Proof.
  intros HP IH Hr HK. unfold build_element.
  wp_join (fun (e : nat) st' => K st' ∧ vnodes st' = vnodes st);
    [|intros e st2 [HK2 Hv2]].
  { destruct (data v) as [d|]; [destruct (d_ns d)|]; wp_go; done. }
  wp_go.
  wp_join (fun (_ : unit) st' => K st'); [|intros [] st3 HK3].
  { destruct (s_id (parse_sel s)); wp_go; keeps_solve. }
  wp_join (fun (_ : unit) st' => K st'); [|clear HK3; intros [] st4 HK4].
  { destruct (s_class (parse_sel s)); wp_go; keeps_solve. }
  wp_go.
  destruct (children v) as [a|].
  - wp_go. apply wp_for_each; [keeps_solve|]. intros [c|] st6 _ HK6; [|done].
    wp_go. apply wp_bind. eapply wp_post; [by apply IH|].
    intros x st7 HK7. simpl. wp_go. done.
  - wp_go. destruct (text v0); wp_go; [done|keeps_solve].
Qed.

Lemma finish_element_keeps (r : nat) st :
  (∀ e, build_event e → P e) →
  K st → wp (finish_element r) (fun _ => K) KΨ True st.
Proof.
  intros HP HK. unfold finish_element. wp_go.
  destruct (d_hook x) as [h|] eqn:Hh6; [|done].
  wp_join (fun (_ : unit) st' => K st' ∧ vnodes st' = vnodes st);
    [|clear HK; intros [] st7 [HK7 Hv7]].
  { apply wp_when. destruct (h_create h); [|done]. wp_go. split; [|done]. keeps_solve. }
  apply wp_when. destruct (h_insert h) eqn:Hins; [|done].
  unfold push_inserted. wp_go. eapply keeps_push; [by rewrite Hv7, Hr| |done].
  unfold has_hook, hook_of. by rewrite Hx, Hh6.
Qed.

Lemma build_fragment_keeps (build : nat → M nat) (r a : nat) (v : VNode) st :
  (∀ e, build_event e → P e) →
  (∀ c st, K st → wp (build c) (fun _ => K) KΨ True st) →
  vnodes st !! r = Some v →
  K st → wp (build_fragment modules api build r a) (fun _ => K) KΨ True st.
Proof.
  intros HP IH Hr HK. unfold build_fragment.
  wp_join (fun (e : nat) st' => K st' ∧ vnodes st' = vnodes st);
    [|intros e st2 [HK2 Hv2]].
  { destruct (has_createDocumentFragment api); wp_go; done. }
  wp_go. apply wp_for_each; [keeps_solve|]. intros [c|] st6 _ HK6; [|done].
  wp_go. apply wp_bind. eapply wp_post; [by apply IH|].
  intros y st7 HK7. simpl. wp_go. done.
Qed.

Lemma createElm_keeps (fuel : nat) (r : nat) (st : State) :
  (∀ e, build_event e → P e) →
  K st → wp (createElm modules api options fuel r) (fun _ => K) KΨ True st.
Proof.
  intros HP. revert r st. induction fuel as [|fuel IH]; intros r st HK; [done|].
  cbn [createElm]. wp_go.
  wp_join (fun (_ : unit) st' => K st' ∧ vnodes st' = vnodes st).
  { apply wp_when. destruct (has_hook h_init v); [wp_go; split; [keeps_solve|done]|done]. }
  clear HK. intros [] st1 [HK Hv1]. wp_go.
  wp_join (fun (_ : unit) st' => K st'); [|intros [] st2 HK2; wp_go; keeps_solve].
  destruct (sel v) as [s|] eqn:Hs.
  - destruct (decide (s = "!")) as [->|Hbang].
    + wp_join (fun (_ : unit) st' => K st'); [|intros [] st2 HK2].
      { apply wp_when. case_bool_decide; [|done]. wp_go. keeps_solve. }
      wp_go. keeps_solve.
    + apply wp_bind. eapply wp_post.
      { apply build_element_keeps; [done|done|by rewrite Hv1|done]. }
      intros [] st2 HK2. by apply finish_element_keeps.
  - destruct (if fragments options then children v else None) as [a|].
    + eapply build_fragment_keeps; [done|done|by rewrite Hv1|done].
    + wp_go. keeps_solve.
Qed.

Lemma wp_for_range (I : State → Prop) Ψ Ω (a b : Z) (f : Z → M unit) st :
  I st →
  (∀ i st, (a ≤ i ≤ b)%Z → I st → wp (f i) (fun _ => I) Ψ Ω st) →
  wp (for_range a b f) (fun _ => I) Ψ Ω st.
Proof.
  intros HI Hf. apply wp_for_each; [done|].
  intros i st' Hi. apply Hf. apply elem_of_seqZ in Hi. lia.
Qed.

Lemma addVnodes_keeps fuel parentElm before vs startIdx endIdx st :
  (∀ e, build_event e → P e) →
  (∀ p x ref, P (EApi (InsertBefore p x ref))) →
  K st →
  wp (addVnodes modules api options fuel parentElm before vs startIdx endIdx)
     (fun _ => K) KΨ True st.
Proof.
  intros HP HI HK. unfold addVnodes. apply wp_for_range; [done|].
  clear st HK. intros i st _ HK. wp_go.
  destruct (aget chs i) as [ch|]; [|done].
  apply wp_bind. eapply wp_post; [by apply createElm_keeps|].
  intros e st1 HK1. cbn beta. wp_go.
  split; [done|]. done.
Qed.

Lemma invokeDestroyHook_keeps fuel r st :
  (∀ e, destroy_event e → P e) →
  K st → wp (invokeDestroyHook modules fuel r) (fun _ => K) KΨ True st.
Proof.
  intros HP. revert r st. induction fuel as [|fuel IH]; intros r st HK; [done|].
  cbn [invokeDestroyHook]. wp_go.
  destruct (data v); [|done].
  wp_join (fun (_ : unit) st' => K st' ∧ vnodes st' = vnodes st).
  { apply wp_when. destruct (has_hook h_destroy v); [wp_go; split; [keeps_solve|done]|done]. }
  clear HK. intros [] st1 [HK Hv1]. wp_go.
  destruct (children v) as [a|]; [|keeps_solve].
  wp_go. apply wp_for_each; [keeps_solve|].
  intros [c|] st2 _ HK2; [|done]. by apply IH.
Qed.

Lemma rmCb_keeps c st :
  (∀ p x, P (EApi (RemoveChild p x))) →
  K st → wp (rmCb c) (fun _ => K) KΨ True st.
Proof.
  intros HP HK. unfold rmCb. wp_go.
  destruct (rmcbs st !! c) as [[childElm listeners]|]; [|done].
  wp_go. case_decide; [|keeps_solve].
  wp_go. unfold parentNode. apply wp_bind. unfold wp at 1. wp_go. done.
Qed.

Lemma removeVnode_keeps fuel parentElm ch st :
  (∀ e, destroy_event e → P e) →
  (∀ e, remove_event e → P e) →
  K st → wp (removeVnode modules fuel parentElm ch) (fun _ => K) KΨ True st.
Proof.
  intros HD HR HK. unfold removeVnode. wp_go.
  case_bool_decide.
  - apply wp_bind. eapply wp_post; [by apply invokeDestroyHook_keeps|].
    clear HK. intros [] st1 HK. cbn beta. wp_go.
    unfold createRmCb. apply wp_bind. unfold wp at 1.
    apply wp_bind.
    apply (wp_post (fun (_ : unit) st' => K st')); [|clear HK; intros [] st2 HK].
    { apply wp_for_each; [keeps_solve|]. intros [m calls] st2 _ HK2. wp_go.
      apply wp_repeat_m; [keeps_solve|]. intros st3 HK3. apply rmCb_keeps; [|done].
      intros; event_solve. }
    wp_go.
    destruct (hook_of v1 ≫= h_remove) as [calls|].
    + wp_go. apply wp_repeat_m; [keeps_solve|]. intros st3 HK3. apply rmCb_keeps; [|done].
      intros; event_solve.
    + apply rmCb_keeps; [|done]. intros; event_solve.
  - wp_go. split; [done|done].
Qed.

Lemma removeVnodes_keeps fuel parentElm vs startIdx endIdx st :
  (∀ e, destroy_event e → P e) →
  (∀ e, remove_event e → P e) →
  K st →
  wp (removeVnodes modules fuel parentElm vs startIdx endIdx) (fun _ => K) KΨ True st.
Proof.
  intros HD HR HK. unfold removeVnodes. apply wp_for_range; [done|].
  clear st HK. intros i st _ HK.
  destruct (aget vs i) as [ch|]; [|done]. by apply removeVnode_keeps.
Qed.

Section WithPatch.
Variable pv : nat → nat → M unit.
Variable fuel : nat.
Variable parentElm : option nat.
Variables oldCh newCh : nat.
Hypothesis HP : ∀ e, patch_event e → P e.
Hypothesis Hpv : ∀ o n st, K st → wp (pv o n) (fun _ => K) KΨ True st.

Lemma same_keeps o n (Φ : bool → State → Prop) st :
  K st → (∀ b, Φ b st) → wp (same o n) Φ KΨ True st.
Proof. intros HK HΦ. unfold same. wp_go. apply HΦ. Qed.

Lemma elm_of_keeps r (Φ : option nat → State → Prop) st :
  K st → (∀ b, Φ b st) → wp (elm_of r) Φ KΨ True st.
Proof. intros HK HΦ. unfold elm_of. wp_go. apply HΦ. Qed.

Lemma old_at_keeps i (Φ : option nat → State → Prop) st :
  K st → (∀ b, Φ b st) → wp (old_at oldCh i) Φ KΨ True st.
Proof. intros HK HΦ. unfold old_at. wp_go. apply HΦ. Qed.
Lemma new_at_keeps i (Φ : option nat → State → Prop) st :
  K st → (∀ b, Φ b st) → wp (new_at newCh i) Φ KΨ True st.
Proof. intros HK HΦ. unfold new_at. wp_go. apply HΦ. Qed.

Ltac uc_step :=
  first
    [ wp_go1
    | apply wp_bind; apply same_keeps; [ keeps_solve | intros ? ]
    | apply wp_bind; apply elm_of_keeps; [ keeps_solve | intros ? ]
    | apply wp_bind; apply old_at_keeps; [ keeps_solve | intros ? ]
    | apply wp_bind; apply new_at_keeps; [ keeps_solve | intros ? ]
    | lazymatch goal with
      | |- wp (bind (nextSibling _) _) _ _ _ _ =>
          apply wp_bind; unfold nextSibling; unfold wp at 1; cbn beta
      end
    | apply wp_bind; eapply wp_post;
      [ apply Hpv; keeps_solve | intros [] ? ?; cbn beta in * ]
    | apply wp_bind; eapply wp_post;
      [ apply createElm_keeps; [ intros; event_solve | keeps_solve ]
      | intros ? ? ?; cbn beta in * ] ].

Lemma keyed_keeps l oldStart newStart st :
  K st →
  wp (keyed modules api options pv fuel parentElm oldCh newCh l oldStart newStart)
     (fun _ => K) KΨ True st.
Proof.
  intros HK. unfold keyed. wp_go.
  wp_join (fun (_ : unit) st' => K st'); [|intros [] st1 HK1; repeat uc_step; done].
  match goal with |- context [match ?x with Some _ => _ | None => _ end] => destruct x end.
  - repeat uc_step. case_bool_decide.
    + repeat uc_step. split; done.
    + repeat uc_step. split; done.
  - repeat uc_step. split; done.
Qed.

Lemma step_keeps l st :
  K st →
  wp (step modules api options pv fuel parentElm oldCh newCh l) (fun _ => K) KΨ True st.
Proof.
  intros HK. unfold step.
  destruct (oldStartVnode l), (oldEndVnode l), (newStartVnode l), (newEndVnode l);
    try (repeat uc_step; done).
  repeat uc_step. destruct b.
  { repeat uc_step. done. }
  repeat uc_step. destruct b.
  { repeat uc_step. done. }
  repeat uc_step. destruct b.
  { repeat uc_step. split; [|done]. repeat uc_step. done. }
  repeat uc_step. destruct b.
  { repeat uc_step. split; [|done]. repeat uc_step. done. }
  by apply keyed_keeps.
Qed.

Lemma loop_keeps n l st :
  K st →
  wp (loop modules api options pv fuel parentElm oldCh newCh n l) (fun _ => K) KΨ True st.
Proof.
  revert l st. induction n as [|n IH]; intros l st HK; simpl.
  - by destruct (running l).
  - destruct (running l); [|done]. apply wp_bind. eapply wp_post; [by apply step_keeps|].
    intros l' st' HK'. by apply IH.
Qed.

Lemma updateChildren_keeps st :
  K st →
  wp (updateChildren_ modules api options pv fuel parentElm oldCh newCh)
     (fun _ => K) KΨ True st.
Proof.
  intros HK. unfold updateChildren_. wp_go.
  apply wp_bind. eapply wp_post; [by apply loop_keeps|].
  intros l st1 HK1. cbn beta in *.
  wp_join (fun (_ : unit) st' => K st'); [|intros [] st2 HK2].
  - apply wp_when. case_bool_decide; [|done]. repeat uc_step.
    apply wp_bind. apply (wp_post (fun _ st' => K st')).
    { destruct b; [|done]. apply elm_of_keeps; [done|]. done. }
    intros before st2 HK2. apply addVnodes_keeps; [intros; event_solve| |done].
    intros. event_solve.
  - apply wp_when. case_bool_decide; [|done]. wp_go.
    apply removeVnodes_keeps; [intros; event_solve|intros; event_solve|done].
Qed.
End WithPatch.

Lemma update_hooks_keeps o n st :
  (∀ e, patch_event e → P e) →
  K st → wp (update_hooks modules o n) (fun _ => K) KΨ True st.
Proof.
  intros HP HK. unfold update_hooks. wp_go.
  apply wp_when. match goal with |- if ?b then _ else _ => destruct b end; [|done].
  wp_join (fun (_ : unit) st' => K st'); [|clear HK; intros [] st1 HK].
  { apply wp_when. case_bool_decide; [|done]. wp_go. keeps_solve. }
  wp_go.
  wp_join (fun (_ : unit) st' => K st'); [|clear HK; intros [] st2 HK].
  { apply wp_when. case_bool_decide; [|done]. wp_go. keeps_solve. }
  wp_go. apply wp_when. destruct (has_hook h_update v2); [|keeps_solve].
  wp_go. keeps_solve.
Qed.

Lemma reconcile_keeps pv fuel elm oldCh ch o n st :
  (∀ e, patch_event e → P e) →
  (∀ o n st, K st → wp (pv o n) (fun _ => K) KΨ True st) →
  K st →
  wp (reconcile modules api options pv fuel elm oldCh ch o n) (fun _ => K) KΨ True st.
Proof.
  intros HP Hpv HK. unfold reconcile. wp_go.
  assert (∀ st, K st →
            wp (when (bool_decide (text v ≠ None))
                  (let* e := defined elm in setTextContent e EmptyString)) (fun _ => K) KΨ True st) as Hclear.
  { intros st1 HK1. apply wp_when. case_bool_decide; [|done]. wp_go. done. }
  assert (∀ a st, K st →
            wp (let* a0 := read_array a in
                removeVnodes modules fuel elm a0 0 (Z.of_nat (length a0) - 1))
               (fun _ => K) KΨ True st) as Hrm.
  { intros a st1 HK1. wp_go.
    apply removeVnodes_keeps; [intros; event_solve|intros; event_solve|done]. }
  destruct (text v0) as [t|].
  - apply wp_when. case_if; [|done].
    wp_join (fun (_ : unit) st' => K st'); [|clear HK; intros [] st1 HK].
    { destruct oldCh; [by apply Hrm|done]. }
    wp_go. done.
  - destruct oldCh as [oa|], ch as [na|].
    + case_decide; [done|]. by apply updateChildren_keeps.
    + by apply Hrm.
    + wp_join (fun (_ : unit) st' => K st'); [by apply Hclear|clear HK; intros [] st1 HK].
      wp_go. apply addVnodes_keeps; [intros; event_solve|intros; event_solve|done].
    + by apply Hclear.
Qed.

Lemma patchVnode_keeps fuel o n st :
  (∀ e, patch_event e → P e) →
  K st → wp (patchVnode modules api options fuel o n) (fun _ => K) KΨ True st.
Proof.
  intros HP. revert o n st. induction fuel as [|fuel IH]; intros o n st HK; [done|].
  cbn [patchVnode]. wp_go.
  wp_join (fun (_ : unit) st' => K st'); [|clear HK; intros [] st1 HK].
  { apply wp_when. destruct (match hook_of v with Some h => h_prepatch h | None => false end);
      [|done]. wp_go. keeps_solve. }
  wp_go. case_decide; [keeps_solve|].
  apply wp_bind. eapply wp_post; [apply update_hooks_keeps; [done|keeps_solve]|].
  intros [] st2 HK2. cbn beta in *.
  apply wp_bind. eapply wp_post; [apply reconcile_keeps; [done|by apply IH|done]|].
  intros [] st3 HK3. cbn beta in *.
  apply wp_when. destruct (match hook_of v with Some h => h_postpatch h | None => false end);
      [|done]. wp_go. keeps_solve.
Qed.

Lemma updateChildren_keeps' fuel parentElm oldCh newCh st :
  (∀ e, patch_event e → P e) →
  K st →
  wp (updateChildren modules api options fuel parentElm oldCh newCh)
     (fun _ => K) KΨ True st.
Proof.
  intros HP HK. apply updateChildren_keeps; [done| |done].
  intros o n st1 HK1. by apply patchVnode_keeps.
Qed.
End Light.

Section KeyMap.
Variable vs : gmap nat VNode.
Variable children : list (option nat).

Local Abbreviation record := (record vs children).

Lemma createKeyToOldIdx_fold b e :
  createKeyToOldIdx vs children b e = foldl record ∅ (seqZ b (e - b + 1)).
Proof. reflexivity. Qed.

Lemma record_keep (idxs : list Z) (map : gmap string Z) (name : string) (i : Z) :
  map !! name = Some i →
  (∀ j k, j ∈ idxs → key_at vs children j = Some k → key_name k ≠ name) →
  foldl record map idxs !! name = Some i.
Proof.
  revert map. induction idxs as [|j idxs IH]; intros map Hm Hno; [done|].
  simpl. apply IH.
  - unfold record. destruct (key_at vs children j) as [k|] eqn:Hk; [|done].
    rewrite lookup_insert_ne; [done|]. eapply Hno; [left|done].
  - intros j' k' Hj'. apply Hno. by right.
Qed.

Lemma createKeyToOldIdx_last b e i k :
  (b ≤ i ≤ e)%Z →
  key_at vs children i = Some k →
  (∀ j k', (i < j ≤ e)%Z → key_at vs children j = Some k' → key_name k' ≠ key_name k) →
  createKeyToOldIdx vs children b e !! key_name k = Some i.
Proof.
  intros Hi Hk Hlast. rewrite createKeyToOldIdx_fold.
  replace (e - b + 1)%Z with ((i - b) + (1 + (e - i)))%Z by lia.
  rewrite seqZ_app; [| lia | lia ]. rewrite foldl_app.
  replace (b + (i - b))%Z with i by lia.
  rewrite (seqZ_cons i) by lia. simpl.
  apply record_keep.
  - unfold record at 1. rewrite Hk. apply lookup_insert_eq.
  - intros j k' Hj. apply elem_of_seqZ in Hj. apply Hlast. lia.
Qed.
End KeyMap.

Section KeyedFallback.
Variable modules : list Module.
Variable api : DOMAPI.
Variable options : Options.

Lemma keyed_patches_last (fuel : nat) (parentElm : option nat) (oldCh newCh : nat)
    (l : Loop) (oldStart newStart : nat) (oldArr : list (option nat))
    (nv rv : VNode) (k k' : Key) (i : Z) (r : nat) (st : State) :
  oldKeyToIdx l = None →
  arrays st !! oldCh = Some oldArr →
  vnodes st !! newStart = Some nv →
  key nv = Some k →
  (oldStartIdx l ≤ i ≤ oldEndIdx l)%Z →
  key_at (vnodes st) oldArr i = Some k' →
  key_name k' = key_name k →
  (∀ j k'', (i < j ≤ oldEndIdx l)%Z → key_at (vnodes st) oldArr j = Some k'' →
            key_name k'' ≠ key_name k) →
  aget oldArr i = Some r →
  vnodes st !! r = Some rv →
  sel rv = sel nv →
  ∃ K : unit → M Loop,
    ∀ patchVnode : nat → nat → M unit,
      keyed modules api options patchVnode fuel parentElm oldCh newCh l oldStart newStart st
      = bind (patchVnode r newStart) K st.
Proof.
  intros Hmap Ha Hn Hk Hi Hki Hname Hlast Hr Hrv Hsel.
  eexists. intros pv. unfold keyed.
  rewrite (bind_ok _ _ st st st) by done.
  rewrite (bind_ok _ _ st oldArr st) by (unfold read_array; by rewrite Ha).
  rewrite Hmap. cbv zeta.
  rewrite (bind_ok _ _ st nv st) by (unfold read; by rewrite Hn).
  rewrite Hk. cbn [prop_name]. rewrite <- Hname.
  rewrite (createKeyToOldIdx_last (vnodes st) oldArr _ _ i k') by (done || by rewrite Hname).
  rewrite bind_assoc. rewrite Hr. unfold defined at 1.
  rewrite (bind_ok _ _ st r st) by done.
  rewrite bind_assoc.
  rewrite (bind_ok _ _ st rv st) by (unfold read; by rewrite Hrv).
  rewrite bind_assoc.
  rewrite (bind_ok _ _ st nv st) by (unfold read; by rewrite Hn).
  rewrite bool_decide_eq_false_2 by (by intros H; apply H).
  rewrite bind_assoc. reflexivity.
Qed.
End KeyedFallback.

Lemma set_elm_id (v : VNode) : set_elm (elm v) v = v.
Proof. by destruct v. Qed.

Lemma with_vnodes_id (r : nat) (v : VNode) (st : State) :
  vnodes st !! r = Some v → with_vnodes (fun m => <[r := v]> m) st = st.
Proof. intros H. destruct st; unfold with_vnodes; simpl in *. f_equal. by apply insert_id. Qed.

Section SameReference.
Variable modules : list Module.
Variable api : DOMAPI.
Variable options : Options.

Lemma patchVnode_same_ref (fuel : nat) (v : nat) (o : VNode) (st : State) :
  vnodes st !! v = Some o →
  patchVnode modules api options (S fuel) v v st
  = Ok tt (if has_hook h_prepatch o
           then with_trace (fun t => t ++ [EHook (HookPrepatch v v)]) st
           else st).
Proof.
  intros Hv. apply wp_eq. simpl.
  wp_prim. wp_prim. rewrite Hv. wp_prim. wp_prim.
  fold (has_hook h_prepatch o).
  destruct (has_hook h_prepatch o).
  - wp_prim. wp_prim. wp_prim. simpl. rewrite Hv. wp_prim. wp_prim. simpl. rewrite Hv.
    rewrite set_elm_id. rewrite with_vnodes_id by done.
    wp_prim. wp_prim. simpl. rewrite Hv. wp_prim. wp_prim. simpl. rewrite Hv.
    rewrite decide_True by done. by wp_prim.
  - wp_prim. wp_prim. simpl. rewrite Hv. wp_prim. wp_prim. simpl. rewrite Hv.
    rewrite set_elm_id. rewrite with_vnodes_id by done.
    wp_prim. wp_prim. simpl. rewrite Hv. wp_prim. wp_prim. simpl. rewrite Hv.
    rewrite decide_True by done. by wp_prim.
Qed.
End SameReference.

Section FragmentUnsupported.
Variable modules : list Module.
Variable api : DOMAPI.
Variable options : Options.

(** C8: with the [fragments] option set and an adapter without
    [createDocumentFragment], [createElm] on a vnode without selector but
    with children throws the error of [documentFragmentIsNotSupported]
    at once: after the [init] hook of the vnode, if any, nothing else
    has happened -- no host node is made and no child is built. *)
Theorem createElm_fragment_unsupported (fuel : nat) (r a : nat) (v : VNode) (st : State) :
  fragments options = true →
  has_createDocumentFragment api = false →
  vnodes st !! r = Some v →
  sel v = None →
  children v = Some a →
  createElm modules api options (S fuel) r st
  = Throw FragmentNotSupported
      (if has_hook h_init v then add_events [EHook (HookInit r)] st else st).
Proof.
  intros Hf Hc Hv Hs Ha. simpl. unfold bind at 1. unfold read at 1. rewrite Hv.
  unfold bind at 1. unfold when.
  destruct (has_hook h_init v); simpl.
  - unfold bind at 1. unfold read at 1. simpl. rewrite Hv, Hs, Hf, Ha.
    unfold build_fragment. rewrite Hc. reflexivity.
  - unfold bind at 1. unfold read at 1. simpl. rewrite Hv, Hs, Hf, Ha.
    unfold build_fragment. rewrite Hc. reflexivity.
Qed.
End FragmentUnsupported.

Section UpdateHooks.
Variable modules : list Module.
Variable api : DOMAPI.
Variable options : Options.

Lemma has_hook_set_elm f e v : has_hook f (set_elm e v) = has_hook f v.
Proof. done. Qed.
Lemma has_hook_default f v :
  data v = None → has_hook f (set_data (Some empty_data) v) = has_hook f v.
Proof. unfold has_hook, hook_of. simpl. by intros ->. Qed.

Lemma update_hooks_spec (o n : nat) (ov nv : VNode) (st : State) :
  o ≠ n →
  vnodes st !! o = Some ov →
  vnodes st !! n = Some nv →
  ∃ st1, update_hooks modules o n st = Ok tt st1
         ∧ trace st1 = trace st ++ update_events modules o n ov nv
         ∧ same_host st st1.
Proof.
  intros Hne Ho Hn.
  enough (wp (update_hooks modules o n)
           (fun _ st1 => trace st1 = trace st ++ update_events modules o n ov nv ∧ same_host st st1)
           (fun _ _ => False) False st) as H.
  { apply wp_total in H. destruct H as ([] & st1 & ? & ?). eauto. }
  unfold update_hooks, update_events. fold (update_cond ov nv).
  wp_prim. wp_prim. rewrite Ho. wp_prim. wp_prim. rewrite Hn.
  fold (update_cond ov nv).
  wp_prim. destruct (update_cond ov nv); [|by rewrite app_nil_r].
  wp_prim. wp_prim.
  case_bool_decide as Hd.
  - wp_prim. rewrite Hn. wp_prim. wp_prim. simpl. rewrite lookup_insert_ne by done. rewrite Ho.
    wp_prim. wp_prim.
    case_bool_decide as Hd'.
    + wp_prim. simpl. rewrite lookup_insert_ne by done. rewrite Ho.
      wp_prim. apply wp_for_each_hook. wp_prim. wp_prim. simpl.
      rewrite lookup_insert_ne by done. rewrite lookup_insert_eq.
      rewrite has_hook_default by done.
      wp_prim. destruct (has_hook h_update nv).
      * wp_prim. simpl. rewrite <- app_assoc. done.
      * simpl. by rewrite app_nil_r.
    + wp_prim. apply wp_for_each_hook. wp_prim. wp_prim. simpl.
      rewrite lookup_insert_eq.
      rewrite has_hook_default by done.
      wp_prim. destruct (has_hook h_update nv).
      * wp_prim. simpl. rewrite <- app_assoc. done.
      * simpl. by rewrite app_nil_r.
  - wp_prim. wp_prim. rewrite Ho. wp_prim. wp_prim.
    case_bool_decide as Hd'.
    + wp_prim. rewrite Ho.
      wp_prim. apply wp_for_each_hook. wp_prim. wp_prim. simpl.
      rewrite lookup_insert_ne by done. rewrite Hn.
      wp_prim. destruct (has_hook h_update nv).
      * wp_prim. simpl. rewrite <- app_assoc. done.
      * simpl. by rewrite app_nil_r.
    + wp_prim. apply wp_for_each_hook. wp_prim. wp_prim. simpl.
      rewrite Hn.
      wp_prim. destruct (has_hook h_update nv).
      * wp_prim. simpl. rewrite <- app_assoc. done.
      * simpl. by rewrite app_nil_r.
Qed.

(** C6: in [patchVnode] over two distinct vnodes the [prepatch] hook is
    followed by the [update] hooks of the modules and the [update] hook
    of the new vnode exactly when the data of the new vnode is present, or
    its text is defined and differs from the text of the old vnode;
    otherwise no [update] hook fires.  Nothing of the host tree has
    changed when the reconciliation of the children starts. *)
Theorem patchVnode_update_hooks (fuel : nat) (o n : nat) (ov nv : VNode) (st : State) :
  o ≠ n →
  vnodes st !! o = Some ov →
  vnodes st !! n = Some nv →
  ∃ st1,
    trace st1 = trace st ++ prepatch_events o n nv ++ update_events modules o n ov nv
    ∧ same_host st st1
    ∧ patchVnode modules api options (S fuel) o n st
      = (reconcile modules api options (patchVnode modules api options fuel) fuel
           (elm ov) (children ov) (children nv) o n ;;
         when (has_hook h_postpatch nv) (hook (HookPostpatch o n))) st1.
Proof.
  intros Hne Ho Hn.
  set (st_a := add_events (prepatch_events o n nv) st).
  set (st_b := with_vnodes (fun m => <[n := set_elm (elm ov) nv]> m) st_a).
  destruct (update_hooks_spec o n ov (set_elm (elm ov) nv) st_b) as (st1 & Hu & Htr & Hh).
  { done. }
  { subst st_b st_a. simpl. by rewrite lookup_insert_ne. }
  { subst st_b. simpl. by rewrite lookup_insert_eq. }
  exists st1. split; [|split].
  - rewrite Htr. subst st_b st_a. simpl. by rewrite app_assoc.
  - done.
  - simpl. rewrite (bind_ok _ _ st nv st) by (unfold read; by rewrite Hn).
    rewrite (bind_ok _ _ st tt st_a).
    2:{ subst st_a. unfold prepatch_events, has_hook.
        destruct (hook_of nv) as [h|]; simpl; [destruct (h_prepatch h)|]; simpl;
          by rewrite ?add_events_nil. }
    rewrite (bind_ok _ _ st_a ov st_a) by (unfold read; subst st_a; simpl; by rewrite Ho).
    rewrite (bind_ok _ _ st_a tt st_b).
    2:{ unfold update_vnode. rewrite (bind_ok _ _ st_a nv st_a); [done|].
        unfold read; subst st_a; simpl; by rewrite Hn. }
    rewrite (bind_ok _ _ st_b ov st_b).
    2:{ unfold read; subst st_b st_a; simpl. rewrite lookup_insert_ne by done. by rewrite Ho. }
    rewrite (bind_ok _ _ st_b (set_elm (elm ov) nv) st_b).
    2:{ unfold read; subst st_b st_a; simpl. by rewrite lookup_insert_eq. }
    rewrite decide_False by done.
    rewrite (bind_ok _ _ st_b tt st1) by done.
    reflexivity.
Qed.
End UpdateHooks.

Lemma fire_inserts_ok (q : list nat) (st : State) :
  (∀ r, r ∈ q → ∃ v, vnodes st !! r = Some v ∧ has_hook h_insert v = true) →
  for_each q fire_insert st = Ok tt (add_events (insert_events q) st).
Proof.
  revert st. induction q as [|r q IH]; intros st Hq; simpl.
  - by rewrite add_events_nil.
  - destruct (Hq r) as (v & Hv & Hh); [by left|].
    unfold has_hook, hook_of in Hh.
    destruct (data v) as [d|] eqn:Hd; [|done]. destruct (d_hook d) as [h|] eqn:Hdh; [|done].
    rewrite (bind_ok _ _ st tt (add_events [EHook (HookInsert r)] st)).
    2:{ apply wp_eq. unfold fire_insert. apply wp_bind, wp_read. rewrite Hv.
        apply wp_bind, wp_defined. rewrite Hd. apply wp_bind, wp_defined. rewrite Hdh.
        rewrite Hh. by apply wp_hook. }
    rewrite IH.
    + by rewrite add_events_app.
    + intros r' Hr'. apply Hq. by right.
Qed.

Section UnattachedRoot.
Variable modules : list Module.
Variable api : DOMAPI.
Variable options : Options.

Lemma createElm_result (fuel : nat) (r x : nat) (st st' : State) :
  createElm modules api options fuel r st = Ok x st' →
  ∃ v, vnodes st' !! r = Some v ∧ elm v = Some x.
Proof.
  destruct fuel as [|fuel]; [done|]. cbn [createElm]. intros H.
  apply bind_inv in H as (v0 & s0 & _ & H).
  apply bind_inv in H as ([] & s1 & _ & H).
  apply bind_inv in H as (v1 & s2 & _ & H).
  apply bind_inv in H as ([] & s3 & _ & H).
  apply bind_inv in H as (v & s4 & Hv & H).
  unfold read in Hv. destruct (vnodes s3 !! r) as [v'|] eqn:Hr; [|done].
  injection Hv as -> ->. exists v.
  destruct (elm v); [|done]. by injection H as -> ->.
Qed.

Lemma root_vnode_silent (root : Root) (o : nat) (st st1 : State) :
  root_vnode api root st = Ok o st1 →
  queue st1 = queue st ∧ trace st1 = trace st ∧ kids st1 = kids st
  ∧ parent st1 = parent st.
Proof.
  unfold root_vnode. intros H. apply bind_inv in H as (s & s' & Hg & H).
  unfold get in Hg. simplify_eq. destruct root as [v|e].
  - destruct (has_isDocumentFragment api); [|done]. unfold ret in H. by simplify_eq.
  - destruct (is_element s' e).
    + unfold emptyNodeAt in H. apply bind_inv in H as (s0 & s0' & Hg & H).
      unfold get in Hg. simplify_eq.
      apply bind_inv in H as (tag & s1 & Ht & H).
      unfold tagName in Ht. destruct (kind s0' !! e) as [[]|]; try done.
      simplify_eq.
      apply bind_inv in H as (a & s2 & Ha & H).
      unfold new_array in Ha. unfold new_vnode in H. by simplify_eq.
    + destruct (has_isDocumentFragment api); [|done].
      destruct (is_fragment s' e); [|done].
      unfold emptyDocumentFragmentAt in H.
      apply bind_inv in H as (a & s2 & Ha & H).
      unfold new_array in Ha. unfold new_vnode in H. by simplify_eq.
Qed.

End UnattachedRoot.

(** ** [createRmCb]: the reference-counted removal *)

Lemma collect_length_gen {A} (f : Module → option A) (g : nat → Module → nat * Module)
    (modules : list Module) :
  (∀ i m, (g i m).2 = m) →
  length (omap (fun p => (fun h => (p.1, h)) <$> f p.2) (imap g modules))
  = length (filter (fun m => is_Some (f m)) modules).
Proof.
  revert g. induction modules as [|m ms IH]; intros g Hg; [done|].
  cbn [imap omap list_omap]. rewrite filter_cons, Hg.
  destruct (f m) as [a|] eqn:Hf; simpl.
  - destruct (decide (is_Some (Some a))) as [_|[]]; [|eauto]. simpl. f_equal.
    apply IH. intros i m'. apply Hg.
  - destruct (decide (is_Some (@None A))) as [[? [=]]|_].
    apply IH. intros i m'. apply Hg.
Qed.

Lemma collect_length {A} (f : Module → option A) (modules : list Module) :
  length (collect f modules) = length (filter (fun m => is_Some (f m)) modules).
Proof. by apply collect_length_gen. Qed.

Lemma remove_hooks_count (modules : list Module) :
  length (cb_remove (cbs modules)) = length (with_remove modules).
Proof. apply collect_length. Qed.

Section RmCb.
Variable c : nat.

(** One invocation, by cases on the counter. *)
Lemma rmCb_pending (x : option nat) (k : Z) (st : State) :
  rmcbs st !! c = Some (x, k) → (k - 1 ≠ 0)%Z →
  rmCb c st = Ok tt (with_rmcbs (fun l => <[c := (x, (k - 1)%Z)]> l) st).
Proof.
  intros Hc Hk. unfold rmCb, bind, get. rewrite Hc. simpl.
  by rewrite decide_False.
Qed.

Lemma rmCb_detach (x p : nat) (st : State) :
  rmcbs st !! c = Some (Some x, 1%Z) →
  parent_of st x = Some p →
  rmCb c st
  = Ok tt (detach x (add_events [EApi (RemoveChild p x)]
                       (with_rmcbs (fun l => <[c := (Some x, 0%Z)]> l) st))).
Proof.
  intros Hc Hp. unfold rmCb, bind, get. rewrite Hc. simpl.
  unfold parentNode, parent_of in *. simpl. rewrite Hp. simpl.
  unfold removeChild, bind, api_call, emit, modify, get, parent_of. simpl.
  by rewrite Hp, decide_True.
Qed.

Lemma rmCb_no_parent (x : nat) (st : State) :
  rmcbs st !! c = Some (Some x, 1%Z) →
  parent_of st x = None →
  rmCb c st = Throw TypeError (with_rmcbs (fun l => <[c := (Some x, 0%Z)]> l) st).
Proof.
  intros Hc Hp. unfold rmCb, bind, get. rewrite Hc. simpl.
  unfold parentNode, parent_of in *. simpl. by rewrite Hp.
Qed.

Lemma lookup_rmcbs_insert (x : option nat) (k : Z) (y : option nat * Z) (st : State) :
  rmcbs st !! c = Some y →
  rmcbs (with_rmcbs (fun l => <[c := (x, k)]> l) st) !! c = Some (x, k).
Proof.
  intros Hc. simpl. apply list_lookup_insert_eq. by eapply lookup_lt_Some.
Qed.

Lemma detach_trace y st : trace (detach y st) = trace st.
Proof. unfold detach. by destruct (parent st !! y). Qed.
Lemma detach_rmcbs y st : rmcbs (detach y st) = rmcbs st.
Proof. unfold detach. by destruct (parent st !! y). Qed.

Lemma emitted_nil {A} (m : M A) st :
  trace (after (m st) st) = trace st → emitted_by m st = [].
Proof. unfold emitted_by. intros ->. by rewrite drop_all. Qed.
Lemma emitted_app {A} (m : M A) st evs :
  trace (after (m st) st) = trace st ++ evs → emitted_by m st = evs.
Proof. unfold emitted_by. intros ->. by rewrite drop_app_length. Qed.

(** The counter after [n] invocations, and what they emitted. *)
Lemma history_counter (x : nat) (k : Z) (st st' : State) (n : nat) (evs : list Event) :
  rmcbs st !! c = Some (Some x, k) →
  (1 ≤ k)%Z →
  history c st n evs st' →
  rmcbs st' !! c = Some (Some x, (k - Z.of_nat n)%Z)
  ∧ ((Z.of_nat n < k)%Z → evs = [])
  ∧ (evs = [] ∨ ∃ p, evs = [EApi (RemoveChild p x)]).
Proof.
  intros Hc Hk Hh. induction Hh as [st|st n evs st1 Hh IH|st n evs st1 st2 Hh IH Heq].
  - rewrite Z.sub_0_r. eauto.
  - destruct (IH Hc) as (Hc1 & Hbefore & Hevs). clear IH.
    destruct (decide (k - Z.of_nat n - 1 = 0)%Z) as [Hz|Hnz].
    + (* this invocation brings the counter to zero *)
      assert (Z.of_nat n < k)%Z as Hlt by lia. rewrite (Hbefore Hlt). simpl.
      replace (k - Z.of_nat n)%Z with 1%Z in Hc1 by lia.
      replace (k - Z.of_nat (S n))%Z with 0%Z by lia.
      destruct (parent_of st1 x) as [p|] eqn:Hp.
      * rewrite (rmCb_detach x p st1 Hc1 Hp) at 1. simpl.
        rewrite detach_rmcbs. split; [by eapply lookup_rmcbs_insert|].
        split; [lia|]. right. exists p. apply emitted_app.
        rewrite (rmCb_detach x p st1 Hc1 Hp). simpl. by rewrite detach_trace.
      * rewrite (rmCb_no_parent x st1 Hc1 Hp) at 1. simpl.
        split; [by eapply lookup_rmcbs_insert|].
        split; [lia|]. left. apply emitted_nil.
        by rewrite (rmCb_no_parent x st1 Hc1 Hp).
    + rewrite (rmCb_pending _ _ st1 Hc1 Hnz) at 1. simpl.
      replace (k - Z.of_nat (S n))%Z with (k - Z.of_nat n - 1)%Z by lia.
      split; [by eapply lookup_rmcbs_insert|].
      rewrite (emitted_nil (rmCb c) st1) by (by rewrite (rmCb_pending _ _ st1 Hc1 Hnz)).
      rewrite app_nil_r. split; [intros; apply Hbefore; lia|done].
  - destruct (IH Hc) as (Hc1 & Hbefore & Hevs). rewrite Heq. eauto.
Qed.
End RmCb.

Section RemoveVnode.
Variable modules : list Module.

Lemma rmCb_terminates c st : rmCb c st ≠ OutOfFuel.
Proof.
  unfold rmCb, bind, get. destruct (rmcbs st !! c) as [[x k]|]; [|done]. simpl.
  case_decide; [|done]. destruct x as [x|]; [|done]. simpl.
  unfold parentNode. destruct (parent_of _ x); [|done]. simpl.
  unfold removeChild, bind, api_call, emit, modify, get. simpl. by case_decide.
Qed.

Lemma rmCb_history c st0 st :
  (∃ n evs, history c st0 n evs st) →
  wp (rmCb c) (fun _ st' => ∃ n evs, history c st0 n evs st')
     (fun _ st' => ∃ n evs, history c st0 n evs st') False st.
Proof.
  intros (n & evs & Hh). pose proof (history_rm c _ _ _ _ Hh) as Hh'.
  pose proof (rmCb_terminates c st) as Ht.
  unfold wp. destruct (rmCb c st); [eauto|eauto|done].
Qed.

(** Whatever the hooks and [rm] keep, the tail of [removeVnode] keeps. *)
Lemma remove_hooks_inv (I : State → Prop) ch c st :
  (∀ h s, remove_event h → I s → I (with_trace (fun t => t ++ [h]) s)) →
  (∀ s, I s → wp (rmCb c) (fun _ => I) (fun _ => I) False s) →
  I st →
  wp (remove_hooks modules ch c) (fun _ => I) (fun _ => I) False st.
Proof.
  intros Hhook Hrm HI. unfold remove_hooks.
  apply wp_bind.
  apply (wp_post (fun _ => I)).
  - apply wp_for_each; [done|]. intros [m calls] s _ Hs.
    apply wp_bind, wp_hook. apply wp_repeat_m; [by apply Hhook|done].
  - intros [] s Hs. apply wp_bind, wp_read.
    destruct (vnodes s !! ch) as [v|]; [|done].
    destruct (hook_of v ≫= h_remove) as [calls|].
    + apply wp_bind, wp_hook. apply wp_repeat_m; [by apply Hhook|done].
    + by apply Hrm.
Qed.

Lemma remove_hooks_history ch c st0 st :
  (∃ n evs, history c st0 n evs st) →
  wp (remove_hooks modules ch c) (fun _ st' => ∃ n evs, history c st0 n evs st')
     (fun _ st' => ∃ n evs, history c st0 n evs st') False st.
Proof.
  intros Hh. apply (remove_hooks_inv (fun s => ∃ n evs, history c st0 n evs s)); [| |done].
  - intros h s _ (n & evs & H). exists n, evs. by eapply history_other.
  - intros s Hs. by apply rmCb_history.
Qed.

Lemma ext_emit P st0 st e :
  P e → ext P st0 st → ext P st0 (with_trace (fun t => t ++ [e]) st).
Proof.
  intros He (evs & Ht & Hp). exists (evs ++ [e]). simpl. rewrite Ht, app_assoc.
  split; [done|]. apply Forall_app. by split; [|constructor].
Qed.

Lemma rmCb_ext c st0 st :
  ext remove_event st0 st →
  wp (rmCb c) (fun _ => ext remove_event st0) (fun _ => ext remove_event st0) False st.
Proof.
  intros He. unfold rmCb. apply wp_bind, wp_get.
  destruct (rmcbs st !! c) as [[x k]|]; [|done].
  apply wp_bind, wp_modify. case_decide; [|done].
  apply wp_bind, wp_defined. destruct x as [x|]; [|done].
  apply wp_bind. unfold parentNode. unfold wp at 1.
  apply wp_bind, wp_defined. destruct (parent_of _ x) as [p|]; [|done].
  unfold removeChild. apply wp_bind, wp_api_call, wp_bind, wp_get.
  assert (ext remove_event st0
            (with_trace (fun t => t ++ [EApi (RemoveChild p x)])
               (with_rmcbs (fun l => <[c:=(Some x, (k - 1)%Z)]> l) st))) as He'.
  { by apply ext_emit. }
  case_decide; [|done]. apply wp_modify.
  destruct He' as (evs & Ht & Hp). exists evs. by rewrite detach_trace.
Qed.

Lemma remove_hooks_ext ch c st0 st :
  ext remove_event st0 st →
  wp (remove_hooks modules ch c) (fun _ => ext remove_event st0)
     (fun _ => ext remove_event st0) False st.
Proof.
  intros He. apply (remove_hooks_inv (ext remove_event st0)); [| |done].
  - intros h s Hh Hs. by apply ext_emit.
  - intros s Hs. by apply rmCb_ext.
Qed.

Lemma removeVnode_creates_rm (fuel : nat) (p : option nat) (ch : nat) (v v1 : VNode)
    (st st1 : State) :
  vnodes st !! ch = Some v →
  sel v ≠ None →
  invokeDestroyHook modules fuel ch st = Ok tt st1 →
  vnodes st1 !! ch = Some v1 →
  removeVnode modules fuel p ch st
  = remove_hooks modules ch (length (rmcbs st1))
      (with_rmcbs (fun l => l ++ [(elm v1, (Z.of_nat (length (with_remove modules)) + 1)%Z)]) st1).
Proof.
  intros Hv Hs Hd Hv1. unfold removeVnode.
  rewrite (bind_ok _ _ st v st) by (unfold read; by rewrite Hv).
  rewrite bool_decide_eq_true_2 by done.
  rewrite (bind_ok _ _ _ _ _ Hd).
  rewrite (bind_ok _ _ st1 v1 st1) by (unfold read; by rewrite Hv1).
  rewrite remove_hooks_count. reflexivity.
Qed.
End RemoveVnode.

(** ** What element building queues *)

Lemma wp_for_each_acc {A} (xs : list A) (f : A → M unit) (I : list A → State → Prop)
    Ψ Ω st :
  I [] st →
  (∀ pre x st, I pre st → wp (f x) (fun _ => I (pre ++ [x])) Ψ Ω st) →
  wp (for_each xs f) (fun _ => I xs) Ψ Ω st.
Proof.
  intros HI Hf.
  enough (∀ pre st, I pre st → wp (for_each xs f) (fun _ => I (pre ++ xs)) Ψ Ω st) as H.
  { by apply (H []). }
  clear st HI. induction xs as [|x xs IH]; intros pre st HI; simpl.
  - by rewrite app_nil_r.
  - apply wp_bind. eapply wp_post; [by apply Hf|].
    intros [] st' HI'. cbn beta. specialize (IH (pre ++ [x]) st' HI').
    by rewrite <- app_assoc in IH.
Qed.

Lemma built_refl st : built st [] st.
Proof. unfold built. by rewrite app_nil_r. Qed.
Lemma built_trans st acc1 st1 acc2 st2 :
  built st acc1 st1 → built st1 acc2 st2 → built st (acc1 ++ acc2) st2.
Proof.
  intros (Hs1 & Ha1 & Hq1) (Hs2 & Ha2 & Hq2). unfold built.
  rewrite Hs2, Hs1, Ha2, Ha1, Hq2, Hq1. by rewrite app_assoc.
Qed.
Lemma built_host st acc st1 st2 :
  built st acc st1 → host_only st1 st2 → built st acc st2.
Proof.
  intros (Hs1 & Ha1 & Hq1) (Hv & Hq & Ha & _). unfold built, skeleton in *.
  by rewrite Hv, Hq, Ha.
Qed.
Lemma built_emit st acc st1 f : built st acc st1 → built st acc (with_trace f st1).
Proof. done. Qed.
Lemma built_update st acc st1 r v v' :
  built st acc st1 → vnodes st1 !! r = Some v → blank v' = blank v →
  built st acc (with_vnodes (fun m => <[r := v']> m) st1).
Proof.
  intros (Hs1 & Ha1 & Hq1) Hr Hb. split; [|done].
  rewrite <- Hs1. unfold skeleton. simpl. rewrite fmap_insert, Hb.
  apply insert_id. by rewrite lookup_fmap, Hr.
Qed.
Lemma built_push st acc st1 r :
  built st acc st1 → built st (acc ++ [r]) (with_queue (fun q => q ++ [r]) st1).
Proof.
  intros (Hs1 & Ha1 & Hq1). split; [done|]. split; [done|]. simpl.
  by rewrite Hq1, app_assoc.
Qed.
Lemma built_lookup st acc st1 r v :
  built st acc st1 → vnodes st1 !! r = Some v → skeleton st !! r = Some (blank v).
Proof.
  intros (Hs1 & _) Hr. rewrite <- Hs1. unfold skeleton. by rewrite lookup_fmap, Hr.
Qed.

Ltac bhost :=
  lazymatch goal with
  | |- wp (createElement _) _ _ _ _ => apply wp_createElement
  | |- wp (createElementNS _ _) _ _ _ _ => apply wp_createElementNS
  | |- wp (createTextNode _) _ _ _ _ => apply wp_createTextNode
  | |- wp (createComment _) _ _ _ _ => apply wp_createComment
  | |- wp createDocumentFragment _ _ _ _ => apply wp_createDocumentFragment
  | |- wp (setAttribute _ _ _) _ _ _ _ => apply wp_setAttribute
  | |- wp (appendChild _ _) _ _ _ _ => apply wp_appendChild
  end;
  let st' := fresh "st" in
  let Hh := fresh "Hh" in
  intros st' Hh _; cbn beta.

Ltac bread :=
  lazymatch goal with
  | |- wp (read _) _ _ _ _ => apply wp_read
  | |- wp (read_array _) _ _ _ _ => apply wp_read_array
  | |- wp (update_vnode _ _) _ _ _ _ => apply wp_update_vnode
  end;
  st_simpl;
  lazymatch goal with
  | |- match ?m !! ?r with _ => _ end =>
      let v := fresh "v" in let Hr := fresh "Hr" in
      destruct (m !! r) as [v|] eqn:Hr; [| exact I]
  end.

Section Built.
Variable modules : list Module.
Variable api : DOMAPI.
Variable options : Options.
Variable st0 : State.

Local Abbreviation ins := (inserted (fragments options)).
Local Abbreviation sk0 := (skeleton st0).
Local Abbreviation arr0 := (arrays st0).
Local Abbreviation TT := (fun (_ : Error) (_ : State) => True).

Local Abbreviation below := (fun fuel => queued_below (fragments options) fuel sk0 arr0) (only parsing).

Lemma below_snoc fuel chs c :
  below fuel (chs ++ [c])
  = below fuel chs ++ match c with Some c => ins fuel sk0 arr0 c | None => [] end.
Proof. unfold queued_below. by rewrite flat_map_app; simpl; rewrite app_nil_r. Qed.

Lemma has_hook_blank f v : has_hook f (blank v) = has_hook f v.
Proof. done. Qed.

Lemma inserted_unfold fuel r v :
  sk0 !! r = Some (blank v) →
  ins (S fuel) sk0 arr0 r
  = match sel v with
    | Some s =>
        if decide (s = "!") then []
        else match children v with
             | Some a => below fuel (default [] (arr0 !! a))
             | None => []
             end ++ (if has_hook h_insert v then [r] else [])
    | None =>
        if fragments options
        then match children v with
             | Some a => below fuel (default [] (arr0 !! a))
             | None => []
             end
        else []
    end.
Proof. intros H. simpl. rewrite H. reflexivity. Qed.

Lemma build_element_built (build : nat → M nat) (fuel : nat) (r : nat) (s : string)
    (v : VNode) acc st :
  (∀ c acc st, built st0 acc st →
     wp (build c) (fun _ => built st0 (acc ++ ins fuel sk0 arr0 c)) TT True st) →
  vnodes st !! r = Some v →
  built st0 acc st →
  wp (build_element modules build r s v)
     (fun _ => built st0 (acc ++ match children v with
                                 | Some a => below fuel (default [] (arr0 !! a))
                                 | None => []
                                 end)) TT True st.
Proof.
  intros IH Hr HB. unfold build_element.
  apply wp_bind.
  apply (wp_post (fun (e : nat) st' => built st0 acc st' ∧ vnodes st' = vnodes st));
    [|intros e st2 [HB2 Hv2]].
  { destruct (data v) as [d|]; [destruct (d_ns d)|]; bhost;
      (split; [by eapply built_host|by destruct Hh]). }
  apply wp_bind. apply wp_update_vnode. rewrite Hv2, Hr.
  assert (built st0 acc (with_vnodes (fun m => <[r := set_elm (Some e) v]> m) st2)) as HB3.
  { eapply built_update; [done|by rewrite Hv2|done]. }
  set (st3 := with_vnodes _ st2) in *. clearbody st3. clear HB2 Hv2 HB st2.
  apply wp_bind. apply (wp_post (fun (_ : unit) st' => built st0 acc st'));
    [|clear HB3; intros [] st4 HB4].
  { destruct (s_id (parse_sel s)); [bhost; by eapply built_host|done]. }
  apply wp_bind. apply (wp_post (fun (_ : unit) st' => built st0 acc st'));
    [|clear HB4; intros [] st5 HB5].
  { destruct (s_class (parse_sel s)); [bhost; by eapply built_host|done]. }
  apply wp_bind, wp_for_each_hook.
  assert (∀ evs, built st0 acc (add_events evs st5)) as HB6 by done.
  destruct (children v) as [a|].
  - apply wp_bind. bread.
    assert (arr0 !! a = Some v0) as ->.
    { destruct (HB6 []) as (_ & <- & _). done. }
    simpl.
    apply (wp_post (fun (_ : unit) st' => built st0 (acc ++ below fuel v0) st')); [|done].
    apply (wp_for_each_acc v0 _ (fun pre st' => built st0 (acc ++ below fuel pre) st')).
    { unfold queued_below. simpl. rewrite app_nil_r. apply HB6. }
    intros pre [c|] st6 HB7.
    + apply wp_bind. eapply wp_post; [by apply IH|].
      intros x st7 HB8. cbn beta in *. bhost. rewrite below_snoc, app_assoc.
      by eapply built_host.
    + apply wp_ret. by rewrite below_snoc, app_nil_r.
  - rewrite app_nil_r. apply wp_bind. bread.
    destruct (text v0); [|apply wp_ret, HB6].
    apply wp_bind. bhost. bhost. eapply built_host; [|done]. eapply built_host; [|done].
    apply HB6.
Qed.

Lemma finish_element_built (r : nat) acc st :
  built st0 acc st →
  wp (finish_element r)
     (fun _ st' => ∃ v, sk0 !! r = Some (blank v)
                        ∧ built st0 (acc ++ if has_hook h_insert v then [r] else []) st')
     TT True st.
Proof.
  intros HB. unfold finish_element. apply wp_bind. bread.
  pose proof (built_lookup _ _ _ _ _ HB Hr) as Hsk.
  apply wp_bind, wp_defined. destruct (data v) as [d|] eqn:Hd; [|done].
  unfold has_hook, hook_of.
  destruct (d_hook d) as [h|] eqn:Hh.
  - apply wp_bind. apply (wp_post (fun (_ : unit) st' => built st0 acc st'));
      [|clear HB; intros [] st1 HB].
    { apply wp_when. destruct (h_create h); [by apply wp_hook|done]. }
    apply wp_when. destruct (h_insert h) eqn:Hins.
    + unfold push_inserted. apply wp_modify. exists v. split; [done|].
      unfold has_hook, hook_of. rewrite Hd, Hh, Hins. by apply built_push.
    + exists v. split; [done|]. unfold has_hook, hook_of. rewrite Hd, Hh, Hins.
      by rewrite app_nil_r.
  - apply wp_ret. exists v. split; [done|]. unfold has_hook, hook_of. rewrite Hd, Hh.
    by rewrite app_nil_r.
Qed.

Lemma build_fragment_built (build : nat → M nat) (fuel : nat) (r a : nat)
    (v : VNode) acc st :
  (∀ c acc st, built st0 acc st →
     wp (build c) (fun _ => built st0 (acc ++ ins fuel sk0 arr0 c)) TT True st) →
  vnodes st !! r = Some v →
  built st0 acc st →
  wp (build_fragment modules api build r a)
     (fun _ => built st0 (acc ++ below fuel (default [] (arr0 !! a)))) TT True st.
Proof.
  intros IH Hr HB. unfold build_fragment.
  apply wp_bind.
  apply (wp_post (fun (e : nat) st' => built st0 acc st' ∧ vnodes st' = vnodes st));
    [|intros e st2 [HB2 Hv2]].
  { destruct (has_createDocumentFragment api); [|done]. bhost.
    split; [by eapply built_host|by destruct Hh]. }
  apply wp_bind. apply wp_update_vnode. rewrite Hv2, Hr.
  assert (built st0 acc (with_vnodes (fun m => <[r := set_elm (Some e) v]> m) st2)) as HB3.
  { eapply built_update; [done|by rewrite Hv2|done]. }
  set (st3 := with_vnodes _ st2) in *. clearbody st3. clear HB2 Hv2 HB st2.
  apply wp_bind, wp_for_each_hook.
  assert (∀ evs, built st0 acc (add_events evs st3)) as HB6 by done.
  apply wp_bind. bread.
  assert (arr0 !! a = Some v0) as ->.
  { destruct (HB6 []) as (_ & <- & _). done. }
  simpl.
  apply (wp_for_each_acc v0 _ (fun pre st' => built st0 (acc ++ below fuel pre) st')).
  { unfold queued_below. simpl. rewrite app_nil_r. apply HB6. }
  intros pre [c|] st6 HB7.
  + apply wp_bind. bread. apply wp_bind. eapply wp_post; [by apply IH|].
    intros x st7 HB8. cbn beta in *. apply wp_bind, wp_defined.
    destruct (elm v1); [|done]. bhost. rewrite below_snoc, app_assoc.
    by eapply built_host.
  + apply wp_ret. by rewrite below_snoc, app_nil_r.
Qed.

Lemma createElm_built (fuel : nat) (r : nat) acc st :
  built st0 acc st →
  wp (createElm modules api options fuel r)
     (fun _ => built st0 (acc ++ ins fuel sk0 arr0 r)) TT True st.
Proof.
  revert r acc st. induction fuel as [|fuel IH]; intros r acc st HB; [done|].
  cbn [createElm]. apply wp_bind. bread.
  pose proof (built_lookup _ _ _ _ _ HB Hr) as Hsk.
  rewrite (inserted_unfold fuel r v Hsk).
  apply wp_bind.
  apply (wp_post (fun (_ : unit) st' => built st0 acc st' ∧ vnodes st' = vnodes st));
    [|clear HB; intros [] st1 [HB Hv1]].
  { apply wp_when. destruct (has_hook h_init v); [by apply wp_hook|done]. }
  apply wp_bind, wp_read. rewrite Hv1, Hr.
  apply wp_bind.
  apply (wp_post (fun (_ : unit) st' =>
           built st0 (acc ++ match sel v with
    | Some s =>
        if decide (s = "!") then []
        else match children v with
             | Some a => below fuel (default [] (arr0 !! a))
             | None => []
             end ++ (if has_hook h_insert v then [r] else [])
    | None =>
        if fragments options
        then match children v with
             | Some a => below fuel (default [] (arr0 !! a))
             | None => []
             end
        else []
    end) st')).
  2:{ intros [] st2 HB2. apply wp_bind. bread. apply wp_defined. by destruct (elm v0). }
  destruct (sel v) as [s|] eqn:Hs.
  - destruct (decide (s = "!")) as [->|Hbang].
    + rewrite app_nil_r. apply wp_bind.
      apply (wp_post (fun (_ : unit) st' => built st0 acc st'));
        [|clear HB; intros [] st2 HB].
      { apply wp_when. case_bool_decide; [|done]. apply wp_update_vnode.
        rewrite Hv1, Hr. eapply built_update; [done|by rewrite Hv1|done]. }
      apply wp_bind. bread. apply wp_bind. bhost. apply wp_update_vnode.
      pose proof (built_host _ _ _ _ HB Hh) as HB'.
      destruct Hh as (Hv3 & _). rewrite Hv3, Hr0.
      eapply built_update; [exact HB'|by rewrite Hv3|done].
    + apply wp_bind. eapply wp_post.
      { apply (build_element_built _ fuel); [by apply IH|by rewrite Hv1|done]. }
      intros [] st2 HB2. cbn beta. eapply wp_post; [by apply finish_element_built|].
      intros [] st3 (v' & Hsk' & HB3). cbn beta in *.
      assert (blank v' = blank v) as Hbl by congruence.
      assert (has_hook h_insert v' = has_hook h_insert v) as Hhk.
      { change (has_hook h_insert (blank v') = has_hook h_insert (blank v)).
        by rewrite Hbl. }
      rewrite Hhk in HB3. by rewrite app_assoc.
  - destruct (fragments options) eqn:Hf; cbn iota; rewrite <- Hf in IH |- *.
    + destruct (children v) as [a|] eqn:Hch.
      * apply (build_fragment_built _ fuel _ _ v); [by apply IH|by rewrite Hv1|done].
      * rewrite app_nil_r. apply wp_bind. bhost. apply wp_update_vnode.
        pose proof (built_host _ _ _ _ HB Hh) as HB'.
        destruct Hh as (Hv3 & _). rewrite Hv3, Hv1, Hr.
        eapply built_update; [exact HB'|by rewrite Hv3, Hv1|done].
    + rewrite app_nil_r. apply wp_bind. bhost. apply wp_update_vnode.
      pose proof (built_host _ _ _ _ HB Hh) as HB'.
      destruct Hh as (Hv3 & _). rewrite Hv3, Hv1, Hr.
      eapply built_update; [exact HB'|by rewrite Hv3, Hv1|done].
Qed.
End Built.

(** ** Element vnodes without a data object *)

Section NoData.
Variable modules : list Module.
Variable api : DOMAPI.
Variable options : Options.

Lemma built_data st acc st' r v :
  built st acc st' → vnodes st !! r = Some v →
  ∃ v', vnodes st' !! r = Some v' ∧ data v' = data v.
Proof.
  intros (Hsk & _) Hr.
  assert (skeleton st' !! r = Some (blank v)) as H.
  { rewrite Hsk. unfold skeleton. by rewrite lookup_fmap, Hr. }
  unfold skeleton in H. rewrite lookup_fmap in H.
  destruct (vnodes st' !! r) as [v'|]; [|done]. exists v'. split; [done|].
  apply (inj Some) in H. change (data (blank v') = data (blank v)). by rewrite H.
Qed.

Lemma createElm_no_data (fuel : nat) (r : nat) (s : string) (v : VNode) (st : State) :
  vnodes st !! r = Some v →
  sel v = Some s → s ≠ "!" → data v = None →
  createElm modules api options (S fuel) r st
  = (build_element modules (createElm modules api options fuel) r s v ;;
     throw TypeError) st.
Proof.
  intros Hr Hs Hbang Hd. cbn [createElm].
  rewrite (bind_ok _ _ st v st) by (unfold read; by rewrite Hr).
  assert (has_hook h_init v = false) as ->.
  { unfold has_hook, hook_of. by rewrite Hd. }
  rewrite (bind_ok _ _ st tt st) by done.
  rewrite (bind_ok _ _ st v st) by (unfold read; by rewrite Hr).
  rewrite Hs. rewrite decide_False by done.
  pose proof (build_element_built modules options st
                (createElm modules api options fuel) fuel r s v [] st) as HB.
  unfold wp in HB. unfold bind at 1 2 4.
  destruct (build_element _ _ _ _ _ st) as [[] st2| |]; [|done|done].
  assert (built st ([] ++ match children v with
                   | Some a => queued_below (fragments options) fuel (skeleton st)
                                 (arrays st) (default [] (arrays st !! a))
                   | None => []
                   end) st2) as HB2.
  { apply HB; [|done|apply built_refl]. intros c acc s' Hb. by apply createElm_built. }
  destruct (built_data st _ st2 r v HB2 Hr) as (v2 & Hr2 & Hd2).
  unfold finish_element. rewrite (bind_ok _ _ st2 v2 st2) by (unfold read; by rewrite Hr2).
  rewrite Hd2, Hd. reflexivity.
Qed.

Lemma createElm_no_data_fails (fuel : nat) (r x : nat) (s : string) (v : VNode)
    (st st' : State) :
  vnodes st !! r = Some v →
  sel v = Some s → s ≠ "!" → data v = None →
  createElm modules api options fuel r st ≠ Ok x st'.
Proof.
  intros Hr Hs Hbang Hd. destruct fuel as [|fuel]; [done|].
  rewrite (createElm_no_data fuel r s v st) by done.
  unfold bind. by destruct (build_element _ _ _ _ _ st).
Qed.
End NoData.

(** ** [invokeDestroyHook] and [removeVnodes] *)

Section Destroy.
Variable modules : list Module.

Lemma invokeDestroyHook_trace (fuel : nat) (r : nat) (l : list nat) (st : State) :
  destroy_order fuel (vnodes st) (arrays st) r = Some l →
  invokeDestroyHook modules fuel r st
  = Ok tt (add_events (flat_map (destroy_calls modules (vnodes st)) l) st).
Proof.
  revert r l st. induction fuel as [|fuel IH]; intros r l st Hl; [done|].
  cbn [destroy_order] in Hl. cbn [invokeDestroyHook].
  destruct (vnodes st !! r) as [v|] eqn:Hr; [|done].
  rewrite (bind_ok _ _ st v st) by (unfold read; by rewrite Hr).
  destruct (data v) as [d|] eqn:Hd.
  2:{ injection Hl as <-. unfold ret. simpl. by rewrite add_events_nil. }
  set (own := if has_hook h_destroy v then [EHook (HookDestroy r)] else []).
  rewrite (bind_ok _ _ st tt (add_events own st)).
  2:{ unfold when, own. destruct (has_hook h_destroy v); [done|].
      unfold ret. by rewrite add_events_nil. }
  rewrite (bind_ok _ _ _ tt (add_events (destroy_calls modules (vnodes st) r) st)).
  2:{ rewrite for_each_hook, add_events_app. unfold destroy_calls. by rewrite Hr. }
  set (st1 := add_events _ st).
  rewrite (bind_ok _ _ st1 v st1) by (unfold read; subst st1; simpl; by rewrite Hr).
  destruct (children v) as [a|].
  2:{ injection Hl as <-. unfold ret. subst st1. simpl. by rewrite app_nil_r. }
  destruct (arrays st !! a) as [chs|] eqn:Ha; [|done].
  rewrite (bind_ok _ _ st1 chs st1) by (unfold read_array; subst st1; simpl; by rewrite Ha).
  destruct (visit_all _ chs) as [ls|] eqn:Hls; [|done]. injection Hl as <-.
  simpl. subst st1. rewrite <- add_events_app.
  assert (∀ s : State, vnodes s = vnodes st → arrays s = arrays st →
    for_each chs (fun child => match child with
                               | Some child => invokeDestroyHook modules fuel child
                               | None => ret tt
                               end) s
    = Ok tt (add_events (flat_map (destroy_calls modules (vnodes st)) ls) s)) as Hloop.
  { clear Ha. revert ls Hls. induction chs as [|c chs IHc]; intros ls Hls s Hvs Has.
    - injection Hls as <-. simpl. by rewrite add_events_nil.
    - cbn [visit_all] in Hls.
      destruct (match c with Some c0 => destroy_order fuel (vnodes st) (arrays st) c0
                             | None => Some [] end) as [l1|] eqn:Hc; [|done].
      destruct (visit_all _ chs) as [l2|] eqn:Hl2; [|done]. injection Hls as <-.
      cbn [for_each].
      rewrite (bind_ok _ _ s tt (add_events (flat_map (destroy_calls modules (vnodes st)) l1) s)).
      2:{ destruct c as [c|].
          - rewrite (IH c l1 s) by (by rewrite Hvs, Has). by rewrite Hvs.
          - injection Hc as <-. unfold ret. simpl. by rewrite add_events_nil. }
      rewrite (IHc l2 eq_refl) by done.
      by rewrite add_events_app, flat_map_app. }
  by apply Hloop.
Qed.

(** C2 (amended): when [removeVnodes] removes a vnode with a selector,
    the [destroy] hooks run first and synchronously, for the vnode and
    then, in order, for its descendants as far as [invokeDestroyHook]
    descends: the vnode's own hook, then those of the modules, then the
    same for each non-null child; a vnode whose data is undefined is
    skipped together with everything below it.  Every other event of the
    removal, among them all [remove] hooks, comes after these. *)
Theorem removeVnode_destroy_first (fuel : nat) (p : option nat) (ch : nat) (v : VNode)
    (l : list nat) (st : State) :
  vnodes st !! ch = Some v →
  sel v ≠ None →
  destroy_order fuel (vnodes st) (arrays st) ch = Some l →
  removeVnode modules fuel p ch st ≠ OutOfFuel
  ∧ ∃ R, trace (after (removeVnode modules fuel p ch st) st)
         = trace st ++ flat_map (destroy_calls modules (vnodes st)) l ++ R
         ∧ Forall remove_event R.
Proof.
  intros Hv Hs Hl.
  pose proof (invokeDestroyHook_trace fuel ch l st Hl) as Hd.
  set (st1 := add_events (flat_map (destroy_calls modules (vnodes st)) l) st) in *.
  rewrite (removeVnode_creates_rm modules fuel p ch v v st st1 Hv Hs Hd) by done.
  set (st2 := with_rmcbs _ st1).
  pose proof (remove_hooks_ext modules ch (length (rmcbs st1)) st2 st2) as H.
  unfold wp in H.
  destruct (remove_hooks modules ch (length (rmcbs st1)) st2) as [[] st3|e st3|].
  - split; [done|]. destruct H as (R & Ht & HR).
    { exists []. by rewrite app_nil_r. }
    exists R. split; [|done]. simpl. rewrite Ht. subst st2 st1. simpl.
    by rewrite app_assoc.
  - split; [done|]. destruct H as (R & Ht & HR).
    { exists []. by rewrite app_nil_r. }
    exists R. split; [|done]. simpl. rewrite Ht. subst st2 st1. simpl.
    by rewrite app_assoc.
  - destruct H. exists []. by rewrite app_nil_r.
Qed.
End Destroy.

(** ** One pass of [patch] *)

Section Pass.
Variable modules : list Module.
Variable api : DOMAPI.
Variable options : Options.

Lemma structural_keeps fuel o n b st0 st :
  keeps patch_event st0 st →
  wp (structural modules api options fuel o n b) (fun _ => keeps patch_event st0)
     (fun _ => keeps patch_event st0) True st.
Proof.
  intros HK. unfold structural. destruct b.
  { by apply patchVnode_keeps. }
  unfold elm_of. wp_go. unfold parentNode. apply wp_bind. unfold wp at 1.
  apply wp_bind. eapply wp_post; [apply createElm_keeps; [intros; event_solve|done]|].
  intros y st1 HK1. cbn beta in *.
  destruct (parent_of st x) as [p|]; [|done].
  wp_go. unfold nextSibling. apply wp_bind. unfold wp at 1. wp_go.
  split; [|done].
  apply removeVnodes_keeps; [intros; event_solve|intros; event_solve|done].
Qed.

Lemma patch_trace (fuel : nat) (root : Root) (n r : nat) (st st' : State) :
  patch modules api options fuel root n st = Ok r st' →
  ∃ body,
    trace st' = trace st ++ pre_events modules ++ body
                ++ insert_events (queue st') ++ post_events modules
    ∧ Forall patch_event body.
Proof.
  unfold patch. intros H.
  apply bind_inv in H as ([] & s0 & H0 & H). unfold modify in H0. simplify_eq.
  apply bind_inv in H as ([] & s1 & H1 & H). rewrite for_each_hook in H1. simplify_eq.
  fold (entered modules st) in H.
  apply bind_inv in H as (o & s2 & Hroot & H).
  apply bind_inv in H as (b & s3 & Hsame & H).
  assert (s3 = s2) as ->.
  { unfold same in Hsame. apply bind_inv in Hsame as (ov & t1 & Ho & Hsame).
    apply bind_inv in Hsame as (nv & t2 & Hn & Hsame).
    unfold read in *. destruct (vnodes s2 !! o); [|done]. simplify_eq.
    destruct (vnodes t1 !! n); [|done]. unfold ret in *. by simplify_eq. }
  apply bind_inv in H as ([] & s4 & Hbody & H).
  change (structural modules api options fuel o n b s2 = Ok tt s4) in Hbody.
  apply bind_inv in H as (s5 & s6 & Hget & H). unfold get in Hget. simplify_eq.
  apply bind_inv in H as ([] & s7 & Hins & H).
  apply bind_inv in H as ([] & s8 & Hpost & H). unfold ret in H. simplify_eq.
  rewrite for_each_hook in Hpost. simplify_eq.
  destruct (root_vnode_silent api _ _ _ _ Hroot) as (Hq2 & Ht2 & _).
  assert (queue_ok s2) as Hqok.
  { intros x. rewrite Hq2. simpl. by intros ?%elem_of_nil. }
  pose proof (structural_keeps fuel o r b s2 s2 (keeps_init patch_event _ Hqok)) as HK.
  unfold wp in HK. rewrite Hbody in HK. destruct HK as [(body & Htr & Hbody') _ Hq6].
  change (for_each (queue s6) fire_insert s6 = Ok tt s7) in Hins.
  rewrite (fire_inserts_ok (queue s6) s6 Hq6) in Hins. simplify_eq.
  exists body. split; [|done]. simpl. rewrite Htr, Ht2. simpl.
  by rewrite <- !app_assoc.
Qed.
End Pass.

(** ** Child lists of the host tree *)

Lemma remove_node_notin x l : x ∉ l → remove_node x l = l.
Proof.
  intros H. unfold remove_node. induction l as [|y l IH]; [done|].
  rewrite filter_cons. rewrite decide_True.
  - f_equal. apply IH. intros ?. apply H. by right.
  - intros ->. apply H. by left.
Qed.

Lemma remove_node_app x l1 l2 :
  remove_node x (l1 ++ l2) = remove_node x l1 ++ remove_node x l2.
Proof. unfold remove_node. apply filter_app. Qed.

Lemma remove_node_cons_eq x l : remove_node x (x :: l) = remove_node x l.
Proof. unfold remove_node. rewrite filter_cons. by rewrite decide_False by (by intros H; apply H). Qed.

Lemma remove_node_middle x l1 l2 :
  x ∉ l1 → x ∉ l2 → remove_node x (l1 ++ x :: l2) = l1 ++ l2.
Proof.
  intros H1 H2. rewrite remove_node_app, remove_node_cons_eq.
  by rewrite !remove_node_notin.
Qed.

Lemma insert_before_middle h x l1 l2 :
  h ∉ l1 → insert_before h x (l1 ++ h :: l2) = l1 ++ x :: h :: l2.
Proof.
  intros H. induction l1 as [|y l1 IH]; simpl.
  - by rewrite decide_True.
  - rewrite decide_False.
    + f_equal. apply IH. intros ?. apply H. by right.
    + intros ->. apply H. by left.
Qed.

Lemma next_in_middle x l1 l2 : x ∉ l1 → next_in x (l1 ++ x :: l2) = head l2.
Proof.
  intros H. induction l1 as [|y l1 IH]; simpl.
  - by rewrite decide_True.
  - rewrite decide_False.
    + apply IH. intros ?. apply H. by right.
    + intros ->. apply H. by left.
Qed.

Lemma kids_of_insert st p l q :
  kids_of (with_kids (fun m => <[p := l]> m) st) q
  = if decide (p = q) then l else kids_of st q.
Proof.
  unfold kids_of. simpl. case_decide as H.
  - subst. by rewrite lookup_insert_eq.
  - by rewrite lookup_insert_ne.
Qed.

Lemma kids_of_detach st x q :
  kids_of (detach x st) q
  = if decide (parent st !! x = Some q) then remove_node x (kids_of st q) else kids_of st q.
Proof.
  unfold detach. destruct (parent st !! x) as [p|] eqn:Hp.
  - unfold kids_of at 1. simpl. case_decide as H.
    + injection H as ->. by rewrite lookup_insert_eq.
    + rewrite lookup_insert_ne by congruence. done.
  - by rewrite decide_False.
Qed.

Lemma parent_detach st x y :
  parent (detach x st) !! y = if decide (x = y) then None else parent st !! y.
Proof.
  unfold detach. destruct (parent st !! x) as [p|] eqn:Hp; simpl.
  - case_decide; [subst; by rewrite lookup_delete_eq|by rewrite lookup_delete_ne].
  - case_decide; [by subst|done].
Qed.

Lemma kids_of_attach st p x ref q :
  kids_of (attach p x ref st) q
  = if decide (p = q) then place ref x (kids_of st p) else kids_of st q.
Proof. unfold attach. simpl. apply (kids_of_insert (with_parent _ st)). Qed.

Lemma parent_attach st p x ref y :
  parent (attach p x ref st) !! y = if decide (x = y) then Some p else parent st !! y.
Proof.
  unfold attach. simpl. case_decide; [subst; by rewrite lookup_insert_eq|by rewrite lookup_insert_ne].
Qed.

Lemma next_node_detach st x : next_node (detach x st) = next_node st.
Proof. unfold detach. by destruct (parent st !! x). Qed.
Lemma vnodes_detach st x : vnodes (detach x st) = vnodes st.
Proof. unfold detach. by destruct (parent st !! x). Qed.
Lemma arrays_detach st x : arrays (detach x st) = arrays st.
Proof. unfold detach. by destruct (parent st !! x). Qed.

(** Moving a child of [p] within [p]. *)
Lemma insertBefore_move (p x : nat) (ref : option nat) (st : State) :
  parent_of st x = Some p →
  match ref with
  | Some h => parent_of st h = Some p ∧ h ≠ x
  | None => True
  end →
  insertBefore p x ref st
  = Ok tt (attach p x ref (detach x (add_events [EApi (InsertBefore p x ref)] st))).
Proof.
  intros Hx Href. unfold insertBefore.
  rewrite (bind_ok _ _ st tt (add_events [EApi (InsertBefore p x ref)] st)) by done.
  set (s := add_events _ st).
  rewrite (bind_ok get _ s s s) by done.
  destruct ref as [h|]; [|done].
  destruct Href as [Hh Hne]. unfold parent_of in *. simpl.
  rewrite decide_True by done. by rewrite decide_False.
Qed.

Lemma moved_kids (p x : nat) (ref : option nat) (st : State) f :
  parent_of st x = Some p →
  kids_of (attach p x ref (detach x (with_trace f st))) p
  = place ref x (remove_node x (kids_of st p)).
Proof.
  intros Hx. rewrite kids_of_attach, decide_True by done.
  rewrite kids_of_detach. simpl. unfold parent_of in Hx. by rewrite Hx, decide_True.
Qed.

Lemma moved_kids_other (p x q : nat) (ref : option nat) (st : State) f :
  parent_of st x = Some p → q ≠ p →
  kids_of (attach p x ref (detach x (with_trace f st))) q = kids_of st q.
Proof.
  intros Hx Hq. rewrite kids_of_attach, decide_False by done.
  rewrite kids_of_detach. simpl. unfold parent_of in Hx. rewrite Hx.
  by rewrite decide_False by congruence.
Qed.

Lemma moved_parent (p x y : nat) (ref : option nat) (st : State) f :
  parent_of st x = Some p →
  parent_of (attach p x ref (detach x (with_trace f st))) y = parent_of st y.
Proof.
  intros Hx. unfold parent_of in *. rewrite parent_attach.
  case_decide; [by subst|]. rewrite parent_detach. by rewrite decide_False.
Qed.

(** ** Patching one pair of keyed children, seen from the parent *)

Lemma host_of_insert st r v q :
  host_of (with_vnodes (fun m => <[r := v]> m) st) q
  = if decide (r = q) then elm v else host_of st q.
Proof.
  unfold host_of. simpl. case_decide; [subst; by rewrite lookup_insert_eq|].
  by rewrite lookup_insert_ne.
Qed.
Lemma ident_of_insert st r v q :
  ident_of (with_vnodes (fun m => <[r := v]> m) st) q
  = if decide (r = q) then Some (ident v) else ident_of st q.
Proof.
  unfold ident_of. simpl. case_decide; [subst; by rewrite lookup_insert_eq|].
  by rewrite lookup_insert_ne.
Qed.

Lemma world_lookup X P na olds news E st0 s r v0 :
  world X P na olds news E st0 s → r ∈ olds ++ news → vnodes st0 !! r = Some v0 →
  ∃ v, vnodes s !! r = Some v ∧ ident v = ident v0.
Proof.
  intros HW Hr H0. pose proof (w_ident _ _ _ _ _ _ _ _ HW r Hr) as Hi.
  unfold ident_of in Hi. rewrite H0 in Hi.
  destruct (vnodes s !! r) as [v|]; [|done]. exists v. split; [done|].
  simpl in Hi. congruence.
Qed.

Section World.
Variable X : State → Prop.
Variable P : nat.
Variables oa na : nat.
Variables olds news : list nat.
Variable E : nat → nat.
Variable st0 : State.
Hypothesis HXtrace : ∀ f s, X s → X (with_trace f s).
Hypothesis HXupdate : ∀ r v s, r ∈ olds ++ news → X s →
  X (with_vnodes (fun m => <[r := v]> m) s).

Local Abbreviation world := (world X P na olds news E st0).

Lemma world_trace f st : world st → world (with_trace f st).
Proof. intros [w1 w2 w3 w4 w5 w6 w7 w8]. split; try done. by apply HXtrace. Qed.

Lemma world_update r v v' st :
  world st → r ∈ olds ++ news → vnodes st !! r = Some v → ident v' = ident v →
  (r ∈ olds → elm v' = elm v) →
  world (with_vnodes (fun m => <[r := v']> m) st).
Proof.
  intros [w_new0 w_ident0 w_host0 w_parent0 w_kids0 w_others0 w_alloc0 w_extra0] Hin Hr Hi He.
  split; try done.
  - intros q Hq. rewrite ident_of_insert. case_decide; [subst|by apply w_ident0].
    rewrite <- w_ident0 by done. unfold ident_of. by rewrite Hr, Hi.
  - intros o Ho. rewrite host_of_insert. case_decide; [subst|by apply w_host0].
    rewrite He by done. specialize (w_host0 _ Ho). unfold host_of in w_host0.
    by rewrite Hr in w_host0.
  - by apply HXupdate.
Qed.
End World.

Section WorldText.
Variable P : nat.
Variables oa na : nat.
Variables olds news : list nat.
Variable E : nat → nat.
Variable st0 : State.
Hypothesis HP : P ∉ E <$> olds.

Local Abbreviation world := (world (fun _ => True) P na olds news E st0).

Lemma host_in e : e ∈ E <$> olds → e ≠ P.
Proof. intros He ->. by apply HP. Qed.

Lemma world_setTextContent (e : nat) (s : string) (st : State) :
  world st → e ∈ E <$> olds →
  wp (setTextContent e s)
     (fun _ st1 => world st1 ∧ vnodes st1 = vnodes st ∧ arrays st1 = arrays st
                   ∧ kids_of st1 P = kids_of st P)
     (fun _ _ => False) False st.
Proof.
  intros HW He. pose proof (host_in e He) as HeP.
  unfold setTextContent. apply wp_bind, wp_api_call, wp_bind, wp_get.
  set (st1 := with_trace _ st).
  assert (world st1) as HW1 by (by destruct HW).
  assert (∀ k, world (with_kind (fun m => <[e := k]> m) st1)) as Hk.
  { intros k. by destruct HW1. }
  assert (world (clear_kids e st1)) as Hc.
  { destruct HW1 as [w_new0 w_ident0 w_host0 w_parent0 w_kids0 w_others0 w_alloc0 w_extra0]. split; try done.
    - intros o Ho. unfold parent_of, clear_kids. simpl.
      specialize (w_parent0 o Ho). unfold parent_of in w_parent0.
      assert (E o ∉ kids_of st1 e) as Hnot.
      { intros Hin. eapply w_others0; [exact HeP|exact Hin|].
        apply list_elem_of_fmap. eauto. }
      revert Hnot. generalize (kids_of st1 e) as ks.
      induction ks as [|k ks IH]; intros Hnot; [done|]. simpl.
      rewrite lookup_delete_ne.
      + apply IH. intros ?. apply Hnot. by right.
      + intros ->. apply Hnot. by left.
    - unfold clear_kids. rewrite kids_of_insert. by rewrite decide_False.
    - intros e' x He' Hx. unfold clear_kids in Hx. rewrite kids_of_insert in Hx.
      case_decide; [by apply elem_of_nil in Hx|]. by eapply w_others0. }
  assert (kids_of (clear_kids e st1) P = kids_of st P) as Hck.
  { unfold clear_kids. rewrite kids_of_insert. by rewrite decide_False. }
  destruct (kind st1 !! e) as [[| | |]|];
    try (apply wp_modify; split; [apply Hk|done]).
  all: apply wp_bind, wp_modify; case_decide;
    [ apply wp_ret; split; [exact Hc|done]
    | apply wp_bind; unfold alloc, wp at 1; apply wp_modify ].
  all: set (st2 := with_next_node _ _);
    assert (world st2) as HW2 by
      (destruct Hc as [w_new0 w_ident0 w_host0 w_parent0 w_kids0 w_others0 w_alloc0 w_extra0]; split; try done; intros x Hx; simpl; specialize (w_alloc0 x Hx);
       unfold clear_kids in w_alloc0; simpl in w_alloc0; lia).
  all: split; [|split; [done|split; [done|]]].
  all: try (rewrite kids_of_attach, decide_False by done; exact Hck).
  all: destruct HW2 as [w_new0 w_ident0 w_host0 w_parent0 w_kids0 w_others0 w_alloc0 w_extra0]; split; try done.
  all: try (intros o Ho; unfold parent_of; rewrite parent_attach;
            rewrite decide_False; [by apply w_parent0|];
            intros Heq; specialize (w_alloc0 (E o)); simpl in w_alloc0;
            rewrite <- Heq in w_alloc0;
            assert (next_node st < S (next_node st)) by lia;
            destruct Hc as [_ _ _ _ _ _ Hal]; specialize (Hal (E o));
            unfold clear_kids in Hal; simpl in Hal; rewrite <- Heq in Hal;
            enough (next_node st < next_node st) by lia; apply Hal; right;
            apply list_elem_of_fmap; eauto).
  all: try (rewrite kids_of_attach, decide_False by done; exact w_kids0).
  all: intros e' x He' Hx; rewrite kids_of_attach in Hx; case_decide;
    [ subst e'; unfold place in Hx; apply elem_of_app in Hx as [Hx|Hx];
      [ by eapply w_others0
      | apply list_elem_of_singleton in Hx; subst x; intros Hin;
        destruct Hc as [_ _ _ _ _ _ Hal]; specialize (Hal (next_node st));
        unfold clear_kids in Hal; simpl in Hal;
        enough (next_node st < next_node st) by lia; apply Hal; by right ]
    | by eapply w_others0 ].
Qed.
End WorldText.

Section Patch.
Variable modules : list Module.
Variable api : DOMAPI.
Variable options : Options.
Variable X : State → Prop.
Variable P : nat.
Variables oa na : nat.
Variables olds news : list nat.
Variable E : nat → nat.
Variable st0 : State.
Variable Ψ : Error → State → Prop.
Variable Ω : Prop.
Hypothesis HXtrace : ∀ f s, X s → X (with_trace f s).
Hypothesis HXupdate : ∀ r v s, r ∈ olds ++ news → X s →
  X (with_vnodes (fun m => <[r := v]> m) s).

Local Abbreviation world := (world X P na olds news E st0).
Local Abbreviation patched := (patched X P oa na olds news E st0).

Variables o n : nat.
Variable st : State.

Local Abbreviation J := (stepping X P oa na olds news E st0 n st).
Local Abbreviation J' := (patching X P oa na olds news E st0 o n st).

Lemma J_trace f s : J s → J (with_trace f s).
Proof.
  intros (HW & ? & ? & ?). split; [|done].
  by apply (world_trace X P na olds news E st0 HXtrace).
Qed.

Lemma J_update r v v' s :
  J s → r ∈ olds ++ news → vnodes s !! r = Some v → ident v' = ident v →
  (r ≠ n → elm v' = elm v) → (r = n → n ∉ olds) →
  J (with_vnodes (fun m => <[r := v']> m) s).
Proof.
  intros (HW & Ha & Hk & Hh) Hin Hr Hi He Hn. split; [|split; [done|split; [done|]]].
  - eapply (world_update X P na olds news E st0 HXupdate); [done..|].
    intros Hin'. destruct (decide (r = n)) as [->|]; [|auto]. by destruct Hn.
  - intros q Hq Hqn. rewrite host_of_insert. case_decide; [subst q|by apply Hh].
    rewrite He by done. rewrite <- Hh by done. unfold host_of. by rewrite Hr.
Qed.

Lemma ident_default v : data v = None → ident (set_data (Some empty_data) v) = ident v.
Proof. intros Hd. unfold ident, is_of. simpl. by rewrite Hd. Qed.

Hypothesis Ho : o ∈ olds.
Hypothesis Hn : n ∈ news.
Hypothesis Hon : n ∈ olds → n = o.
Hypothesis Hex : ∃ ov0 nv0, vnodes st0 !! o = Some ov0 ∧ vnodes st0 !! n = Some nv0.

Lemma J'_trace f s : J' s → J' (with_trace f s).
Proof. intros [HJ Hh]. split; [by apply J_trace|done]. Qed.

Lemma J'_lookup s :
  J' s → ∃ ov nv ov0 nv0,
    vnodes s !! o = Some ov ∧ vnodes s !! n = Some nv
    ∧ vnodes st0 !! o = Some ov0 ∧ vnodes st0 !! n = Some nv0
    ∧ ident ov = ident ov0 ∧ ident nv = ident nv0.
Proof.
  intros [HJ Hh]. destruct Hex as (ov0 & nv0 & Ho0 & Hn0).
  destruct (world_lookup X P na olds news E st0 s o ov0) as (ov & Hov & Hio);
    [apply HJ|apply elem_of_app; auto|done|].
  destruct (world_lookup X P na olds news E st0 s n nv0) as (nv & Hnv & Hin);
    [apply HJ|apply elem_of_app; auto|done|].
  by exists ov, nv, ov0, nv0.
Qed.

Lemma J'_default r s :
  o ≠ n → J' s → r = o ∨ r = n →
  (∀ v, vnodes s !! r = Some v → data v = None) →
  wp (update_vnode r (set_data (Some empty_data))) (fun _ s' => J' s') Ψ Ω s.
Proof.
  intros Hne HJ Hr Hd. destruct (J'_lookup s HJ) as (ov & nv & ov0 & nv0 & Hov & Hnv & _).
  assert (n ∉ olds) as Hnot by (intros ?; apply Hne; symmetry; auto).
  assert (r ∈ olds ++ news) as Hin by (apply elem_of_app; destruct Hr; subst; auto).
  wp_prim. assert (∃ v, vnodes s !! r = Some v) as [v Hv] by (destruct Hr; subst; eauto).
  rewrite Hv. destruct HJ as [HJ Hh]. split.
  - eapply J_update; [done|done|done|by apply ident_default, Hd|done|done].
  - rewrite host_of_insert. case_decide; [|done]. subst r. simpl.
    unfold host_of in Hh. by rewrite Hv in Hh.
Qed.

Lemma update_tail_pair s :
  o ≠ n → J' s →
  wp (let* ov1 := read o
      in when (bool_decide (data ov1 = None))
           (update_vnode o (set_data (Some empty_data)));;
      for_each (cb_update (cbs modules)) (fun m : nat => hook (ModUpdate m o n));;
      let* nv1 := read n
      in when (has_hook h_update nv1) (hook (HookUpdate o n)))
     (fun _ s' => J' s') Ψ Ω s.
Proof.
  intros Hne HJ. destruct (J'_lookup s HJ) as (ov & nv & ov0 & nv0 & Hov & Hnv & _).
  wp_prim. wp_prim. rewrite Hov. wp_prim.
  apply wp_post with (Φ' := fun _ s' => J' s').
  { wp_prim. case_bool_decide as Hd; [|done].
    apply J'_default; [done|done|by left|]. intros v Hv. congruence. }
  intros [] s1 HJ1. clear dependent ov nv.
  destruct (J'_lookup s1 HJ1) as (ov & nv & ov1 & nv1 & Hov & Hnv & _).
  wp_prim. apply wp_for_each_hook. wp_prim. wp_prim. simpl. rewrite Hnv.
  wp_prim. destruct (has_hook h_update nv).
  - wp_prim. by apply J'_trace, J'_trace.
  - by apply J'_trace.
Qed.

Lemma update_hooks_pair s :
  o ≠ n → J' s →
  wp (update_hooks modules o n) (fun _ s' => J' s') Ψ Ω s.
Proof.
  intros Hne HJ. destruct (J'_lookup s HJ) as (ov & nv & ov0 & nv0 & Hov & Hnv & _).
  unfold update_hooks.
  wp_prim. wp_prim. rewrite Hov. wp_prim. wp_prim. rewrite Hnv.
  wp_prim. match goal with |- if ?b then _ else _ => destruct b end; [|done].
  wp_prim. apply wp_post with (Φ' := fun _ s' => J' s').
  { wp_prim. case_bool_decide as Hd; [|done].
    apply J'_default; [done|done|by right|]. intros v Hv. congruence. }
  intros [] s1 HJ1. by apply update_tail_pair.
Qed.

(** The reconciliation of the children of the pair is left open. *)
Hypothesis Hrec : ∀ f s ov0 nv0,
  o ≠ n → J' s → vnodes st0 !! o = Some ov0 → vnodes st0 !! n = Some nv0 →
  wp (reconcile modules api options (patchVnode modules api options f) f
        (Some (E o)) (children ov0) (children nv0) o n)
     (fun _ s' => J' s') Ψ Ω s.

Lemma patchVnode_pair_ne f :
  o ≠ n → world st →
  wp (patchVnode modules api options (S f) o n) (fun _ s => patched o n st s) Ψ Ω st.
Proof.
  intros Hne HW. assert (J st) as HJ by (by split_and!).
  destruct Hex as (ov0 & nv0 & Ho0 & Hn0).
  assert (n ∉ olds) as Hnot by (intros ?; apply Hne; symmetry; auto).
  destruct (world_lookup X P na olds news E st0 st o ov0) as (ov & Hov & Hio);
    [done|apply elem_of_app; auto|done|].
  destruct (world_lookup X P na olds news E st0 st n nv0) as (nv & Hnv & Hin);
    [done|apply elem_of_app; auto|done|].
  cbn [patchVnode]. wp_prim. wp_prim. rewrite Hnv. wp_prim.
  apply wp_post with (Φ' := fun _ s => J s ∧ vnodes s = vnodes st).
  { wp_prim. match goal with |- if ?b then _ else _ => destruct b end; [|done].
    wp_prim. split; [by apply J_trace|done]. }
  intros [] s1 [HJ1 Hv1]. wp_prim. wp_prim. rewrite Hv1, Hov. wp_prim.
  wp_prim. rewrite Hv1, Hnv.
  set (s2 := with_vnodes _ s1).
  assert (J' s2) as HJ2.
  { split.
    - eapply J_update; [done|apply elem_of_app; auto|by rewrite Hv1|done|done|done].
    - unfold s2. rewrite host_of_insert, decide_True by done. simpl.
      pose proof (w_host _ _ _ _ _ _ _ _ HW o Ho) as Hh. unfold host_of in Hh.
      by rewrite Hov in Hh. }
  destruct (J'_lookup s2 HJ2)
    as (ov2 & nv2 & ov1 & nv1 & Hov2 & Hnv2 & Ho1 & Hn1 & Hio2 & Hin2).
  assert (ov1 = ov0) as -> by congruence. assert (nv1 = nv0) as -> by congruence.
  wp_prim. wp_prim. rewrite Hov2. wp_prim. wp_prim. rewrite Hnv2.
  rewrite decide_False by done.
  wp_prim. eapply wp_post; [by apply update_hooks_pair|].
  intros [] s3 HJ3. wp_prim.
  assert (elm ov = Some (E o)) as ->.
  { pose proof (w_host _ _ _ _ _ _ _ _ HW o Ho) as Hh. unfold host_of in Hh.
    by rewrite Hov in Hh. }
  assert (children ov2 = children ov0) as -> by (unfold ident in Hio2; congruence).
  assert (children nv2 = children nv0) as -> by (unfold ident in Hin2; congruence).
  eapply wp_post; [by apply Hrec|].
  intros [] s4 HJ4. wp_prim.
  assert (∀ s, J' s → patched o n st s) as Hfin.
  { intros s [(HW' & Ha & Hk & Hr) Hh]. split; [done|done|done|done|].
    intros r Hr' Hrn. apply Hr; [apply elem_of_app; auto|done]. }
  match goal with |- if ?b then _ else _ => destruct b end; [|by apply Hfin].
  wp_prim. by apply Hfin, J'_trace.
Qed.

Lemma patchVnode_pair f :
  world st →
  wp (patchVnode modules api options (S f) o n) (fun _ s => patched o n st s) Ψ Ω st.
Proof.
  intros HW. destruct (decide (o = n)) as [Heq|Hne]; [|by apply patchVnode_pair_ne].
  destruct Hex as (ov0 & _ & Ho0 & _).
  destruct (world_lookup X P na olds news E st0 st o ov0) as (ov & Hov & _);
    [done|apply elem_of_app; auto|done|].
  revert Hov. rewrite Heq. intros Hov.
  unfold wp. rewrite (patchVnode_same_ref _ _ _ _ _ ov) by done.
  assert (∀ s, world s → arrays s = arrays st → kids_of s P = kids_of st P
               → vnodes s = vnodes st → patched n n st s) as Hfin.
  { intros s HW' Ha Hk Hv. split; [done|by rewrite Ha|done| |].
    - rewrite <- Heq. by apply (w_host _ _ _ _ _ _ _ _ HW').
    - intros r _ _. unfold host_of. by rewrite Hv. }
  destruct (has_hook h_prepatch ov); apply Hfin; try done.
  by apply (world_trace X P na olds news E st0 HXtrace).
Qed.
End Patch.

Section InertPatch.
Variable modules : list Module.
Variable api : DOMAPI.
Variable options : Options.
Variable P : nat.
Variables oa na : nat.
Variables olds news : list nat.
Variable E : nat → nat.
Variable st0 : State.
Hypothesis HP : P ∉ E <$> olds.

Local Abbreviation world := (world (fun _ => True) P na olds news E st0).
Local Abbreviation patched := (patched (fun _ => True) P oa na olds news E st0).

Variables o n : nat.
Variable st : State.
Hypothesis Ho : o ∈ olds.
Hypothesis Hn : n ∈ news.
Hypothesis Hinert : inert st0 o n.

Local Abbreviation J' := (patching (fun _ => True) P oa na olds news E st0 o n st).

Lemma J'_setTextContent (t : string) s :
  J' s → wp (setTextContent (E o) t) (fun _ s' => J' s') (fun _ _ => False) False s.
Proof.
  intros [(HW & Ha & Hk & Hr) Hh].
  eapply wp_post; [apply (world_setTextContent P na olds news E st0 HP (E o) t s HW)|].
  - apply list_elem_of_fmap. eauto.
  - intros [] s1 (HW1 & Hv & Ha1 & Hk1).
    unfold patching, stepping, host_of in *. rewrite Hv.
    split; [split; [done|split; [congruence|split; [congruence|done]]]|done].
Qed.

Lemma reconcile_inert pv f s ov0 nv0 :
  J' s → vnodes st0 !! o = Some ov0 → vnodes st0 !! n = Some nv0 →
  wp (reconcile modules api options pv f (Some (E o)) (children ov0) (children nv0) o n)
     (fun _ s' => J' s') (fun _ _ => False) False s.
Proof.
  intros HJ Ho0 Hn0.
  destruct (world_lookup (fun _ => True) P na olds news E st0 s o ov0) as (ov & Hov & Hio);
    [apply HJ|apply elem_of_app; auto|done|].
  destruct (world_lookup (fun _ => True) P na olds news E st0 s n nv0) as (nv & Hnv & Hin);
    [apply HJ|apply elem_of_app; auto|done|].
  destruct Hinert as (ov2 & nv2 & Ho2 & Hn2 & Hch & Ht1 & Ht2).
  assert (ov2 = ov0) as -> by congruence. assert (nv2 = nv0) as -> by congruence.
  clear Ho2 Hn2.
  assert (text nv = text nv0) as Htn by (unfold ident in Hin; congruence).
  assert (text ov = text ov0) as Hto by (unfold ident in Hio; congruence).
  unfold reconcile. wp_prim. wp_prim. rewrite Hov. wp_prim. wp_prim. rewrite Hnv.
  destruct (text nv) as [t|] eqn:Ht.
  - destruct Ht1 as [Hc|Hc]; [|congruence]. rewrite Hch, Hc.
    wp_prim. case_bool_decide; [|done].
    wp_prim. wp_prim. wp_prim. wp_prim. by apply J'_setTextContent.
  - rewrite Hch. destruct (children nv0) as [c|].
    + rewrite decide_True by done. done.
    + wp_prim. case_bool_decide; [|done]. wp_prim. wp_prim. by apply J'_setTextContent.
Qed.
End InertPatch.

Lemma patchVnode_inert modules api options P oa na olds news E st0 o n f st :
  P ∉ E <$> olds → o ∈ olds → n ∈ news → (n ∈ olds → n = o) → inert st0 o n →
  world (fun _ => True) P na olds news E st0 st →
  wp (patchVnode modules api options (S f) o n)
     (fun _ s => patched (fun _ => True) P oa na olds news E st0 o n st s) (fun _ _ => False) False st.
Proof.
  intros HP Ho Hn Hon Hi HW.
  apply (patchVnode_pair modules api options (fun _ => True)); try done.
  - destruct Hi as (ov0 & nv0 & ? & ? & _). eauto.
  - intros f' s ov0 nv0 _ HJ Ho0 Hn0. by eapply reconcile_inert.
Qed.

(** ** The windows of [updateChildren] *)

Lemma aget_nat (a : list (option nat)) (i : nat) : aget a (Z.of_nat i) = mjoin (a !! i).
Proof.
  unfold aget. destruct (Z.ltb_spec (Z.of_nat i) 0) as [?|_]; [lia|].
  by rewrite Nat2Z.id.
Qed.

Lemma aget_neg (a : list (option nat)) (i : Z) : (i < 0)%Z → aget a i = None.
Proof. unfold aget. intros Hi. destruct (Z.ltb_spec i 0); [done|lia]. Qed.

Lemma head_lookup {A} (l : list A) : head l = l !! 0.
Proof. by destruct l. Qed.

Lemma last_snoc' {A} (l : list A) (x : A) : last (l ++ [x]) = Some x.
Proof. apply last_snoc. Qed.

Lemma last_app_ne {A} (l1 l2 : list A) : l2 ≠ [] → last (l1 ++ l2) = last l2.
Proof.
  intros Hne. destruct l2 as [|x l2 _] using rev_ind; [done|].
  by rewrite app_assoc, !last_snoc.
Qed.

Lemma last_is_lookup {A} (l : list A) : last l = l !! (length l - 1).
Proof.
  destruct l as [|x l _] using rev_ind; [done|].
  rewrite last_snoc, length_app. simpl.
  rewrite lookup_app_r by lia. by replace (length l + 1 - 1 - length l) with 0 by lia.
Qed.

Lemma place_after (A B C : list nat) (x : nat) :
  NoDup (A ++ x :: B ++ C) →
  place (head C) x (remove_node x (A ++ x :: B ++ C)) = A ++ B ++ x :: C.
Proof.
  intros Hnd. apply NoDup_app in Hnd as (HA & HAx & Hnd).
  apply NoDup_cons in Hnd as (Hx & Hnd).
  rewrite remove_node_middle.
  - destruct C as [|h C]; simpl.
    + by rewrite !app_nil_r, <- app_assoc.
    + rewrite (app_assoc A B). rewrite insert_before_middle; [by rewrite <- app_assoc|].
      intros Hin. apply elem_of_app in Hin as [Hin|Hin].
      * apply (HAx h Hin). right. apply elem_of_app. right. by left.
      * apply NoDup_app in Hnd as (_ & HB & _). apply (HB h Hin). by left.
  - intros Hin. apply (HAx x Hin). by left.
  - done.
Qed.

Lemma place_before (A B C : list nat) (h x : nat) :
  NoDup (A ++ (h :: B) ++ x :: C) →
  place (Some h) x (remove_node x (A ++ (h :: B) ++ x :: C)) = A ++ x :: h :: B ++ C.
Proof.
  intros Hnd. rewrite app_assoc in Hnd |- *.
  pose proof Hnd as Hnd'. apply NoDup_app in Hnd as (HAB & HABx & Hnd).
  apply NoDup_cons in Hnd as (Hx & Hnd).
  rewrite remove_node_middle.
  - rewrite <- app_assoc. simpl. rewrite insert_before_middle; [done|].
    apply NoDup_app in HAB as (_ & HA & _). intros Hin. apply (HA h Hin). by left.
  - intros Hin. apply (HABx x Hin). by left.
  - done.
Qed.

Lemma next_in_last (A B C : list nat) (y : nat) :
  NoDup (A ++ (B ++ [y]) ++ C) → next_in y (A ++ (B ++ [y]) ++ C) = head C.
Proof.
  intros Hnd. rewrite <- app_assoc, app_assoc in Hnd |- *. simpl in *.
  apply next_in_middle. apply NoDup_app in Hnd as (_ & H & _).
  intros Hin. apply (H y Hin). by left.
Qed.

Lemma omap_id_snoc (l : list (option nat)) (x : option nat) :
  omap id (l ++ [x]) = omap id l ++ match x with Some y => [y] | None => [] end.
Proof. rewrite omap_app. simpl. by destruct x. Qed.

Lemma NoDup_fmap_inj {A B} (f : A → B) (l : list A) (x y : A) :
  NoDup (f <$> l) → x ∈ l → y ∈ l → f x = f y → x = y.
Proof.
  induction l as [|a l IH]; intros Hnd Hx Hy Hf; [by apply elem_of_nil in Hx|].
  simpl in Hnd. apply NoDup_cons in Hnd as [Ha Hnd].
  apply elem_of_cons in Hx as [->|Hx]; apply elem_of_cons in Hy as [->|Hy]; auto.
  - destruct Ha. rewrite Hf. by apply list_elem_of_fmap_2.
  - destruct Ha. rewrite <- Hf. by apply list_elem_of_fmap_2.
Qed.

Section Windows.
Variable olds : list nat.
Variable st0 : State.

Local Abbreviation old_side := (old_side olds st0).

Lemma old_start g g' x s e sv ev m :
  Owin g = x :: Owin g' → Opre g' = Opre g ++ [x] → Opost g' = Opost g →
  old_side g s e sv ev m →
  old_side g' (s + 1) e (aget (Opre g ++ Owin g ++ Opost g) (s + 1)) ev m.
Proof.
  intros Hw Hp Hq [Hsl Hs He Hsv Hev Hm]. rewrite Hw in *.
  split.
  - rewrite Hp, Hq, <- app_assoc. done.
  - rewrite Hp, length_app. simpl. lia.
  - rewrite Hp, length_app. simpl in *. lia.
  - intros Hne. rewrite Hs. replace (Z.of_nat (length (Opre g)) + 1)%Z
      with (Z.of_nat (length (Opre g) + 1)) by lia.
    rewrite aget_nat. rewrite lookup_app_r by lia.
    replace (length (Opre g) + 1 - length (Opre g)) with 1 by lia. simpl.
    rewrite lookup_app_l by (destruct (Owin g'); [done|simpl; lia]).
    by rewrite head_lookup.
  - intros Hne. rewrite Hev by done. f_equal.
    change (x :: Owin g') with ([x] ++ Owin g'). by rewrite last_app_ne.
  - intros map i o Hmap Hi. rewrite Hp, length_app. simpl.
    replace (length (Opre g) + 1 + i) with (length (Opre g) + S i) by lia.
    by apply Hm.
Qed.

Lemma old_end g g' x s e sv ev m :
  Owin g = Owin g' ++ [x] → Opre g' = Opre g → Opost g' = x :: Opost g →
  old_side g s e sv ev m →
  old_side g' s (e - 1) sv (aget (Opre g ++ Owin g ++ Opost g) (e - 1)) m.
Proof.
  intros Hw Hp Hq [Hsl Hs He Hsv Hev Hm]. rewrite Hw in *.
  split.
  - rewrite Hp, Hq. rewrite <- app_assoc in Hsl. done.
  - by rewrite Hp.
  - rewrite Hp. rewrite length_app in He. simpl in *. lia.
  - intros Hne. rewrite Hsv by (by destruct (Owin g')). f_equal.
    destruct (Owin g'); [done|]. done.
  - intros Hne. rewrite He, length_app. simpl.
    assert (length (Owin g') ≠ 0) by (by destruct (Owin g')).
    replace (Z.of_nat (length (Opre g) + (length (Owin g') + 1)) - 1 - 1)%Z
      with (Z.of_nat (length (Opre g) + (length (Owin g') - 1))) by lia.
    rewrite aget_nat. rewrite lookup_app_r by lia.
    replace (length (Opre g) + (length (Owin g') - 1) - length (Opre g))
      with (length (Owin g') - 1) by lia.
    rewrite <- app_assoc, lookup_app_l by lia.
    by rewrite last_is_lookup.
  - intros map i o Hmap Hi. rewrite Hp. apply Hm; [done|].
    rewrite lookup_app_l; [done|]. by eapply lookup_lt_Some.
Qed.

Lemma old_kill g g' i o s e sv ev m :
  Owin g !! i = Some (Some o) → 0 < i → i < length (Owin g) - 1 →
  Owin g' = <[i := None]> (Owin g) → Opre g' = Opre g → Opost g' = Opost g →
  old_side g s e sv ev m →
  old_side g' s e sv ev m
  ∧ <[length (Opre g) + i := None]> (Opre g ++ Owin g ++ Opost g)
    = Opre g' ++ Owin g' ++ Opost g'.
Proof.
  intros Hi H0 Hl Hw Hp Hq [Hsl Hs He Hsv Hev Hm].
  assert (<[length (Opre g) + i := None]> (Opre g ++ Owin g ++ Opost g)
    = Opre g' ++ Owin g' ++ Opost g') as Harr.
  { rewrite Hp, Hq, Hw. rewrite insert_app_r. f_equal.
    rewrite insert_app_l by lia. done. }
  split; [|done]. split.
  - rewrite <- Harr.
    apply Forall2_same_length_lookup_2.
    + rewrite length_insert. by eapply Forall2_length.
    + intros j a b Ha Hb. destruct (decide (j = length (Opre g) + i)) as [->|Hj].
      * rewrite list_lookup_insert_eq in Hb; [right; congruence|].
        apply Forall2_length in Hsl. apply lookup_lt_Some in Ha. lia.
      * rewrite list_lookup_insert_ne in Hb by done.
        by eapply Forall2_lookup_lr in Hsl.
  - by rewrite Hp.
  - rewrite Hp, Hw, length_insert. done.
  - intros _. rewrite Hsv by (intros Hn; by rewrite Hn in Hi). f_equal.
    rewrite Hw, !head_lookup. by rewrite list_lookup_insert_ne by lia.
  - intros _. rewrite Hev by (intros Hn; by rewrite Hn in Hi). f_equal.
    rewrite Hw, !last_is_lookup, length_insert. by rewrite list_lookup_insert_ne by lia.
  - intros map j o' Hmap Hj. rewrite Hp. apply Hm; [done|].
    rewrite Hw in Hj. destruct (decide (i = j)) as [->|Hij].
    + rewrite list_lookup_insert_eq in Hj; [done|]. lia.
    + by rewrite list_lookup_insert_ne in Hj.
Qed.

Lemma old_map g s e sv ev m map :
  old_side g s e sv ev m →
  (∀ i o, Owin g !! i = Some (Some o) →
          map !! kname st0 o = Some (Z.of_nat (length (Opre g) + i))) →
  old_side g s e sv ev (Some map).
Proof. intros [Hsl Hs He Hsv Hev Hm] Hmap. split; try done. intros ? i o [= <-]. apply Hmap. Qed.

Lemma new_start pairs g g' x s e sv ev :
  Pwin g = x :: Pwin g' → Ppre g' = Ppre g ++ [x] → Ppost g' = Ppost g →
  new_side pairs g s e sv ev →
  new_side pairs g' (s + 1) e (aget (Some <$> pairs.*2) (s + 1)) ev.
Proof.
  intros Hw Hp Hq [Hpairs Hs He Hsv Hev]. rewrite Hw in *. split.
  - rewrite Hp, Hq, <- app_assoc. done.
  - rewrite Hp, length_app. simpl. lia.
  - rewrite Hp, length_app. simpl in *. lia.
  - intros Hne. rewrite Hs. replace (Z.of_nat (length (Ppre g)) + 1)%Z
      with (Z.of_nat (length (Ppre g) + 1)) by lia.
    rewrite aget_nat, Hpairs. rewrite !list_lookup_fmap.
    rewrite lookup_app_r by lia.
    replace (length (Ppre g) + 1 - length (Ppre g)) with 1 by lia. simpl.
    rewrite lookup_app_l by (destruct (Pwin g'); [done|simpl; lia]).
    rewrite head_lookup. by destruct (Pwin g' !! 0).
  - intros Hne. rewrite Hev by done. f_equal.
    change (x :: Pwin g') with ([x] ++ Pwin g'). by rewrite last_app_ne.
Qed.

Lemma new_end pairs g g' x s e sv ev :
  Pwin g = Pwin g' ++ [x] → Ppre g' = Ppre g → Ppost g' = x :: Ppost g →
  new_side pairs g s e sv ev →
  new_side pairs g' s (e - 1) sv (aget (Some <$> pairs.*2) (e - 1)).
Proof.
  intros Hw Hp Hq [Hpairs Hs He Hsv Hev]. rewrite Hw in *. split.
  - rewrite Hp, Hq. rewrite <- app_assoc in Hpairs. done.
  - by rewrite Hp.
  - rewrite Hp. rewrite length_app in He. simpl in *. lia.
  - intros Hne. rewrite Hsv by (by destruct (Pwin g')). f_equal.
    destruct (Pwin g'); [done|]. done.
  - intros Hne. rewrite He, length_app. simpl.
    assert (length (Pwin g') ≠ 0) by (by destruct (Pwin g')).
    replace (Z.of_nat (length (Ppre g) + (length (Pwin g') + 1)) - 1 - 1)%Z
      with (Z.of_nat (length (Ppre g) + (length (Pwin g') - 1))) by lia.
    rewrite aget_nat, Hpairs. rewrite !list_lookup_fmap. rewrite lookup_app_r by lia.
    replace (length (Ppre g) + (length (Pwin g') - 1) - length (Ppre g))
      with (length (Pwin g') - 1) by lia.
    rewrite <- app_assoc, lookup_app_l by lia.
    rewrite last_is_lookup. by destruct (Pwin g' !! _).
Qed.
End Windows.

(** ** The loop of [updateChildren] on a permutation of keyed children *)

Lemma sameVnode_ident v1 v2 v1' v2' :
  ident v1 = ident v1' → ident v2 = ident v2' → sameVnode v1 v2 = sameVnode v1' v2'.
Proof. unfold ident, sameVnode. intros [= -> -> -> _ _] [= -> -> -> _ _]. done. Qed.

Lemma kname_ident st st' r :
  ident_of st r = ident_of st' r → kname st r = kname st' r.
Proof.
  unfold ident_of, kname, ident.
  destruct (vnodes st !! r), (vnodes st' !! r); simpl; try done. by intros [= -> _ _ _ _].
Qed.

Section Loop.
Variable modules : list Module.
Variable api : DOMAPI.
Variable options : Options.
Variable X : State → Prop.
Variable P : nat.
Variables oa na : nat.
Variables olds news : list nat.
Variable E : nat → nat.
Variable st0 : State.
Variable pairs : list (nat * nat).
Variable pv : nat → nat → M unit.
Variable fuel : nat.
Variable Ψ : Error → State → Prop.
Variable Ω : Prop.

Local Abbreviation world := (world X P na olds news E st0).
Local Abbreviation patched := (patched X P oa na olds news E st0).
Local Abbreviation inv := (inv X P oa na olds news E st0 pairs).

Hypothesis Hoa : oa ≠ na.
Hypothesis HP : P ∉ E <$> olds.
Hypothesis HndE : NoDup (E <$> olds).
Hypothesis Hnews : pairs.*2 = news.
Hypothesis Hperm : pairs.*1 ≡ₚ olds.
Hypothesis Heq : ∀ o n, (o, n) ∈ pairs → equivalent st0 o n.
Hypothesis Hkeys : keyed_distinct st0 olds.
Hypothesis HXarrays : ∀ (st : State) (a : list (option nat)),
  X st → X (with_arrays (fun m => <[oa := a]> m) st).
Hypothesis HXmove : ∀ (st : State) (o : nat) (ref : option nat) f,
  o ∈ olds → X st → X (attach P (E o) ref (detach (E o) (with_trace f st))).
Hypothesis Hpv : ∀ o n st, (o, n) ∈ pairs → world st →
  wp (pv o n) (fun _ s => patched o n st s) Ψ Ω st.

Lemma olds_nodup : NoDup olds.
Proof. by eapply NoDup_fmap_1. Qed.

Lemma pair_old o n : (o, n) ∈ pairs → o ∈ olds.
Proof. intros Hin. rewrite <- Hperm. apply list_elem_of_fmap. by exists (o, n). Qed.

Lemma pair_new o n : (o, n) ∈ pairs → n ∈ news.
Proof. intros Hin. rewrite <- Hnews. apply list_elem_of_fmap. by exists (o, n). Qed.

Lemma pair_kname o n : (o, n) ∈ pairs → kname st0 n = kname st0 o.
Proof.
  intros Hin. destruct (Heq o n Hin) as (ov & nv & Ho & Hn & Hs).
  unfold kname. rewrite Ho, Hn. unfold sameVnode in Hs.
  apply andb_prop in Hs as [Hs _]. apply andb_prop in Hs as [_ Hs].
  apply bool_decide_eq_true in Hs. by rewrite Hs.
Qed.

Lemma same_old o' o n : o' ∈ olds → (o, n) ∈ pairs → kname st0 o' = kname st0 n → o' = o.
Proof.
  intros Ho' Hin Hk. rewrite (pair_kname o n Hin) in Hk.
  destruct Hkeys as [_ Hnd]. eapply NoDup_fmap_inj; eauto using pair_old.
Qed.

Lemma pair_fun o o' n : (o, n) ∈ pairs → (o', n) ∈ pairs → o' = o.
Proof.
  intros H1 H2. eapply same_old; eauto using pair_old. by rewrite (pair_kname o' n).
Qed.

Lemma pairs_knames (l : list (nat * nat)) :
  l ⊆ pairs → kname st0 <$> l.*2 = kname st0 <$> l.*1.
Proof.
  induction l as [|[o n] l IH]; intros Hl; [done|]. simpl. f_equal.
  - apply pair_kname, Hl. by left.
  - apply IH. intros x Hx. apply Hl. by right.
Qed.

Lemma news_nodup : NoDup pairs.*2.
Proof.
  apply (NoDup_fmap_1 (kname st0)). rewrite pairs_knames by done.
  rewrite Hperm. apply Hkeys.
Qed.

Lemma pair_inj o n n' : (o, n) ∈ pairs → (o, n') ∈ pairs → n' = n.
Proof.
  assert (NoDup pairs.*1) as Hnd by (rewrite Hperm; apply olds_nodup).
  intros H1 H2.
  apply list_elem_of_lookup in H1 as [i Hi]. apply list_elem_of_lookup in H2 as [j Hj].
  assert (i = j) as ->.
  { eapply NoDup_lookup; [exact Hnd| |]; rewrite list_lookup_fmap.
    - by rewrite Hi. - by rewrite Hj. }
  congruence.
Qed.

(** [sameVnode] tells the partner of a new vnode from all other old vnodes. *)
Lemma same_eq (st : State) (o' o n : nat) :
  world st → o' ∈ olds → (o, n) ∈ pairs →
  same o' n st = Ok (bool_decide (o' = o)) st.
Proof.
  intros HW Ho' Hin. pose proof (pair_old _ _ Hin) as Ho. pose proof (pair_new _ _ Hin) as Hn.
  destruct (Heq o n Hin) as (ov0 & nv0 & Ho0 & Hn0 & Hs).
  destruct Hkeys as [Hk _]. destruct (Hk o' Ho') as (ov0' & k & Ho0' & _).
  destruct (world_lookup X P na olds news E st0 st o' ov0') as (ov' & Hov' & Hio');
    [done|apply elem_of_app; auto|done|].
  destruct (world_lookup X P na olds news E st0 st n nv0) as (nv & Hnv & Hin');
    [done|apply elem_of_app; auto|done|].
  unfold same, bind, read. rewrite Hov', Hnv. unfold ret. f_equal.
  rewrite (sameVnode_ident _ _ _ _ Hio' Hin').
  case_bool_decide as Hd.
  - subst o'. congruence.
  - apply not_true_is_false. intros Hs'. apply Hd. eapply same_old; eauto.
    unfold kname. rewrite Ho0', Hn0. unfold sameVnode in Hs'.
    apply andb_prop in Hs' as [Hs' _]. apply andb_prop in Hs' as [_ Hs'].
    apply bool_decide_eq_true in Hs'. by rewrite Hs'.
Qed.

Lemma elm_of_old (st : State) (o : nat) :
  world st → o ∈ olds → elm_of o st = Ok (Some (E o)) st.
Proof.
  intros HW Ho. pose proof (w_host _ _ _ _ _ _ _ _ HW o Ho) as Hh.
  unfold elm_of, bind, read, host_of in *. destruct (vnodes st !! o); [|done].
  unfold ret. by rewrite Hh.
Qed.

Lemma old_at_eq (st : State) (a : list (option nat)) (i : Z) :
  arrays st !! oa = Some a → old_at oa i st = Ok (aget a i) st.
Proof. intros Ha. unfold old_at, bind, read_array. by rewrite Ha. Qed.

Lemma new_at_eq (st : State) (i : Z) :
  world st → new_at na i st = Ok (aget (Some <$> pairs.*2) i) st.
Proof.
  intros HW. pose proof (w_new _ _ _ _ _ _ _ _ HW) as Ha.
  unfold new_at, bind, read_array. by rewrite Ha, Hnews.
Qed.

(** Moving the host node of an old vnode within the children of [P]. *)
Lemma world_move (st : State) (o : nat) (ref : option nat) f :
  world st → o ∈ olds →
  match ref with Some h => h ∈ kids_of st P ∧ h ≠ E o | None => True end →
  world (attach P (E o) ref (detach (E o) (with_trace f st))).
Proof.
  intros HW Ho Href. pose proof HW as [w1 w2 w3 w4 w5 w6 w7 w8].
  pose proof (w4 o Ho) as Hpar.
  assert (NoDup (kids_of st P)) as Hnd by (by rewrite w5).
  assert (E o ∈ kids_of st P) as Hin by (rewrite w5; by apply list_elem_of_fmap_2).
  split.
  - simpl. by rewrite arrays_detach.
  - intros r Hr. rewrite <- w2 by done. unfold ident_of. simpl. by rewrite vnodes_detach.
  - intros r Hr. rewrite <- w3 by done. unfold host_of. simpl. by rewrite vnodes_detach.
  - intros o' Ho'. rewrite moved_parent by done. by apply w4.
  - rewrite moved_kids by done. rewrite <- w5.
    apply list_elem_of_split in Hin as (A & B & HAB). rewrite HAB in Hnd |- *.
    pose proof Hnd as Hnd'.
    apply NoDup_app in Hnd as (HA & HAx & Hnd). apply NoDup_cons in Hnd as (Hx & HB).
    rewrite remove_node_middle; [|intros Hi; apply (HAx _ Hi); by left|done].
    destruct ref as [h|]; simpl.
    + destruct Href as [Hh Hne]. rewrite HAB in Hh.
      apply elem_of_app in Hh as [Hh|Hh].
      * apply list_elem_of_split in Hh as (A1 & A2 & ->).
        rewrite <- (app_assoc A1). simpl. rewrite insert_before_middle.
        -- rewrite <- !app_assoc. simpl. apply Permutation_app_head.
           change (h :: A2 ++ E o :: B) with ((h :: A2) ++ E o :: B).
           by rewrite <- Permutation_middle.
        -- apply NoDup_app in HA as (_ & HA & _). intros Hi. apply (HA _ Hi). by left.
      * apply elem_of_cons in Hh as [->|Hh]; [done|].
        apply list_elem_of_split in Hh as (B1 & B2 & ->).
        rewrite app_assoc. rewrite insert_before_middle.
        -- rewrite <- !app_assoc. apply Permutation_app_head. simpl.
           by rewrite <- Permutation_middle.
        -- intros Hi. apply elem_of_app in Hi as [Hi|Hi].
           ++ apply (HAx _ Hi). right. apply elem_of_app. right. by left.
           ++ apply NoDup_app in HB as (_ & HB & _). apply (HB _ Hi). by left.
    + rewrite <- app_assoc. apply Permutation_app_head. symmetry.
      apply Permutation_cons_append.
  - intros e x He Hx. rewrite moved_kids_other in Hx by done. by eapply w6.
  - intros x Hx. simpl. rewrite next_node_detach. by apply w7.
  - by apply HXmove.
Qed.
Lemma kids_nodup (st : State) : world st → NoDup (kids_of st P).
Proof. intros HW. by rewrite (w_kids _ _ _ _ _ _ _ _ HW). Qed.

Lemma kid_parent (st : State) (x : nat) :
  world st → x ∈ kids_of st P → parent_of st x = Some P.
Proof.
  intros HW Hx. rewrite (w_kids _ _ _ _ _ _ _ _ HW) in Hx.
  apply list_elem_of_fmap in Hx as (o & -> & Ho). by apply (w_parent _ _ _ _ _ _ _ _ HW).
Qed.

Lemma move_left (st : State) (o os : nat) (A B C : list nat) :
  world st → o ∈ olds →
  kids_of st P = E <$> (A ++ (os :: B) ++ o :: C) →
  ∃ st', insertBefore P (E o) (Some (E os)) st = Ok tt st'
    ∧ world st' ∧ kids_of st' P = E <$> (A ++ o :: os :: B ++ C)
    ∧ vnodes st' = vnodes st ∧ arrays st' = arrays st.
Proof.
  intros HW Ho Hk. pose proof (kids_nodup st HW) as Hnd. rewrite Hk in Hnd.
  rewrite !fmap_app, !fmap_cons in Hnd.
  assert (E os ∈ kids_of st P) as Hin.
  { rewrite Hk, !fmap_app, !fmap_cons. apply elem_of_app. right. by left. }
  assert (E os ≠ E o) as Hne.
  { intros Heq'. apply NoDup_app in Hnd as (_ & _ & Hnd). simpl in Hnd.
    apply NoDup_cons in Hnd as [Hnot _]. apply Hnot. rewrite Heq'.
    apply elem_of_app. right. by left. }
  pose proof (w_parent _ _ _ _ _ _ _ _ HW o Ho) as Hpar.
  eexists. split; [|split; [|split; [|split]]].
  - apply insertBefore_move; [done|]. split; [by apply kid_parent|done].
  - apply world_move; done.
  - unfold add_events. rewrite moved_kids by done. rewrite Hk.
    rewrite !fmap_app, !fmap_cons, !fmap_app. by apply place_before.
  - simpl. by rewrite vnodes_detach.
  - simpl. by rewrite arrays_detach.
Qed.

Lemma move_right (st : State) (o oe : nat) (A B C : list nat) :
  world st → o ∈ olds →
  kids_of st P = E <$> (A ++ o :: (B ++ [oe]) ++ C) →
  ∃ ref st', nextSibling (E oe) st = Ok ref st
    ∧ insertBefore P (E o) ref st = Ok tt st'
    ∧ world st' ∧ kids_of st' P = E <$> (A ++ (B ++ [oe]) ++ o :: C)
    ∧ vnodes st' = vnodes st ∧ arrays st' = arrays st.
Proof.
  intros HW Ho Hk. pose proof (kids_nodup st HW) as Hnd. rewrite Hk in Hnd.
  assert (E <$> (A ++ o :: (B ++ [oe]) ++ C)
          = ((E <$> A) ++ E o :: (E <$> B)) ++ E oe :: (E <$> C)) as Hform.
  { rewrite !fmap_app, !fmap_cons, !fmap_app. simpl. by rewrite <- !app_assoc. }
  assert (E oe ∈ kids_of st P) as Hin.
  { rewrite Hk, Hform. apply elem_of_app. right. by left. }
  pose proof (kid_parent st _ HW Hin) as Hpe.
  pose proof (w_parent _ _ _ _ _ _ _ _ HW o Ho) as Hpar.
  assert (sibling_of st (E oe) = head (E <$> C)) as Hsib.
  { unfold sibling_of. unfold parent_of in Hpe. rewrite Hpe, Hk, Hform.
    apply next_in_middle. rewrite Hform in Hnd.
    apply NoDup_app in Hnd as (_ & Hnd & _). intros Hi. apply (Hnd _ Hi). by left. }
  assert (match head (E <$> C) with
          | Some h => parent_of st h = Some P ∧ h ≠ E o
          | None => True
          end) as Href.
  { destruct C as [|c C]; [done|]. simpl. split.
    - apply kid_parent; [done|]. rewrite Hk, Hform. apply elem_of_app. right. right. by left.
    - intros Heq'. rewrite Hform in Hnd. apply NoDup_app in Hnd as (_ & Hnd & _).
      apply (Hnd (E o)); [apply elem_of_app; right; by left|]. right. rewrite <- Heq'. by left. }
  exists (head (E <$> C)). eexists. split; [|split; [|split; [|split; [|split]]]].
  - unfold nextSibling. by rewrite Hsib.
  - by apply insertBefore_move.
  - apply world_move; [done|done|]. destruct (head (E <$> C)) as [h|] eqn:Hh; [|done].
    destruct Href as [_ Hne]. split; [|done]. destruct C as [|c C]; [done|]. simpl in Hh.
    injection Hh as <-. rewrite Hk, Hform. apply elem_of_app. right. right. by left.
  - unfold add_events. rewrite moved_kids by done. rewrite Hk.
    rewrite !(fmap_app _ A), !fmap_cons, !(fmap_app _ (B ++ [oe])), fmap_cons.
    apply place_after. revert Hnd.
    by rewrite !(fmap_app _ A), !fmap_cons, !(fmap_app _ (B ++ [oe])).
  - simpl. by rewrite vnodes_detach.
  - simpl. by rewrite arrays_detach.
Qed.
Lemma old_side_same g g' s e sv ev m :
  Opre g' = Opre g → Owin g' = Owin g → Opost g' = Opost g →
  old_side olds st0 g s e sv ev m → old_side olds st0 g' s e sv ev m.
Proof. intros H1 H2 H3 []. split; rewrite ?H1, ?H2, ?H3; done. Qed.

Lemma new_side_same g g' s e sv ev :
  Ppre g' = Ppre g → Pwin g' = Pwin g → Ppost g' = Ppost g →
  new_side pairs g s e sv ev → new_side pairs g' s e sv ev.
Proof. intros H1 H2 H3 []. split; rewrite ?H1, ?H2, ?H3; done. Qed.

Lemma slot_old g s e sv ev m i o :
  old_side olds st0 g s e sv ev m → Owin g !! i = Some (Some o) → o ∈ olds.
Proof.
  intros [Hsl _ _ _ _ _] Hi.
  assert ((Opre g ++ Owin g ++ Opost g) !! (length (Opre g) + i) = Some (Some o)) as Hl.
  { rewrite lookup_app_r by lia. replace (length (Opre g) + i - length (Opre g)) with i by lia.
    by apply lookup_app_l_Some. }
  destruct (Forall2_lookup_r _ _ _ _ _ Hsl Hl) as (o' & Ho' & [Hs|Hs]); [|done].
  injection Hs as ->. by eapply list_elem_of_lookup_2.
Qed.

Lemma live_old g l st o : inv g l st → o ∈ live g → o ∈ olds.
Proof.
  intros Hinv Ho. unfold live in Ho. apply list_elem_of_omap in Ho as (x & Hx & Hid).
  simpl in Hid. subst x. apply list_elem_of_lookup in Hx as [i Hi].
  eapply slot_old; [apply Hinv|done].
Qed.

Lemma win_pair g l st p : inv g l st → p ∈ Pwin g → p ∈ pairs.
Proof.
  intros Hinv Hp. rewrite (n_pairs _ _ _ _ _ _ (i_new _ _ _ _ _ _ _ _ _ _ _ _ Hinv)).
  apply elem_of_app. right. apply elem_of_app. by left.
Qed.

Lemma done_pair g l st p : inv g l st → p ∈ Ppre g ++ Ppost g → p ∈ pairs.
Proof.
  intros Hinv Hp. rewrite (n_pairs _ _ _ _ _ _ (i_new _ _ _ _ _ _ _ _ _ _ _ _ Hinv)).
  apply elem_of_app in Hp as [Hp|Hp]; apply elem_of_app; [by left|right].
  apply elem_of_app. by right.
Qed.

Lemma win_done_ne g l st o n o' n' :
  inv g l st → (o, n) ∈ Pwin g → (o', n') ∈ Ppre g ++ Ppost g → n' ≠ n.
Proof.
  intros Hinv Hw Hd ->. pose proof news_nodup as Hnd.
  rewrite (n_pairs _ _ _ _ _ _ (i_new _ _ _ _ _ _ _ _ _ _ _ _ Hinv)) in Hnd.
  rewrite !fmap_app in Hnd.
  assert (n ∈ (Pwin g).*2) as H1 by (apply list_elem_of_fmap; by exists (o, n)).
  apply elem_of_app in Hd as [Hd|Hd].
  - apply NoDup_app in Hnd as (_ & Hnd & _). apply (Hnd n).
    + apply list_elem_of_fmap. by exists (o', n).
    + apply elem_of_app. by left.
  - apply NoDup_app in Hnd as (_ & _ & Hnd). apply NoDup_app in Hnd as (_ & Hnd & _).
    apply (Hnd n); [done|]. apply list_elem_of_fmap. by exists (o', n).
Qed.

(** A patch of a pair of the window keeps the invariant and binds the
    new vnode. *)
Lemma inv_patched g l st st1 o n :
  inv g l st → (o, n) ∈ Pwin g → patched o n st st1 →
  inv g l st1 ∧ host_of st1 n = Some (E o).
Proof.
  intros Hinv Hin [p1 p2 p3 p4 p5]. split; [|done].
  pose proof Hinv as [i1 i2 i3 i4 i5 i6 i7]. split; try done.
  - by rewrite p2.
  - by rewrite p3.
  - intros o' n' Hd. rewrite p5; [by apply i7| |].
    + eapply pair_new, done_pair; eauto.
    + eapply win_done_ne; eauto.
Qed.
Lemma done_snoc (st : State) (A B : list (nat * nat)) (o n : nat) :
  (∀ o' n', (o', n') ∈ A ++ B → host_of st n' = Some (E o')) →
  host_of st n = Some (E o) →
  ∀ o' n', (o', n') ∈ (A ++ [(o, n)]) ++ B → host_of st n' = Some (E o').
Proof.
  intros Hd Hh o' n' Hin. rewrite <- app_assoc in Hin.
  apply elem_of_app in Hin as [Hin|Hin]; [apply Hd, elem_of_app; by left|].
  apply elem_of_cons in Hin as [[= -> ->]|Hin]; [done|]. apply Hd, elem_of_app. by right.
Qed.

Lemma done_cons (st : State) (A B : list (nat * nat)) (o n : nat) :
  (∀ o' n', (o', n') ∈ A ++ B → host_of st n' = Some (E o')) →
  host_of st n = Some (E o) →
  ∀ o' n', (o', n') ∈ A ++ (o, n) :: B → host_of st n' = Some (E o').
Proof.
  intros Hd Hh o' n' Hin.
  apply elem_of_app in Hin as [Hin|Hin]; [apply Hd, elem_of_app; by left|].
  apply elem_of_cons in Hin as [[= -> ->]|Hin]; [done|]. apply Hd, elem_of_app. by right.
Qed.

Lemma host_of_same (st st' : State) (r : nat) :
  vnodes st' = vnodes st → host_of st' r = host_of st r.
Proof. unfold host_of. by intros ->. Qed.

Lemma omap_split (l : list (option nat)) (i o : nat) :
  l !! i = Some (Some o) →
  omap id l = omap id (take i l) ++ o :: omap id (drop (S i) l)
  ∧ omap id (<[i := None]> l) = omap id (take i l) ++ omap id (drop (S i) l).
Proof.
  intros Hi. pose proof (lookup_lt_Some _ _ _ Hi) as Hlt. split.
  - rewrite <- (take_drop_middle l i (Some o)) at 1 by done. by rewrite omap_app.
  - rewrite insert_take_drop by done. by rewrite omap_app.
Qed.

Lemma omap_take_head (l : list (option nat)) (i os : nat) :
  0 < i → head l = Some (Some os) → omap id (take i l) = os :: omap id (take (i - 1) (tail l)).
Proof.
  intros Hi Hh. destruct l as [|x l]; [done|]. injection Hh as ->.
  destruct i as [|i]; [lia|]. simpl. by rewrite Nat.sub_0_r.
Qed.

Lemma world_arrays (st : State) (a : list (option nat)) :
  world st → world (with_arrays (fun m => <[oa := a]> m) st).
Proof.
  intros [w1 w2 w3 w4 w5 w6 w7 w8]. split; try done.
  - simpl. by rewrite lookup_insert_ne.
  - by apply HXarrays.
Qed.

Lemma old_key (st : State) (o : nat) :
  world st → o ∈ olds →
  ∃ v k, vnodes st !! o = Some v ∧ key v = Some k ∧ kname st0 o = key_name k.
Proof.
  intros HW Ho. destruct Hkeys as [Hk _]. destruct (Hk o Ho) as (v0 & k & Ho0 & Hkey).
  destruct (world_lookup X P na olds news E st0 st o v0) as (v & Hv & Hi);
    [done|apply elem_of_app; auto|done|].
  exists v, k. split; [done|]. unfold kname. rewrite Ho0, Hkey. split; [|done].
  unfold ident in Hi. congruence.
Qed.

Lemma slot_lookup g s e sv ev m (j o : nat) :
  old_side olds st0 g s e sv ev m →
  (Opre g ++ Owin g ++ Opost g) !! j = Some (Some o) → olds !! j = Some o.
Proof.
  intros [Hsl _ _ _ _ _] Hl.
  destruct (Forall2_lookup_r _ _ _ _ _ Hsl Hl) as (o' & Ho' & [Hs|Hs]); [|done].
  by injection Hs as ->.
Qed.

(** The key map built over the open window finds every live old vnode. *)
Lemma fresh_map g s e sv ev m (st : State) (j o : nat) :
  world st → old_side olds st0 g s e sv ev m →
  Owin g !! j = Some (Some o) →
  createKeyToOldIdx (vnodes st) (Opre g ++ Owin g ++ Opost g) s e !! kname st0 o
  = Some (Z.of_nat (length (Opre g) + j)).
Proof.
  intros HW Hold Hj. pose proof Hold as [Hsl Hs He _ _ _].
  pose proof (lookup_lt_Some _ _ _ Hj) as Hlt.
  assert ((Opre g ++ Owin g ++ Opost g) !! (length (Opre g) + j) = Some (Some o)) as Hl.
  { rewrite lookup_app_r by lia. replace (length (Opre g) + j - length (Opre g)) with j by lia.
    by apply lookup_app_l_Some. }
  pose proof (slot_lookup _ _ _ _ _ _ _ _ Hold Hl) as Hoj.
  assert (o ∈ olds) as Ho by (by eapply list_elem_of_lookup_2).
  destruct (old_key st o HW Ho) as (v & k & Hv & Hk & Hn).
  rewrite Hn. apply createKeyToOldIdx_last.
  - lia.
  - unfold key_at. rewrite aget_nat, Hl. simpl. by rewrite Hv.
  - intros j' k' Hj' Hk' Hname. unfold key_at in Hk'.
    replace j' with (Z.of_nat (Z.to_nat j')) in Hk' by lia. rewrite aget_nat in Hk'.
    destruct ((Opre g ++ Owin g ++ Opost g) !! Z.to_nat j') as [[o'|]|] eqn:Hl'; try done.
    simpl in Hk'. pose proof (slot_lookup _ _ _ _ _ _ _ _ Hold Hl') as Hoj'.
    assert (o' ∈ olds) as Ho' by (by eapply list_elem_of_lookup_2).
    destruct (old_key st o' HW Ho') as (v' & k'' & Hv' & Hk'' & Hn').
    rewrite Hv' in Hk'. assert (k'' = k') as -> by congruence.
    assert (o' = o) as ->.
    { apply (NoDup_fmap_inj (kname st0) olds); [apply Hkeys|done|done|].
      by rewrite Hn', Hname, Hn. }
    assert (Z.to_nat j' = length (Opre g) + j) as Heqj.
    { eapply NoDup_lookup; [apply olds_nodup|exact Hoj'|exact Hoj]. }
    lia.
Qed.

Lemma new_key (st : State) (o n : nat) :
  world st → (o, n) ∈ pairs →
  ∃ ov nv, vnodes st !! o = Some ov ∧ vnodes st !! n = Some nv
           ∧ prop_name (key nv) = kname st0 o ∧ sel ov = sel nv.
Proof.
  intros HW Hin. destruct (Heq o n Hin) as (ov0 & nv0 & Ho0 & Hn0 & Hs).
  destruct (world_lookup X P na olds news E st0 st o ov0) as (ov & Hov & Hio);
    [done|apply elem_of_app; eauto using pair_old|done|].
  destruct (world_lookup X P na olds news E st0 st n nv0) as (nv & Hnv & Hin');
    [done|apply elem_of_app; eauto using pair_new|done|].
  exists ov, nv. split; [done|split; [done|]].
  unfold sameVnode in Hs. apply andb_prop in Hs as [Hs _]. apply andb_prop in Hs as [Hs1 Hs2].
  apply bool_decide_eq_true in Hs1, Hs2. unfold ident in *. unfold kname. rewrite Ho0.
  split; congruence.
Qed.

Ltac side_step lem x H :=
  match type of H with
  | old_side _ _ ?g _ _ _ _ _ => eapply (lem _ _ g _ x); [..|exact H]; try done
  | new_side _ ?g _ _ _ _ => eapply (lem _ g _ x); [..|exact H]; try done
  end.

Lemma list_last_view {A} (l : list A) : l ≠ [] → ∃ l' x, l = l' ++ [x].
Proof. intros Hne. destruct (exists_last Hne) as (l' & x & ->). eauto. Qed.

Local Abbreviation smaller := (fun g g' : Windows =>
  length (Owin g') + length (Pwin g') < length (Owin g) + length (Pwin g)).

Lemma step_inv g l st :
  inv g l st → running l = true →
  wp (step modules api options pv fuel (Some P) oa na l)
     (fun l' st' => ∃ g', inv g' l' st' ∧ smaller g g') Ψ Ω st.
Proof.
  intros Hinv Hrun. pose proof Hinv as [HW Harr Hold Hnew Hperm' Hkids Hdone].
  destruct l as [osi nsi oei nei osv oev nsv nev okm].
  destruct g as [op ow opost pp pw ppost]. simpl in *.
  pose proof Hold as [Hsl Hos Hoe Hosv Hoev Hmap].
  pose proof Hnew as [Hpairs Hns Hne Hnsv Hnev]. simpl in *.
  unfold running in Hrun. simpl in Hrun. apply andb_prop in Hrun as [Hr1 Hr2].
  apply bool_decide_eq_true in Hr1, Hr2.
  assert (ow ≠ []) as HOne by (intros H0; rewrite H0 in *; simpl in *; lia).
  assert (pw ≠ []) as HPne by (intros H0; rewrite H0 in *; simpl in *; lia).
  specialize (Hosv HOne). specialize (Hoev HOne).
  specialize (Hnsv HPne). specialize (Hnev HPne).
  unfold step. cbn [oldStartVnode oldEndVnode newStartVnode newEndVnode
                    oldStartIdx oldEndIdx newStartIdx newEndIdx oldKeyToIdx].
  destruct ow as [|x w] eqn:HOw; [done|]. simpl in Hosv. subst osv.
  destruct x as [os|]; cycle 1.
  { (* the old start slot is empty *)
    apply wp_bind. eapply wp_ok; [by apply old_at_eq|]. apply wp_ret.
    exists {| Opre := op ++ [None]; Owin := w; Opost := opost;
              Ppre := pp; Pwin := pw; Ppost := ppost |}.
    split; [|simpl; lia]. split; simpl; try done.
    - rewrite Harr. by rewrite <- app_assoc.
    - side_step old_start (@None nat) Hold. }
  destruct (list_last_view (Some os :: w)) as (w' & y & Hw'); [done|].
  rewrite Hw' in Hoev. rewrite last_snoc in Hoev. simpl in Hoev. subst oev.
  assert (omap id (Some os :: w)
          = omap id w' ++ match y with Some y => [y] | None => [] end) as Hlive
    by (rewrite Hw'; apply omap_id_snoc).
  destruct y as [oe|]; cycle 1.
  { (* the old end slot is empty *)
    apply wp_bind. eapply wp_ok; [by apply old_at_eq|]. apply wp_ret.
    exists {| Opre := op; Owin := w'; Opost := None :: opost;
              Ppre := pp; Pwin := pw; Ppost := ppost |}.
    split; [|simpl; apply (f_equal length) in Hw'; rewrite length_app in Hw'; simpl in *; lia].
    split; simpl; try done.
    - rewrite Harr. f_equal.
      change (op ++ (Some os :: w) ++ opost = op ++ w' ++ None :: opost).
      by rewrite Hw', <- app_assoc.
    - side_step old_end (@None nat) Hold.
    - rewrite Hperm'. unfold live. cbn [Owin]. by rewrite Hlive, app_nil_r.
    - rewrite Hkids. unfold live. cbn [Owin]. by rewrite Hlive, app_nil_r. }
  destruct pw as [|[o1 n1] pw1] eqn:HPw; [done|]. simpl in Hnsv. subst nsv.
  destruct (list_last_view ((o1, n1) :: pw1)) as (pw2 & [o2 n2] & Hpw2); [done|].
  rewrite Hpw2 in Hnev. rewrite last_snoc in Hnev. simpl in Hnev. subst nev.
  assert ((o1, n1) ∈ pairs) as Hp1.
  { eapply win_pair; [exact Hinv|]. by left. }
  assert ((o2, n2) ∈ pairs) as Hp2.
  { eapply win_pair; [exact Hinv|]. cbn [Pwin]. rewrite Hpw2. apply elem_of_app. right. by left. }
  assert (os ∈ olds) as Hos'.
  { eapply (slot_old _ _ _ _ _ _ 0); [exact Hold|done]. }
  assert (oe ∈ olds) as Hoe'.
  { eapply (slot_old _ _ _ _ _ _ (length w')); [exact Hold|]. cbn [Owin]. rewrite Hw'.
    by rewrite lookup_app_r, Nat.sub_diag by lia. }
  assert (((o1, n1) :: pw1).*1 = pw2.*1 ++ [o2]) as Hfst
    by (by rewrite Hpw2, fmap_app).
  unfold live in Hperm', Hkids. cbn [Owin Ppre Pwin Ppost] in Hperm', Hkids.
  apply wp_bind. eapply wp_ok; [by apply same_eq|]. case_bool_decide as Hc1.
  { (* start and start *)
    subst o1. apply wp_bind. eapply wp_post; [by apply Hpv|]. intros [] st1 Hpat.
    destruct (inv_patched _ _ _ st1 os n1 Hinv) as [Hinv1 Hh]; [by left|done|].
    pose proof Hinv1 as [HW1 Harr1 _ _ _ Hkids1 Hdone1].
    cbn [Opre Owin Opost Ppre Pwin Ppost] in *.
    apply wp_bind. eapply wp_ok; [by apply old_at_eq|].
    apply wp_bind. eapply wp_ok; [by apply new_at_eq|]. apply wp_ret.
    exists {| Opre := op ++ [Some os]; Owin := w; Opost := opost;
              Ppre := pp ++ [(os, n1)]; Pwin := pw1; Ppost := ppost |}.
    split; [|simpl; lia]. split; cbn [Opre Owin Opost Ppre Pwin Ppost oldStartVnode oldEndVnode newStartVnode newEndVnode
                    oldStartIdx oldEndIdx newStartIdx newEndIdx oldKeyToIdx].
    - done.
    - rewrite Harr1. by rewrite <- app_assoc.
    - side_step old_start (Some os) Hold.
    - side_step new_start (os, n1) Hnew.
    - unfold live. cbn [Owin]. apply (Permutation_cons_inv (a := os)). exact Hperm'.
    - rewrite Hkids1. unfold live. cbn [Owin]. f_equal.
      rewrite fmap_app, <- app_assoc. done.
    - by apply done_snoc. }
  apply wp_bind. eapply wp_ok; [by apply same_eq|]. case_bool_decide as Hc2.
  { (* end and end *)
    subst o2. apply wp_bind. eapply wp_post; [by apply Hpv|]. intros [] st1 Hpat.
    destruct (inv_patched _ _ _ st1 oe n2 Hinv) as [Hinv1 Hh];
      [cbn [Pwin]; rewrite Hpw2; apply elem_of_app; right; by left|done|].
    pose proof Hinv1 as [HW1 Harr1 _ _ _ Hkids1 Hdone1].
    cbn [Opre Owin Opost Ppre Pwin Ppost] in *.
    apply wp_bind. eapply wp_ok; [by apply old_at_eq|].
    apply wp_bind. eapply wp_ok; [by apply new_at_eq|]. apply wp_ret.
    exists {| Opre := op; Owin := w'; Opost := Some oe :: opost;
              Ppre := pp; Pwin := pw2; Ppost := (oe, n2) :: ppost |}.
    split.
    2:{ cbn [Owin Pwin]. apply (f_equal length) in Hw', Hpw2.
        rewrite length_app in Hw', Hpw2. simpl in *. lia. }
    split; cbn [Opre Owin Opost Ppre Pwin Ppost oldStartVnode oldEndVnode newStartVnode
                newEndVnode oldStartIdx oldEndIdx newStartIdx newEndIdx oldKeyToIdx].
    - done.
    - rewrite Harr1. by rewrite Hw', <- app_assoc.
    - side_step old_end (Some oe) Hold.
    - side_step new_end (oe, n2) Hnew.
    - unfold live. cbn [Owin]. rewrite Hfst, Hlive in Hperm'.
      by apply Permutation_app_inv_r in Hperm'.
    - rewrite Hkids1. unfold live. cbn [Owin]. rewrite Hlive. f_equal.
      by rewrite <- app_assoc.
    - by apply done_cons. }
  assert (∃ w'', w' = Some os :: w'' ∧ w = w'' ++ [Some oe]) as (w'' & -> & ->).
  { destruct w' as [|x w'']; simpl in Hw'.
    - injection Hw' as -> ->. exfalso. simpl in Hperm'.
      symmetry in Hperm'. apply Permutation_length_1_inv in Hperm'.
      injection Hperm' as -> Hnil. done.
    - injection Hw' as <- ->. eauto. }
  clear Hw' Hlive.
  assert (omap id (Some os :: w'' ++ [Some oe]) = os :: omap id w'' ++ [oe]) as Hlive.
  { change (Some os :: w'' ++ [Some oe]) with ((Some os :: w'') ++ [Some oe]).
    by rewrite omap_id_snoc. }
  pose proof (omap_id_snoc w'' (Some oe)) as Hlive'. cbn iota in Hlive'.
  rewrite Hlive in Hperm', Hkids.
  apply wp_bind. eapply wp_ok; [by apply same_eq|]. case_bool_decide as Hc3.
  { (* start and end: the vnode moved right *)
    subst o2. apply wp_bind. eapply wp_post; [by apply Hpv|]. intros [] st1 Hpat.
    destruct (inv_patched _ _ _ st1 os n2 Hinv) as [Hinv1 Hh];
      [cbn [Pwin]; rewrite Hpw2; apply elem_of_app; right; by left|done|].
    pose proof Hinv1 as [HW1 Harr1 _ _ _ Hkids1 Hdone1].
    unfold live in Hkids1. cbn [Opre Owin Opost Ppre Pwin Ppost] in *.
    rewrite Hlive in Hkids1.
    destruct (move_right st1 os oe (pp.*1) (omap id w'') (ppost.*1) HW1 Hos' Hkids1)
      as (ref & st2 & Hsib & Hins & HW2 & Hkids2 & Hv2 & Ha2).
    apply wp_bind. eapply wp_ok; [by apply elm_of_old|].
    apply wp_bind. eapply wp_ok; [by apply elm_of_old|].
    apply wp_bind, wp_defined. apply wp_bind. eapply wp_ok; [exact Hsib|].
    apply wp_bind, wp_defined. apply wp_bind, wp_defined.
    apply wp_bind. eapply wp_ok; [exact Hins|].
    apply wp_bind. eapply wp_ok; [apply old_at_eq; by rewrite Ha2|].
    apply wp_bind. eapply wp_ok; [by apply new_at_eq|]. apply wp_ret.
    exists {| Opre := op ++ [Some os]; Owin := w'' ++ [Some oe]; Opost := opost;
              Ppre := pp; Pwin := pw2; Ppost := (os, n2) :: ppost |}.
    split.
    2:{ cbn [Owin Pwin]. apply (f_equal length) in Hpw2.
        rewrite length_app in Hpw2. simpl in *. lia. }
    split; cbn [Opre Owin Opost Ppre Pwin Ppost oldStartVnode oldEndVnode newStartVnode
                newEndVnode oldStartIdx oldEndIdx newStartIdx newEndIdx oldKeyToIdx].
    - done.
    - rewrite Ha2, Harr1. by rewrite <- app_assoc.
    - side_step old_start (Some os) Hold.
    - side_step new_end (os, n2) Hnew.
    - unfold live. cbn [Owin]. rewrite Hlive'. rewrite Hfst in Hperm'.
      rewrite <- Permutation_cons_append in Hperm'.
      by apply Permutation_cons_inv in Hperm'.
    - rewrite Hkids2. unfold live. cbn [Owin]. by rewrite Hlive'.
    - apply done_cons.
      + intros o' n' Hin. rewrite (host_of_same st1) by done. by apply Hdone1.
      + by rewrite (host_of_same st1). }
  apply wp_bind. eapply wp_ok; [by apply same_eq|]. case_bool_decide as Hc4.
  { (* end and start: the vnode moved left *)
    subst o1. apply wp_bind. eapply wp_post; [by apply Hpv|]. intros [] st1 Hpat.
    destruct (inv_patched _ _ _ st1 oe n1 Hinv) as [Hinv1 Hh]; [by left|done|].
    pose proof Hinv1 as [HW1 Harr1 _ _ _ Hkids1 Hdone1].
    unfold live in Hkids1. cbn [Opre Owin Opost Ppre Pwin Ppost] in *.
    rewrite Hlive in Hkids1.
    destruct (move_left st1 oe os (pp.*1) (omap id w'') (ppost.*1) HW1 Hoe')
      as (st2 & Hins & HW2 & Hkids2 & Hv2 & Ha2).
    { rewrite Hkids1. simpl. by rewrite <- app_assoc. }
    apply wp_bind. eapply wp_ok; [by apply elm_of_old|].
    apply wp_bind. eapply wp_ok; [by apply elm_of_old|].
    apply wp_bind, wp_defined. apply wp_bind, wp_defined.
    apply wp_bind. eapply wp_ok; [exact Hins|].
    apply wp_bind. eapply wp_ok; [apply old_at_eq; by rewrite Ha2|].
    apply wp_bind. eapply wp_ok; [by apply new_at_eq|]. apply wp_ret.
    exists {| Opre := op; Owin := Some os :: w''; Opost := Some oe :: opost;
              Ppre := pp ++ [(oe, n1)]; Pwin := pw1; Ppost := ppost |}.
    split.
    2:{ cbn [Owin Pwin]. simpl. rewrite length_app. simpl. lia. }
    split; cbn [Opre Owin Opost Ppre Pwin Ppost oldStartVnode oldEndVnode newStartVnode
                newEndVnode oldStartIdx oldEndIdx newStartIdx newEndIdx oldKeyToIdx].
    - done.
    - rewrite Ha2, Harr1. f_equal. f_equal.
      change (Some os :: w'' ++ [Some oe]) with ((Some os :: w'') ++ [Some oe]).
      by rewrite <- app_assoc.
    - side_step old_end (Some oe) Hold.
    - side_step new_start (oe, n1) Hnew.
    - unfold live. cbn [Owin]. simpl in Hperm' |- *.
      change (os :: omap id w'' ++ [oe]) with ((os :: omap id w'') ++ [oe]) in Hperm'.
      rewrite <- Permutation_cons_append in Hperm'.
      by apply Permutation_cons_inv in Hperm'.
    - rewrite Hkids2. unfold live. cbn [Owin]. f_equal. simpl.
      by rewrite fmap_app, <- app_assoc.
    - apply done_snoc.
      + intros o' n' Hin. rewrite (host_of_same st1) by done. by apply Hdone1.
      + by rewrite (host_of_same st1). }
  (* the lookup by key *)
  assert (o1 ∈ omap id w'') as Hin1.
  { assert (o1 ∈ os :: omap id w'' ++ [oe]) as Hin by (rewrite <- Hperm'; by left).
    apply elem_of_cons in Hin as [->|Hin]; [done|].
    apply elem_of_app in Hin as [Hin|Hin]; [done|].
    apply list_elem_of_singleton in Hin. by subst. }
  apply list_elem_of_omap in Hin1 as (x & Hx & Hid). simpl in Hid. subst x.
  apply list_elem_of_split in Hx as (W1 & W2 & ->).
  set (i := S (length W1)).
  set (ow' := Some os :: W1 ++ None :: W2 ++ [Some oe]).
  assert ((Some os :: (W1 ++ Some o1 :: W2) ++ [Some oe]) !! i = Some (Some o1)) as Hi.
  { unfold i. simpl. rewrite <- app_assoc. rewrite lookup_app_r by lia.
    by rewrite Nat.sub_diag. }
  assert (ow' = <[i := None]> (Some os :: (W1 ++ Some o1 :: W2) ++ [Some oe])) as Hins'.
  { unfold i, ow'. simpl. f_equal. rewrite <- app_assoc.
    rewrite insert_app_r_alt by lia. by rewrite Nat.sub_diag. }
  assert (i < length (Some os :: (W1 ++ Some o1 :: W2) ++ [Some oe]) - 1) as Hilt.
  { unfold i. simpl. rewrite !length_app. simpl. lia. }
  assert (omap id ow' = os :: omap id W1 ++ omap id W2 ++ [oe]) as Hlive''.
  { unfold ow'. simpl. rewrite omap_app. simpl. by rewrite omap_app. }
  assert (omap id (W1 ++ Some o1 :: W2) = omap id W1 ++ o1 :: omap id W2) as HW12
    by (by rewrite omap_app).
  rewrite HW12 in *.
  unfold keyed. cbn [oldStartVnode oldEndVnode newStartVnode newEndVnode
                     oldStartIdx oldEndIdx newStartIdx newEndIdx oldKeyToIdx].
  apply wp_bind, wp_get. apply wp_bind, wp_read_array. rewrite Harr.
  set (map := match okm with Some map => map | None => _ end).
  assert (∀ j o, (Some os :: (W1 ++ Some o1 :: W2) ++ [Some oe]) !! j = Some (Some o) →
                 map !! kname st0 o = Some (Z.of_nat (length op + j))) as Hmapi.
  { intros j o Hj. unfold map. destruct okm as [m|].
    - by apply Hmap.
    - by apply (fresh_map _ _ _ _ _ _ _ _ _ HW Hold). }
  destruct (new_key st o1 n1 HW Hp1) as (ov1 & nv1 & Hov1 & Hnv1 & Hname & Hsel).
  apply wp_bind, wp_read. rewrite Hnv1. rewrite Hname, (Hmapi i o1 Hi). cbn iota beta.
  apply wp_bind. apply wp_bind, wp_defined. rewrite aget_nat.
  rewrite lookup_app_r by lia. replace (length op + i - length op) with i by lia.
  rewrite (lookup_app_l_Some _ _ _ _ Hi). cbn [mjoin option_join id].
  apply wp_bind, wp_read. rewrite Hov1. apply wp_bind, wp_read. rewrite Hnv1.
  rewrite bool_decide_false by (intros Hs; by apply Hs).
  apply wp_bind. eapply wp_post; [by apply Hpv|]. intros [] st1 Hpat.
  destruct (inv_patched _ _ _ st1 o1 n1 Hinv) as [Hinv1 Hh]; [by left|done|].
  pose proof Hinv1 as [HW1 Harr1 _ _ _ Hkids1 Hdone1].
  unfold live in Hkids1. cbn [Opre Owin Opost Ppre Pwin Ppost] in *.
  rewrite Hlive in Hkids1.
  apply wp_bind, wp_read_array. rewrite Harr1. apply wp_bind, wp_modify.
  set (st2 := with_arrays _ st1).
  assert (world st2) as HW2 by (by apply world_arrays).
  assert ((o1 ∈ olds)) as Ho1 by (by eapply pair_old).
  destruct (move_left st2 o1 os (pp.*1) (omap id W1) (omap id W2 ++ [oe] ++ ppost.*1) HW2 Ho1)
    as (st3 & Hins & HW3 & Hkids3 & Hv3 & Ha3).
  { change (kids_of st2 P) with (kids_of st1 P). rewrite Hkids1. f_equal. f_equal.
    simpl. f_equal. by rewrite <- !app_assoc. }
  apply wp_bind. eapply wp_ok; [by apply elm_of_old|].
  apply wp_bind. eapply wp_ok; [by apply elm_of_old|].
  apply wp_bind, wp_defined. apply wp_bind, wp_defined.
  eapply wp_ok; [exact Hins|].
  apply wp_bind. eapply wp_ok; [by apply new_at_eq|]. apply wp_ret.
  exists {| Opre := op; Owin := ow'; Opost := opost;
            Ppre := pp ++ [(o1, n1)]; Pwin := pw1; Ppost := ppost |}.
  split.
  2:{ cbn [Owin Pwin]. unfold ow'. simpl. rewrite !length_app. simpl.
      rewrite !length_app. simpl. lia. }
  destruct (old_kill olds st0
              {| Opre := op; Owin := Some os :: (W1 ++ Some o1 :: W2) ++ [Some oe];
                 Opost := opost; Ppre := pp; Pwin := (o1, n1) :: pw1; Ppost := ppost |}
              {| Opre := op; Owin := ow'; Opost := opost;
                 Ppre := pp ++ [(o1, n1)]; Pwin := pw1; Ppost := ppost |}
              i o1 _ _ _ _ _ Hi ltac:(unfold i; lia) Hilt Hins' eq_refl eq_refl Hold)
    as [Hold' Harr'].
  cbn [Opre Owin Opost] in Harr'.
  split; cbn [Opre Owin Opost Ppre Pwin Ppost oldStartVnode oldEndVnode newStartVnode
              newEndVnode oldStartIdx oldEndIdx newStartIdx newEndIdx oldKeyToIdx].
  - done.
  - rewrite Ha3. unfold st2, with_arrays. cbn [arrays]. rewrite lookup_insert_eq.
    rewrite Nat2Z.id. by rewrite <- Harr'.
  - eapply old_map; [exact Hold'|]. cbn [Opre Owin]. intros j o Hj. apply Hmapi.
    rewrite Hins' in Hj. destruct (decide (i = j)) as [<-|Hij].
    + rewrite list_lookup_insert_eq in Hj by lia. done.
    + by rewrite list_lookup_insert_ne in Hj.
  - side_step new_start (o1, n1) Hnew.
  - unfold live. cbn [Owin]. rewrite Hlive''.
    apply (Permutation_cons_inv (a := o1)). etransitivity; [exact Hperm'|].
    change (os :: (omap id W1 ++ o1 :: omap id W2) ++ [oe])
      with ((os :: omap id W1 ++ o1 :: omap id W2) ++ [oe]).
    change (os :: omap id W1 ++ o1 :: omap id W2)
      with ((os :: omap id W1) ++ o1 :: omap id W2).
    rewrite <- app_assoc. simpl. symmetry.
    change (os :: omap id W1 ++ o1 :: omap id W2 ++ [oe])
      with ((os :: omap id W1) ++ o1 :: omap id W2 ++ [oe]).
    apply (Permutation_middle (os :: omap id W1) (omap id W2 ++ [oe]) o1).
  - rewrite Hkids3. unfold live. cbn [Owin]. rewrite Hlive''. f_equal.
    rewrite fmap_app, <- !app_assoc. simpl. by rewrite <- !app_assoc.
  - apply done_snoc.
    + intros o' n' Hin. rewrite (host_of_same st1) by (by rewrite Hv3). by apply Hdone1.
    + by rewrite (host_of_same st1) by (by rewrite Hv3).
Qed.
Lemma running_windows g l st :
  inv g l st → running l = true → Owin g ≠ [] ∧ Pwin g ≠ [].
Proof.
  intros [_ _ [_ Hos Hoe _ _ _] [_ Hns Hne _ _] _ _ _] Hrun.
  unfold running in Hrun. apply andb_prop in Hrun as [Hr1 Hr2].
  apply bool_decide_eq_true in Hr1, Hr2.
  split; intros H0; rewrite H0 in *; simpl in *; lia.
Qed.

Lemma loop_inv n : ∀ g l st,
  inv g l st → length (Owin g) + length (Pwin g) ≤ n →
  wp (loop modules api options pv fuel (Some P) oa na n l)
     (fun l' st' => ∃ g', inv g' l' st' ∧ running l' = false) Ψ Ω st.
Proof.
  induction n as [|n IH]; intros g l st Hinv Hn.
  - simpl. destruct (running l) eqn:Hrun; [|apply wp_ret; eauto].
    destruct (running_windows g l st Hinv Hrun) as [HO _].
    destruct (Owin g); [done|simpl in Hn; lia].
  - cbn [loop]. destruct (running l) eqn:Hrun; [|apply wp_ret; eauto].
    apply wp_bind. eapply wp_post; [by apply step_inv|].
    intros l' st' (g' & Hinv' & Hlt). cbn beta in Hlt. apply (IH g'); [done|lia].
Qed.

Lemma for_each_skip {A} (xs : list A) (f : A → M unit) (st : State) :
  (∀ x, x ∈ xs → f x st = Ok tt st) → for_each xs f st = Ok tt st.
Proof.
  induction xs as [|x xs IH]; intros Hf; [done|]. simpl.
  rewrite (bind_ok _ _ st tt st) by (apply Hf; by left). apply IH.
  intros y Hy. apply Hf. by right.
Qed.

Lemma omap_id_nil (l : list (option nat)) (i : nat) (x : option nat) :
  omap id l = [] → l !! i = Some x → x = None.
Proof.
  revert i. induction l as [|y l IH]; intros i Hnil Hi; [done|].
  destruct y as [y|]; [done|]. simpl in Hnil. destruct i as [|i]; [by injection Hi as <-|].
  by apply (IH i).
Qed.

(** [updateChildren] on the permutation: the children of [P] end up in
    the order of the new list, each new vnode bound to the host node of
    its partner. *)
Lemma updateChildren_inv (st : State) :
  world st →
  arrays st !! oa = Some (Some <$> olds) →
  kids_of st P = E <$> olds →
  length olds + length pairs ≤ fuel →
  wp (updateChildren_ modules api options pv fuel (Some P) oa na)
     (fun _ st' => world st' ∧ kids_of st' P = E <$> pairs.*1
                   ∧ ∀ o n, (o, n) ∈ pairs → host_of st' n = Some (E o)) Ψ Ω st.
Proof.
  intros HW Harr Hkids Hfuel. unfold updateChildren_.
  apply wp_bind, wp_read_array. rewrite Harr.
  apply wp_bind, wp_read_array. rewrite (w_new _ _ _ _ _ _ _ _ HW).
  apply wp_bind.
  set (g0 := {| Opre := []; Owin := Some <$> olds; Opost := [];
                Ppre := []; Pwin := pairs; Ppost := [] |}).
  assert (omap id (Some <$> olds) = olds) as Hlive.
  { clear. induction olds as [|o l IH]; [done|]. simpl. f_equal. exact IH. }
  eapply wp_post; [apply (loop_inv fuel g0)|].
  - split; cbn [Opre Owin Opost Ppre Pwin Ppost oldStartVnode oldEndVnode newStartVnode
                newEndVnode oldStartIdx oldEndIdx newStartIdx newEndIdx oldKeyToIdx g0].
    + done.
    + by rewrite app_nil_r.
    + split; cbn [Opre Owin Opost g0].
      * rewrite app_nil_r. simpl. apply Forall2_fmap_r, Forall_Forall2_diag, Forall_forall.
        intros; by left.
      * done.
      * simpl. rewrite length_fmap. lia.
      * intros _. change 0%Z with (Z.of_nat 0). by rewrite aget_nat, head_lookup.
      * intros Hne. rewrite length_fmap.
        replace (Z.of_nat (length olds) - 1)%Z with (Z.of_nat (length olds - 1)).
        -- rewrite aget_nat, last_is_lookup. by rewrite length_fmap.
        -- destruct olds; [done|simpl; lia].
      * done.
    + split; cbn [Ppre Pwin Ppost g0].
      * by rewrite app_nil_r.
      * done.
      * simpl. rewrite <- Hnews, !length_fmap. lia.
      * intros _. change 0%Z with (Z.of_nat 0). rewrite aget_nat, <- Hnews, head_lookup.
        rewrite !list_lookup_fmap. by destruct (pairs !! 0).
      * intros Hne. rewrite <- Hnews, !length_fmap.
        replace (Z.of_nat (length pairs) - 1)%Z with (Z.of_nat (length pairs - 1)).
        -- rewrite aget_nat, last_is_lookup. rewrite !list_lookup_fmap.
           by destruct (pairs !! _).
        -- destruct pairs; [done|simpl; lia].
    + unfold live. cbn [Owin g0]. by rewrite Hlive.
    + unfold live. cbn [Owin g0]. rewrite Hlive. simpl. by rewrite app_nil_r.
    + intros o n Hin. by apply elem_of_nil in Hin.
  - cbn [Owin Pwin g0]. rewrite length_fmap. done.
  - intros l st1 (g & Hinv & Hrun). cbn beta.
    pose proof Hinv as [HW1 Harr1 Hold Hnew Hperm' Hkids1 Hdone1].
    pose proof Hold as [Hsl Hos Hoe _ _ _]. pose proof Hnew as [Hpairs Hns Hne _ _].
    assert (Pwin g = [] ∧ live g = []) as [HPnil HLnil].
    { unfold running in Hrun. apply andb_false_iff in Hrun as [Hr|Hr];
        apply bool_decide_eq_false in Hr.
      - assert (Owin g = []) as HO by (destruct (Owin g); [done|simpl in *; lia]).
        unfold live in *. rewrite HO in *. simpl in Hperm'.
        apply Permutation_nil_r in Hperm'. split; [|done]. by destruct (Pwin g).
      - assert (Pwin g = []) as HPn by (destruct (Pwin g); [done|simpl in *; lia]).
        split; [done|]. rewrite HPn in Hperm'. simpl in Hperm'.
        symmetry in Hperm'. by apply Permutation_nil_r in Hperm'. }
    apply wp_bind, wp_when. rewrite bool_decide_false by (rewrite HPnil in *; simpl in *; lia).
    apply wp_when. case_bool_decide as Hc.
    + apply wp_bind, wp_read_array. rewrite Harr1.
      eapply wp_ok.
      * unfold removeVnodes, for_range. apply for_each_skip. intros i Hi.
        apply elem_of_seqZ in Hi.
        replace i with (Z.of_nat (Z.to_nat i)) by lia. rewrite aget_nat.
        destruct ((Opre g ++ Owin g ++ Opost g) !! Z.to_nat i) as [x|] eqn:Hx; [|done].
        rewrite lookup_app_r in Hx by lia. rewrite lookup_app_l in Hx by lia.
        by rewrite (omap_id_nil _ _ _ HLnil Hx).
      * split; [done|]. split.
        -- rewrite Hkids1, HLnil, Hpairs, HPnil. simpl. by rewrite !fmap_app.
        -- intros o n Hin. apply Hdone1. rewrite Hpairs, HPnil in Hin. exact Hin.
    + split; [done|]. split.
      * rewrite Hkids1, HLnil, Hpairs, HPnil. simpl. by rewrite !fmap_app.
      * intros o n Hin. apply Hdone1. rewrite Hpairs, HPnil in Hin. exact Hin.
Qed.
End Loop.

(** ** Steps of the engine within a footprint *)

Lemma place_subset (ref : option nat) (x : nat) (l : list nat) (y : nat) :
  y ∈ place ref x l → y = x ∨ y ∈ l.
Proof.
  destruct ref as [r|]; simpl.
  - induction l as [|z l IH]; simpl.
    + intros Hy. apply list_elem_of_singleton in Hy. by left.
    + case_decide.
      * intros Hy. apply elem_of_cons in Hy as [->|Hy]; [by left|by right].
      * intros Hy. apply elem_of_cons in Hy as [->|Hy]; [right; by left|].
        destruct (IH Hy) as [->|?]; [by left|right; by right].
  - intros Hy. apply elem_of_app in Hy as [Hy|Hy]; [by right|].
    apply list_elem_of_singleton in Hy. by left.
Qed.

Lemma remove_node_subset (x : nat) (l : list nat) (y : nat) :
  y ∈ remove_node x l → y ∈ l.
Proof. unfold remove_node. intros Hy. by apply list_elem_of_filter in Hy as [_ Hy]. Qed.

Lemma lookup_foldr_delete (m : gmap nat nat) (l : list nat) (x : nat) :
  foldr delete m l !! x = if decide (x ∈ l) then None else m !! x.
Proof.
  induction l as [|y l IH].
  - destruct (decide (x ∈ [])) as [Hx|_]; [by apply elem_of_nil in Hx|done].
  - cbn [foldr]. destruct (decide (y = x)) as [->|Hne].
    + rewrite lookup_delete_eq. destruct (decide (x ∈ x :: l)) as [_|Hx]; [done|].
      destruct Hx. by left.
    + rewrite lookup_delete_ne by done. rewrite IH.
      destruct (decide (x ∈ l)) as [Hl|Hl]; destruct (decide (x ∈ y :: l)) as [Hx|Hx]; try done.
      * destruct Hx. by right.
      * apply elem_of_cons in Hx as [->|Hx]; done.
Qed.

Section Deep.
Variables V A H Top : gset nat.
Variable b : nat.

Local Abbreviation hp := (hp H b).
Local Abbreviation hm := (hm H Top b).
Local Abbreviation closed := (closed V A H Top b).
Local Abbreviation frame := (frame V A H Top b).

Lemma hp_fresh (x : nat) : b ≤ x → hp x.
Proof. by right. Qed.
Lemma hp_hm (x : nat) : hp x → hm x.
Proof. by left. Qed.

Lemma frame_refl s : frame s s.
Proof. by split. Qed.

Lemma frame_trans s1 s2 s3 : frame s1 s2 → frame s2 s3 → frame s1 s3.
Proof.
  intros [a1 a2 a3 a4 a5] [b1 b2 b3 b4 b5]. split; intros.
  - by rewrite b1, a1.
  - by rewrite b2, a2.
  - by rewrite b3, a3.
  - by rewrite b4, a4.
  - lia.
Qed.

(** Changes that leave vnodes, arrays and the tree alone. *)
Lemma closed_same s s' :
  vnodes s' = vnodes s → arrays s' = arrays s → kids s' = kids s →
  parent s' = parent s → next_node s ≤ next_node s' →
  closed s → closed s' ∧ frame s s'.
Proof.
  intros Hv Ha Hk Hp Hn [c1 c2 c3 c4 c5 c6]. split.
  - split; unfold kids_of in *; rewrite ?Hv, ?Ha, ?Hk, ?Hp; try done. lia.
  - split; intros; by rewrite ?Hv, ?Ha, ?Hk, ?Hp.
Qed.

(** An update of a vnode of the footprint. *)
Lemma closed_update s r v v' :
  r ∈ V → vnodes s !! r = Some v → children v' = children v →
  (∀ x, elm v' = Some x → hp x) →
  closed s →
  closed (with_vnodes (fun m => <[r := v']> m) s)
  ∧ frame s (with_vnodes (fun m => <[r := v']> m) s).
Proof.
  intros Hr Hv Hc He [c1 c2 c3 c4 c5 c6]. split.
  - split; try done; simpl.
    + intros r' w a Hr' Hw Ha. destruct (decide (r = r')) as [<-|Hne].
      * rewrite lookup_insert_eq in Hw. injection Hw as <-. rewrite Hc in Ha. eauto.
      * rewrite lookup_insert_ne in Hw by done. eauto.
    + intros r' w x Hr' Hw Hx. destruct (decide (r = r')) as [<-|Hne].
      * rewrite lookup_insert_eq in Hw. injection Hw as <-. eauto.
      * rewrite lookup_insert_ne in Hw by done. eauto.
  - split; try done. intros r' Hr'. simpl. rewrite lookup_insert_ne; [done|]. by intros ->.
Qed.

(** An update of a vnode outside of it. *)
Lemma closed_update_out s r v' :
  r ∉ V → closed s → closed (with_vnodes (fun m => <[r := v']> m) s).
Proof.
  intros Hr [c1 c2 c3 c4 c5 c6]. split; try done; simpl.
  - intros r' w a Hr' Hw Ha. rewrite lookup_insert_ne in Hw by (by intros ->). eauto.
  - intros r' w x Hr' Hw Hx. rewrite lookup_insert_ne in Hw by (by intros ->). eauto.
Qed.

(** Clearing a slot of an array of the footprint. *)
Lemma closed_slot s a l i :
  a ∈ A → arrays s !! a = Some l → closed s →
  closed (with_arrays (fun m => <[a := <[i := None]> l]> m) s)
  ∧ frame s (with_arrays (fun m => <[a := <[i := None]> l]> m) s).
Proof.
  intros Ha Hl [c1 c2 c3 c4 c5 c6]. split.
  - split; try done; simpl.
    intros a' l' c Ha' Hl' Hc. destruct (decide (a = a')) as [<-|Hne].
    + rewrite lookup_insert_eq in Hl'. injection Hl' as <-.
      apply (c2 a l c Ha Hl). apply list_elem_of_lookup in Hc as [j Hj].
      destruct (decide (i = j)) as [<-|Hij].
      * destruct (decide (i < length l)).
        -- by rewrite list_lookup_insert_eq in Hj.
        -- rewrite list_insert_ge in Hj by lia. by eapply list_elem_of_lookup_2.
      * rewrite list_lookup_insert_ne in Hj by done. by eapply list_elem_of_lookup_2.
    + rewrite lookup_insert_ne in Hl' by done. eauto.
  - split; try done. intros a' Ha'. simpl. rewrite lookup_insert_ne; [done|]. by intros ->.
Qed.

(** An update of an array outside of it. *)
Lemma closed_array_out s a l :
  a ∉ A → closed s → closed (with_arrays (fun m => <[a := l]> m) s).
Proof.
  intros Ha [c1 c2 c3 c4 c5 c6]. split; try done; simpl.
  intros a' l' c Ha' Hl' Hc. rewrite lookup_insert_ne in Hl' by (by intros ->). eauto.
Qed.

Lemma closed_detach s x :
  hp x → closed s → closed (detach x s) ∧ frame s (detach x s).
Proof.
  intros Hx Hc. pose proof Hc as [c1 c2 c3 c4 c5 c6]. unfold detach.
  destruct (parent s !! x) as [q|] eqn:Hq; [|split; [done|apply frame_refl]].
  assert (hm q) as Hmq by eauto. split.
  - split; try done; simpl.
    + intros y p Hy Hp. destruct (decide (x = y)) as [<-|Hne].
      * by rewrite lookup_delete_eq in Hp.
      * rewrite lookup_delete_ne in Hp by done. eauto.
    + intros p y Hp Hy. unfold kids_of in Hy. simpl in Hy.
      destruct (decide (q = p)) as [<-|Hne].
      * rewrite lookup_insert_eq in Hy. simpl in Hy.
        apply remove_node_subset in Hy. eauto.
      * rewrite lookup_insert_ne in Hy by done. eauto.
  - split; try done; simpl.
    + intros p Hp. rewrite lookup_insert_ne; [done|]. by intros ->.
    + intros y Hy. rewrite lookup_delete_ne; [done|]. by intros ->.
Qed.

Lemma closed_attach s p x ref :
  hm p → hp x → closed s → closed (attach p x ref s) ∧ frame s (attach p x ref s).
Proof.
  intros Hp Hx Hc. pose proof Hc as [c1 c2 c3 c4 c5 c6]. unfold attach. split.
  - split; try done; simpl.
    + intros y q Hy Hq. destruct (decide (x = y)) as [<-|Hne].
      * rewrite lookup_insert_eq in Hq. by injection Hq as <-.
      * rewrite lookup_insert_ne in Hq by done. eauto.
    + intros q y Hq Hy. unfold kids_of in Hy. simpl in Hy.
      destruct (decide (p = q)) as [<-|Hne].
      * rewrite lookup_insert_eq in Hy. simpl in Hy.
        apply place_subset in Hy as [->|Hy]; [done|]. eauto.
      * rewrite lookup_insert_ne in Hy by done. eauto.
  - split; try done; simpl.
    + intros q Hq. rewrite lookup_insert_ne; [done|]. by intros ->.
    + intros y Hy. rewrite lookup_insert_ne; [done|]. by intros ->.
Qed.

(** Moving a node that is outside the footprint below a parent that
    is outside as well. *)
Lemma closed_detach_out s x : ¬ hp x → closed s → closed (detach x s).
Proof.
  intros Hx Hc. pose proof Hc as [c1 c2 c3 c4 c5 c6]. unfold detach.
  destruct (parent s !! x) as [q|] eqn:Hq; [|done].
  split; try done; simpl.
  - intros y p Hy Hp. rewrite lookup_delete_ne in Hp by (by intros ->). eauto.
  - intros p y Hp Hy. unfold kids_of in Hy. simpl in Hy.
    destruct (decide (q = p)) as [<-|Hne].
    + rewrite lookup_insert_eq in Hy. simpl in Hy.
      apply remove_node_subset in Hy. eauto.
    + rewrite lookup_insert_ne in Hy by done. eauto.
Qed.

Lemma closed_attach_out s p x ref :
  ¬ hm p → ¬ hp x → closed s → closed (attach p x ref s).
Proof.
  intros Hp Hx Hc. pose proof Hc as [c1 c2 c3 c4 c5 c6]. unfold attach.
  split; try done; simpl.
  - intros y q Hy Hq. rewrite lookup_insert_ne in Hq by (by intros ->). eauto.
  - intros q y Hq Hy. unfold kids_of in Hy. simpl in Hy.
    rewrite lookup_insert_ne in Hy by (by intros ->). eauto.
Qed.

Lemma closed_clear s e :
  hm e → closed s → closed (clear_kids e s) ∧ frame s (clear_kids e s).
Proof.
  intros He Hc. pose proof Hc as [c1 c2 c3 c4 c5 c6]. unfold clear_kids. split.
  - split; try done; simpl.
    + intros y q Hy Hq. rewrite lookup_foldr_delete in Hq. case_decide; [done|]. eauto.
    + intros q y Hq Hy. unfold kids_of in Hy. simpl in Hy.
      destruct (decide (e = q)) as [<-|Hne].
      * rewrite lookup_insert_eq in Hy. by apply elem_of_nil in Hy.
      * rewrite lookup_insert_ne in Hy by done. eauto.
  - split; try done; simpl.
    + intros q Hq. rewrite lookup_insert_ne; [done|]. by intros ->.
    + intros y Hy. rewrite lookup_foldr_delete. rewrite decide_False; [done|].
      intros Hin. apply Hy. eauto.
Qed.
Variable s0 : State.
Local Abbreviation K := (fun s : State => closed s ∧ frame s0 s).
Local Abbreviation TT := (fun (_ : Error) (_ : State) => True).

Lemma K_step s s' : K s → closed s' ∧ frame s s' → K s'.
Proof. intros [_ Hf] [Hc Hf']. split; [done|]. by eapply frame_trans. Qed.

Lemma K_trace f s : K s → K (with_trace f s).
Proof. intros HK. eapply K_step; [exact HK|]. apply closed_same; try done. apply HK. Qed.

Lemma K_rmcbs f s : K s → K (with_rmcbs f s).
Proof. intros HK. eapply K_step; [exact HK|]. apply closed_same; try done. apply HK. Qed.

Lemma K_queue f s : K s → K (with_queue f s).
Proof. intros HK. eapply K_step; [exact HK|]. apply closed_same; try done. apply HK. Qed.

Section Rules.
Context {B : Type} (Φ : B → State → Prop).

Lemma wpK_defined (o : option B) s :
  (∀ x, o = Some x → Φ x s) → wp (defined o) Φ TT True s.
Proof. intros HΦ. destruct o; [by apply HΦ|done]. Qed.
End Rules.

Lemma wpK_read (Φ : VNode → State → Prop) r s :
  K s → r ∈ V →
  (∀ v, vnodes s !! r = Some v → (∀ a, children v = Some a → a ∈ A) →
        (∀ x, elm v = Some x → hp x) → Φ v s) →
  wp (read r) Φ TT True s.
Proof.
  intros [Hc _] Hr HΦ. apply wp_read. destruct (vnodes s !! r) as [v|] eqn:Hv; [|done].
  apply HΦ; [done| |].
  - intros a Ha. by eapply (c_children _ _ _ _ _ _ Hc).
  - intros x Hx. by eapply (c_elm _ _ _ _ _ _ Hc).
Qed.

Lemma wpK_read_any (Φ : VNode → State → Prop) r s :
  (∀ v, vnodes s !! r = Some v → Φ v s) → wp (read r) Φ TT True s.
Proof. intros HΦ. apply wp_read. destruct (vnodes s !! r) as [v|] eqn:Hv; [by apply HΦ|done]. Qed.

Lemma wpK_read_array (Φ : list (option nat) → State → Prop) a s :
  K s → a ∈ A →
  (∀ l, arrays s !! a = Some l → (∀ c, Some c ∈ l → c ∈ V) → Φ l s) →
  wp (read_array a) Φ TT True s.
Proof.
  intros [Hc _] Ha HΦ. apply wp_read_array.
  destruct (arrays s !! a) as [l|] eqn:Hl; [|done].
  apply HΦ; [done|]. intros c Hin. by eapply (c_entries _ _ _ _ _ _ Hc).
Qed.

Lemma wpK_hook h (Φ : unit → State → Prop) s :
  K s → (∀ s', K s' → Φ tt s') → wp (hook h) Φ TT True s.
Proof. intros HK HΦ. apply wp_hook, HΦ. by apply K_trace. Qed.

Lemma wpK_for_each_hook {C} (xs : list C) (f : C → HookCall) (Φ : unit → State → Prop) s :
  K s → (∀ s', K s' → Φ tt s') →
  wp (for_each xs (fun x => hook (f x))) Φ TT True s.
Proof. intros HK HΦ. apply wp_for_each_hook, HΦ. by apply K_trace. Qed.

Lemma wpK_when (c : bool) (m : M unit) (Φ : unit → State → Prop) s :
  K s → (c = true → wp m (fun _ s' => K s') TT True s) →
  (∀ s', K s' → Φ tt s') →
  wp (when c m) Φ TT True s.
Proof.
  intros HK Hm HΦ. apply wp_when. destruct c; [|by apply HΦ].
  eapply wp_post; [by apply Hm|]. intros [] s'. apply HΦ.
Qed.

Lemma wpK_update (Φ : unit → State → Prop) r f s :
  K s → r ∈ V →
  (∀ v, children (f v) = children v) →
  (∀ v x, (∀ y, elm v = Some y → hp y) → elm (f v) = Some x → hp x) →
  (∀ s', K s' → Φ tt s') →
  wp (update_vnode r f) Φ TT True s.
Proof.
  intros HK Hr Hch Helm HΦ. apply wp_update_vnode.
  destruct (vnodes s !! r) as [v|] eqn:Hv; [|done]. apply HΦ.
  eapply K_step; [exact HK|]. eapply closed_update; try done; [|apply HK].
  intros x. apply Helm. intros y Hy. by eapply (c_elm _ _ _ _ _ _ (proj1 HK)).
Qed.

Lemma wpK_push (Φ : unit → State → Prop) r s :
  K s → (∀ s', K s' → Φ tt s') → wp (push_inserted r) Φ TT True s.
Proof. intros HK HΦ. apply wp_modify, HΦ. by apply K_queue. Qed.

(** The host tree adapter. *)
Lemma wpK_alloc k (Φ : nat → State → Prop) s :
  K s → (∀ x s', K s' → hp x → Φ x s') → wp (alloc k) Φ TT True s.
Proof.
  intros HK HΦ. unfold wp, alloc. apply HΦ.
  - eapply K_step; [exact HK|]. apply closed_same; try done; [simpl; lia|apply HK].
  - right. apply (c_next _ _ _ _ _ _ (proj1 HK)).
Qed.

Lemma wpK_create (m : M nat) (Φ : nat → State → Prop) s :
  (∃ k c, m = (let* n := alloc k in api_call (c n) ;; ret n)) →
  K s → (∀ x s', K s' → hp x → Φ x s') → wp m Φ TT True s.
Proof.
  intros (k & c & ->) HK HΦ. apply wp_bind, wpK_alloc; [done|].
  intros x s' HK' Hx. apply wp_bind, wp_api_call, wp_ret. apply HΦ; [|done].
  by apply K_trace.
Qed.

Lemma wpK_createElement tag (Φ : nat → State → Prop) s :
  K s → (∀ x s', K s' → hp x → Φ x s') → wp (createElement tag) Φ TT True s.
Proof. apply wpK_create. by exists (KElement tag None), (CreateElement tag). Qed.
Lemma wpK_createElementNS ns tag (Φ : nat → State → Prop) s :
  K s → (∀ x s', K s' → hp x → Φ x s') → wp (createElementNS ns tag) Φ TT True s.
Proof. apply wpK_create. by exists (KElement tag (Some ns)), (CreateElementNS ns tag). Qed.
Lemma wpK_createTextNode t (Φ : nat → State → Prop) s :
  K s → (∀ x s', K s' → hp x → Φ x s') → wp (createTextNode t) Φ TT True s.
Proof. apply wpK_create. by exists (KText t), (CreateTextNode t). Qed.
Lemma wpK_createComment t (Φ : nat → State → Prop) s :
  K s → (∀ x s', K s' → hp x → Φ x s') → wp (createComment t) Φ TT True s.
Proof. apply wpK_create. by exists (KComment t), (CreateComment t). Qed.
Lemma wpK_createDocumentFragment (Φ : nat → State → Prop) s :
  K s → (∀ x s', K s' → hp x → Φ x s') → wp createDocumentFragment Φ TT True s.
Proof. apply wpK_create. by exists KFragment, CreateDocumentFragment. Qed.

Lemma wpK_setAttribute e name value (Φ : unit → State → Prop) s :
  K s → (∀ s', K s' → Φ tt s') → wp (setAttribute e name value) Φ TT True s.
Proof.
  intros HK HΦ. unfold setAttribute. apply wp_bind, wp_api_call, wp_modify, HΦ.
  pose proof (K_trace (fun t => t ++ [EApi (SetAttribute e name value)]) s HK) as HK1.
  eapply K_step; [exact HK1|]. apply closed_same; try done. apply HK1.
Qed.

Lemma K_move s p x ref : K s → hm p → hp x → K (attach p x ref (detach x s)).
Proof.
  intros HK Hp Hx. destruct (closed_detach s x Hx (proj1 HK)) as [Hc1 Hf1].
  eapply K_step; [eapply K_step; [exact HK|split; eassumption]|].
  by apply closed_attach.
Qed.

Lemma wpK_insertBefore p x ref (Φ : unit → State → Prop) s :
  K s → hm p → hp x → (∀ s', K s' → Φ tt s') → wp (insertBefore p x ref) Φ TT True s.
Proof.
  intros HK Hp Hx HΦ. unfold insertBefore. apply wp_bind, wp_api_call, wp_bind, wp_get.
  pose proof (K_trace (fun t => t ++ [EApi (InsertBefore p x ref)]) s HK) as HK1.
  destruct ref as [r|].
  - case_decide; [|done]. apply wp_modify, HΦ. by apply K_move.
  - apply wp_modify, HΦ. by apply K_move.
Qed.

Lemma wpK_appendChild p x (Φ : unit → State → Prop) s :
  K s → hm p → hp x → (∀ s', K s' → Φ tt s') → wp (appendChild p x) Φ TT True s.
Proof.
  intros HK Hp Hx HΦ. unfold appendChild. apply wp_bind, wp_api_call, wp_modify, HΦ.
  apply K_move; [by apply K_trace|done|done].
Qed.

Lemma wpK_removeChild p x (Φ : unit → State → Prop) s :
  K s → hp x → (∀ s', K s' → Φ tt s') → wp (removeChild p x) Φ TT True s.
Proof.
  intros HK Hx HΦ. unfold removeChild. apply wp_bind, wp_api_call, wp_bind, wp_get.
  pose proof (K_trace (fun t => t ++ [EApi (RemoveChild p x)]) s HK) as HK1.
  case_decide; [|done]. apply wp_modify, HΦ.
  eapply K_step; [exact HK1|]. apply closed_detach; [done|]. apply HK1.
Qed.

Lemma wpK_setTextContent e t (Φ : unit → State → Prop) s :
  K s → hm e → (∀ s', K s' → Φ tt s') → wp (setTextContent e t) Φ TT True s.
Proof.
  intros HK He HΦ. unfold setTextContent. apply wp_bind, wp_api_call, wp_bind, wp_get.
  pose proof (K_trace (fun t' => t' ++ [EApi (SetTextContent e t)]) s HK) as HK1.
  set (s1 := with_trace _ s) in *.
  assert (∀ k, K (with_kind (fun m => <[e := k]> m) s1)) as Hkind.
  { intros k. eapply K_step; [exact HK1|]. apply closed_same; try done. apply HK1. }
  assert (K (clear_kids e s1)) as HK2.
  { eapply K_step; [exact HK1|]. apply closed_clear; [done|apply HK1]. }
  destruct (kind s1 !! e) as [[| | |]|]; try (apply wp_modify, HΦ, Hkind).
  all: apply wp_bind, wp_modify; case_decide; [by apply wp_ret, HΦ|].
  all: apply wp_bind, wpK_alloc; [done|]; intros x s' HK' Hx.
  all: apply wp_modify, HΦ; eapply K_step; [exact HK'|].
  all: apply closed_attach; [done|done|apply HK'].
Qed.
End Deep.

(** ** The engine within a footprint *)

Lemma aget_elem (l : list (option nat)) (i : Z) (c : nat) :
  aget l i = Some c → Some c ∈ l.
Proof.
  unfold aget. destruct (i <? 0)%Z; [done|].
  destruct (l !! Z.to_nat i) as [x|] eqn:Hl; [|done]. simpl. intros ->.
  by eapply list_elem_of_lookup_2.
Qed.

Section DeepEngine.
Variable modules : list Module.
Variable api : DOMAPI.
Variable options : Options.
Variables V A H Top : gset nat.
Variable b : nat.
Variable s0 : State.

Local Abbreviation hp := (hp H b).
Local Abbreviation hm := (hm H Top b).
Local Abbreviation K := (fun s : State => closed V A H Top b s ∧ frame V A H Top b s0 s).
Local Abbreviation TT := (fun (_ : Error) (_ : State) => True).

Ltac kmem := solve [ eauto | left; eauto | right; eauto ].
Ltac kfind := match goal with HK : _ |- _ => exact HK end.

Ltac khead :=
  lazymatch goal with
  | |- wp (ret _) _ _ _ _ => apply wp_ret
  | |- wp (throw _) _ _ _ _ => exact I
  | |- wp out_of_fuel _ _ _ _ => exact I
  | |- wp (defined _) _ _ _ _ => apply wpK_defined; intros ? ?
  | |- wp (hook _) _ _ _ _ =>
      eapply wpK_hook; [kfind|]; intros ? ?
  | |- wp (for_each _ (fun _ => hook _)) _ _ _ _ =>
      eapply wpK_for_each_hook; [kfind|]; intros ? ?
  | |- wp (push_inserted _) _ _ _ _ =>
      eapply wpK_push; [kfind|]; intros ? ?
  | |- wp (read _) _ _ _ _ =>
      eapply wpK_read; [kfind|kmem|]; intros ? ? ? ?
  | |- wp (read_array _) _ _ _ _ =>
      eapply wpK_read_array; [kfind|kmem|]; intros ? ? ?
  | |- wp (createElement _) _ _ _ _ =>
      eapply wpK_createElement; [kfind|]; intros ? ? ? ?
  | |- wp (createElementNS _ _) _ _ _ _ =>
      eapply wpK_createElementNS; [kfind|]; intros ? ? ? ?
  | |- wp (createTextNode _) _ _ _ _ =>
      eapply wpK_createTextNode; [kfind|]; intros ? ? ? ?
  | |- wp (createComment _) _ _ _ _ =>
      eapply wpK_createComment; [kfind|]; intros ? ? ? ?
  | |- wp createDocumentFragment _ _ _ _ =>
      eapply wpK_createDocumentFragment; [kfind|]; intros ? ? ? ?
  | |- wp (setAttribute _ _ _) _ _ _ _ =>
      eapply wpK_setAttribute; [kfind|]; intros ? ?
  | |- wp (insertBefore _ _ _) _ _ _ _ =>
      eapply wpK_insertBefore; [kfind|kmem|kmem|]; intros ? ?
  | |- wp (appendChild _ _) _ _ _ _ =>
      eapply wpK_appendChild; [kfind|kmem|kmem|]; intros ? ?
  | |- wp (removeChild _ _) _ _ _ _ =>
      eapply wpK_removeChild; [kfind|kmem|]; intros ? ?
  | |- wp (setTextContent _ _) _ _ _ _ =>
      eapply wpK_setTextContent; [kfind|kmem|]; intros ? ?
  | |- wp (update_vnode _ (set_elm _)) _ _ _ _ =>
      eapply wpK_update;
      [kfind|kmem|done|intros ? ? _; simpl; intros [= <-]; kmem|]; intros ? ?
  | |- wp (update_vnode _ _) _ _ _ _ =>
      eapply wpK_update; [kfind|kmem|done|intros ? ? Hy; simpl; apply Hy|]; intros ? ?
  end.
Ltac kstep :=
  lazymatch goal with
  | |- wp (bind (bind _ _) _) _ _ _ _ => apply wp_bind
  | |- wp (bind _ _) _ _ _ _ => apply wp_bind; khead
  | |- wp _ _ _ _ _ => khead
  end.
Ltac kgo := repeat kstep.

Lemma invokeDestroyHook_K fuel : ∀ r s,
  K s → wp (invokeDestroyHook modules fuel r) (fun _ s' => K s') TT True s.
Proof.
  induction fuel as [|fuel IH]; intros r s HK; [done|]. cbn [invokeDestroyHook].
  apply wp_bind, wpK_read_any. intros v Hv.
  destruct (data v); [|done].
  apply wp_bind. eapply wpK_when; [exact HK| |].
  { intros _. eapply wpK_hook; [exact HK|]. by intros. }
  intros s1 HK1. kgo. apply wp_bind, wpK_read_any. intros v2 Hv2.
  destruct (children v2) as [a|]; [|done].
  apply wp_bind, wp_read_array. destruct (arrays s' !! a) as [chs|]; [|done].
  apply wp_for_each; [done|]. intros [c|] s2 _ HK2; [by apply IH|done].
Qed.
Ltac kjoin :=
  apply wp_bind; apply (wp_post (fun _ s' => K s')); [ | intros [] ? ? ].

Section Build.
Variable ce : nat → M nat.
Hypothesis Hce : ∀ c s, K s → c ∈ V → wp (ce c) (fun x s' => K s' ∧ hp x) TT True s.

Lemma build_children_K (chs : list (option nat)) (e : nat) s :
  K s → hm e → (∀ c, Some c ∈ chs → c ∈ V) →
  wp (for_each chs (fun ch =>
        match ch with
        | Some ch => let* x := ce ch in appendChild e x
        | None => ret tt
        end)) (fun _ s' => K s') TT True s.
Proof.
  intros HK He Hchs. apply wp_for_each; [done|].
  intros [c|] s1 Hc HK1; [|done].
  apply wp_bind. eapply wp_post; [apply Hce; [done|by apply Hchs]|].
  intros x s2 [HK2 Hx]. cbn beta. kgo. done.
Qed.

Lemma build_element_K (r : nat) (sel : string) (v : VNode) s :
  K s → r ∈ V → (∀ a, children v = Some a → a ∈ A) →
  wp (build_element modules ce r sel v) (fun _ s' => K s') TT True s.
Proof.
  intros HK Hr Hch. unfold build_element. cbv zeta. apply wp_bind.
  apply (wp_post (fun x s' => K s' ∧ hp x)).
  { destruct (data v) as [d|]; [destruct (d_ns d)|]; kgo; done. }
  intros e s1 [HK1 He]. cbn beta. kgo.
  kjoin. { destruct (s_id _); kgo; done. }
  kjoin. { destruct (s_class _); kgo; done. }
  kgo. destruct (children v) as [a|] eqn:Ha.
  - kgo. apply build_children_K; [done|kmem|done].
  - kgo. destruct (text _); kgo; done.
Qed.

Lemma finish_element_K (r : nat) s :
  K s → r ∈ V → wp (finish_element r) (fun _ s' => K s') TT True s.
Proof.
  intros HK Hr. unfold finish_element. kgo.
  destruct (d_hook _) as [h|]; [|done].
  apply wp_bind. eapply wpK_when; [kfind| |].
  { intros _. kgo. done. }
  intros s1 HK1. eapply wpK_when; [kfind| |by intros].
  intros _. kgo. done.
Qed.

Lemma build_fragment_K (r a : nat) s :
  K s → r ∈ V → a ∈ A →
  wp (build_fragment modules api ce r a) (fun _ s' => K s') TT True s.
Proof.
  intros HK Hr Ha. unfold build_fragment. apply wp_bind.
  apply (wp_post (fun x s' => K s' ∧ hp x)).
  { destruct (has_createDocumentFragment api); kgo; done. }
  intros e s1 [HK1 He]. cbn beta. kgo.
  apply wp_for_each; [done|].
  intros [c|] s2 Hc HK2; [|done]. kgo.
  apply wp_bind. eapply wp_post; [apply Hce; [done|eauto]|].
  intros x s3 [HK3 Hx]. cbn beta. kgo. done.
Qed.
End Build.

Lemma createElm_K fuel : ∀ r s,
  K s → r ∈ V →
  wp (createElm modules api options fuel r) (fun x s' => K s' ∧ hp x) TT True s.
Proof.
  induction fuel as [|fuel IH]; intros r s HK Hr; [done|]. cbn [createElm].
  kgo. apply wp_bind. eapply wpK_when; [kfind| |].
  { intros _. kgo. done. }
  intros s1 HK1. kgo. kjoin.
  { destruct (sel _) as [sl|].
    - case_decide.
      + apply wp_bind. eapply wpK_when; [kfind| |].
        { intros _. kgo. done. }
        intros s2 HK2. kgo. done.
      + apply wp_bind. eapply wp_post; [apply build_element_K; eauto|].
        intros [] s2 HK2. by apply finish_element_K.
    - destruct (if fragments options then children _ else None) as [a|] eqn:Hf.
      + apply build_fragment_K; [done|done|done|].
        destruct (fragments options); [eauto|done].
      + kgo. done. }
  kgo. split; [done|eauto].
Qed.

Lemma addVnodes_K fuel (p : option nat) (before : option nat) (a : nat) (i j : Z) s :
  K s → (∀ x, p = Some x → hm x) → a ∈ A →
  wp (addVnodes modules api options fuel p before a i j) (fun _ s' => K s') TT True s.
Proof.
  intros HK Hp Ha. unfold addVnodes, for_range. apply wp_for_each; [done|].
  intros k s1 _ HK1. kgo.
  destruct (aget _ k) as [c|] eqn:Hc; [|done].
  assert (c ∈ V) as HcV by eauto using aget_elem.
  apply wp_bind. eapply wp_post; [by apply createElm_K|].
  intros x s2 [HK2 Hx]. cbn beta. kgo. done.
Qed.
(** The completion callback of a removal within the footprint. *)
Local Abbreviation pending := (fun (c : nat) (x : option nat) (s : State) =>
  K s ∧ ∃ k, rmcbs s !! c = Some (x, k)).

Lemma rmCb_K (c : nat) (x : option nat) s :
  (∀ y, x = Some y → hp y) →
  pending c x s → wp (rmCb c) (fun _ => pending c x) (fun _ => pending c x) False s.
Proof.
  intros Hx [HK [k Hk]]. unfold rmCb. apply wp_bind, wp_get. rewrite Hk.
  apply wp_bind, wp_modify.
  set (s1 := with_rmcbs _ s).
  assert (pending c x s1) as H1.
  { split; [by apply K_rmcbs|]. exists (k - 1)%Z. unfold s1. simpl.
    apply list_lookup_insert_eq. by eapply lookup_lt_Some. }
  case_decide; [|done]. apply wp_bind. destruct x as [y|]; [|done].
  apply wp_ret, wp_bind. unfold parentNode, wp at 1.
  apply wp_bind. destruct (parent_of s1 y) as [p|] eqn:Hp; [|done].
  apply wp_ret. unfold removeChild. apply wp_bind, wp_api_call, wp_bind, wp_get.
  set (s2 := with_trace _ s1).
  assert (pending c (Some y) s2) as H2.
  { destruct H1 as [HK1 Hk1]. split; [by apply K_trace|done]. }
  case_decide; [|done]. apply wp_modify. destruct H2 as [HK2 Hk2]. split.
  - eapply K_step; [exact HK2|]. apply closed_detach; [by apply Hx|apply HK2].
  - by rewrite detach_rmcbs.
Qed.

Lemma removeVnode_K fuel (p : option nat) (ch : nat) s :
  K s → ch ∈ V →
  wp (removeVnode modules fuel p ch) (fun _ s' => K s') TT True s.
Proof.
  intros HK Hch. unfold removeVnode. kgo. case_bool_decide.
  - apply wp_bind. eapply wp_post; [by apply invokeDestroyHook_K|].
    intros [] s1 HK1. cbn beta. kgo.
    apply wp_bind. unfold createRmCb, wp at 1.
    change (wp (remove_hooks modules ch (length (rmcbs s1))) (fun _ s' => K s') TT True
              (with_rmcbs (fun l => l ++ [(elm v0, (Z.of_nat (length (cb_remove (cbs modules))) + 1)%Z)]) s1)).
    eapply wp_mono; [apply (remove_hooks_inv modules (pending (length (rmcbs s1)) (elm v0)))| | |].
    + intros h s2 _ [HK2 Hk2]. split; [by apply K_trace|done].
    + intros s2 Hpen. apply rmCb_K; [eauto|done].
    + split; [by apply K_rmcbs|]. eexists. simpl.
      by rewrite lookup_app_r, Nat.sub_diag by lia.
    + by intros [] s2 [HK2 _].
    + done.
    + done.
  - kgo. done.
Qed.

Lemma removeVnodes_K fuel (p : option nat) (l : list (option nat)) (i j : Z) s :
  K s → (∀ c, Some c ∈ l → c ∈ V) →
  wp (removeVnodes modules fuel p l i j) (fun _ s' => K s') TT True s.
Proof.
  intros HK Hl. unfold removeVnodes, for_range. apply wp_for_each; [done|].
  intros k s1 _ HK1. destruct (aget l k) as [c|] eqn:Hc; [|done].
  apply removeVnode_K; [done|]. eauto using aget_elem.
Qed.
(** [updateChildren] on two arrays of the footprint. *)
Lemma wpK_at (a : nat) (i : Z) (Φ : option nat → State → Prop) s :
  K s → a ∈ A → (∀ r, (∀ c, r = Some c → c ∈ V) → Φ r s) →
  wp (old_at a i) Φ TT True s.
Proof.
  intros HK Ha HΦ. unfold old_at. kgo. apply HΦ. intros c Hc. eauto using aget_elem.
Qed.

Lemma wpK_same (o n : nat) (Φ : bool → State → Prop) s :
  (∀ c, Φ c s) → wp (same o n) Φ TT True s.
Proof.
  intros HΦ. unfold same. apply wp_bind, wpK_read_any. intros ov _.
  apply wp_bind, wpK_read_any. intros nv _. apply wp_ret, HΦ.
Qed.

Lemma wpK_elm_of (r : nat) (Φ : option nat → State → Prop) s :
  K s → r ∈ V → (∀ x, (∀ y, x = Some y → hp y) → Φ x s) →
  wp (elm_of r) Φ TT True s.
Proof. intros HK Hr HΦ. unfold elm_of. kgo. by apply HΦ. Qed.

Lemma wpK_nextSibling (x : nat) (Φ : option nat → State → Prop) s :
  (∀ r, Φ r s) → wp (nextSibling x) Φ TT True s.
Proof. intros HΦ. apply HΦ. Qed.

Ltac khead2 :=
  lazymatch goal with
  | |- wp (old_at _ _) _ _ _ _ => eapply wpK_at; [kfind|kmem|]; intros ? ?
  | |- wp (new_at _ _) _ _ _ _ => eapply wpK_at; [kfind|kmem|]; intros ? ?
  | |- wp (same _ _) _ _ _ _ => apply wpK_same; intros ?
  | |- wp (elm_of _) _ _ _ _ => eapply wpK_elm_of; [kfind|kmem|]; intros ? ?
  | |- wp (nextSibling _) _ _ _ _ => apply wpK_nextSibling; intros ?
  | |- wp _ _ _ _ _ => khead
  end.
Ltac kstep2 :=
  lazymatch goal with
  | |- wp (bind (bind _ _) _) _ _ _ _ => apply wp_bind
  | |- wp (bind _ _) _ _ _ _ => apply wp_bind; khead2
  | |- wp _ _ _ _ _ => khead2
  end.
Ltac kgo2 := repeat kstep2.

Section Children.
Variable pv : nat → nat → M unit.
Variable fuel : nat.
Variable p : option nat.
Variables oc nc : nat.
Hypothesis Hpv : ∀ o n s, K s → o ∈ V → n ∈ V → wp (pv o n) (fun _ s' => K s') TT True s.
Hypothesis Hp : ∀ x, p = Some x → hm x.
Hypothesis Hoc : oc ∈ A.
Hypothesis Hnc : nc ∈ A.

Local Abbreviation lv := (fun l : Loop =>
  (∀ r, oldStartVnode l = Some r → r ∈ V) ∧ (∀ r, oldEndVnode l = Some r → r ∈ V)
  ∧ (∀ r, newStartVnode l = Some r → r ∈ V) ∧ (∀ r, newEndVnode l = Some r → r ∈ V)).

Ltac kpatch :=
  apply wp_bind; eapply wp_post; [apply Hpv; [kfind|kmem|kmem]|]; intros [] ? ?; cbn beta.
Ltac kcreate :=
  apply wp_bind; eapply wp_post; [apply createElm_K; [kfind|kmem]|];
  intros ? ? [? ?]; cbn beta.
Ltac kdone := split; [kfind|]; repeat split; cbn; intros ? ?; simplify_eq; eauto.

Lemma keyed_K (l : Loop) (os ns : nat) s :
  K s → lv l → os ∈ V → ns ∈ V →
  wp (keyed modules api options pv fuel p oc nc l os ns)
     (fun l' s' => K s' ∧ lv l') TT True s.
Proof.
  intros HK (H1 & H2 & H3 & H4) Hos Hns. unfold keyed.
  apply wp_bind, wp_get. kgo2.
  apply wp_bind. apply (wp_post (fun _ s' => K s')).
  { destruct (_ !! prop_name _) as [idx|].
    - kgo2. assert (x ∈ V) by eauto using aget_elem. kgo2.
      case_bool_decide.
      + kcreate. kgo2. done.
      + kpatch. kgo2. apply wp_bind, wp_modify.
        match goal with |- wp _ _ _ _ ?st => assert (K st) end.
        { eapply K_step; [kfind|]. eapply closed_slot; [done|eassumption|].
          match goal with HK' : _ ∧ _ |- _ => exact (proj1 HK') end. }
        kgo2. done.
    - kcreate. kgo2. done. }
  intros [] s1 HK1. kgo2. kdone.
Qed.

Lemma step_K (l : Loop) s :
  K s → lv l →
  wp (step modules api options pv fuel p oc nc l) (fun l' s' => K s' ∧ lv l') TT True s.
Proof.
  intros HK (H1 & H2 & H3 & H4). unfold step.
  destruct (oldStartVnode l) as [os|] eqn:Hos; [|kgo2; kdone].
  destruct (oldEndVnode l) as [oe|] eqn:Hoe; [|kgo2; kdone].
  destruct (newStartVnode l) as [ns|] eqn:Hns; [|kgo2; kdone].
  destruct (newEndVnode l) as [ne|] eqn:Hne; [|kgo2; kdone].
  pose proof (H1 _ eq_refl). pose proof (H2 _ eq_refl).
  pose proof (H3 _ eq_refl). pose proof (H4 _ eq_refl).
  kgo2. destruct c; [kpatch; kgo2; kdone|].
  kgo2. destruct c; [kpatch; kgo2; kdone|].
  kgo2. destruct c; [kpatch; kgo2; kdone|].
  kgo2. destruct c; [kpatch; kgo2; kdone|].
  apply keyed_K; try done. by rewrite Hos, Hoe, Hns, Hne.
Qed.

Lemma loop_K (n : nat) : ∀ l s,
  K s → lv l →
  wp (loop modules api options pv fuel p oc nc n l) (fun l' s' => K s' ∧ lv l') TT True s.
Proof.
  induction n as [|n IH]; intros l s HK Hl; cbn [loop].
  - destruct (running l); [done|]. by apply wp_ret.
  - destruct (running l); [|by apply wp_ret].
    apply wp_bind. eapply wp_post; [by apply step_K|].
    intros l' s' [HK' Hl']. by apply IH.
Qed.

Lemma updateChildren__K s :
  K s →
  wp (updateChildren_ modules api options pv fuel p oc nc) (fun _ s' => K s') TT True s.
Proof.
  intros HK. unfold updateChildren_. kgo2.
  apply wp_bind. eapply wp_post.
  { apply loop_K; [kfind|].
    split_and!; intros r Hr; cbn [oldStartVnode oldEndVnode newStartVnode newEndVnode] in Hr;
      eauto using aget_elem. }
  intros l' s' [HK' Hl']. cbn beta.
  apply wp_bind. eapply wpK_when; [kfind| |].
  { intros _. kgo2. apply wp_bind.
    apply (wp_post (fun _ s1 => s1 = s')).
    { destruct r as [r|]; [|by apply wp_ret]. kgo2. done. }
    intros before ? ->. by apply addVnodes_K. }
  intros s1 HK1. eapply wpK_when; [kfind| |].
  { intros _. kgo2. by apply removeVnodes_K. }
  done.
Qed.
End Children.

(** [patchVnode] on two vnodes of the footprint. *)
Lemma update_hooks_K (o n : nat) s :
  K s → o ∈ V → n ∈ V →
  wp (update_hooks modules o n) (fun _ s' => K s') TT True s.
Proof.
  intros HK Ho Hn. unfold update_hooks. kgo.
  eapply wpK_when; [kfind| |done]. intros _.
  apply wp_bind. eapply wpK_when; [kfind| |].
  { intros _. kgo. done. }
  intros s1 HK1. kgo.
  apply wp_bind. eapply wpK_when; [kfind| |].
  { intros _. kgo. done. }
  intros s2 HK2. kgo.
  eapply wpK_when; [kfind| |done]. intros _. kgo. done.
Qed.

Lemma reconcile_K (pv : nat → nat → M unit) fuel (e : option nat) (oc nc : option nat)
    (o n : nat) s :
  (∀ o n s, K s → o ∈ V → n ∈ V → wp (pv o n) (fun _ s' => K s') TT True s) →
  K s →
  (∀ x, e = Some x → hm x) →
  (∀ a, oc = Some a → a ∈ A) → (∀ a, nc = Some a → a ∈ A) →
  wp (reconcile modules api options pv fuel e oc nc o n) (fun _ s' => K s') TT True s.
Proof.
  intros Hpv HK Hm Hoc Hnc. unfold reconcile.
  apply wp_bind, wpK_read_any. intros ov _.
  apply wp_bind, wpK_read_any. intros nv _.
  destruct (text nv) as [t|].
  - eapply wpK_when; [kfind| |done]. intros _.
    apply wp_bind. apply (wp_post (fun _ s' => K s')).
    { destruct oc as [a|]; [|by apply wp_ret].
      kgo. by apply removeVnodes_K. }
    intros [] s1 HK1. kgo. done.
  - destruct oc as [a|], nc as [a'|].
    + case_decide; [by apply wp_ret|].
      apply updateChildren__K; eauto.
    + kgo. by apply removeVnodes_K.
    + apply wp_bind. eapply wpK_when; [kfind| |].
      { intros _. kgo. done. }
      intros s1 HK1. kgo. apply addVnodes_K; eauto.
    + eapply wpK_when; [kfind| |done]. intros _. kgo. done.
Qed.

Lemma patchVnode_K fuel : ∀ o n s,
  K s → o ∈ V → n ∈ V →
  wp (patchVnode modules api options fuel o n) (fun _ s' => K s') TT True s.
Proof.
  induction fuel as [|fuel IH]; intros o n s HK Ho Hn; [done|]. cbn [patchVnode].
  kgo. apply wp_bind. eapply wpK_when; [kfind| |].
  { intros _. kgo. done. }
  intros s1 HK1. kgo.
  apply wp_bind. eapply wpK_update; [kfind|kmem|done| |].
  { intros w x _. simpl. eauto. }
  intros s2 HK2. kgo. case_decide; [by apply wp_ret|].
  apply wp_bind. eapply wp_post; [by apply update_hooks_K|].
  intros [] s3 HK3. cbn beta.
  apply wp_bind. eapply wp_post; [apply reconcile_K; eauto|].
  { intros x Hx. left. eauto. }
  intros [] s4 HK4. cbn beta.
  eapply wpK_when; [kfind| |done]. intros _. kgo. done.
Qed.
End DeepEngine.

(** ** Patching one pair of keyed children with subtrees of their own *)

Section DeepPatch.
Variable modules : list Module.
Variable api : DOMAPI.
Variable options : Options.
Variables V A H : gset nat.
Variable b : nat.
Variable P : nat.
Variables oa na : nat.
Variables olds news : list nat.
Variable E : nat → nat.
Variable st0 : State.

Local Abbreviation Top := (list_to_set (E <$> olds) : gset nat).
Local Abbreviation X := (closed V A H Top b).
Local Abbreviation world := (world X P na olds news E st0).
Local Abbreviation patched := (patched X P oa na olds news E st0).
Local Abbreviation TT := (fun (_ : Error) (_ : State) => True).

Hypothesis HV : ∀ r, r ∈ olds ++ news → r ∉ V.
Hypothesis HA : ∀ r v a, r ∈ olds ++ news → vnodes st0 !! r = Some v →
  children v = Some a → a ∈ A.
Hypothesis Hoa : oa ∉ A.
Hypothesis Hna : na ∉ A.
Hypothesis HPm : ¬ hm H Top b P.
Hypothesis HEp : ∀ o, o ∈ olds → ¬ hp H b (E o).

Lemma X_trace f s : X s → X (with_trace f s).
Proof. intros HX. by apply (closed_same V A H Top b s). Qed.

Lemma X_update r v s :
  r ∈ olds ++ news → X s → X (with_vnodes (fun m => <[r := v]> m) s).
Proof. intros Hr HX. apply closed_update_out; auto. Qed.

Lemma X_arrays s (a : list (option nat)) :
  X s → X (with_arrays (fun m => <[oa := a]> m) s).
Proof. intros HX. by apply closed_array_out. Qed.

Lemma X_move s o (ref : option nat) f :
  o ∈ olds → X s → X (attach P (E o) ref (detach (E o) (with_trace f s))).
Proof.
  intros Ho HX. apply closed_attach_out; [done|auto|].
  apply closed_detach_out; [auto|]. by apply X_trace.
Qed.

Lemma top_host o : o ∈ olds → hm H Top b (E o).
Proof.
  intros Ho. right. apply elem_of_list_to_set, list_elem_of_fmap. eauto.
Qed.

(** What a step within the footprint leaves of the parent's view. *)
Lemma world_frame s s' :
  world s → X s' → frame V A H Top b s s' →
  world s' ∧ arrays s' !! oa = arrays s !! oa ∧ kids_of s' P = kids_of s P
  ∧ ∀ r, r ∈ olds ++ news → vnodes s' !! r = vnodes s !! r.
Proof.
  intros [w1 w2 w3 w4 w5 w6 w7 w8] HX [f1 f2 f3 f4 f5].
  assert (∀ r, r ∈ olds ++ news → vnodes s' !! r = vnodes s !! r) as Hv
    by (intros r Hr; apply f1; auto).
  assert (kids_of s' P = kids_of s P) as Hk by (unfold kids_of; by rewrite f3).
  split; [|split; [by apply f2|split; [done|done]]].
  split.
  - by rewrite f2.
  - intros r Hr. unfold ident_of. rewrite Hv by done. by apply w2.
  - intros o Ho. unfold host_of. rewrite Hv by (apply elem_of_app; auto). by apply w3.
  - intros o Ho. unfold parent_of. rewrite f4 by auto. by apply w4.
  - by rewrite Hk.
  - intros e x He Hx Hin. apply list_elem_of_fmap in Hin as (o & -> & Ho).
    assert (Decision (hm H Top b e)) as [Hm|Hm] by (unfold hm, hp; apply _).
    + apply (HEp o Ho). by apply (c_kids _ _ _ _ _ _ HX e).
    + unfold kids_of in Hx. rewrite f3 in Hx by done.
      apply (w6 e (E o) He Hx). apply list_elem_of_fmap. eauto.
  - intros x Hx. specialize (w7 x Hx). lia.
  - done.
Qed.

Variables o n : nat.
Variable st : State.
Hypothesis Ho : o ∈ olds.
Hypothesis Hn : n ∈ news.

Local Abbreviation J' := (patching X P oa na olds news E st0 o n st).

Lemma patching_frame s s' :
  J' s → X s' → frame V A H Top b s s' → J' s'.
Proof.
  intros [(HW & Ha & Hk & Hr) Hh] HX Hf.
  destruct (world_frame s s' HW HX Hf) as (HW' & Ha' & Hk' & Hv).
  split; [split; [done|split; [congruence|split; [congruence|]]]|].
  - intros r Hin Hne. unfold host_of. rewrite Hv by done. by apply Hr.
  - unfold host_of. rewrite Hv by (apply elem_of_app; auto). exact Hh.
Qed.

Lemma reconcile_deep f s ov0 nv0 :
  J' s → vnodes st0 !! o = Some ov0 → vnodes st0 !! n = Some nv0 →
  wp (reconcile modules api options (patchVnode modules api options f) f
        (Some (E o)) (children ov0) (children nv0) o n)
     (fun _ s' => J' s') TT True s.
Proof.
  intros HJ Ho0 Hn0.
  assert (X s) as HX by apply HJ.
  eapply wp_post.
  - apply (reconcile_K modules api options V A H Top b s).
    + intros o' n' s' HK Ho' Hn'. by apply patchVnode_K.
    + split; [done|apply frame_refl].
    + intros x [= <-]. by apply top_host.
    + intros a Ha. apply (HA o ov0 a); [apply elem_of_app; auto|done|done].
    + intros a Ha. apply (HA n nv0 a); [apply elem_of_app; auto|done|done].
  - intros [] s' [HX' Hf]. by apply (patching_frame s s').
Qed.
End DeepPatch.

Lemma patchVnode_deep modules api options (V A H : gset nat) b P oa na olds news E st0
    o n f st :
  (∀ r, r ∈ olds ++ news → r ∉ V) →
  (∀ r v a, r ∈ olds ++ news → vnodes st0 !! r = Some v → children v = Some a → a ∈ A) →
  oa ∉ A → na ∉ A →
  ¬ hm H (list_to_set (E <$> olds)) b P →
  (∀ o, o ∈ olds → ¬ hp H b (E o)) →
  o ∈ olds → n ∈ news → (n ∈ olds → n = o) →
  (∃ ov0 nv0, vnodes st0 !! o = Some ov0 ∧ vnodes st0 !! n = Some nv0) →
  world (closed V A H (list_to_set (E <$> olds)) b) P na olds news E st0 st →
  wp (patchVnode modules api options (S f) o n)
     (fun _ s => patched (closed V A H (list_to_set (E <$> olds)) b) P oa na olds news E st0
                   o n st s)
     (fun _ _ => True) True st.
Proof.
  intros HV HA Hoa Hna HPm HEp Ho Hn Hon Hex HW.
  apply (patchVnode_pair modules api options (closed V A H (list_to_set (E <$> olds)) b));
    try done.
  - intros f' s. by apply X_trace.
  - intros r v s. by apply X_update.
  - intros f' s ov0 nv0 _ HJ Ho0 Hn0. by eapply reconcile_deep.
Qed.

(** ** Reordering keyed children *)

Lemma bound_hosts (st : State) (p : nat) (l xs : list nat) :
  bound st p l xs → (fun o => default 0 (host_of st o)) <$> l = xs.
Proof.
  intros [_ Hh _ _ _ _ _]. induction Hh as [|o x l xs Ho _ IH]; [done|].
  rewrite fmap_cons. cbn beta. rewrite Ho. simpl. f_equal. exact IH.
Qed.

Lemma bound_world (X : State → Prop) (st : State) (P na : nat) (olds news xs : list nat) :
  bound st P olds xs → arrays st !! na = Some (Some <$> news) → X st →
  world X P na olds news (fun o => default 0 (host_of st o)) st st.
Proof.
  intros Hb Hna HX. pose proof (bound_hosts _ _ _ _ Hb) as HE.
  destruct Hb as [b1 b2 b3 b4 b5 b6 b7]. split; [| | | | | | |exact HX].
  - done.
  - done.
  - intros o Ho. apply list_elem_of_lookup in Ho as [i Hi].
    destruct (Forall2_lookup_l _ _ _ _ _ b2 Hi) as (x & _ & Hx). by rewrite Hx.
  - intros o Ho. apply b5. rewrite <- HE.
    exact (list_elem_of_fmap_2 (fun o => default 0 (host_of st o)) olds o Ho).
  - by rewrite HE, b1.
  - intros e x He Hx. rewrite HE. by eapply b6.
  - intros x Hx. apply b7. by rewrite <- HE.
Qed.


(** ** Deferred removal: the counter of the completion callback *)

(** C3: when [removeVnodes] removes a vnode with a selector, bound to the
    host node [x], the completion callback is created with the counter at
    (number of modules that register a [remove] hook) + 1 and the hooks of
    the removal run against it.  Whatever sequence of invocations of the
    callback follows, by hooks before they return or by anyone later: after
    [n] invocations the counter is the initial count minus [n] (it goes
    negative once the invocations exceed the count), no event is emitted
    before the count is reached, and all invocations together emit nothing
    or a single [removeChild] of [x]; the invocation that finds the counter
    at 1 on an attached node does detach it. *)
Theorem removeVnode_detaches_once (modules : list Module) (fuel : nat) (p : option nat)
    (ch : nat) (v v1 : VNode) (x : nat) (st st1 : State) :
  vnodes st !! ch = Some v →
  sel v ≠ None →
  invokeDestroyHook modules fuel ch st = Ok tt st1 →
  vnodes st1 !! ch = Some v1 →
  elm v1 = Some x →
  let c := length (rmcbs st1) in
  let k := (Z.of_nat (length (cb_remove (cbs modules))) + 1)%Z in
  let st2 := with_rmcbs (fun l => l ++ [(Some x, k)]) st1 in
  removeVnode modules fuel p ch st = remove_hooks modules ch c st2
  ∧ rmcbs st2 !! c = Some (Some x, k)
  ∧ (∃ n evs, history c st2 n evs (after (removeVnode modules fuel p ch st) st2))
  ∧ (∀ n evs st', history c st2 n evs st' →
       rmcbs st' !! c = Some (Some x, (k - Z.of_nat n)%Z)
       ∧ ((Z.of_nat n < k)%Z → evs = [])
       ∧ (evs = [] ∨ ∃ q, evs = [EApi (RemoveChild q x)]))
  ∧ (∀ s q, rmcbs s !! c = Some (Some x, 1%Z) → parent_of s x = Some q →
       rmCb c s = Ok tt (detach x (add_events [EApi (RemoveChild q x)]
                           (with_rmcbs (fun l => <[c := (Some x, 0%Z)]> l) s)))).
Proof.
  intros Hv Hsel Hd Hv1 He c k st2.
  assert (removeVnode modules fuel p ch st = remove_hooks modules ch c st2) as Hrm.
  { rewrite (removeVnode_creates_rm modules fuel p ch v v1 st st1) by done.
    unfold st2, k, c. by rewrite He, remove_hooks_count. }
  assert (rmcbs st2 !! c = Some (Some x, k)) as Hc.
  { unfold st2, c. simpl. by rewrite lookup_app_r, Nat.sub_diag by lia. }
  split; [exact Hrm|]. split; [exact Hc|]. split; [|split].
  - rewrite Hrm.
    pose proof (remove_hooks_history modules ch c st2 st2) as Hh.
    assert (∃ n evs, history c st2 n evs st2) as H0 by (exists 0, []; constructor).
    specialize (Hh H0). unfold wp in Hh.
    by destruct (remove_hooks modules ch c st2) as [[] s| e s|].
  - intros n evs st' Hh. apply (history_counter c x k st2 st' n evs); [done|lia|done].
  - intros s q Hs Hq. by apply rmCb_detach.
Qed.

(** ** [patchVnode] on one and the same vnode *)

(** C4: [patchVnode v v] returns at once: no vnode, no array and no part of
    the host tree changes, and the only event it can add to the trace is
    the [prepatch] hook of [v], which runs before the test [oldVnode ===
    vnode]; no adapter call is made and no [update] hook is invoked. *)
Theorem patchVnode_same_reference (modules : list Module) (api : DOMAPI)
    (options : Options) (fuel : nat) (v : nat) (o : VNode) (st : State) :
  vnodes st !! v = Some o →
  ∃ st', patchVnode modules api options (S fuel) v v st = Ok tt st'
    ∧ vnodes st' = vnodes st
    ∧ same_host st st'
    ∧ trace st' = trace st ++ prepatch_events v v o.
Proof.
  intros Hv. rewrite (patchVnode_same_ref modules api options fuel v o st Hv).
  unfold prepatch_events. destruct (has_hook h_prepatch o).
  - eexists. split; [done|]. repeat split; done.
  - eexists. split; [done|]. rewrite app_nil_r. repeat split; done.
Qed.

(** ** The [insert] hooks of a pass *)


(** ** Duplicate keys *)


(** ** Element vnodes without a data object *)

(** C10: on a vnode with a selector other than "!" and no data object,
    [createElm] builds the element and its children and then fails on the
    read of [vnode.data.hook]: it never returns, and it throws a type
    error as soon as the building returns. *)
Theorem createElm_needs_data (modules : list Module) (api : DOMAPI) (options : Options)
    (fuel : nat) (r : nat) (s : string) (v : VNode) (st : State) :
  vnodes st !! r = Some v →
  sel v = Some s → s ≠ "!"%string → data v = None →
  (∀ f x st', createElm modules api options f r st ≠ Ok x st')
  ∧ createElm modules api options (S fuel) r st
    = (build_element modules (createElm modules api options fuel) r s v ;;
       throw TypeError) st
  ∧ ∀ st1,
      build_element modules (createElm modules api options fuel) r s v st = Ok tt st1 →
      createElm modules api options (S fuel) r st = Throw TypeError st1.
Proof.
  intros Hv Hs Hne Hd. split; [|split].
  - intros f x st'. by eapply createElm_no_data_fails.
  - by apply createElm_no_data.
  - intros st1 Hb. rewrite (createElm_no_data modules api options fuel r s v st) by done.
    unfold bind. by rewrite Hb.
Qed.

(** ** The theorems on example states *)

Ltac list_cases H :=
  repeat (apply elem_of_cons in H as [->|H]); [..|by apply elem_of_nil in H].
Ltac set_cases H := set_unfold in H; destruct_or! H; simplify_eq; try done.
Ltac pair_cases H :=
  repeat (apply elem_of_cons in H as [[= -> ->]|H]); [..|by apply elem_of_nil in H].



(** The removal of [ex_tree]: the [destroy] hooks of 1 and 2 come first. *)
Lemma removeVnode_destroy_first_witness :
  removeVnode [ex_removing_module] 5 (Some 10) 1 ex_tree ≠ OutOfFuel
  ∧ ∃ R, trace (after (removeVnode [ex_removing_module] 5 (Some 10) 1 ex_tree) ex_tree)
         = trace ex_tree
           ++ flat_map (destroy_calls [ex_removing_module] (vnodes ex_tree)) [1; 2] ++ R
         ∧ Forall remove_event R.
Proof.
  apply (removeVnode_destroy_first [ex_removing_module] 5 (Some 10) 1
           (ex_vnode (Some "div"%string) None
              (ex_data (Some (ex_destroy_hooks (Some 1))) None) (Some 100) None (Some 11))
           [1; 2] ex_tree).
  - vm_compute; reflexivity.
  - discriminate.
  - vm_compute; reflexivity.
Defined.

(** Without a data object on the removed [div], no [destroy] hook runs:
    neither the one the module registers nor the one of the child. *)
Lemma removeVnodes_skips_destroy :
  cb_destroy (cbs [ex_removing_module]) = [0]
  ∧ (has_hook h_destroy <$> vnodes ex_nodata !! 2) = Some true
  ∧ ∃ st', removeVnodes [ex_removing_module] 5 (Some 10) [Some 1] 0 0 ex_nodata = Ok tt st'
      ∧ trace st' = [EHook (ModRemove 0 1 0); EApi (RemoveChild 10 11)].
Proof.
  split; [vm_compute; reflexivity|]. split; [vm_compute; reflexivity|].
  eexists. split; vm_compute; reflexivity.
Qed.

(** The counter of the removal of [ex_tree]. *)
Lemma removeVnode_detaches_once_witness :
  let st1 := after (invokeDestroyHook [ex_removing_module] 5 1 ex_tree) ex_tree in
  let c := length (rmcbs st1) in
  let k := (Z.of_nat (length (cb_remove (cbs [ex_removing_module]))) + 1)%Z in
  let st2 := with_rmcbs (fun l => l ++ [(Some 11, k)]) st1 in
  removeVnode [ex_removing_module] 5 (Some 10) 1 ex_tree
  = remove_hooks [ex_removing_module] 1 c st2
  ∧ rmcbs st2 !! c = Some (Some 11, k)
  ∧ (∃ n evs, history c st2 n evs
                (after (removeVnode [ex_removing_module] 5 (Some 10) 1 ex_tree) st2))
  ∧ (∀ n evs st', history c st2 n evs st' →
       rmcbs st' !! c = Some (Some 11, (k - Z.of_nat n)%Z)
       ∧ ((Z.of_nat n < k)%Z → evs = [])
       ∧ (evs = [] ∨ ∃ q, evs = [EApi (RemoveChild q 11)]))
  ∧ (∀ s q, rmcbs s !! c = Some (Some 11, 1%Z) → parent_of s 11 = Some q →
       rmCb c s = Ok tt (detach 11 (add_events [EApi (RemoveChild q 11)]
                           (with_rmcbs (fun l => <[c := (Some 11, 0%Z)]> l) s)))).
Proof.
  apply (removeVnode_detaches_once [ex_removing_module] 5 (Some 10) 1
           (ex_vnode (Some "div"%string) None
              (ex_data (Some (ex_destroy_hooks (Some 1))) None) (Some 100) None (Some 11))
           (ex_vnode (Some "div"%string) None
              (ex_data (Some (ex_destroy_hooks (Some 1))) None) (Some 100) None (Some 11))
           11 ex_tree).
  - vm_compute; reflexivity.
  - discriminate.
  - vm_compute; reflexivity.
  - vm_compute; reflexivity.
  - reflexivity.
Defined.

(** [patchVnode 1 1] on [ex_rotate]. *)
Lemma patchVnode_same_reference_witness :
  ∃ st', patchVnode [ex_removing_module] ex_api ex_options 1 1 1 ex_rotate = Ok tt st'
    ∧ vnodes st' = vnodes ex_rotate
    ∧ same_host ex_rotate st'
    ∧ trace st' = trace ex_rotate ++ prepatch_events 1 1 (ex_leaf 1 None (Some 11)).
Proof.
  apply (patchVnode_same_reference [ex_removing_module] ex_api ex_options 0 1
           (ex_leaf 1 None (Some 11)) ex_rotate).
  vm_compute; reflexivity.
Defined.



(** [patchVnode 1 6] on [ex_rotate]: the new vnode has a data object. *)
Lemma patchVnode_update_hooks_witness :
  ∃ st1,
    trace st1 = trace ex_rotate ++ prepatch_events 1 6 (ex_leaf 1 None None)
                ++ update_events [ex_removing_module] 1 6
                     (ex_leaf 1 None (Some 11)) (ex_leaf 1 None None)
    ∧ same_host ex_rotate st1
    ∧ patchVnode [ex_removing_module] ex_api ex_options 5 1 6 ex_rotate
      = (reconcile [ex_removing_module] ex_api ex_options
           (patchVnode [ex_removing_module] ex_api ex_options 4) 4
           (elm (ex_leaf 1 None (Some 11))) (children (ex_leaf 1 None (Some 11)))
           (children (ex_leaf 1 None None)) 1 6 ;;
         when (has_hook h_postpatch (ex_leaf 1 None None)) (hook (HookPostpatch 1 6))) st1.
Proof.
  apply (patchVnode_update_hooks [ex_removing_module] ex_api ex_options 4 1 6
           (ex_leaf 1 None (Some 11)) (ex_leaf 1 None None) ex_rotate).
  - lia.
  - vm_compute; reflexivity.
  - vm_compute; reflexivity.
Defined.


(** [createElm] on the fragment vnode of [ex_fragment]. *)
Lemma createElm_fragment_unsupported_witness :
  createElm [] ex_no_fragment_api ex_fragment_options 5 1 ex_fragment
  = Throw FragmentNotSupported
      (if has_hook h_init (ex_vnode None None (ex_data None None) (Some 100) None None)
       then add_events [EHook (HookInit 1)] ex_fragment else ex_fragment).
Proof.
  apply (createElm_fragment_unsupported [] ex_no_fragment_api ex_fragment_options 4 1 100
           (ex_vnode None None (ex_data None None) (Some 100) None None) ex_fragment).
  - reflexivity.
  - reflexivity.
  - vm_compute; reflexivity.
  - reflexivity.
  - reflexivity.
Defined.


(** [createElm] on the bare [div] of [ex_bare]. *)
Lemma createElm_needs_data_witness :
  (∀ f x st', createElm [] ex_api ex_options f 1 ex_bare ≠ Ok x st')
  ∧ createElm [] ex_api ex_options 5 1 ex_bare
    = (build_element [] (createElm [] ex_api ex_options 4) 1 "div"
         (ex_vnode (Some "div"%string) None None None None None) ;;
       throw TypeError) ex_bare
  ∧ ∀ st1,
      build_element [] (createElm [] ex_api ex_options 4) 1 "div"
        (ex_vnode (Some "div"%string) None None None None None) ex_bare = Ok tt st1 →
      createElm [] ex_api ex_options 5 1 ex_bare = Throw TypeError st1.
Proof.
  apply (createElm_needs_data [] ex_api ex_options 4 1 "div"
           (ex_vnode (Some "div"%string) None None None None None) ex_bare).
  - vm_compute; reflexivity.
  - reflexivity.
  - discriminate.
  - reflexivity.
Defined.

(** ** The hooks collected by [init] *)

Lemma collect_from {A} (f : Module → option A) (ms : list Module) (k : nat) :
  (omap (fun p : nat * Module => (fun h => (p.1, h)) <$> f p.2)
        (imap (fun j => pair (k + j)) ms)).*1
  `sublist_of` seq k (length ms).
Proof.
  revert k. induction ms as [|m ms IH]; intros k; [done|].
  rewrite imap_cons. cbn [omap length seq]. rewrite Nat.add_0_r.
  assert (imap ((fun j => pair (k + j)) ∘ S) ms = imap (fun j => pair (S k + j)) ms) as ->.
  { apply imap_ext. intros i x _. simpl. f_equal. lia. }
  destruct (f m) as [h|] eqn:Hf; simpl; rewrite Hf; simpl.
  - apply sublist_skip, (IH (S k)).
  - apply sublist_cons, (IH (S k)).
Qed.

Lemma collect_elem {A} (f : Module → option A) (ms : list Module) (i : nat) (h : A) :
  (i, h) ∈ collect f ms ↔ ∃ m, ms !! i = Some m ∧ f m = Some h.
Proof.
  unfold collect. rewrite list_elem_of_omap. split.
  - intros ([j m] & Hin & Hf). apply elem_of_lookup_imap in Hin as (j' & m' & [= -> ->] & Hm).
    simpl in Hf. destruct (f m') as [h'|] eqn:Hfm; [|done]. simpl in Hf.
    injection Hf as <- <-. eauto.
  - intros (m & Hm & Hf). exists (i, m). split.
    + apply elem_of_lookup_imap. eauto.
    + simpl. by rewrite Hf.
Qed.

Lemma collect_registered {A} (f : Module → option A) (ms : list Module) :
  registered ms (fun m => is_Some (f m)) (collect f ms).*1.
Proof.
  split.
  - intros i. rewrite list_elem_of_fmap. split.
    + intros ([j h] & -> & Hin). apply collect_elem in Hin as (m & Hm & Hf).
      exists m. by rewrite Hf.
    + intros (m & Hm & [h Hf]). exists (i, h). split; [done|]. apply collect_elem. eauto.
  - apply (collect_from f ms 0).
Qed.

Lemma flag_registered (g : Module → bool) (ms : list Module) :
  registered ms (fun m => g m = true) (collect (fun m => flag (g m)) ms).*1.
Proof.
  destruct (collect_registered (fun m => flag (g m)) ms) as [Hin Hsub]. split; [|done].
  intros i. rewrite Hin. split; intros (m & Hm & Hg); exists m; (split; [done|]).
  - destruct (g m); [done|]. by destruct Hg.
  - rewrite Hg. by eexists.
Qed.

(** X1: [init] collects, for every hook name, exactly the modules that
    define that hook, each once and in registration order; a [remove] entry
    carries the hook of its module. *)
Theorem cbs_registration_order (modules : list Module) :
  registered modules (fun m => m_create m = true) (cb_create (cbs modules))
  ∧ registered modules (fun m => m_update m = true) (cb_update (cbs modules))
  ∧ registered modules (fun m => is_Some (m_remove m)) (cb_remove (cbs modules)).*1
  ∧ registered modules (fun m => m_destroy m = true) (cb_destroy (cbs modules))
  ∧ registered modules (fun m => m_pre m = true) (cb_pre (cbs modules))
  ∧ registered modules (fun m => m_post m = true) (cb_post (cbs modules))
  ∧ ∀ i h, (i, h) ∈ cb_remove (cbs modules) →
           ∃ m, modules !! i = Some m ∧ m_remove m = Some h.
Proof.
  unfold cbs, init_cbs. cbn [cb_create cb_update cb_remove cb_destroy cb_pre cb_post].
  split_and!; try apply flag_registered.
  - apply collect_registered.
  - intros i h Hin. by apply collect_elem.
Qed.

(** ** The selector parser *)

Lemma append_cons (a : ascii) (s t : string) : String a s +:+ t = String a (s +:+ t).
Proof. done. Qed.
Lemma append_nil_l (t : string) : EmptyString +:+ t = t.
Proof. done. Qed.
Ltac str_norm := rewrite ?append_cons, ?append_nil_l.

Lemma length_append (s t : string) :
  String.length (s +:+ t) = String.length s + String.length t.
Proof. induction s as [|a s IH]; simpl; [done|]. by rewrite IH. Qed.

Lemma str_drop_app (t u : string) : str_drop (String.length t) (t +:+ u) = u.
Proof. induction t as [|a t IH]; simpl; [by destruct u|done]. Qed.

Lemma str_take_app (t u : string) : str_take (String.length t) (t +:+ u) = t.
Proof. induction t as [|a t IH]; simpl; [by destruct u|]. by rewrite IH. Qed.

Lemma str_take_all (s : string) (n : nat) : String.length s ≤ n → str_take n s = s.
Proof.
  revert n. induction s as [|a s IH]; intros n Hn; [by destruct n|].
  destruct n as [|n]; simpl in *; [lia|]. rewrite IH; [done|lia].
Qed.

Lemma str_drop_0 (s : string) : str_drop 0 s = s.
Proof. by destruct s. Qed.

Lemma str_drop_all (s : string) : str_drop (String.length s) s = EmptyString.
Proof. induction s as [|a s IH]; simpl; done. Qed.

Lemma find_char_absent (c : ascii) (s : string) (pos : nat) :
  occurs c s = false → find_char c s pos = (-1)%Z.
Proof.
  revert pos. induction s as [|a s IH]; intros pos Hs; [done|]. simpl in *.
  apply orb_false_iff in Hs as [Ha Hs]. apply bool_decide_eq_false in Ha.
  rewrite decide_False by done. by apply IH.
Qed.

Lemma find_char_first (c : ascii) (t u : string) (pos : nat) :
  occurs c t = false →
  find_char c (t +:+ String c u) pos = Z.of_nat (pos + String.length t).
Proof.
  revert pos. induction t as [|a t IH]; intros pos Ht; simpl in *.
  - rewrite decide_True by done. f_equal. lia.
  - apply orb_false_iff in Ht as [Ha Ht]. apply bool_decide_eq_false in Ha.
    rewrite decide_False by done. rewrite IH by done. f_equal. lia.
Qed.

Lemma indexOf_at (s : string) (c : ascii) (k : nat) :
  k ≤ String.length s → indexOf s c (Z.of_nat k) = find_char c (str_drop k s) k.
Proof.
  intros Hk. unfold indexOf, str_len.
  replace (Z.to_nat (Z.min (Z.max (Z.of_nat k) 0) (Z.of_nat (String.length s)))) with k by lia.
  done.
Qed.

Lemma indexOf_neg (s : string) (c : ascii) : indexOf s c (-1) = find_char c s 0.
Proof.
  unfold indexOf, str_len.
  replace (Z.to_nat (Z.min (Z.max (-1) 0) (Z.of_nat (String.length s)))) with 0 by lia.
  by rewrite str_drop_0.
Qed.

Lemma slice_range (s : string) (a b : nat) :
  a ≤ b → b ≤ String.length s →
  slice s (Z.of_nat a) (Z.of_nat b) = str_take (b - a) (str_drop a s).
Proof.
  intros Hab Hb. unfold slice, str_len.
  replace (Z.of_nat a <? 0)%Z with false by (symmetry; apply Z.ltb_ge; lia).
  replace (Z.of_nat b <? 0)%Z with false by (symmetry; apply Z.ltb_ge; lia).
  f_equal; [|f_equal]; lia.
Qed.

Lemma replace_char_inv (c d : ascii) (s : string) :
  occurs d s = false → replace_char d c (replace_char c d s) = s.
Proof.
  induction s as [|a s IH]; intros Hs; [done|]. simpl in *.
  apply orb_false_iff in Hs as [Ha Hs]. apply bool_decide_eq_false in Ha.
  rewrite IH by done. f_equal.
  destruct (decide (a = c)) as [->|Hac].
  - by rewrite decide_True.
  - by rewrite decide_False.
Qed.

Lemma occurs_app (c : ascii) (s t : string) :
  occurs c (s +:+ t) = occurs c s || occurs c t.
Proof. induction s as [|a s IH]; simpl; [done|]. by rewrite IH, orb_assoc. Qed.


Lemma indexOf_0 (s : string) (c : ascii) : indexOf s c 0 = find_char c s 0.
Proof. rewrite <- (str_drop_0 s) at 2. exact (indexOf_at s c 0 (Nat.le_0_l _)). Qed.

Lemma str_drop_app_add (t u : string) (k : nat) :
  str_drop (String.length t + k) (t +:+ u) = str_drop k u.
Proof. induction t as [|a t IH]; simpl; [done|]. exact IH. Qed.

Lemma slice_app (t u v : string) :
  slice (t +:+ u +:+ v) (Z.of_nat (String.length t))
        (Z.of_nat (String.length t + String.length u)) = u.
Proof.
  rewrite slice_range; [|lia|rewrite !length_append; lia].
  replace (String.length t + String.length u - String.length t) with (String.length u) by lia.
  by rewrite str_drop_app, str_take_app.
Qed.

Lemma slice_prefix (t u : string) : slice (t +:+ u) 0 (Z.of_nat (String.length t)) = t.
Proof.
  rewrite (slice_range _ 0); [|lia|rewrite length_append; lia].
  by rewrite str_drop_0, Nat.sub_0_r, str_take_app.
Qed.

Lemma slice_suffix (t u : string) :
  slice (t +:+ u) (Z.of_nat (String.length t)) (str_len (t +:+ u)) = u.
Proof.
  unfold str_len. rewrite slice_range; [|rewrite length_append; lia|lia].
  rewrite str_drop_app. apply str_take_all. rewrite length_append. lia.
Qed.

Lemma slice_whole (s : string) : slice s 0 (str_len s) = s.
Proof.
  unfold str_len. rewrite (slice_range _ 0); [|lia|lia].
  rewrite str_drop_0. apply str_take_all. lia.
Qed.

Lemma append_assoc (s t u : string) : (s +:+ t) +:+ u = s +:+ t +:+ u.
Proof. induction s as [|a s IH]; [done|]. str_norm. by rewrite IH. Qed.

Lemma not_empty_length (t : string) : t ≠ EmptyString → 0 < String.length t.
Proof. destruct t; [done|simpl; lia]. Qed.

Lemma parse_plain (s : string) :
  occurs "#" s = false → occurs "." s = false →
  parse_sel s = {| s_tag := s; s_id := None; s_class := None |}.
Proof.
  intros Hh Hd. unfold parse_sel. cbv zeta.
  rewrite indexOf_0, (find_char_absent "#" s 0 Hh).
  rewrite indexOf_neg, (find_char_absent "." s 0 Hd).
  cbn [Z.gtb Z.compare Z.eqb negb orb]. by rewrite Z.ltb_irrefl.
Qed.

Lemma parse_full (t i c : string) :
  t ≠ EmptyString → occurs "#" t = false → occurs "." i = false →
  parse_sel (t +:+ "#" +:+ i +:+ "." +:+ c)
  = {| s_tag := t; s_id := Some i; s_class := Some (replace_char "." " " c) |}.
Proof.
  intros Ht Hh Hd. apply not_empty_length in Ht.
  set (s := t +:+ "#" +:+ i +:+ "." +:+ c).
  assert (s = (t +:+ "#") +:+ i +:+ ("." +:+ c)) as Hs1 by (unfold s; by rewrite append_assoc).
  assert (s = (t +:+ "#" +:+ i +:+ ".") +:+ c) as Hs2.
  { unfold s. by rewrite !append_assoc. }
  assert (String.length (t +:+ "#") = S (String.length t)) as Hl1.
  { rewrite length_append. cbn [String.length]. lia. }
  assert (String.length (t +:+ "#" +:+ i +:+ ".") = S (String.length t + S (String.length i)))
    as Hl2.
  { rewrite !length_append. cbn [String.length]. lia. }
  assert (String.length s = String.length t + S (String.length i + S (String.length c))) as Hlen.
  { rewrite Hs2, length_append, Hl2. lia. }
  assert (indexOf s "#" 0 = Z.of_nat (String.length t)) as Hhash.
  { rewrite indexOf_0. unfold s. str_norm. by rewrite find_char_first. }
  assert (indexOf s "." (Z.of_nat (String.length t))
          = Z.of_nat (String.length t + S (String.length i))) as Hdot.
  { rewrite indexOf_at by lia. unfold s. rewrite str_drop_app. str_norm. cbn [find_char].
    rewrite decide_False by done. rewrite find_char_first by done. f_equal. lia. }
  unfold parse_sel. cbv zeta. rewrite Hhash, Hdot.
  replace (Z.of_nat (String.length t) >? 0)%Z with true by (symmetry; apply Z.gtb_lt; lia).
  replace (Z.of_nat (String.length t + S (String.length i)) >? 0)%Z with true
    by (symmetry; apply Z.gtb_lt; lia).
  replace (Z.of_nat (String.length t) =? -1)%Z with false by (symmetry; apply Z.eqb_neq; lia).
  replace (Z.of_nat (String.length t) <? Z.of_nat (String.length t + S (String.length i)))%Z
    with true by (symmetry; apply Z.ltb_lt; lia).
  cbn [negb orb]. f_equal.
  - rewrite Z.min_l by lia. apply slice_prefix.
  - f_equal. rewrite Hs1.
    replace (Z.of_nat (String.length t) + 1)%Z with (Z.of_nat (String.length (t +:+ "#")))
      by lia.
    replace (Z.of_nat (String.length t + S (String.length i)))
      with (Z.of_nat (String.length (t +:+ "#") + String.length i)) by lia.
    apply slice_app.
  - do 2 f_equal. rewrite Hs2.
    replace (Z.of_nat (String.length t + S (String.length i)) + 1)%Z
      with (Z.of_nat (String.length (t +:+ "#" +:+ i +:+ "."))) by lia.
    apply slice_suffix.
Qed.

Lemma occurs_replace (e c d : ascii) (s : string) :
  e ≠ d → occurs e s = false → occurs e (replace_char c d s) = false.
Proof.
  intros Hed. induction s as [|a s IH]; [done|]. cbn [occurs replace_char].
  intros Hs. apply orb_false_iff in Hs as [Ha Hs]. apply bool_decide_eq_false in Ha.
  rewrite IH by done. rewrite orb_false_r. apply bool_decide_eq_false.
  destruct (decide (a = c)); [by intros ->|done].
Qed.

Lemma parse_id (t i : string) :
  t ≠ EmptyString → occurs "#" t = false → occurs "." i = false →
  parse_sel (t +:+ "#" +:+ i) = {| s_tag := t; s_id := Some i; s_class := None |}.
Proof.
  intros Ht Hh Hd. apply not_empty_length in Ht.
  set (s := t +:+ "#" +:+ i).
  assert (s = (t +:+ "#") +:+ i) as Hs1 by (unfold s; by rewrite append_assoc).
  assert (String.length (t +:+ "#") = S (String.length t)) as Hl1.
  { rewrite length_append. cbn [String.length]. lia. }
  assert (String.length s = S (String.length t) + String.length i) as Hlen.
  { rewrite Hs1, length_append, Hl1. lia. }
  assert (indexOf s "#" 0 = Z.of_nat (String.length t)) as Hhash.
  { rewrite indexOf_0. unfold s. str_norm. by rewrite find_char_first. }
  assert (indexOf s "." (Z.of_nat (String.length t)) = (-1)%Z) as Hdot.
  { rewrite indexOf_at by lia. unfold s. rewrite str_drop_app. str_norm. cbn [find_char].
    rewrite decide_False by done. by apply find_char_absent. }
  unfold parse_sel. cbv zeta. rewrite Hhash, Hdot.
  replace (Z.of_nat (String.length t) >? 0)%Z with true by (symmetry; apply Z.gtb_lt; lia).
  replace (Z.of_nat (String.length t) =? -1)%Z with false by (symmetry; apply Z.eqb_neq; lia).
  cbn [Z.gtb Z.compare negb orb].
  replace (Z.of_nat (String.length t) <? str_len s)%Z
    with true by (symmetry; apply Z.ltb_lt; unfold str_len; lia).
  f_equal.
  - rewrite Z.min_l by (unfold str_len; lia). apply slice_prefix.
  - f_equal. rewrite Hs1.
    replace (Z.of_nat (String.length t) + 1)%Z with (Z.of_nat (String.length (t +:+ "#")))
      by lia.
    apply slice_suffix.
Qed.

Lemma parse_class (t c : string) :
  t ≠ EmptyString → occurs "#" t = false → occurs "." t = false → occurs "#" c = false →
  parse_sel (t +:+ "." +:+ c)
  = {| s_tag := t; s_id := None; s_class := Some (replace_char "." " " c) |}.
Proof.
  intros Ht Hh Hd Hc. apply not_empty_length in Ht.
  set (s := t +:+ "." +:+ c).
  assert (s = (t +:+ ".") +:+ c) as Hs1 by (unfold s; by rewrite append_assoc).
  assert (String.length (t +:+ ".") = S (String.length t)) as Hl1.
  { rewrite length_append. cbn [String.length]. lia. }
  assert (String.length s = S (String.length t) + String.length c) as Hlen.
  { rewrite Hs1, length_append, Hl1. lia. }
  assert (indexOf s "#" 0 = (-1)%Z) as Hhash.
  { rewrite indexOf_0. apply find_char_absent. unfold s. rewrite occurs_app, Hh.
    str_norm. cbn [occurs]. rewrite Hc. by rewrite bool_decide_eq_false_2. }
  assert (indexOf s "." (-1) = Z.of_nat (String.length t)) as Hdot.
  { rewrite indexOf_neg. unfold s. str_norm. by rewrite find_char_first. }
  unfold parse_sel. cbv zeta. rewrite Hhash, Hdot.
  replace (Z.of_nat (String.length t) >? 0)%Z with true by (symmetry; apply Z.gtb_lt; lia).
  replace (Z.of_nat (String.length t) =? -1)%Z with false by (symmetry; apply Z.eqb_neq; lia).
  cbn [Z.gtb Z.compare Z.eqb negb orb].
  replace (str_len s <? Z.of_nat (String.length t))%Z
    with false by (symmetry; apply Z.ltb_ge; unfold str_len; lia).
  f_equal.
  - rewrite Z.min_r by (unfold str_len; lia). apply slice_prefix.
  - do 2 f_equal. rewrite Hs1.
    replace (Z.of_nat (String.length t) + 1)%Z with (Z.of_nat (String.length (t +:+ ".")))
      by lia.
    apply slice_suffix.
Qed.

Lemma append_nil_r (s : string) : s +:+ EmptyString = s.
Proof. induction s as [|a s IH]; [done|]. str_norm. by rewrite IH. Qed.

(** X2: a selector without [#] and without [.] is the tag name as it
    stands: [createElm] sets neither an id nor a class. *)
Theorem parse_sel_plain (s : string) :
  occurs "#" s = false → occurs "." s = false →
  parse_sel s = {| s_tag := s; s_id := None; s_class := None |}.
Proof. apply parse_plain. Qed.

(** X3: a selector [tag#id.classes] whose tag is not empty and holds no
    [#], and whose id holds no [.], is split in its three parts, the dots
    between the classes becoming spaces; a [.] in the tag is not seen, the
    search for the dot starting at the [#]. *)
Theorem parse_sel_full (t i c : string) :
  t ≠ EmptyString → occurs "#" t = false → occurs "." i = false →
  parse_sel (t +:+ "#" +:+ i +:+ "." +:+ c)
  = {| s_tag := t; s_id := Some i; s_class := Some (replace_char "." " " c) |}.
Proof. apply parse_full. Qed.

(** X4: a selector that starts with [#] is not split at the [#]: with no
    [.] in it, the whole selector is the tag name and no id is set. *)
Theorem parse_sel_leading_hash (i : string) :
  occurs "." i = false →
  parse_sel ("#" +:+ i) = {| s_tag := "#" +:+ i; s_id := None; s_class := None |}.
Proof.
  intros Hd. unfold parse_sel. cbv zeta.
  assert (indexOf ("#" +:+ i) "#" 0 = 0%Z) as ->.
  { rewrite indexOf_0. str_norm. cbn [find_char]. by rewrite decide_True. }
  assert (indexOf ("#" +:+ i) "." 0 = (-1)%Z) as ->.
  { rewrite indexOf_0. str_norm. cbn [find_char]. rewrite decide_False by done.
    by apply find_char_absent. }
  cbn [Z.gtb Z.compare Z.eqb negb orb]. rewrite Z.ltb_irrefl, Z.min_id.
  by rewrite slice_whole.
Qed.


(** ** The key map *)

Lemma record_sound (vs : gmap nat VNode) (children : list (option nat)) (idxs : list Z)
    (map : gmap string Z) (name : string) (i : Z) :
  foldl (record vs children) map idxs !! name = Some i →
  map !! name = Some i
  ∨ (i ∈ idxs ∧ ∃ k, key_at vs children i = Some k ∧ key_name k = name).
Proof.
  revert map. induction idxs as [|j idxs IH]; intros map Hm; [by left|].
  simpl in Hm. apply IH in Hm as [Hm|(Hin & Hk)]; [|right; split; [by right|done]].
  unfold record in Hm. destruct (key_at vs children j) as [k|] eqn:Hk; [|by left].
  destruct (decide (key_name k = name)) as [<-|Hne].
  - rewrite lookup_insert_eq in Hm. injection Hm as <-. right. split; [by left|eauto].
  - rewrite lookup_insert_ne in Hm by done. by left.
Qed.


(** ** Building single nodes *)

Lemma wp_exact {A} (m : M A) (a0 : A) (Φ : State → Prop) st :
  wp m (fun a s' => a = a0 ∧ Φ s') (fun _ _ => False) False st →
  ∃ st', m st = Ok a0 st' ∧ Φ st'.
Proof. intros H. apply wp_total in H as (a & st' & Hm & -> & HΦ). eauto. Qed.

Lemma wp_alloc_eq (k : Kind) (Φ : nat → State → Prop) Ψ Ω st :
  Φ (next_node st) (with_next_node (S (next_node st))
                      (with_kind (fun m => <[next_node st := k]> m) st)) →
  wp (alloc k) Φ Ψ Ω st.
Proof. done. Qed.

Lemma wp_init_hook (r : nat) (v : VNode) (Φ : unit → State → Prop) Ψ Ω st :
  Φ tt (add_events (init_events r v) st) →
  wp (when (has_hook h_init v) (hook (HookInit r))) Φ Ψ Ω st.
Proof.
  unfold init_events. intros H. apply wp_when. destruct (has_hook h_init v).
  - by apply wp_hook.
  - by rewrite add_events_nil in H.
Qed.

Lemma attach_detach_fields (p x : nat) (ref : option nat) (st : State) :
  vnodes (attach p x ref (detach x st)) = vnodes st
  ∧ kind (attach p x ref (detach x st)) = kind st
  ∧ queue (attach p x ref (detach x st)) = queue st
  ∧ arrays (attach p x ref (detach x st)) = arrays st
  ∧ trace (attach p x ref (detach x st)) = trace st
  ∧ next_node (attach p x ref (detach x st)) = next_node st.
Proof. unfold attach, detach. by destruct (parent st !! x). Qed.

Section BuildOne.
Variable modules : list Module.
Variable api : DOMAPI.
Variable options : Options.

(** X7: for a vnode without selector that is not built as a fragment,
    [createElm] makes one text node with the text of the vnode and binds
    the vnode to it; apart from the [init] hook no hook is invoked and
    the vnode is not queued for [insert], whatever its data supplies. *)
Theorem createElm_text_vnode (fuel : nat) (r : nat) (v : VNode) (st : State) :
  vnodes st !! r = Some v →
  sel v = None →
  fragments options = false ∨ children v = None →
  ∃ st',
    createElm modules api options (S fuel) r st = Ok (next_node st) st'
    ∧ made_node st st' r (set_elm (Some (next_node st)) v)
        (KText (default "undefined" (text v)))
        (init_events r v
         ++ [EApi (CreateTextNode (default "undefined" (text v)) (next_node st))]).
Proof.
  intros Hv Hs Hc. apply wp_exact. cbn [createElm].
  wp_prim. wp_prim. rewrite Hv. wp_prim. apply wp_init_hook.
  wp_prim. wp_prim. st_simpl. rewrite Hv, Hs.
  assert ((if fragments options then children v else None) = None) as ->.
  { destruct Hc as [->| ->]; [done|by destruct (fragments options)]. }
  wp_prim. wp_prim. unfold createTextNode. wp_prim. apply wp_alloc_eq.
  wp_prim. wp_prim. wp_prim. wp_prim. st_simpl. rewrite Hv.
  wp_prim. wp_prim. st_simpl. rewrite lookup_insert_eq. cbn [elm set_elm].
  wp_prim. split; [done|]. split; st_simpl; try done. by rewrite app_assoc.
Qed.

(** X8: for the selector [!], [createElm] makes one comment node; a
    vnode without text gets the empty string as its text first, so the
    comment is empty.  Apart from the [init] hook no hook is invoked. *)
Theorem createElm_comment (fuel : nat) (r : nat) (v : VNode) (st : State) :
  vnodes st !! r = Some v →
  sel v = Some "!" →
  ∃ st',
    createElm modules api options (S fuel) r st = Ok (next_node st) st'
    ∧ made_node st st' r
        (set_elm (Some (next_node st)) (set_text (Some (default EmptyString (text v))) v))
        (KComment (default EmptyString (text v)))
        (init_events r v
         ++ [EApi (CreateComment (default EmptyString (text v)) (next_node st))]).
Proof.
  intros Hv Hs. apply wp_exact. cbn [createElm].
  wp_prim. wp_prim. rewrite Hv. wp_prim. apply wp_init_hook.
  wp_prim. wp_prim. st_simpl. rewrite Hv, Hs. rewrite decide_True by done.
  wp_prim. wp_prim.
  apply (wp_post (fun _ s =>
           s = with_vnodes (fun m => <[r := set_text (Some (default EmptyString (text v))) v]> m)
                 (add_events (init_events r v) st))).
  { wp_prim. case_bool_decide as Ht.
    - wp_prim. st_simpl. rewrite Hv. by rewrite Ht.
    - destruct (text v) as [t|] eqn:Ht'; [|done]. cbn [default].
      unfold with_vnodes. st_simpl. rewrite insert_id; [by destruct st|].
      rewrite Hv. f_equal. destruct v. cbn in *. by subst. }
  intros [] ? ->. wp_prim. wp_prim. st_simpl. rewrite lookup_insert_eq.
  cbn [text set_text default].
  unfold createComment. wp_prim. wp_prim. apply wp_alloc_eq.
  wp_prim. wp_prim. wp_prim. wp_prim. st_simpl. rewrite lookup_insert_eq.
  wp_prim. wp_prim. st_simpl. rewrite lookup_insert_eq. cbn [elm set_elm].
  wp_prim. split; [done|]. split; st_simpl; try done.
  - by rewrite insert_insert_eq.
  - by rewrite app_assoc.
Qed.

(** X9: for an element vnode with a data object and without children
    array, [createElm] makes the element (in the namespace of the data, if
    any), sets the id and the class parsed from the selector, invokes the
    [create] hooks of the modules, appends a text node if the vnode has a
    text, and only then invokes the [create] hook of the vnode; the vnode
    is bound to the element and queued if it supplies an [insert] hook. *)
Theorem createElm_leaf_element (fuel : nat) (r : nat) (v : VNode) (d : VNodeData)
    (s : string) (st : State) :
  vnodes st !! r = Some v →
  sel v = Some s → s ≠ "!" →
  data v = Some d →
  children v = None →
  ∃ st',
    createElm modules api options (S fuel) r st = Ok (next_node st) st'
    ∧ trace st' = trace st ++ leaf_events modules r (next_node st) v d s
    ∧ vnodes st' = <[r := set_elm (Some (next_node st)) v]> (vnodes st)
    ∧ kind st' !! next_node st = Some (KElement (s_tag (parse_sel s)) (d_ns d))
    ∧ queue st' = queue st ++ (if has_hook h_insert v then [r] else [])
    ∧ arrays st' = arrays st.
Proof.
  intros Hv Hs Hne Hd Hc. apply wp_exact. cbn [createElm].
  set (n := next_node st).
  wp_prim. wp_prim. rewrite Hv. wp_prim. apply wp_init_hook.
  wp_prim. wp_prim. st_simpl. rewrite Hv, Hs. rewrite decide_False by done.
  wp_prim. wp_prim. unfold build_element. rewrite Hd, Hc.
  set (ev := EApi (match d_ns d with
                   | Some ns => CreateElementNS ns (s_tag (parse_sel s)) n
                   | None => CreateElement (s_tag (parse_sel s)) n
                   end)).
  wp_prim.
  apply (wp_post (fun x s1 =>
           x = n ∧ s1 = add_events [ev]
                          (with_next_node (S n)
                             (with_kind (fun m => <[n := KElement (s_tag (parse_sel s)) (d_ns d)]> m)
                                (add_events (init_events r v) st))))).
  { unfold ev. destruct (d_ns d) as [ns|];
      unfold createElementNS, createElement; wp_prim; apply wp_alloc_eq;
      wp_prim; wp_prim; by wp_prim. }
  intros ? ? [-> ->]. wp_prim. wp_prim. st_simpl. rewrite Hv.
  wp_prim.
  set (s1 := with_vnodes _ _).
  set (idev := match s_id (parse_sel s) with
               | Some i => [EApi (SetAttribute n "id" i)]
               | None => []
               end).
  set (clev := match s_class (parse_sel s) with
               | Some c => [EApi (SetAttribute n "class" c)]
               | None => []
               end).
  apply (wp_post (fun _ s2 => vnodes s2 = vnodes s1 ∧ kind s2 = kind s1
                              ∧ queue s2 = queue s1 ∧ arrays s2 = arrays s1
                              ∧ next_node s2 = next_node s1
                              ∧ trace s2 = trace s1 ++ idev)).
  { unfold idev. destruct (s_id (parse_sel s)) as [i|].
    - unfold setAttribute. wp_prim. wp_prim. by wp_prim.
    - wp_prim. by rewrite app_nil_r. }
  intros [] s2 (Hv2 & Hk2 & Hq2 & Ha2 & Hn2 & Ht2). wp_prim.
  apply (wp_post (fun _ s3 => vnodes s3 = vnodes s1 ∧ kind s3 = kind s1
                              ∧ queue s3 = queue s1 ∧ arrays s3 = arrays s1
                              ∧ next_node s3 = next_node s1
                              ∧ trace s3 = trace s1 ++ idev ++ clev)).
  { unfold clev. destruct (s_class (parse_sel s)) as [c|].
    - unfold setAttribute. wp_prim. wp_prim. wp_prim. st_simpl.
      rewrite Ht2, <- app_assoc. done.
    - wp_prim. by rewrite app_nil_r. }
  intros [] s3 (Hv3 & Hk3 & Hq3 & Ha3 & Hn3 & Ht3). wp_prim.
  apply wp_for_each_hook.
  set (mev := (fun m => EHook (ModCreate m r)) <$> cb_create (cbs modules)).
  set (tev := match text v with
              | Some t => [EApi (CreateTextNode t (S n)); EApi (AppendChild n (S n))]
              | None => []
              end).
  apply (wp_post (fun _ s4 => vnodes s4 = vnodes s1 ∧ kind s4 !! n = kind s1 !! n
                              ∧ queue s4 = queue s1 ∧ arrays s4 = arrays s1
                              ∧ trace s4 = trace s1 ++ idev ++ clev ++ mev ++ tev)).
  { wp_prim. wp_prim. st_simpl. rewrite Hv3. unfold s1 at 1. st_simpl.
    rewrite lookup_insert_eq.
    cbn [text set_elm]. unfold tev. destruct (text v) as [t|].
    - unfold createTextNode. wp_prim. wp_prim. apply wp_alloc_eq.
      wp_prim. wp_prim. wp_prim. unfold appendChild. wp_prim. wp_prim. wp_prim.
      st_simpl. rewrite Hn3. replace (next_node s1) with (S n) by done.
      match goal with |- context [attach ?a ?b ?c (detach ?b ?s')] =>
        destruct (attach_detach_fields a b c s') as (-> & -> & -> & -> & -> & _) end.
      st_simpl. rewrite lookup_insert_ne by lia.
      split_and!; [done|by rewrite Hk3|done|done|].
      rewrite Ht3, <- !app_assoc. done.
    - wp_prim. st_simpl. split_and!; [done|by rewrite Hk3|done|done|].
      rewrite Ht3, app_nil_r, <- !app_assoc. done. }
  intros [] s4 (Hv4 & Hk4 & Hq4 & Ha4 & Ht4).
  unfold finish_element. wp_prim. wp_prim. rewrite Hv4. unfold s1 at 1. st_simpl.
  rewrite lookup_insert_eq. wp_prim. cbn [data set_elm]. rewrite Hd. wp_prim.
  assert (hook_of v = d_hook d) as Hh by (unfold hook_of; by rewrite Hd).
  assert (∀ s5 (q : list nat) (hev : list Event),
            vnodes s5 = vnodes s4 → kind s5 = kind s4 → arrays s5 = arrays s4 →
            queue s5 = queue s4 ++ q → trace s5 = trace s4 ++ hev →
            q = (if has_hook h_insert v then [r] else []) →
            hev = (if has_hook h_create v then [EHook (HookCreate r)] else []) →
            wp (let* vnode := read r in defined (elm vnode))
               (fun a s' => a = n ∧ trace s' = trace st ++ leaf_events modules r n v d s
                  ∧ vnodes s' = <[r := set_elm (Some n) v]> (vnodes st)
                  ∧ kind s' !! n = Some (KElement (s_tag (parse_sel s)) (d_ns d))
                  ∧ queue s' = queue st ++ (if has_hook h_insert v then [r] else [])
                  ∧ arrays s' = arrays st)
               (fun _ _ => False) False s5) as Hfin.
  { intros s5 q hev E1 E2 E3 E4 E5 -> ->. wp_prim. wp_prim. rewrite E1, Hv4.
    unfold s1 at 1. st_simpl. rewrite lookup_insert_eq. cbn [elm set_elm]. wp_prim.
    split; [done|]. split_and!.
    - rewrite E5, Ht4. unfold s1, leaf_events. st_simpl. fold n ev idev clev mev tev.
      by rewrite <- !app_assoc.
    - rewrite E1, Hv4. unfold s1. by st_simpl.
    - rewrite E2, Hk4. unfold s1. st_simpl. apply lookup_insert_eq.
    - rewrite E4, Hq4. unfold s1. by st_simpl.
    - rewrite E3, Ha4. unfold s1. by st_simpl. }
  unfold has_hook in Hfin |- *. rewrite Hh in Hfin |- *.
  destruct (d_hook d) as [h|].
  - wp_prim. wp_prim. destruct (h_create h).
    + wp_prim. wp_prim. destruct (h_insert h).
      * unfold push_inserted. wp_prim. by apply (Hfin _ [r] [EHook (HookCreate r)]).
      * apply (Hfin _ [] [EHook (HookCreate r)]); st_simpl; try done. by rewrite app_nil_r.
    + wp_prim. destruct (h_insert h).
      * unfold push_inserted. wp_prim. apply (Hfin _ [r] []); st_simpl; try done.
        by rewrite app_nil_r.
      * apply (Hfin _ [] []); by rewrite ?app_nil_r.
  - apply (Hfin _ [] []); by rewrite ?app_nil_r.
Qed.
End BuildOne.

(** ** Building a tree *)

(** X10: when the vnodes below [r] are bound to no existing host node, and
    the host nodes still to be made have no links with the existing ones,
    [createElm] builds a tree of its own: the node it returns is a new one,
    the child lists and the parents of the existing host nodes are as
    before, and so are the vnodes and the arrays that are not below [r]. *)
Theorem createElm_detached (modules : list Module) (api : DOMAPI) (options : Options)
    (fuel : nat) (V A : gset nat) (r x : nat) (st st' : State) :
  closed V A ∅ ∅ (next_node st) st →
  r ∈ V →
  createElm modules api options fuel r st = Ok x st' →
  next_node st ≤ x
  ∧ (∀ p, p < next_node st → kids_of st' p = kids_of st p)
  ∧ (∀ y, y < next_node st → parent_of st' y = parent_of st y)
  ∧ (∀ r', r' ∉ V → vnodes st' !! r' = vnodes st !! r')
  ∧ (∀ a, a ∉ A → arrays st' !! a = arrays st !! a).
Proof.
  intros Hc Hr Hrun.
  pose proof (createElm_K modules api options V A ∅ ∅ (next_node st) st fuel r st
                (conj Hc (frame_refl V A ∅ ∅ (next_node st) st)) Hr) as Hwp.
  unfold wp in Hwp. rewrite Hrun in Hwp. destruct Hwp as [[_ [f1 f2 f3 f4 f5]] Hx].
  assert (∀ y, y < next_node st → ¬ hp ∅ (next_node st) y) as Hold.
  { intros y Hy [Hin|Hge]; [by apply not_elem_of_empty in Hin|lia]. }
  split_and!.
  - destruct Hx as [Hin|Hge]; [by apply not_elem_of_empty in Hin|done].
  - intros p Hp. unfold kids_of. rewrite f3; [done|].
    intros [Hm|Hin]; [by apply (Hold p)|by apply not_elem_of_empty in Hin].
  - intros y Hy. unfold parent_of. apply f4. by apply Hold.
  - done.
  - done.
Qed.

(** ** Removing single nodes *)

Section RemoveOne.
Variable modules : list Module.

(** X11: a child without selector is removed by one call
    [removeChild(parentElm, elm)]: no [destroy] and no [remove] hook is
    invoked for it, whatever its data and the modules supply. *)
Theorem removeVnode_without_selector (fuel : nat) (p ch x : nat) (v : VNode) (st : State) :
  vnodes st !! ch = Some v →
  sel v = None →
  elm v = Some x →
  parent_of st x = Some p →
  removeVnode modules fuel (Some p) ch st
  = Ok tt (detach x (add_events [EApi (RemoveChild p x)] st)).
Proof.
  intros Hv Hs He Hp. unfold removeVnode.
  rewrite (bind_ok _ _ st v st) by (unfold read; by rewrite Hv).
  rewrite Hs, He. rewrite bool_decide_eq_false_2 by (by intros ?).
  unfold defined, bind, ret, removeChild, bind, api_call, emit, modify, get. simpl.
  unfold parent_of in *. simpl. by rewrite Hp, decide_True.
Qed.

Lemma removeVnode_no_hooks (fuel : nat) (p : option nat) (ch x : nat) (v : VNode)
    (l : list nat) (st : State) :
  cb_remove (cbs modules) = [] →
  vnodes st !! ch = Some v →
  sel v ≠ None →
  hook_of v ≫= h_remove = None →
  elm v = Some x →
  destroy_order fuel (vnodes st) (arrays st) ch = Some l →
  removeVnode modules fuel p ch st
  = rmCb (length (rmcbs st))
      (with_rmcbs (fun cs => cs ++ [(Some x, 1%Z)])
         (add_events (flat_map (destroy_calls modules (vnodes st)) l) st)).
Proof.
  intros Hcb Hv Hs Hh He Hl. unfold removeVnode.
  rewrite (bind_ok _ _ st v st) by (unfold read; by rewrite Hv).
  rewrite bool_decide_eq_true_2 by done.
  rewrite (bind_ok _ _ _ _ _ (invokeDestroyHook_trace modules fuel ch l st Hl)).
  set (st1 := add_events _ st).
  rewrite (bind_ok _ _ st1 v st1) by (unfold read, st1; st_simpl; by rewrite Hv).
  rewrite Hcb, He. cbn [length Z.of_nat Z.add].
  unfold createRmCb at 1. unfold bind at 1. cbn [for_each].
  unfold bind at 1. unfold ret at 1.
  unfold bind at 1. unfold read at 1. unfold st1 at 1. st_simpl. rewrite Hv, Hh. done.
Qed.

(** X12: when no module registers a [remove] hook and the vnode supplies
    none, an element vnode is removed at once: after its [destroy] hooks
    its host node is taken out of the parent it has in the host tree;
    the [parentElm] handed to [removeVnodes] plays no part. *)
Theorem removeVnode_synchronous (fuel : nat) (p : option nat) (ch x q : nat) (v : VNode)
    (l : list nat) (st : State) :
  cb_remove (cbs modules) = [] →
  vnodes st !! ch = Some v →
  sel v ≠ None →
  hook_of v ≫= h_remove = None →
  elm v = Some x →
  parent_of st x = Some q →
  destroy_order fuel (vnodes st) (arrays st) ch = Some l →
  ∃ st',
    removeVnode modules fuel p ch st = Ok tt st'
    ∧ trace st' = trace st ++ flat_map (destroy_calls modules (vnodes st)) l
                  ++ [EApi (RemoveChild q x)]
    ∧ kids_of st' q = remove_node x (kids_of st q)
    ∧ parent_of st' x = None
    ∧ vnodes st' = vnodes st.
Proof.
  intros Hcb Hv Hs Hh He Hp Hl.
  rewrite (removeVnode_no_hooks fuel p ch x v l st) by done.
  set (st1 := with_rmcbs _ _).
  rewrite (rmCb_detach (length (rmcbs st)) x q st1).
  - eexists. split; [done|]. split_and!.
    + rewrite detach_trace. unfold st1. st_simpl. by rewrite app_assoc.
    + rewrite kids_of_detach. unfold st1, parent_of in *. st_simpl. rewrite Hp.
      by rewrite decide_True.
    + unfold parent_of. rewrite parent_detach. by rewrite decide_True.
    + by rewrite vnodes_detach.
  - unfold st1. st_simpl. rewrite lookup_app_r by done.
    by rewrite Nat.sub_diag.
  - done.
Qed.

(** X13: under the same conditions, removing an element vnode whose host
    node has no parent raises a type error, after the [destroy] hooks:
    [createRmCb] hands the missing parent to [removeChild]. *)
Theorem removeVnode_detached_element (fuel : nat) (p : option nat) (ch x : nat)
    (v : VNode) (l : list nat) (st : State) :
  cb_remove (cbs modules) = [] →
  vnodes st !! ch = Some v →
  sel v ≠ None →
  hook_of v ≫= h_remove = None →
  elm v = Some x →
  parent_of st x = None →
  destroy_order fuel (vnodes st) (arrays st) ch = Some l →
  ∃ st',
    removeVnode modules fuel p ch st = Throw TypeError st'
    ∧ trace st' = trace st ++ flat_map (destroy_calls modules (vnodes st)) l
    ∧ kids st' = kids st ∧ parent st' = parent st.
Proof.
  intros Hcb Hv Hs Hh He Hp Hl.
  rewrite (removeVnode_no_hooks fuel p ch x v l st) by done.
  set (st1 := with_rmcbs _ _).
  rewrite (rmCb_no_parent (length (rmcbs st)) x st1).
  - eexists. split; [done|]. by split_and!.
  - unfold st1. st_simpl. rewrite lookup_app_r by done.
    by rewrite Nat.sub_diag.
  - done.
Qed.
End RemoveOne.

(** ** Patching the text of a vnode *)

Lemma same_host_refl st : same_host st st.
Proof. by repeat split. Qed.

Lemma with_data_id (v : VNode) : data v ≠ None → with_data v = v.
Proof. unfold with_data. by destruct (data v). Qed.

Lemma has_hook_with_data f v : has_hook f (with_data v) = has_hook f v.
Proof.
  unfold with_data. destruct (data v) eqn:Hd; [done|]. by apply has_hook_default.
Qed.

Section PatchText.
Variable modules : list Module.
Variable api : DOMAPI.
Variable options : Options.

Lemma default_data (r : nat) (v : VNode) (Φ : unit → State → Prop) Ψ Ω st :
  vnodes st !! r = Some v →
  Φ tt (with_vnodes (fun m => <[r := with_data v]> m) st) →
  wp (when (bool_decide (data v = None)) (update_vnode r (set_data (Some empty_data))))
     Φ Ψ Ω st.
Proof.
  intros Hv HΦ. wp_prim. unfold with_data in HΦ. case_bool_decide as Hd.
  - wp_prim. rewrite Hv. by rewrite Hd in HΦ.
  - destruct (data v); [|done]. unfold with_vnodes in HΦ.
    rewrite insert_id in HΦ by done. by destruct st.
Qed.

Lemma update_hooks_exact (o n : nat) (ov nv : VNode) (st : State) :
  o ≠ n →
  vnodes st !! o = Some ov →
  vnodes st !! n = Some nv →
  ∃ st1, update_hooks modules o n st = Ok tt st1
         ∧ vnodes st1 = (if update_cond ov nv
                         then <[o := with_data ov]> (<[n := with_data nv]> (vnodes st))
                         else vnodes st)
         ∧ trace st1 = trace st ++ update_events modules o n ov nv
         ∧ same_host st st1.
Proof.
  intros Hne Ho Hn. apply wp_exact.
  unfold update_hooks, update_events. fold (update_cond ov nv).
  wp_prim. wp_prim. rewrite Ho. wp_prim. wp_prim. rewrite Hn.
  fold (update_cond ov nv).
  wp_prim. destruct (update_cond ov nv);
    [|split; [done|]; split; [done|]; split; [by rewrite app_nil_r|apply same_host_refl]].
  wp_prim. apply (default_data n nv); [done|].
  wp_prim. wp_prim. st_simpl. rewrite lookup_insert_ne by done. rewrite Ho.
  wp_prim. apply (default_data o ov); [st_simpl; by rewrite lookup_insert_ne|].
  wp_prim. apply wp_for_each_hook. wp_prim. wp_prim. st_simpl.
  rewrite lookup_insert_ne by done. rewrite lookup_insert_eq.
  rewrite has_hook_with_data.
  wp_prim. destruct (has_hook h_update nv).
  - wp_prim. st_simpl. split; [done|]. split; [done|]. split; [|done].
    by rewrite <- app_assoc.
  - st_simpl. split; [done|]. split; [done|]. split; [|done]. by rewrite app_nil_r.
Qed.

(** X14: when [patchVnode] runs its update block on two distinct vnodes
    (the new vnode has a data object, or a text that differs from the old
    one), it leaves both the new and the old vnode with a data object: a
    vnode without one gets an empty one. *)
Theorem update_hooks_default_data (o n : nat) (ov nv : VNode) (st : State) :
  o ≠ n →
  vnodes st !! o = Some ov →
  vnodes st !! n = Some nv →
  update_cond ov nv = true →
  ∃ st1, update_hooks modules o n st = Ok tt st1
         ∧ vnodes st1 = <[o := with_data ov]> (<[n := with_data nv]> (vnodes st))
         ∧ (∀ v, vnodes st1 !! o = Some v ∨ vnodes st1 !! n = Some v → data v ≠ None).
Proof.
  intros Hne Ho Hn Hc.
  destruct (update_hooks_exact o n ov nv st Hne Ho Hn) as (st1 & Hrun & Hv & _).
  rewrite Hc in Hv. exists st1. split; [done|]. split; [done|].
  assert (∀ v, data (with_data v) ≠ None) as Hd.
  { intros v. unfold with_data. by destruct (data v) eqn:E; [rewrite E|]. }
  intros v [Hv'|Hv']; rewrite Hv in Hv'.
  - rewrite lookup_insert_eq in Hv'. injection Hv' as <-. apply Hd.
  - rewrite lookup_insert_ne, lookup_insert_eq in Hv' by done. injection Hv' as <-. apply Hd.
Qed.

(** The head of [patchVnode] on two distinct vnodes, up to the
    reconciliation of the children. *)
Lemma patchVnode_head (fuel : nat) (o n : nat) (ov nv : VNode) (st : State) :
  o ≠ n →
  vnodes st !! o = Some ov →
  vnodes st !! n = Some nv →
  ∃ st1 ov1 nv1,
    patchVnode modules api options (S fuel) o n st
    = (reconcile modules api options (patchVnode modules api options fuel) fuel
         (elm ov) (children ov) (children nv) o n ;;
       when (has_hook h_postpatch nv) (hook (HookPostpatch o n))) st1
    ∧ trace st1 = trace st ++ prepatch_events o n nv ++ update_events modules o n ov nv
    ∧ same_host st st1
    ∧ vnodes st1 !! o = Some ov1 ∧ vnodes st1 !! n = Some nv1
    ∧ text ov1 = text ov ∧ text nv1 = text nv ∧ elm nv1 = elm ov
    ∧ (∀ r, r ≠ o → r ≠ n → vnodes st1 !! r = vnodes st !! r).
Proof.
  intros Hne Ho Hn.
  set (st_a := add_events (prepatch_events o n nv) st).
  set (st_b := with_vnodes (fun m => <[n := set_elm (elm ov) nv]> m) st_a).
  destruct (update_hooks_exact o n ov (set_elm (elm ov) nv) st_b) as (st1 & Hu & Hvs & Htr & Hh).
  { done. }
  { subst st_b st_a. simpl. by rewrite lookup_insert_ne. }
  { subst st_b. simpl. by rewrite lookup_insert_eq. }
  assert (∃ ov1 nv1, vnodes st1 !! o = Some ov1 ∧ vnodes st1 !! n = Some nv1
            ∧ text ov1 = text ov ∧ text nv1 = text nv ∧ elm nv1 = elm ov
            ∧ (∀ r, r ≠ o → r ≠ n → vnodes st1 !! r = vnodes st !! r))
    as (ov1 & nv1 & H1 & H2 & H3 & H4 & H5 & H6).
  { rewrite Hvs. destruct (update_cond _ _).
    - exists (with_data ov), (with_data (set_elm (elm ov) nv)).
      rewrite lookup_insert_eq, lookup_insert_ne, lookup_insert_eq by done.
      split_and!; try done.
      + unfold with_data. by destruct (data ov).
      + unfold with_data. by destruct (data (set_elm (elm ov) nv)).
      + unfold with_data. by destruct (data (set_elm (elm ov) nv)).
      + intros r Hro Hrn. rewrite !lookup_insert_ne by done.
        subst st_b st_a. simpl. by rewrite lookup_insert_ne.
    - exists ov, (set_elm (elm ov) nv). subst st_b st_a. simpl.
      rewrite lookup_insert_eq, lookup_insert_ne by done. split_and!; try done.
      intros r Hro Hrn. by rewrite lookup_insert_ne. }
  exists st1, ov1, nv1. split_and!; try done.
  - simpl. rewrite (bind_ok _ _ st nv st) by (unfold read; by rewrite Hn).
    rewrite (bind_ok _ _ st tt st_a).
    2:{ subst st_a. unfold prepatch_events, has_hook.
        destruct (hook_of nv) as [h|]; simpl; [destruct (h_prepatch h)|]; simpl;
          by rewrite ?add_events_nil. }
    rewrite (bind_ok _ _ st_a ov st_a) by (unfold read; subst st_a; simpl; by rewrite Ho).
    rewrite (bind_ok _ _ st_a tt st_b).
    2:{ unfold update_vnode. rewrite (bind_ok _ _ st_a nv st_a); [done|].
        unfold read; subst st_a; simpl; by rewrite Hn. }
    rewrite (bind_ok _ _ st_b ov st_b).
    2:{ unfold read; subst st_b st_a; simpl. rewrite lookup_insert_ne by done. by rewrite Ho. }
    rewrite (bind_ok _ _ st_b (set_elm (elm ov) nv) st_b).
    2:{ unfold read; subst st_b st_a; simpl. by rewrite lookup_insert_eq. }
    rewrite decide_False by done.
    rewrite (bind_ok _ _ st_b tt st1) by done.
    reflexivity.
  - rewrite Htr. subst st_b st_a. simpl. by rewrite app_assoc.
Qed.

Lemma postpatch_eq (o n : nat) (nv : VNode) (st : State) :
  when (has_hook h_postpatch nv) (hook (HookPostpatch o n)) st
  = Ok tt (add_events (postpatch_events o n nv) st).
Proof.
  unfold postpatch_events, when. destruct (has_hook h_postpatch nv); [done|].
  by rewrite add_events_nil.
Qed.

(** X15: when the new vnode has a text and the old vnode has the same
    text, [patchVnode] touches nothing of the host tree, whatever the
    children of the two vnodes are: it binds the new vnode to the host
    node of the old one and invokes the hooks. *)
Theorem patchVnode_same_text (fuel : nat) (o n : nat) (ov nv : VNode) (t : string)
    (st : State) :
  o ≠ n →
  vnodes st !! o = Some ov →
  vnodes st !! n = Some nv →
  text nv = Some t →
  text ov = Some t →
  ∃ st',
    patchVnode modules api options (S fuel) o n st = Ok tt st'
    ∧ same_host st st'
    ∧ trace st' = trace st ++ prepatch_events o n nv ++ update_events modules o n ov nv
                  ++ postpatch_events o n nv
    ∧ host_of st' n = elm ov.
Proof.
  intros Hne Ho Hn Htn Hto.
  destruct (patchVnode_head fuel o n ov nv st Hne Ho Hn)
    as (st1 & ov1 & nv1 & Hrun & Htr & Hh & Ho1 & Hn1 & Hto1 & Htn1 & He1 & _).
  rewrite Hrun. unfold reconcile.
  rewrite bind_assoc. rewrite (bind_ok _ _ st1 ov1 st1) by (unfold read; by rewrite Ho1).
  rewrite bind_assoc. rewrite (bind_ok _ _ st1 nv1 st1) by (unfold read; by rewrite Hn1).
  rewrite Htn1, Htn, Hto1, Hto. rewrite bool_decide_eq_false_2 by (by intros ?).
  unfold when at 1. rewrite (bind_ok _ _ st1 tt st1) by done.
  rewrite postpatch_eq. eexists. split; [done|]. split_and!.
  - done.
  - st_simpl. rewrite Htr. by rewrite <- !app_assoc.
  - unfold host_of. st_simpl. by rewrite Hn1.
Qed.

(** X16: when the new vnode has a text that the old vnode, which has no
    children, does not have, [patchVnode] runs the update block and makes
    exactly one call of the adapter, [setTextContent] on the host node of
    the old vnode, to which the new vnode is bound. *)
Theorem patchVnode_new_text (fuel : nat) (o n e : nat) (ov nv : VNode) (t : string)
    (st : State) :
  o ≠ n →
  vnodes st !! o = Some ov →
  vnodes st !! n = Some nv →
  text nv = Some t →
  text ov ≠ Some t →
  children ov = None →
  elm ov = Some e →
  ∃ st',
    patchVnode modules api options (S fuel) o n st = Ok tt st'
    ∧ trace st' = trace st ++ prepatch_events o n nv
                  ++ ((fun m => EHook (ModUpdate m o n)) <$> cb_update (cbs modules))
                  ++ (if has_hook h_update nv then [EHook (HookUpdate o n)] else [])
                  ++ [EApi (SetTextContent e t)]
                  ++ postpatch_events o n nv
    ∧ host_of st' n = Some e
    ∧ arrays st' = arrays st.
Proof.
  intros Hne Ho Hn Htn Hto Hc He.
  destruct (patchVnode_head fuel o n ov nv st Hne Ho Hn)
    as (st1 & ov1 & nv1 & Hrun & Htr & Hh & Ho1 & Hn1 & Hto1 & Htn1 & He1 & _).
  assert (update_cond ov nv = true) as Hcond.
  { unfold update_cond. rewrite Htn.
    rewrite (bool_decide_eq_true_2 (Some t ≠ None)) by done.
    rewrite (bool_decide_eq_true_2 (Some t ≠ text ov)) by (by intros ?).
    by rewrite orb_true_r. }
  unfold update_events in Htr. rewrite Hcond in Htr.
  rewrite Hrun, Hc, He.
  enough (wp (reconcile modules api options (patchVnode modules api options fuel) fuel
                (Some e) None (children nv) o n)
            (fun _ s => trace s = trace st1 ++ [EApi (SetTextContent e t)]
                        ∧ vnodes s = vnodes st1 ∧ arrays s = arrays st1)
            (fun _ _ => False) False st1) as Hwp.
  { apply wp_total in Hwp as ([] & s2 & Hrec & Ht2 & Hv2 & Ha2).
    rewrite (bind_ok _ _ _ _ _ Hrec), postpatch_eq. eexists. split; [done|].
    split_and!; st_simpl.
    - rewrite Ht2, Htr. by rewrite <- !app_assoc.
    - unfold host_of. st_simpl. by rewrite Hv2, Hn1, He1.
    - rewrite Ha2. apply Hh. }
  unfold reconcile. wp_prim. wp_prim. rewrite Ho1. wp_prim. wp_prim. rewrite Hn1.
  rewrite Htn1, Htn, Hto1. wp_prim. rewrite bool_decide_eq_true_2 by (by intros ?).
  wp_prim. wp_prim. wp_prim. wp_prim. apply wp_setTextContent.
  intros s2 (Hv2 & _ & Ha2 & _) Ht2. done.
Qed.

(** X17: when the new vnode has neither a text nor children and the old
    vnode has a text and no children, [patchVnode] clears the text: its
    one call of the adapter is [setTextContent] with the empty string on
    the host node of the old vnode, to which the new vnode is bound. *)
Theorem patchVnode_clears_text (fuel : nat) (o n e : nat) (ov nv : VNode) (t : string)
    (st : State) :
  o ≠ n →
  vnodes st !! o = Some ov →
  vnodes st !! n = Some nv →
  text nv = None →
  children nv = None →
  text ov = Some t →
  children ov = None →
  elm ov = Some e →
  ∃ st',
    patchVnode modules api options (S fuel) o n st = Ok tt st'
    ∧ trace st' = trace st ++ prepatch_events o n nv ++ update_events modules o n ov nv
                  ++ [EApi (SetTextContent e EmptyString)]
                  ++ postpatch_events o n nv
    ∧ host_of st' n = Some e
    ∧ arrays st' = arrays st.
Proof.
  intros Hne Ho Hn Htn Hcn Hto Hc He.
  destruct (patchVnode_head fuel o n ov nv st Hne Ho Hn)
    as (st1 & ov1 & nv1 & Hrun & Htr & Hh & Ho1 & Hn1 & Hto1 & Htn1 & He1 & _).
  rewrite Hrun, Hc, Hcn, He.
  enough (wp (reconcile modules api options (patchVnode modules api options fuel) fuel
                (Some e) None None o n)
            (fun _ s => trace s = trace st1 ++ [EApi (SetTextContent e EmptyString)]
                        ∧ vnodes s = vnodes st1 ∧ arrays s = arrays st1)
            (fun _ _ => False) False st1) as Hwp.
  { apply wp_total in Hwp as ([] & s2 & Hrec & Ht2 & Hv2 & Ha2).
    rewrite (bind_ok _ _ _ _ _ Hrec), postpatch_eq. eexists. split; [done|].
    split_and!; st_simpl.
    - rewrite Ht2, Htr. by rewrite <- !app_assoc.
    - unfold host_of. st_simpl. by rewrite Hv2, Hn1, He1.
    - rewrite Ha2. apply Hh. }
  unfold reconcile. wp_prim. wp_prim. rewrite Ho1. wp_prim. wp_prim. rewrite Hn1.
  rewrite Htn1, Htn, Hto1, Hto. rewrite bool_decide_eq_true_2 by done.
  wp_prim. wp_prim. apply wp_setTextContent.
  intros s2 (Hv2 & _ & Ha2 & _) Ht2. done.
Qed.
End PatchText.

(** ** Whole passes of [patch] *)

Lemma sameVnode_refl (v : VNode) : sameVnode v v = true.
Proof. unfold sameVnode. by rewrite !bool_decide_eq_true_2. Qed.

Lemma fire_inserts_inv (q : list nat) (st st' : State) :
  for_each q fire_insert st = Ok tt st' → st' = add_events (insert_events q) st.
Proof.
  revert st. induction q as [|r q IH]; intros st H; simpl in *.
  - unfold ret in H. simplify_eq. by rewrite add_events_nil.
  - apply bind_inv in H as ([] & s1 & Hf & H). apply IH in H as ->.
    unfold fire_insert in Hf.
    apply bind_inv in Hf as (v & s2 & Hv & Hf). unfold read in Hv.
    destruct (vnodes st !! r); [|done]. simplify_eq.
    destruct (data v) as [d|]; [|done]. simpl in Hf.
    apply bind_inv in Hf as (d' & s3 & Hd & Hf). unfold ret in Hd. simplify_eq.
    destruct (d_hook d') as [h|]; [|done]. simpl in Hf.
    apply bind_inv in Hf as (h' & s4 & Hh & Hf). unfold ret in Hh. simplify_eq.
    destruct (h_insert h'); [|done]. rewrite hook_eq in Hf. simplify_eq.
    by rewrite add_events_app.
Qed.

Section Pass.
Variable modules : list Module.
Variable api : DOMAPI.
Variable options : Options.

Lemma patch_enter (fuel : nat) (root : Root) (n : nat) (st : State) :
  patch modules api options fuel root n st
  = (let* oldVnode := root_vnode api root in
     let* b := same oldVnode n in
     structural modules api options fuel oldVnode n b ;;
     let* st := get in
     for_each (queue st) fire_insert ;;
     for_each (cb_post (cbs modules)) (fun m => hook (ModPost m)) ;;
     ret n) (entered modules st).
Proof.
  unfold patch.
  rewrite (bind_ok _ _ st tt (with_queue (fun _ => []) st)) by done.
  rewrite (bind_ok _ _ _ tt (entered modules st)) by apply for_each_hook.
  unfold bind. destruct (root_vnode api root (entered modules st)) as [o s1| |]; [|done|done].
  destruct (same o n s1) as [b s2| |]; [|done|done].
  unfold structural. by destruct b.
Qed.

(** X18: with an adapter that has no [isDocumentFragment], [patch] on a
    vnode as old root raises a type error right after the [pre] hooks:
    the test whether the old root is a fragment calls the missing
    function. *)
Theorem patch_vnode_root_without_isDocumentFragment (fuel : nat) (v n : nat) (st : State) :
  has_isDocumentFragment api = false →
  patch modules api options fuel (RootVNode v) n st = Throw TypeError (entered modules st).
Proof.
  intros Hf. rewrite patch_enter. unfold root_vnode, bind, get. by rewrite Hf.
Qed.

(** X19: [patch] with one and the same vnode as old root and as new vnode
    returns that vnode and changes neither the vnodes nor the host tree:
    only the [pre] hooks, the [prepatch] hook of the vnode and the [post]
    hooks are invoked. *)
Theorem patch_same_reference (fuel : nat) (v : nat) (o : VNode) (st : State) :
  has_isDocumentFragment api = true →
  vnodes st !! v = Some o →
  ∃ st',
    patch modules api options (S fuel) (RootVNode v) v st = Ok v st'
    ∧ trace st' = trace st ++ pre_events modules ++ prepatch_events v v o
                  ++ post_events modules
    ∧ vnodes st' = vnodes st ∧ arrays st' = arrays st
    ∧ kids st' = kids st ∧ parent st' = parent st ∧ kind st' = kind st
    ∧ queue st' = [].
Proof.
  intros Hf Hv. rewrite patch_enter.
  set (s0 := entered modules st).
  assert (vnodes s0 !! v = Some o) as Hv0 by done.
  rewrite (bind_ok _ _ s0 v s0) by (unfold root_vnode, bind, get; by rewrite Hf).
  rewrite (bind_ok _ _ s0 true s0).
  2:{ unfold same. rewrite !(bind_ok _ _ s0 o s0) by (unfold read; by rewrite Hv0).
      unfold ret. by rewrite sameVnode_refl. }
  unfold structural.
  rewrite (bind_ok _ _ _ _ _ (patchVnode_same_ref modules api options fuel v o s0 Hv0)).
  fold (has_hook h_prepatch o).
  set (s1 := if has_hook h_prepatch o then _ else _).
  assert (s1 = add_events (prepatch_events v v o) s0) as ->.
  { unfold s1, prepatch_events. destruct (has_hook h_prepatch o); [done|].
    by rewrite add_events_nil. }
  set (s2 := add_events _ s0).
  rewrite (bind_ok _ _ s2 s2 s2) by done.
  assert (queue s2 = []) as -> by done. cbn [for_each].
  rewrite (bind_ok _ _ s2 tt s2) by done.
  rewrite (bind_ok _ _ _ _ _ (for_each_hook _ _ _)).
  eexists. split; [done|]. split_and!; try done.
  unfold s2, s0, entered, post_events. st_simpl. by rewrite <- !app_assoc.
Qed.

Lemma emptyNodeAt_eq (e : nat) (tag : string) (ns : option string) (st : State) :
  kind st !! e = Some (KElement tag ns) →
  emptyNodeAt e st
  = Ok (fresh (dom (vnodes st)))
       (with_vnodes
          (fun m => <[fresh (dom (vnodes st)) :=
                        {| sel := Some (selector_of st e tag); key := None;
                           data := Some empty_data;
                           children := Some (fresh (dom (arrays st)));
                           text := None; elm := Some e |}]> m)
          (with_arrays (fun m => <[fresh (dom (arrays st)) := []]> m) st)).
Proof.
  intros Hk. unfold emptyNodeAt, bind, get, tagName, new_array, new_vnode.
  by rewrite Hk.
Qed.


Lemma root_vnode_lookup (root : Root) (o : nat) (st st1 : State) (x : nat) (v : VNode) :
  root_vnode api root st = Ok o st1 →
  vnodes st !! x = Some v → vnodes st1 !! x = Some v.
Proof.
  unfold root_vnode. intros H Hx. apply bind_inv in H as (s & s' & Hg & H).
  unfold get in Hg. simplify_eq.
  assert (∀ (w : VNode) (s : State),
            vnodes s = vnodes s' →
            vnodes (with_vnodes (fun m => <[fresh (dom (vnodes s)) := w]> m) s) !! x = Some v)
    as Hnew.
  { intros w s Hs. st_simpl. rewrite lookup_insert_ne; [by rewrite Hs|].
    intros Heq. apply (is_fresh (dom (vnodes s))). rewrite Heq, Hs.
    apply elem_of_dom. eauto. }
  destruct root as [r|e].
  - destruct (has_isDocumentFragment api); [|done]. unfold ret in H. by simplify_eq.
  - destruct (is_element s' e).
    + unfold emptyNodeAt in H. apply bind_inv in H as (s0 & s0' & Hg & H).
      unfold get in Hg. simplify_eq.
      apply bind_inv in H as (tag & s1 & Ht & H).
      unfold tagName in Ht. destruct (kind s0' !! e) as [[]|]; try done.
      simplify_eq.
      apply bind_inv in H as (a & s2 & Ha & H).
      unfold new_array in Ha. unfold new_vnode in H. simplify_eq. by apply Hnew.
    + destruct (has_isDocumentFragment api); [|done].
      destruct (is_fragment s' e); [|done].
      unfold emptyDocumentFragmentAt in H.
      apply bind_inv in H as (a & s2 & Ha & H).
      unfold new_array in Ha. unfold new_vnode in H. simplify_eq. by apply Hnew.
Qed.

(** X21: a pass of [patch] never changes the selector, the key, the
    children array, the hooks or the [is] of a vnode: every vnode of the
    initial state is still there and agrees with its former self on these
    fields. *)
Theorem patch_keeps_vnode_structure (fuel : nat) (root : Root) (n r : nat)
    (st st' : State) (x : nat) (v0 : VNode) :
  patch modules api options fuel root n st = Ok r st' →
  vnodes st !! x = Some v0 →
  ∃ v, vnodes st' !! x = Some v ∧ struct_eq v0 v.
Proof.
  intros Hrun Hx. rewrite patch_enter in Hrun.
  apply bind_inv in Hrun as (o & s1 & Hroot & Hrun).
  apply bind_inv in Hrun as (b & s2 & Hsame & Hrun).
  assert (s2 = s1) as ->.
  { unfold same in Hsame. apply bind_inv in Hsame as (ov & t1 & Ho & Hsame).
    apply bind_inv in Hsame as (nv & t2 & Hn & Hsame).
    unfold read in *. destruct (vnodes s1 !! o); [|done]. simplify_eq.
    destruct (vnodes t1 !! n); [|done]. unfold ret in *. by simplify_eq. }
  apply bind_inv in Hrun as ([] & s3 & Hbody & Hrun).
  apply bind_inv in Hrun as (s4 & s5 & Hget & Hrun). unfold get in Hget. simplify_eq.
  apply bind_inv in Hrun as ([] & s6 & Hins & Hrun).
  apply fire_inserts_inv in Hins as ->.
  rewrite (bind_ok _ _ _ _ _ (for_each_hook _ _ _)) in Hrun.
  unfold ret in Hrun. simplify_eq.
  destruct (root_vnode_silent api _ _ _ _ Hroot) as (Hq1 & _).
  assert (queue_ok s1) as Hqok.
  { intros y. rewrite Hq1. simpl. by intros ?%elem_of_nil. }
  pose proof (structural_keeps modules api options fuel o r b s1 s1
                (keeps_init patch_event _ Hqok)) as HK.
  unfold wp in HK. rewrite Hbody in HK. destruct HK as [_ Hstruct _].
  apply (Hstruct x v0). eapply root_vnode_lookup; [done|]. done.
Qed.
End Pass.

(** ** Removing all children *)

Lemma wp_for_each_prefix {A} (xs : list A) (f : A → M unit) (I : list A → State → Prop)
    Ψ Ω st :
  I [] st →
  (∀ pre x post st, xs = pre ++ x :: post → I pre st →
                    wp (f x) (fun _ => I (pre ++ [x])) Ψ Ω st) →
  wp (for_each xs f) (fun _ => I xs) Ψ Ω st.
Proof.
  intros HI Hf.
  enough (∀ pre post st, xs = pre ++ post → I pre st →
            wp (for_each post f) (fun _ => I xs) Ψ Ω st) as H.
  { by apply (H [] xs). }
  clear st HI. intros pre post. revert pre.
  induction post as [|x post IH]; intros pre st Hxs HI; simpl.
  - rewrite app_nil_r in Hxs. by subst.
  - apply wp_bind. eapply wp_post; [by eapply Hf|].
    intros [] st' HI'. cbn beta. apply (IH (pre ++ [x])); [|done].
    by rewrite <- app_assoc.
Qed.

Section RemoveAll.
Variable modules : list Module.

Local Abbreviation TT := (fun (_ : Error) (_ : State) => True).

Lemma invokeDestroyHook_silent (fuel : nat) : ∀ r st,
  wp (invokeDestroyHook modules fuel r) (fun _ s' => ∃ evs, s' = add_events evs st)
     TT True st.
Proof.
  induction fuel as [|fuel IH]; intros r st; [done|]. cbn [invokeDestroyHook].
  wp_prim. wp_prim. destruct (vnodes st !! r) as [v|] eqn:Hv; [|done].
  destruct (data v); [|by exists []; rewrite add_events_nil].
  wp_prim. apply (wp_post (fun _ s' => ∃ evs, s' = add_events evs st)).
  { wp_prim. destruct (has_hook h_destroy v).
    - wp_prim. by eexists [_].
    - exists []. by rewrite add_events_nil. }
  intros [] ? [evs1 ->]. wp_prim. apply wp_for_each_hook.
  rewrite add_events_app. wp_prim. wp_prim. st_simpl. rewrite Hv.
  destruct (children v) as [a|]; [|wp_prim; by eexists].
  wp_prim. wp_prim. st_simpl. destruct (arrays st !! a) as [chs|]; [|done].
  apply wp_for_each; [by eexists|].
  intros c s _ [evs ->]. destruct c as [c|]; [|wp_prim; by eexists].
  eapply wp_post; [apply IH|]. intros [] ? [evs' ->]. cbn beta.
  rewrite add_events_app. by eexists.
Qed.

Lemma removeVnode_detaches (fuel : nat) (P ch x : nat) (v : VNode) (st : State) :
  cb_remove (cbs modules) = [] →
  vnodes st !! ch = Some v →
  hook_of v ≫= h_remove = None →
  elm v = Some x →
  parent_of st x = Some P →
  wp (removeVnode modules fuel (Some P) ch)
     (fun _ s' => ∃ s1, s' = detach x s1 ∧ vnodes s1 = vnodes st ∧ arrays s1 = arrays st
                        ∧ kids s1 = kids st ∧ parent s1 = parent st)
     TT True st.
Proof.
  intros Hcb Hv Hh He Hp. unfold removeVnode. wp_prim. wp_prim. rewrite Hv.
  case_bool_decide as Hs.
  - wp_prim. eapply wp_post; [apply invokeDestroyHook_silent|].
    intros [] ? [evs ->]. cbn beta. wp_prim. wp_prim. st_simpl. rewrite Hv.
    wp_prim. unfold createRmCb, wp at 1. rewrite Hcb, He. cbn [for_each].
    wp_prim. wp_prim. wp_prim. wp_prim. st_simpl. rewrite Hv, Hh.
    unfold wp. erewrite rmCb_detach.
    + eexists. split; [done|]. by st_simpl.
    + st_simpl. rewrite lookup_app_r by done. by rewrite Nat.sub_diag.
    + done.
  - wp_prim. wp_prim. wp_prim. rewrite He. wp_prim.
    unfold removeChild. wp_prim. wp_prim. wp_prim. wp_prim.
    unfold parent_of in *. st_simpl. rewrite decide_True by done.
    wp_prim. eexists. split; [done|]. by st_simpl.
Qed.

Lemma removeVnodes_all (fuel : nat) (P : nat) (olds xs : list nat) (st : State) :
  cb_remove (cbs modules) = [] →
  (∀ o v, o ∈ olds → vnodes st !! o = Some v → hook_of v ≫= h_remove = None) →
  bound st P olds xs →
  wp (removeVnodes modules fuel (Some P) (Some <$> olds) 0
        (Z.of_nat (length (Some <$> olds)) - 1))
     (fun _ s' => kids_of s' P = [] ∧ (∀ x, x ∈ xs → parent_of s' x = None)
                  ∧ vnodes s' = vnodes st ∧ arrays s' = arrays st)
     TT True st.
Proof.
  intros Hcb Hh [b1 b2 b3 b4 b5 b6 b7].
  pose proof (Forall2_length _ _ _ b2) as Hlen.
  unfold removeVnodes, for_range.
  replace (Z.of_nat (length (Some <$> olds)) - 1 - 0 + 1)%Z with (Z.of_nat (length olds))
    by (rewrite length_fmap; lia).
  apply (wp_post (fun _ s' =>
           vnodes s' = vnodes st ∧ arrays s' = arrays st
           ∧ kids_of s' P = drop (length (seqZ 0 (Z.of_nat (length olds)))) xs
           ∧ (∀ j x, xs !! j = Some x →
                parent_of s' x = if j <? length (seqZ 0 (Z.of_nat (length olds)))
                                 then None else Some P))).
  - apply (wp_for_each_prefix _ _ (fun pre s' =>
             vnodes s' = vnodes st ∧ arrays s' = arrays st
             ∧ kids_of s' P = drop (length pre) xs
             ∧ (∀ j x, xs !! j = Some x →
                  parent_of s' x = if j <? length pre then None else Some P))).
    { split_and!; try done. intros j x Hx. cbn [length]. rewrite Nat.ltb_irrefl || (replace (j <? 0) with false by (symmetry; apply Nat.ltb_ge; lia)).
      apply b5. by eapply list_elem_of_lookup_2. }
    intros pre i post s Hsplit (Hv & Ha & Hk & Hpar).
    assert (seqZ 0 (Z.of_nat (length olds)) !! length pre = Some i) as Hi.
    { rewrite Hsplit. by rewrite list_lookup_middle. }
    apply lookup_seqZ in Hi as [-> Hlt]. rewrite Z.add_0_l.
    assert (length pre < length olds) as Hlt' by lia.
    destruct (lookup_lt_is_Some_2 olds (length pre) Hlt') as [o Ho].
    destruct (Forall2_lookup_l _ _ _ _ _ b2 Ho) as (x & Hx & Hhost).
    assert (aget (Some <$> olds) (Z.of_nat (length pre)) = Some o) as ->.
    { unfold aget. replace (Z.of_nat (length pre) <? 0)%Z with false
        by (symmetry; apply Z.ltb_ge; lia).
      rewrite Nat2Z.id, list_lookup_fmap, Ho. done. }
    unfold host_of in Hhost. destruct (vnodes st !! o) as [v|] eqn:Hvo; [|done].
    eapply wp_post.
    { apply (removeVnode_detaches fuel P o x v s); try done.
      - by rewrite Hv.
      - apply (Hh o v); [by eapply list_elem_of_lookup_2|done].
      - rewrite (Hpar _ _ Hx). by rewrite Nat.ltb_irrefl. }
    intros [] s' (s1 & -> & Hv1 & Ha1 & Hk1 & Hp1). cbn beta.
    assert (drop (length pre) xs = x :: drop (S (length pre)) xs) as Hdrop
      by (by apply drop_S).
    split_and!.
    + rewrite vnodes_detach. congruence.
    + rewrite arrays_detach. congruence.
    + rewrite kids_of_detach, Hp1.
      assert (parent s !! x = Some P) as Hpx.
      { specialize (Hpar _ _ Hx). by rewrite Nat.ltb_irrefl in Hpar. }
      rewrite decide_True by done. unfold kids_of in *. rewrite Hk1, Hk, Hdrop.
      rewrite length_app. cbn [length]. rewrite Nat.add_1_r.
      rewrite remove_node_cons_eq. apply remove_node_notin.
      intros Hin. apply list_elem_of_lookup in Hin as [j Hj].
      rewrite lookup_drop in Hj.
      pose proof (NoDup_lookup _ _ _ _ b3 Hx Hj). lia.
    + intros j y Hy. unfold parent_of in *. rewrite parent_detach, Hp1.
      rewrite length_app. cbn [length]. rewrite Nat.add_1_r.
      destruct (decide (x = y)) as [<-|Hne].
      * pose proof (NoDup_lookup _ _ _ _ b3 Hx Hy) as <-.
        by rewrite (proj2 (Nat.ltb_lt _ _)) by lia.
      * rewrite (Hpar _ _ Hy).
        destruct (decide (j = length pre)) as [->|Hj].
        -- rewrite Hx in Hy. by injection Hy.
        -- destruct (Nat.ltb_spec j (length pre)), (Nat.ltb_spec j (S (length pre)));
             try done; lia.
  - intros [] s' (Hv & Ha & Hk & Hpar). rewrite length_seqZ, Nat2Z.id in Hk, Hpar.
    split_and!; try done.
    + rewrite Hk. apply drop_ge. lia.
    + intros x Hx. apply list_elem_of_lookup in Hx as [j Hj]. rewrite (Hpar _ _ Hj).
      apply lookup_lt_Some in Hj. by rewrite (proj2 (Nat.ltb_lt _ _)) by lia.
Qed.
End RemoveAll.

(** X22: when the new child list is empty, no module registers a [remove]
    hook and no old child supplies one, every normal return of
    [updateChildren] has removed all the old children: their parent has no
    child left and their host nodes have no parent; no vnode is changed. *)
Theorem updateChildren_removes_all (modules : list Module) (api : DOMAPI)
    (options : Options) (fuel : nat) (P oa na : nat) (olds xs : list nat)
    (st st' : State) :
  cb_remove (cbs modules) = [] →
  (∀ o v, o ∈ olds → vnodes st !! o = Some v → hook_of v ≫= h_remove = None) →
  arrays st !! oa = Some (Some <$> olds) →
  arrays st !! na = Some [] →
  bound st P olds xs →
  updateChildren modules api options fuel (Some P) oa na st = Ok tt st' →
  kids_of st' P = []
  ∧ (∀ x, x ∈ xs → parent_of st' x = None)
  ∧ vnodes st' = vnodes st.
Proof.
  intros Hcb Hh Hoa Hna Hb Hrun.
  enough (wp (updateChildren modules api options fuel (Some P) oa na)
            (fun _ s' => kids_of s' P = [] ∧ (∀ x, x ∈ xs → parent_of s' x = None)
                         ∧ vnodes s' = vnodes st ∧ arrays s' = arrays st)
            (fun _ _ => True) True st) as Hwp.
  { unfold wp in Hwp. rewrite Hrun in Hwp. tauto. }
  unfold updateChildren, updateChildren_.
  wp_prim. wp_prim. rewrite Hoa. wp_prim. wp_prim. rewrite Hna.
  wp_prim.
  assert (∀ l, newStartIdx l = 0%Z → newEndIdx l = (-1)%Z →
            loop modules api options (patchVnode modules api options fuel) fuel (Some P)
              oa na fuel l st = Ok l st) as Hloop.
  { intros l H1 H2. destruct fuel; cbn [loop]; unfold running; rewrite H1, H2;
      rewrite (bool_decide_eq_false_2 (0 ≤ -1)%Z) by lia; by rewrite andb_false_r. }
  eapply wp_ok; [by apply Hloop|]. cbn [newStartIdx newEndIdx oldStartIdx oldEndIdx length].
  wp_prim. wp_prim. rewrite bool_decide_eq_false_2 by lia.
  wp_prim. case_bool_decide.
  - wp_prim. wp_prim. rewrite Hoa. by apply removeVnodes_all.
  - destruct olds; [|simpl in *; lia]. destruct Hb as [b1 b2 b3 b4 b5 b6 b7].
    apply Forall2_nil_inv_l in b2 as ->. split_and!; try done.
    intros x Hx. by apply elem_of_nil in Hx.
Qed.

(** ** The further properties on example states *)


(** The footprint of the new tree [p > span] of [ex_build]. *)
Lemma ex_build_closed : closed {[2; 3]} {[100]} ∅ ∅ (next_node ex_build) ex_build.
Proof.
  split.
  - intros r v a Hr Hv Ha. set_cases Hr; vm_compute in Hv; simplify_eq; simpl in Ha; simplify_eq; set_solver.
  - intros a l c Ha Hl Hc. apply elem_of_singleton in Ha as ->.
    vm_compute in Hl. simplify_eq. apply list_elem_of_singleton in Hc. simplify_eq.
    set_solver.
  - intros r v x Hr Hv Hx. set_cases Hr; vm_compute in Hv; by simplify_eq.
  - intros x p Hx Hp. apply elem_of_list_to_map_2 in Hp. simpl in Hp.
    pair_cases Hp. destruct Hx as [Hx|Hx]; [set_solver|simpl in Hx; lia].
  - intros p x Hp Hx. unfold kids_of in Hx.
    destruct (kids ex_build !! p) as [ks|] eqn:Hks; [|by apply elem_of_nil in Hx].
    apply elem_of_list_to_map_2 in Hks. simpl in Hx.
    pair_cases Hks. destruct Hp as [[Hp|Hp]|Hp]; [set_solver|simpl in Hp; lia|set_solver].
  - simpl. lia.
Qed.

(** The selector [div]. *)
Lemma parse_sel_plain_witness :
  parse_sel "div" = {| s_tag := "div"; s_id := None; s_class := None |}.
Proof. apply (parse_sel_plain "div"); reflexivity. Defined.

(** The selector [div#main.a.b]. *)
Lemma parse_sel_full_witness :
  parse_sel ("div" +:+ "#" +:+ "main" +:+ "." +:+ "a.b")
  = {| s_tag := "div"; s_id := Some "main"%string;
       s_class := Some (replace_char "." " " "a.b") |}.
Proof. apply (parse_sel_full "div" "main" "a.b"); [discriminate|reflexivity..]. Defined.

(** The selector [#main]. *)
Lemma parse_sel_leading_hash_witness :
  parse_sel ("#" +:+ "main") = {| s_tag := "#" +:+ "main"; s_id := None; s_class := None |}.
Proof. apply (parse_sel_leading_hash "main"); reflexivity. Defined.



(** The text vnode 2 of [ex_texts]. *)
Lemma createElm_text_vnode_witness :
  ∃ st',
    createElm [ex_module] ex_api ex_fragment_options 1 2 ex_texts = Ok 20 st'
    ∧ made_node ex_texts st' 2
        (set_elm (Some 20) (ex_vnode None None None None (Some "b"%string) None))
        (KText "b") [EApi (CreateTextNode "b" 20)].
Proof.
  apply (createElm_text_vnode [ex_module] ex_api ex_fragment_options 0 2
           (ex_vnode None None None None (Some "b"%string) None) ex_texts).
  - vm_compute; reflexivity.
  - reflexivity.
  - by right.
Defined.

(** The comment vnode 4 of [ex_texts], which has no text. *)
Lemma createElm_comment_witness :
  ∃ st',
    createElm [ex_module] ex_api ex_options 1 4 ex_texts = Ok 20 st'
    ∧ made_node ex_texts st' 4
        (set_elm (Some 20)
           (set_text (Some EmptyString)
              (ex_vnode (Some "!"%string) None None None None None)))
        (KComment EmptyString) [EApi (CreateComment EmptyString 20)].
Proof.
  apply (createElm_comment [ex_module] ex_api ex_options 0 4
           (ex_vnode (Some "!"%string) None None None None None) ex_texts).
  - vm_compute; reflexivity.
  - reflexivity.
Defined.

(** The [span] of [ex_build], which supplies an [insert] hook. *)
Lemma createElm_leaf_element_witness :
  ∃ st',
    createElm [ex_module] ex_api ex_options 1 3 ex_build = Ok 20 st'
    ∧ trace st' = [EApi (CreateElement "span" 20); EHook (ModCreate 0 3)]
    ∧ vnodes st'
      = <[3 := set_elm (Some 20)
                 (ex_vnode (Some "span"%string) None (ex_data (Some ex_insert_hooks) None)
                    None None None)]> (vnodes ex_build)
    ∧ kind st' !! 20 = Some (KElement "span" None)
    ∧ queue st' = [3]
    ∧ arrays st' = arrays ex_build.
Proof.
  apply (createElm_leaf_element [ex_module] ex_api ex_options 0 3
           (ex_vnode (Some "span"%string) None (ex_data (Some ex_insert_hooks) None)
              None None None)
           {| d_hook := Some ex_insert_hooks; d_ns := None; d_is := None |}
           "span" ex_build).
  - vm_compute; reflexivity.
  - reflexivity.
  - discriminate.
  - reflexivity.
  - reflexivity.
Defined.

(** Building [p > span] of [ex_build]. *)
Lemma createElm_detached_witness :
  ∃ st',
    createElm [] ex_api ex_options 5 2 ex_build = Ok 20 st'
    ∧ next_node ex_build ≤ 20
    ∧ (∀ p, p < next_node ex_build → kids_of st' p = kids_of ex_build p)
    ∧ (∀ y, y < next_node ex_build → parent_of st' y = parent_of ex_build y)
    ∧ (∀ r', r' ∉ ({[2; 3]} : gset nat) → vnodes st' !! r' = vnodes ex_build !! r')
    ∧ (∀ a, a ∉ ({[100]} : gset nat) → arrays st' !! a = arrays ex_build !! a).
Proof.
  eexists. split; [vm_compute; reflexivity|].
  apply (createElm_detached [] ex_api ex_options 5 {[2; 3]} {[100]} 2 20 ex_build).
  - apply ex_build_closed.
  - set_solver.
  - vm_compute; reflexivity.
Defined.

(** The text vnode 1 of [ex_texts], bound to the child 11 of 10. *)
Lemma removeVnode_without_selector_witness :
  removeVnode [ex_removing_module] 5 (Some 10) 1 ex_texts
  = Ok tt (detach 11 (add_events [EApi (RemoveChild 10 11)] ex_texts)).
Proof.
  apply (removeVnode_without_selector [ex_removing_module] 5 10 1 11
           (ex_vnode None None None None (Some "a"%string) (Some 11)) ex_texts).
  - vm_compute; reflexivity.
  - reflexivity.
  - reflexivity.
  - vm_compute; reflexivity.
Defined.

(** The [span] of [ex_tree], child of the host node 11; the [parentElm]
    handed over is 10. *)
Lemma removeVnode_synchronous_witness :
  ∃ st',
    removeVnode [] 5 (Some 10) 2 ex_tree = Ok tt st'
    ∧ trace st' = trace ex_tree ++ flat_map (destroy_calls [] (vnodes ex_tree)) [2]
                  ++ [EApi (RemoveChild 11 12)]
    ∧ kids_of st' 11 = remove_node 12 (kids_of ex_tree 11)
    ∧ parent_of st' 12 = None
    ∧ vnodes st' = vnodes ex_tree.
Proof.
  apply (removeVnode_synchronous [] 5 (Some 10) 2 12 11
           (ex_vnode (Some "span"%string) None (ex_data (Some (ex_destroy_hooks None)) None)
              None None (Some 12))
           [2] ex_tree).
  - reflexivity.
  - vm_compute; reflexivity.
  - discriminate.
  - reflexivity.
  - reflexivity.
  - vm_compute; reflexivity.
  - vm_compute; reflexivity.
Defined.

(** The root [div] of [ex_unattached]. *)
Lemma removeVnode_detached_element_witness :
  ∃ st',
    removeVnode [] 5 (Some 10) 1 ex_unattached = Throw TypeError st'
    ∧ trace st' = trace ex_unattached
                  ++ flat_map (destroy_calls [] (vnodes ex_unattached)) [1]
    ∧ kids st' = kids ex_unattached ∧ parent st' = parent ex_unattached.
Proof.
  apply (removeVnode_detached_element [] 5 (Some 10) 1 11
           (ex_vnode (Some "div"%string) None (ex_data None None) None None (Some 11))
           [1] ex_unattached).
  - reflexivity.
  - vm_compute; reflexivity.
  - discriminate.
  - reflexivity.
  - reflexivity.
  - vm_compute; reflexivity.
  - vm_compute; reflexivity.
Defined.

(** The text vnodes 1 and 2 of [ex_texts], both without data object. *)
Lemma update_hooks_default_data_witness :
  ∃ st1, update_hooks [ex_module] 1 2 ex_texts = Ok tt st1
         ∧ vnodes st1
           = <[1 := with_data (ex_vnode None None None None (Some "a"%string) (Some 11))]>
               (<[2 := with_data (ex_vnode None None None None (Some "b"%string) None)]>
                  (vnodes ex_texts))
         ∧ (∀ v, vnodes st1 !! 1 = Some v ∨ vnodes st1 !! 2 = Some v → data v ≠ None).
Proof.
  apply (update_hooks_default_data [ex_module] 1 2
           (ex_vnode None None None None (Some "a"%string) (Some 11))
           (ex_vnode None None None None (Some "b"%string) None) ex_texts).
  - lia.
  - vm_compute; reflexivity.
  - vm_compute; reflexivity.
  - reflexivity.
Defined.

(** The text vnodes 1 and 3 of [ex_texts], with the same text. *)
Lemma patchVnode_same_text_witness :
  ∃ st',
    patchVnode [ex_module] ex_api ex_options 1 1 3 ex_texts = Ok tt st'
    ∧ same_host ex_texts st'
    ∧ trace st' = trace ex_texts
                  ++ prepatch_events 1 3 (ex_vnode None None None None (Some "a"%string) None)
                  ++ update_events [ex_module] 1 3
                       (ex_vnode None None None None (Some "a"%string) (Some 11))
                       (ex_vnode None None None None (Some "a"%string) None)
                  ++ postpatch_events 1 3
                       (ex_vnode None None None None (Some "a"%string) None)
    ∧ host_of st' 3 = Some 11.
Proof.
  apply (patchVnode_same_text [ex_module] ex_api ex_options 0 1 3
           (ex_vnode None None None None (Some "a"%string) (Some 11))
           (ex_vnode None None None None (Some "a"%string) None) "a" ex_texts).
  - lia.
  - vm_compute; reflexivity.
  - vm_compute; reflexivity.
  - reflexivity.
  - reflexivity.
Defined.

(** The text vnodes 1 and 2 of [ex_texts]: the text [a] becomes [b]. *)
Lemma patchVnode_new_text_witness :
  ∃ st',
    patchVnode [ex_module] ex_api ex_options 1 1 2 ex_texts = Ok tt st'
    ∧ trace st' = trace ex_texts
                  ++ prepatch_events 1 2 (ex_vnode None None None None (Some "b"%string) None)
                  ++ ((fun m => EHook (ModUpdate m 1 2)) <$> cb_update (cbs [ex_module]))
                  ++ (if has_hook h_update
                           (ex_vnode None None None None (Some "b"%string) None)
                      then [EHook (HookUpdate 1 2)] else [])
                  ++ [EApi (SetTextContent 11 "b")]
                  ++ postpatch_events 1 2
                       (ex_vnode None None None None (Some "b"%string) None)
    ∧ host_of st' 2 = Some 11
    ∧ arrays st' = arrays ex_texts.
Proof.
  apply (patchVnode_new_text [ex_module] ex_api ex_options 0 1 2 11
           (ex_vnode None None None None (Some "a"%string) (Some 11))
           (ex_vnode None None None None (Some "b"%string) None) "b" ex_texts).
  - lia.
  - vm_compute; reflexivity.
  - vm_compute; reflexivity.
  - reflexivity.
  - discriminate.
  - reflexivity.
  - reflexivity.
Defined.

(** The vnodes 1 and 5 of [ex_texts]: the text [a] is cleared. *)
Lemma patchVnode_clears_text_witness :
  ∃ st',
    patchVnode [ex_module] ex_api ex_options 1 1 5 ex_texts = Ok tt st'
    ∧ trace st' = trace ex_texts
                  ++ prepatch_events 1 5 (ex_vnode None None None None None None)
                  ++ update_events [ex_module] 1 5
                       (ex_vnode None None None None (Some "a"%string) (Some 11))
                       (ex_vnode None None None None None None)
                  ++ [EApi (SetTextContent 11 EmptyString)]
                  ++ postpatch_events 1 5 (ex_vnode None None None None None None)
    ∧ host_of st' 5 = Some 11
    ∧ arrays st' = arrays ex_texts.
Proof.
  apply (patchVnode_clears_text [ex_module] ex_api ex_options 0 1 5 11
           (ex_vnode None None None None (Some "a"%string) (Some 11))
           (ex_vnode None None None None None None) "a" ex_texts).
  - lia.
  - vm_compute; reflexivity.
  - vm_compute; reflexivity.
  - reflexivity.
  - reflexivity.
  - reflexivity.
  - reflexivity.
  - reflexivity.
Defined.

(** A pass on [ex_build] with an adapter without [isDocumentFragment]. *)
Lemma patch_vnode_root_without_isDocumentFragment_witness :
  patch [ex_module] ex_plain_api ex_options 5 (RootVNode 1) 2 ex_build
  = Throw TypeError (entered [ex_module] ex_build).
Proof.
  apply (patch_vnode_root_without_isDocumentFragment [ex_module] ex_plain_api ex_options
           5 1 2 ex_build).
  reflexivity.
Defined.

(** A pass on [ex_build] with the old root as new vnode. *)
Lemma patch_same_reference_witness :
  ∃ st',
    patch [ex_module] ex_api ex_options 1 (RootVNode 1) 1 ex_build = Ok 1 st'
    ∧ trace st' = trace ex_build ++ pre_events [ex_module]
                  ++ prepatch_events 1 1
                       (ex_vnode (Some "div"%string) None (ex_data None None) None None
                          (Some 11))
                  ++ post_events [ex_module]
    ∧ vnodes st' = vnodes ex_build ∧ arrays st' = arrays ex_build
    ∧ kids st' = kids ex_build ∧ parent st' = parent ex_build
    ∧ kind st' = kind ex_build
    ∧ queue st' = [].
Proof.
  apply (patch_same_reference [ex_module] ex_api ex_options 0 1
           (ex_vnode (Some "div"%string) None (ex_data None None) None None (Some 11))
           ex_build).
  - reflexivity.
  - vm_compute; reflexivity.
Defined.


(** The pass that replaces the root of [ex_build] binds the [span] 3 to a
    host node and keeps its selector, key, children, hooks and [is]. *)
Lemma patch_keeps_vnode_structure_witness :
  ∃ st',
    patch [] ex_api ex_options 5 (RootVNode 1) 2 ex_build = Ok 2 st'
    ∧ ∃ v, vnodes st' !! 3 = Some v
           ∧ struct_eq (ex_vnode (Some "span"%string) None
                          (ex_data (Some ex_insert_hooks) None) None None None) v.
Proof.
  eexists. split; [vm_compute; reflexivity|].
  apply (patch_keeps_vnode_structure [] ex_api ex_options 5 (RootVNode 1) 2 2 ex_build _ 3).
  - vm_compute; reflexivity.
  - vm_compute; reflexivity.
Defined.

(** The two children of [ex_clear] against the empty list. *)
Lemma updateChildren_removes_all_witness :
  ∃ st',
    updateChildren [] ex_api ex_options 5 (Some 10) 100 101 ex_clear = Ok tt st'
    ∧ kids_of st' 10 = []
    ∧ (∀ x, x ∈ [11; 12] → parent_of st' x = None)
    ∧ vnodes st' = vnodes ex_clear.
Proof.
  eexists. split; [vm_compute; reflexivity|].
  apply (updateChildren_removes_all [] ex_api ex_options 5 10 100 101 [1; 2] [11; 12]
           ex_clear).
  - reflexivity.
  - intros o v Ho Hv. list_cases Ho; vm_compute in Hv; by simplify_eq.
  - vm_compute; reflexivity.
  - vm_compute; reflexivity.
  - split.
    + vm_compute; reflexivity.
    + repeat constructor.
    + compute_done.
    + compute_done.
    + intros x Hx. list_cases Hx; vm_compute; reflexivity.
    + intros e x He Hx. unfold kids_of, ex_clear, ex_state in Hx. simpl in Hx.
      rewrite lookup_insert_ne in Hx by done. rewrite lookup_empty in Hx.
      by apply elem_of_nil in Hx.
    + intros x [->|Hx]; [vm_compute; lia|]. list_cases Hx; vm_compute; lia.
  - vm_compute; reflexivity.
Defined.
